(** * Polymarket copy-trading bot: position-diff engine and execution pipeline

    A shallow embedding of
    - [src/monitor/account-monitor.ts]  ([AccountMonitor.detectChanges]),
    - [src/trading/trade-executor.ts]   ([TradeExecutor]),
    - [src/trading/copy-trading-monitor.ts] ([CopyTradingMonitor]),
    - [src/models/Trade.ts] and [src/types/index.ts],
    - [src/monitor/account-monitor.ts]  (the class [AccountMonitor]: its
      constructor, [start], [stop], [getStatus], [updateStatus]),
    - [src/health/health-monitor.ts]    ([HealthMonitor]),
    - [src/api/polymarket-client.ts]    ([getUserPositions],
      [calculateTotalValue]),
    followed by the properties of the specification that concern them and
    by further properties of the code.

    JavaScript numbers are IEEE 754 binary64 values and are modelled by Rocq's
    primitive [float]s, whose operations are the same IEEE operations.
    [async] code is modelled sequentially: one call runs to completion before
    the next one starts.  External collaborators (the CLOB client, the
    database driver, timers) are modelled by an explicit world state and by
    oracles that decide the outcome of each external call. *)

From Stdlib Require Import ZArith List String Ascii Bool Lia Floats.
From Stdlib Require Import DecimalString.
Import ListNotations.

Set Warnings "-inexact-float".

Local Open Scope string_scope.
Local Open Scope list_scope.

(* ================================================================== *)
(** * JavaScript values used by the program *)
(* ================================================================== *)

(** [Math.abs] and [Math.max] on numbers. *)
Module Math.

Definition abs (x : float) : float := PrimFloat.abs x.

(** [Math.max(a, b)]: [NaN] when either argument is [NaN]; [+0] is larger
    than [-0]. *)
Definition max (a b : float) : float :=
  if (PrimFloat.is_nan a || PrimFloat.is_nan b)%bool then PrimFloat.nan
  else if (a <? b)%float then b
  else if (b <? a)%float then a
  else if PrimFloat.get_sign a then b else a.

End Math.

Module JS.

(** Truthiness of a string: every string but the empty one. *)
Definition truthy (s : string) : bool := negb (String.eqb s "").

(** [s || d] on strings. *)
Definition orElse (s d : string) : string := if truthy s then s else d.

(** [o || d] where [o] may be [undefined]. *)
Definition optOrElse (o : option string) (d : string) : string :=
  match o with
  | Some s => orElse s d
  | None => d
  end.

(** [a > b] on numbers ([false] as soon as one side is [NaN]). *)
Definition gt (a b : float) : bool := (b <? a)%float.

(** [a < b] on numbers. *)
Definition lt (a b : float) : bool := (a <? b)%float.

(** The built-in conversions between numbers and strings.  They belong to
    the language, not to the program, so the embedding is parametric in
    them. *)
Class NumberOps : Type := {
  (** global [parseFloat(s)] *)
  parseFloat : string -> float;
  (** [x.toFixed(digits)] *)
  toFixed : float -> Z -> string;
  (** [String(x)], also used by template literals *)
  numberToString : float -> string
}.

End JS.
Export JS (NumberOps, parseFloat, toFixed, numberToString).

(** ** The built-in conversions, computed

    An executable rendering of [parseFloat], [Number.prototype.toFixed] and
    [Number::toString] (ECMA-262), used to run the program on concrete
    inputs.  [parseFloat] reads the longest [StrDecimalLiteral] prefix after
    ASCII white space and rounds its exact value to the nearest double;
    [toFixed] rounds the exact value of the double. *)
Module JSNumber.

Local Open Scope string_scope.
Local Open Scope Z_scope.

(** The double nearest to [N * 10^e10] (ties to even), with the sign [neg]. *)
Definition ofDecimal (neg : bool) (N : Z) (e10 : Z) : float :=
  let magnitude :=
    match N with
    | Zpos n =>
        if 400 <? e10 then S754_infinity false
        else if e10 + Z.log2 N <? -1200 then S754_zero false
        else if 0 <=? e10
        then binary_normalize prec emax (N * 10 ^ e10) 0 false
        else SFdiv prec emax (S754_finite false n 0)
               (S754_finite false (Z.to_pos (10 ^ (- e10))) 0)
    | _ => S754_zero false
    end in
  SF2Prim (if neg then SFopp magnitude else magnitude).

Definition isDigit (c : ascii) : bool :=
  let n := Z.of_nat (nat_of_ascii c) in (48 <=? n) && (n <=? 57).

Definition isWhiteSpace (c : ascii) : bool :=
  let n := Z.of_nat (nat_of_ascii c) in
  ((9 <=? n) && (n <=? 13)) || (n =? 32).

Fixpoint trimStart (s : string) : string :=
  match s with
  | String c s' => if isWhiteSpace c then trimStart s' else s
  | EmptyString => s
  end.

(** Reads a run of decimal digits: their value, their number, the rest. *)
Fixpoint readDigits (s : string) (acc : Z) (count : Z) : Z * Z * string :=
  match s with
  | String c s' =>
      if isDigit c
      then readDigits s' (10 * acc + (Z.of_nat (nat_of_ascii c) - 48)) (count + 1)
      else (acc, count, s)
  | EmptyString => (acc, count, s)
  end.

(** The exponent part [e[+-]digits], 0 when there is none. *)
Definition readExponent (s : string) : Z :=
  match s with
  | String c s' =>
      if (Ascii.eqb c "e" || Ascii.eqb c "E")%bool then
        let '(neg, s'') :=
          match s' with
          | String "-" r => (true, r)
          | String "+" r => (false, r)
          | _ => (false, s')
          end in
        let '(e, count, _) := readDigits s'' 0 0 in
        if count =? 0 then 0 else if neg then - e else e
      else 0
  | EmptyString => 0
  end.

(** [parseFloat(s)]: the longest prefix of the trimmed string that is a
    [StrDecimalLiteral], [NaN] when there is none. *)
Definition parseFloat (s : string) : float :=
  let s := trimStart s in
  let '(neg, s) :=
    match s with
    | String "-" r => (true, r)
    | String "+" r => (false, r)
    | _ => (false, s)
    end in
  if String.prefix "Infinity" s
  then (if neg then neg_infinity else infinity)
  else
    let '(intPart, intCount, rest) := readDigits s 0 0 in
    let '(fracPart, fracCount, rest) :=
      match rest with
      | String "." r => readDigits r intPart 0
      | _ => (intPart, 0, rest)
      end in
    if (intCount =? 0) && (fracCount =? 0) then nan
    else ofDecimal neg fracPart (readExponent rest - fracCount).


(** Decimal digits of a natural number. *)
Definition digitsOf (n : Z) : string :=
  DecimalString.NilZero.string_of_uint (N.to_uint (Z.to_N n)).

Fixpoint zeros (n : nat) : string :=
  match n with
  | O => ""
  | S n' => String "0" (zeros n')
  end.

(** The exact value of a positive finite double as a fraction. *)
Definition fraction (m : positive) (e : Z) : Z * Z :=
  if 0 <=? e then (Zpos m * 2 ^ e, 1) else (Zpos m, 2 ^ (- e)).

(** [floor (a / b + 1/2)] *)
Definition roundHalfUp (a b : Z) : Z := (2 * a + b) / (2 * b).

(** The decimal exponent [n] with [10^(n-1) <= a / b < 10^n]. *)
Fixpoint decimalExponentUp (fuel : nat) (a b n : Z) : Z :=
  match fuel with
  | O => n
  | S fuel' =>
      if a <? b * 10 ^ n then n else decimalExponentUp fuel' a b (n + 1)
  end.

Fixpoint decimalExponentDown (fuel : nat) (a b n : Z) : Z :=
  match fuel with
  | O => n
  | S fuel' =>
      if b <=? a * 10 ^ (1 - n) then n
      else decimalExponentDown fuel' a b (n - 1)
  end.

Definition decimalExponent (a b : Z) : Z :=
  if b <=? a then decimalExponentUp 400 a b 1
  else decimalExponentDown 400 a b 0.

(** [a / b * 10^k] rounded to the nearest integer. *)
Definition scaled (a b k : Z) : Z :=
  if 0 <=? k then roundHalfUp (a * 10 ^ k) b
  else roundHalfUp a (b * 10 ^ (- k)).

(** The decimal [s * 10^e10] with the fewest significant digits [p] that
    reads back as [x], trying [p = 1, 2, ...]. *)
Fixpoint shortest (fuel : nat) (x : float) (a b n p : Z) : Z * Z :=
  let s := scaled a b (p - n) in
  match fuel with
  | O => (s, n - p)
  | S fuel' =>
      if PrimFloat.eqb (ofDecimal false s (n - p)) x then (s, n - p)
      else shortest fuel' x a b n (p + 1)
  end.

Fixpoint stripZeros (fuel : nat) (s e10 : Z) : Z * Z :=
  match fuel with
  | O => (s, e10)
  | S fuel' =>
      if (s mod 10 =? 0) && negb (s =? 0)
      then stripZeros fuel' (s / 10) (e10 + 1)
      else (s, e10)
  end.

(** [Number::toString(x)] in radix 10. *)
Definition numberToString (x : float) : string :=
  match Prim2SF x with
  | S754_nan => "NaN"
  | S754_infinity sgn => if sgn then "-Infinity" else "Infinity"
  | S754_zero _ => "0"
  | S754_finite sgn m e =>
      let '(a, b) := fraction m e in
      let '(s0, e0) := shortest 17 (abs x) a b (decimalExponent a b) 1 in
      let '(s, e10) := stripZeros 20 s0 e0 in
      let ds := digitsOf s in
      let k := Z.of_nat (String.length ds) in
      let n := e10 + k in
      let body :=
        if (k <=? n) && (n <=? 21) then ds ++ zeros (Z.to_nat (n - k))
        else if (0 <? n) && (n <=? 21)
        then substring 0 (Z.to_nat n) ds ++ "." ++
             substring (Z.to_nat n) (Z.to_nat (k - n)) ds
        else if (-6 <? n) && (n <=? 0)
        then "0." ++ zeros (Z.to_nat (- n)) ++ ds
        else
          let ex := n - 1 in
          let exs := (if ex <? 0 then "-" else "+") ++ digitsOf (Z.abs ex) in
          if k =? 1 then ds ++ "e" ++ exs
          else substring 0 1 ds ++ "." ++
               substring 1 (Z.to_nat (k - 1)) ds ++ "e" ++ exs in
      if sgn then "-" ++ body else body
  end.

(** [x.toFixed(digits)] for [0 <= digits]: the decimal with [digits]
    fraction digits nearest to [x], the larger one on a tie. *)
Definition toFixed (x : float) (digits : Z) : string :=
  match Prim2SF x with
  | S754_nan => "NaN"
  | S754_infinity sgn => if sgn then "-Infinity" else "Infinity"
  | S754_zero _ =>
      if digits =? 0 then "0" else "0." ++ zeros (Z.to_nat digits)
  | S754_finite sgn m e =>
      if PrimFloat.leb 1e21 (abs x) then numberToString x
      else
        let '(a, b) := fraction m e in
        let ds := digitsOf (roundHalfUp (a * 10 ^ digits) b) in
        let ds := zeros (Z.to_nat (digits + 1) - String.length ds) ++ ds in
        let k := (String.length ds - Z.to_nat digits)%nat in
        let body :=
          if digits =? 0 then ds
          else substring 0 k ds ++ "." ++ substring k (Z.to_nat digits) ds in
        if sgn then "-" ++ body else body
  end.


Definition numberOps : NumberOps :=
  JS.Build_NumberOps parseFloat toFixed numberToString.

End JSNumber.

(** ** [Map<string, V>]: keys in insertion order *)
Module JSMap.
Section WithValue.
Context {V : Type}.

Definition t : Type := list (string * V).

Definition empty : t := [].

Fixpoint has (m : t) (k : string) : bool :=
  match m with
  | [] => false
  | (k', _) :: m' => if String.eqb k' k then true else has m' k
  end.

Fixpoint get (m : t) (k : string) : option V :=
  match m with
  | [] => None
  | (k', v) :: m' => if String.eqb k' k then Some v else get m' k
  end.

(** [m.set(k, v)]: an existing key keeps its place and takes the new
    value; a new key goes last. *)
Fixpoint set (m : t) (k : string) (v : V) : t :=
  match m with
  | [] => [(k, v)]
  | (k', v') :: m' =>
      if String.eqb k' k then (k', v) :: m' else (k', v') :: set m' k v
  end.

Definition size (m : t) : nat := List.length m.
Definition keys (m : t) : list string := map fst m.
Definition values (m : t) : list V := map snd m.

(** [new Map(entries)] *)
Definition ofEntries (entries : list (string * V)) : t :=
  fold_left (fun m kv => set m (fst kv) (snd kv)) entries empty.

(** Each value of [m] sits under the key that [key] reads off it. *)
Definition keyedBy (key : V -> string) (m : t) : Prop :=
  forall k v, In (k, v) m -> key v = k.

End WithValue.
Arguments t : clear implicits.
End JSMap.

(** ** [Set<string>] *)
Module JSSet.

Definition t : Type := list string.

Definition empty : t := [].

Fixpoint has (s : t) (k : string) : bool :=
  match s with
  | [] => false
  | k' :: s' => if String.eqb k' k then true else has s' k
  end.

Definition add (s : t) (k : string) : t :=
  if has s k then s else s ++ [k].

Fixpoint delete (s : t) (k : string) : t :=
  match s with
  | [] => []
  | k' :: s' => if String.eqb k' k then delete s' k else k' :: delete s' k
  end.

End JSSet.

(* ================================================================== *)
(** * Types ([src/types/index.ts]) *)
(* ================================================================== *)

Module Market.
Record t : Type := mk {
  id : string;
  question : string;
  slug : string;
  description : option string;
  endDate : option string;
  image : option string;
  icon : option string;
  resolutionSource : option string;
  tags : option (list string);
  liquidity : option float;
  volume : option float;
  active : option bool
}.
End Market.

Record Position : Type := mkPosition {
  id : string;
  market : Market.t;
  outcome : string;
  quantity : string;
  price : string;
  value : string;
  initialValue : option string;
  timestamp : string
}.

Inductive TradeSide : Type := buy | sell.

Definition TradeSide_eqb (a b : TradeSide) : bool :=
  match a, b with
  | buy, buy | sell, sell => true
  | _, _ => false
  end.

Module Trade.
Record t : Type := mk {
  id : string;
  market : Market.t;
  outcome : string;
  side : TradeSide;
  quantity : string;
  price : string;
  timestamp : string;
  transactionHash : option string;
  user : string
}.
End Trade.

Record TradingStatus : Type := mkTradingStatus {
  user : string;
  totalPositions : nat;
  totalValue : string;
  recentTrades : list Trade.t;
  openPositions : list Position;
  lastUpdated : string
}.

(** [CopyTradingConfig].  The two callbacks [onTradeExecuted] and
    [onTradeError] are not fields here: their calls are recorded in the
    world (see [World]). *)
Module CopyTradingConfig.
Record t : Type := mk {
  enabled : bool;
  privateKey : string;
  dryRun : option bool;
  positionSizeMultiplier : option float;
  maxPositionSize : option float;
  maxTradeSize : option float;
  slippageTolerance : option float;
  minTradeSize : option float;
  chainId : option Z;
  clobHost : option string;
  maxRetryAttempts : option Z;
  retryDelay : option Z
}.
End CopyTradingConfig.

Record TradeExecutionResult : Type := mkResult {
  success : bool;
  position : Position;
  orderId : option string;
  transactionHash : option string;
  executedQuantity : option string;
  executedPrice : option string;
  error : option string;
  dryRun : bool;
  retryCount : option Z
}.

(** [CopyTradingStatus], without the wall-clock field [lastTradeTime]. *)
Module CopyTradingStatus.
Record t : Type := mk {
  enabled : bool;
  dryRun : bool;
  totalTradesExecuted : Z;
  totalTradesFailed : Z;
  totalVolume : string;
  tradersMonitored : Z;
  activePositions : Z
}.
End CopyTradingStatus.

(* ================================================================== *)
(** * Change detector ([src/monitor/account-monitor.ts]) *)
(* ================================================================== *)

Module AccountMonitor.
Section WithNumberOps.
Context `{NumberOps}.

(** The quantity test of [detectChanges] (also used by [logChanges]):
    [Math.abs(currentQty - lastQty) > Math.max(1, lastQty * 0.01)]. *)
Definition quantityChanged (currentPos lastPos : Position) : bool :=
  let currentQty := parseFloat currentPos.(quantity) in
  let lastQty := parseFloat lastPos.(quantity) in
  JS.gt (Math.abs (currentQty - lastQty)) (Math.max 1 (lastQty * 0.01))%float.

(** The total-value test that ends [detectChanges]. *)
Definition totalValueChanged (current last : TradingStatus) : bool :=
  let lastValue := parseFloat last.(totalValue) in
  let currentValue := parseFloat current.(totalValue) in
  JS.gt (Math.abs (currentValue - lastValue) / Math.max lastValue 0.01)%float
        0.01%float.

Definition positionsMap (s : TradingStatus) : JSMap.t Position :=
  JSMap.ofEntries (map (fun p => (p.(id), p)) s.(openPositions)).

(** [detectChanges(current, last?)].  Each [for] loop returns [true] at the
    first entry that passes its test, which is [existsb]. *)
Definition detectChanges (current : TradingStatus)
    (last : option TradingStatus) : bool :=
  match last with
  | None => true
  | Some last =>
    if negb (Nat.eqb (List.length current.(openPositions))
                     (List.length last.(openPositions)))
    then true
    else
      let currentPositionsMap := positionsMap current in
      let lastPositionsMap := positionsMap last in
      if existsb
           (fun entry : string * Position =>
              let id := fst entry in
              if negb (JSMap.has lastPositionsMap id) then true
              else
                match JSMap.get currentPositionsMap id,
                      JSMap.get lastPositionsMap id with
                | Some currentPos, Some lastPos =>
                    quantityChanged currentPos lastPos
                | _, _ => false
                end)
           currentPositionsMap
      then true
      else if existsb
                (fun id => negb (JSMap.has currentPositionsMap id))
                (JSMap.keys lastPositionsMap)
      then true
      else totalValueChanged current last
  end.

End WithNumberOps.
End AccountMonitor.

(* ================================================================== *)
(** * The world outside the program *)
(* ================================================================== *)

(** A document of the [trades] collection ([ITrade], [src/models/Trade.ts]),
    without its wall-clock fields [executedAt], [createdAt], [updatedAt]. *)
Module ITrade.
Record t : Type := mk {
  positionId : string;
  traderAddress : string;
  marketId : string;
  outcome : string;
  side : TradeSide;
  quantity : string;
  price : string;
  orderId : option string;
  transactionHash : option string;
  dryRun : bool;
  success : bool;
  error : option string
}.
End ITrade.

(** The argument of [client.createAndPostOrder]; every order of the program
    has [orderType: OrderType.GTC]. *)
Module Order.
Inductive Side : Type := BUY | SELL.
Record t : Type := mk {
  tokenID : string;
  price : float;
  size : float;
  side : Side
}.
End Order.

(** How a block of code or an external call ends: with a value, or with a
    thrown error, of which the program only reads the [message]. *)
Inductive Completion (A : Type) : Type :=
| Normal (a : A)
| Throw (message : string).
Arguments Normal {A} a.
Arguments Throw {A} message.

(** The environment decides the outcome of each external call from the
    number of calls of that kind made before it. *)
Record Env : Type := mkEnv {
  (** [client.createAndPostOrder(order)]: the [orderID] of the response,
      which may be missing, or an exception *)
  postOrder : nat -> Order.t -> Completion (option string);
  (** [client.createOrDeriveApiKey()] *)
  deriveApiKey : nat -> Completion unit;
  (** a call to the database driver: [Some message] when it throws *)
  dbFault : nat -> option string
}.

(** What the program does to the outside, in the order it does it. *)
Inductive Event : Type :=
| Submitted (order : Order.t)
    (** [client.createAndPostOrder(order)] was called *)
| Waited (ms : Z)
    (** [await new Promise((resolve) => setTimeout(resolve, ms))] *)
| TradeExecuted (result : TradeExecutionResult)
    (** [config.onTradeExecuted(result)] was called *)
| TradeError (message : string) (position : Position)
    (** [config.onTradeError(error, position)] was called *).

Record World : Type := mkWorld {
  (** [TradeExecutor.apiKeyCreated] *)
  apiKeyCreated : bool;
  (** [isDatabaseConnected()] *)
  dbConnected : bool;
  (** the [trades] collection, oldest document first *)
  trades : list ITrade.t;
  (** driver calls made so far *)
  dbCalls : nat;
  (** [createOrDeriveApiKey] calls made so far *)
  keyCalls : nat;
  (** the events so far, oldest first *)
  timeline : list Event
}.

(** The orders submitted to the execution boundary so far, oldest first. *)
Fixpoint ordersIn (events : list Event) : list Order.t :=
  match events with
  | [] => []
  | Submitted order :: rest => order :: ordersIn rest
  | _ :: rest => ordersIn rest
  end.

Definition orders (w : World) : list Order.t := ordersIn w.(timeline).

Definition setApiKeyCreated (w : World) (b : bool) : World :=
  mkWorld b w.(dbConnected) w.(trades) w.(dbCalls) w.(keyCalls) w.(timeline).

Definition setTrades (w : World) (ts : list ITrade.t) : World :=
  mkWorld w.(apiKeyCreated) w.(dbConnected) ts w.(dbCalls) w.(keyCalls)
          w.(timeline).

Definition countDbCall (w : World) : World :=
  mkWorld w.(apiKeyCreated) w.(dbConnected) w.(trades) (S w.(dbCalls))
          w.(keyCalls) w.(timeline).

Definition countKeyCall (w : World) : World :=
  mkWorld w.(apiKeyCreated) w.(dbConnected) w.(trades) w.(dbCalls)
          (S w.(keyCalls)) w.(timeline).

Definition record (w : World) (e : Event) : World :=
  mkWorld w.(apiKeyCreated) w.(dbConnected) w.(trades) w.(dbCalls)
          w.(keyCalls) (w.(timeline) ++ [e]).

(** [await new Promise((resolve) => setTimeout(resolve, ms))] *)
Definition setTimeout (w : World) (ms : Z) : World := record w (Waited ms).

(** [this.config.onTradeExecuted(result)] *)
Definition onTradeExecuted (w : World) (r : TradeExecutionResult) : World :=
  record w (TradeExecuted r).

(** [this.config.onTradeError(error, position)] *)
Definition onTradeError (w : World) (message : string) (p : Position) : World :=
  record w (TradeError message p).

(* ================================================================== *)
(** * The trade collection ([src/models/Trade.ts]) *)
(* ================================================================== *)

Module TradeModel.

(** The filter [{ positionId, traderAddress, side, success: true }]. *)
Definition matches (positionId traderAddress : string) (side : TradeSide)
    (d : ITrade.t) : bool :=
  String.eqb d.(ITrade.positionId) positionId
  && String.eqb d.(ITrade.traderAddress) traderAddress
  && TradeSide_eqb d.(ITrade.side) side
  && Bool.eqb d.(ITrade.success) true.

(** [TradeModel.findOne(filter)] *)
Definition findOne (env : Env) (positionId traderAddress : string)
    (side : TradeSide) (w : World) : Completion (option ITrade.t) * World :=
  match env.(dbFault) w.(dbCalls) with
  | Some message => (Throw message, countDbCall w)
  | None =>
      (Normal (find (matches positionId traderAddress side) w.(trades)),
       countDbCall w)
  end.

(** The fields the schema declares [required: true]; a required string
    must not be empty. *)
Definition valid (d : ITrade.t) : bool :=
  JS.truthy d.(ITrade.positionId)
  && JS.truthy d.(ITrade.traderAddress)
  && JS.truthy d.(ITrade.marketId)
  && JS.truthy d.(ITrade.outcome)
  && JS.truthy d.(ITrade.quantity)
  && JS.truthy d.(ITrade.price).

(** The compound unique index [{ positionId, traderAddress, side }]. *)
Definition sameKey (a b : ITrade.t) : bool :=
  String.eqb a.(ITrade.positionId) b.(ITrade.positionId)
  && String.eqb a.(ITrade.traderAddress) b.(ITrade.traderAddress)
  && TradeSide_eqb a.(ITrade.side) b.(ITrade.side).

(** [trade.save()]: validation, then the insertion, which the unique
    index may refuse. *)
Definition save (env : Env) (d : ITrade.t) (w : World)
    : Completion unit * World :=
  if negb (valid d) then (Throw "Trade validation failed", w)
  else
    match env.(dbFault) w.(dbCalls) with
    | Some message => (Throw message, countDbCall w)
    | None =>
        if existsb (sameKey d) w.(trades)
        then (Throw "E11000 duplicate key error", countDbCall w)
        else (Normal tt, setTrades (countDbCall w) (w.(trades) ++ [d]))
    end.

(** The TTL index [{ executedAt: 1 }, { expireAfterSeconds: 2592000 }]:
    the database deletes the documents that are 30 days old.  It does so
    on its own, between the calls of the program.  The model keeps no
    dates; [old] says which documents have reached that age. *)
Definition expire (old : ITrade.t -> bool) (w : World) : World :=
  setTrades w (filter (fun d => negb (old d)) w.(trades)).

End TradeModel.

(* ================================================================== *)
(** * Execution engine ([src/trading/trade-executor.ts]) *)
(* ================================================================== *)

(** [Required<CopyTradingConfig>]: the configuration after the constructor
    has filled in the defaults. *)
Module Config.
Record t : Type := mk {
  enabled : bool;
  privateKey : string;
  dryRun : bool;
  positionSizeMultiplier : float;
  maxPositionSize : float;
  maxTradeSize : float;
  slippageTolerance : float;
  minTradeSize : float;
  chainId : Z;
  clobHost : string;
  maxRetryAttempts : Z;
  retryDelay : Z
}.
End Config.

Module TradeExecutor.

(** [a ?? d] *)
Definition orDefault {A : Type} (a : option A) (d : A) : A :=
  match a with
  | Some x => x
  | None => d
  end.

(** The object the constructor assigns to [this.config]: the first
    statement of the constructor, which does not throw.  The rest of the
    constructor is in [newTradeExecutor]. *)
Definition constructor (config : CopyTradingConfig.t) : Config.t :=
  {| Config.enabled := config.(CopyTradingConfig.enabled);
     Config.privateKey := config.(CopyTradingConfig.privateKey);
     Config.dryRun := orDefault config.(CopyTradingConfig.dryRun) false;
     Config.positionSizeMultiplier :=
       orDefault config.(CopyTradingConfig.positionSizeMultiplier) 1.0%float;
     Config.maxPositionSize :=
       orDefault config.(CopyTradingConfig.maxPositionSize) infinity;
     Config.maxTradeSize :=
       orDefault config.(CopyTradingConfig.maxTradeSize) infinity;
     Config.slippageTolerance :=
       orDefault config.(CopyTradingConfig.slippageTolerance) 1.0%float;
     Config.minTradeSize :=
       orDefault config.(CopyTradingConfig.minTradeSize) 1.0%float;
     Config.chainId := orDefault config.(CopyTradingConfig.chainId) 137%Z;
     Config.clobHost :=
       orDefault config.(CopyTradingConfig.clobHost)
                 "https://clob.polymarket.com";
     Config.maxRetryAttempts :=
       orDefault config.(CopyTradingConfig.maxRetryAttempts) 3%Z;
     Config.retryDelay :=
       orDefault config.(CopyTradingConfig.retryDelay) 1000%Z |}.

(** [new TradeExecutor(config)]: once [this.config] is assigned,
    [new Wallet(this.config.privateKey)] throws when the string is no
    private key.  [wallet key] is [new Wallet(key).address]. *)
Definition newTradeExecutor (wallet : string -> Completion string)
    (config : CopyTradingConfig.t) : Completion Config.t :=
  let executor := constructor config in
  match wallet executor.(Config.privateKey) with
  | Normal _ => Normal executor
  | Throw message => Throw message
  end.

Section WithConfig.
Context `{NumberOps}.
Variable config : Config.t.
Variable env : Env.

(** [initialize()]: creates or derives the API key, unless in dry run. *)
Definition initialize (w : World) : Completion unit * World :=
  if config.(Config.dryRun) then (Normal tt, w)
  else
    match env.(deriveApiKey) w.(keyCalls) with
    | Normal _ => (Normal tt, setApiKeyCreated (countKeyCall w) true)
    | Throw message =>
        (Throw ("Failed to initialize trade executor: " ++ message)%string,
         countKeyCall w)
    end.

(** [isDuplicateTrade(positionId, traderAddress, side)] *)
Definition isDuplicateTrade (positionId traderAddress : string)
    (side : TradeSide) (w : World) : bool * World :=
  if negb w.(dbConnected) then (false, w)
  else
    match TradeModel.findOne env positionId traderAddress side w with
    | (Normal (Some _), w') => (true, w')
    | (Normal None, w') => (false, w')
    | (Throw _, w') => (false, w')
    end.

(** The document [saveTrade] builds from a result. *)
Definition tradeOf (result : TradeExecutionResult) (traderAddress : string)
    : ITrade.t :=
  {| ITrade.positionId := result.(position).(id);
     ITrade.traderAddress := traderAddress;
     ITrade.marketId := result.(position).(market).(Market.id);
     ITrade.outcome := result.(position).(outcome);
     ITrade.side := if JS.truthy result.(position).(value) then buy else sell;
     ITrade.quantity :=
       JS.optOrElse result.(executedQuantity) result.(position).(quantity);
     ITrade.price :=
       JS.optOrElse result.(executedPrice) result.(position).(price);
     ITrade.orderId := result.(orderId);
     ITrade.transactionHash := result.(transactionHash);
     ITrade.dryRun := result.(dryRun);
     ITrade.success := result.(success);
     ITrade.error := result.(error) |}.

(** [saveTrade(result, traderAddress)]: an error of [trade.save()] is
    caught and logged. *)
Definition saveTrade (result : TradeExecutionResult)
    (traderAddress : string) (w : World) : World :=
  if (negb w.(dbConnected) || negb result.(success))%bool then w
  else snd (TradeModel.save env (tradeOf result traderAddress) w).

(** The [result] object both [execute] methods start from. *)
Definition initialResult (position : Position) (retryCount : Z)
    : TradeExecutionResult :=
  {| success := false;
     position := position;
     orderId := None;
     transactionHash := None;
     executedQuantity := None;
     executedPrice := None;
     error := None;
     dryRun := config.(Config.dryRun);
     retryCount := Some retryCount |}.

(** [result.error = errorMsg] *)
Definition withError (r : TradeExecutionResult) (errorMsg : string)
    : TradeExecutionResult :=
  mkResult r.(success) r.(position) r.(orderId) r.(transactionHash)
           r.(executedQuantity) r.(executedPrice) (Some errorMsg)
           r.(dryRun) r.(retryCount).

(** [result.success = true; result.orderId = orderID;
     result.executedQuantity = ...; result.executedPrice = ...] *)
Definition withSuccess (r : TradeExecutionResult) (orderID : option string)
    (tradeQuantity tradePrice : float) : TradeExecutionResult :=
  mkResult true r.(position) orderID r.(transactionHash)
           (Some (toFixed tradeQuantity 4)) (Some (toFixed tradePrice 4))
           r.(error) r.(dryRun) r.(retryCount).

(** [await this.client.createAndPostOrder(order)] *)
Definition createAndPostOrder (order : Order.t) (w : World)
    : Completion (option string) * World :=
  (env.(postOrder) (List.length (orders w)) order,
   record w (Submitted order)).

(** [if (!this.apiKeyCreated) await this.initialize()], then the order. *)
Definition submit (order : Order.t) (w : World)
    : Completion (option string) * World :=
  match (if w.(apiKeyCreated) then (Normal tt, w) else initialize w) with
  | (Throw message, w') => (Throw message, w')
  | (Normal _, w') => createAndPostOrder order w'
  end.

(** The [try] block of [executeBuy]. *)
Definition tryBuy (position : Position) (traderAddress : string)
    (retryCount : Z) (w : World)
    : Completion TradeExecutionResult * World :=
  let result := initialResult position retryCount in
  let '(duplicate, w) :=
    isDuplicateTrade position.(id) traderAddress buy w in
  if duplicate then (Normal (withError result "Duplicate trade"), w)
  else
    let tokenId := position.(id) in
    if negb (JS.truthy tokenId)
    then (Throw "Position ID (token ID) is missing", w)
    else
      let baseQuantity := parseFloat position.(quantity) in
      let tradeQuantity :=
        (baseQuantity * config.(Config.positionSizeMultiplier))%float in
      let tradePrice := parseFloat position.(price) in
      let tradeValue := (tradeQuantity * tradePrice)%float in
      if JS.lt tradeValue config.(Config.minTradeSize) then
        let errorMsg :=
          ("Trade size $" ++ toFixed tradeValue 2 ++ " is below minimum $"
           ++ numberToString config.(Config.minTradeSize))%string in
        (Normal (withError result errorMsg),
         onTradeError w errorMsg position)
      else if JS.gt tradeValue config.(Config.maxTradeSize) then
        let errorMsg :=
          ("Trade size $" ++ toFixed tradeValue 2 ++ " exceeds maximum $"
           ++ numberToString config.(Config.maxTradeSize))%string in
        (Normal (withError result errorMsg),
         onTradeError w errorMsg position)
      else
        let positionValue :=
          (parseFloat (JS.orElse position.(value) "0")
           * config.(Config.positionSizeMultiplier))%float in
        if JS.gt positionValue config.(Config.maxPositionSize) then
          let errorMsg :=
            ("Position size $" ++ toFixed positionValue 2
             ++ " exceeds maximum $"
             ++ numberToString config.(Config.maxPositionSize))%string in
          (Normal (withError result errorMsg),
           onTradeError w errorMsg position)
        else if config.(Config.dryRun) then
          let result := withSuccess result None tradeQuantity tradePrice in
          let w := saveTrade result traderAddress w in
          (Normal result, onTradeExecuted w result)
        else
          match submit (Order.mk tokenId tradePrice tradeQuantity Order.BUY)
                       w with
          | (Throw message, w) => (Throw message, w)
          | (Normal orderID, w) =>
              let result :=
                withSuccess result orderID tradeQuantity tradePrice in
              let w := saveTrade result traderAddress w in
              (Normal result, onTradeExecuted w result)
          end.

(** The [try] block of [executeSell]. *)
Definition trySell (position : Position) (traderAddress : string)
    (retryCount : Z) (w : World)
    : Completion TradeExecutionResult * World :=
  let result := initialResult position retryCount in
  let tokenId := position.(id) in
  if negb (JS.truthy tokenId)
  then (Throw "Position ID (token ID) is missing", w)
  else
    let baseQuantity := parseFloat position.(quantity) in
    let tradeQuantity :=
      (baseQuantity * config.(Config.positionSizeMultiplier))%float in
    let tradePrice := parseFloat position.(price) in
    if config.(Config.dryRun) then
      let result := withSuccess result None tradeQuantity tradePrice in
      let w := saveTrade result traderAddress w in
      (Normal result, onTradeExecuted w result)
    else
      match submit (Order.mk tokenId tradePrice tradeQuantity Order.SELL)
                   w with
      | (Throw message, w) => (Throw message, w)
      | (Normal orderID, w) =>
          let result :=
            withSuccess result orderID tradeQuantity tradePrice in
          let w := saveTrade result traderAddress w in
          (Normal result, onTradeExecuted w result)
      end.

(** The last part of both [catch] blocks, reached when no retry is left. *)
Definition giveUp (position : Position) (traderAddress : string)
    (retryCount : Z) (message : string) (w : World)
    : TradeExecutionResult * World :=
  let errorMsg := JS.orElse message "Unknown error" in
  let result := withError (initialResult position retryCount) errorMsg in
  let w := saveTrade result traderAddress w in
  (result, onTradeError w message position).

(** [try { ... } catch { retry or give up }], for either side.  The
    recursive call of the source is on [retryCount + 1] while
    [retryCount < maxRetryAttempts]; [budget] bounds the number of
    recursive calls and is set by [executeBuy] and [executeSell] to the
    number of retries that are left. *)
Fixpoint withRetry
    (attempt : Position -> string -> Z -> World ->
               Completion TradeExecutionResult * World)
    (budget : nat) (position : Position) (traderAddress : string)
    (retryCount : Z) (w : World) : TradeExecutionResult * World :=
  match attempt position traderAddress retryCount w with
  | (Normal result, w) => (result, w)
  | (Throw message, w) =>
      if (retryCount <? config.(Config.maxRetryAttempts))%Z then
        match budget with
        | S budget' =>
            withRetry attempt budget' position traderAddress
                      (retryCount + 1)%Z
                      (setTimeout w config.(Config.retryDelay))
        | O => giveUp position traderAddress retryCount message w
        end
      else giveUp position traderAddress retryCount message w
  end.

Definition retriesLeft (retryCount : Z) : nat :=
  Z.to_nat (config.(Config.maxRetryAttempts) - retryCount).

(** [executeBuy(position, traderAddress, retryCount = 0)] *)
Definition executeBuy (position : Position) (traderAddress : string)
    (retryCount : Z) (w : World) : TradeExecutionResult * World :=
  withRetry tryBuy (retriesLeft retryCount) position traderAddress
            retryCount w.

(** [executeSell(position, traderAddress, retryCount = 0)] *)
Definition executeSell (position : Position) (traderAddress : string)
    (retryCount : Z) (w : World) : TradeExecutionResult * World :=
  withRetry trySell (retriesLeft retryCount) position traderAddress
            retryCount w.

End WithConfig.
End TradeExecutor.

(* ================================================================== *)
(** * Orchestrator ([src/trading/copy-trading-monitor.ts]) *)
(* ================================================================== *)

Module CopyTradingMonitor.

(** The fields of the class.  [tradeExecutor] is the configuration
    [TradeExecutor.constructor config] together with the [World]. *)
Record t : Type := mk {
  config : CopyTradingConfig.t;
  stats : CopyTradingStatus.t;
  (** trader -> position IDs *)
  executedPositions : JSMap.t JSSet.t;
  (** trader -> position map *)
  targetPositions : JSMap.t (JSMap.t Position)
}.

(** What one call of [executeBuy] or [executeSell] returned. *)
Definition Execution : Type := (TradeSide * TradeExecutionResult)%type.

(** The constructor.  It throws what [new TradeExecutor] throws, on a
    string that is no private key, and then what [new AccountMonitor]
    throws, on an empty list of addresses. *)
Definition constructor (wallet : string -> Completion string)
    (targetAddresses : list string)
    (copyTradingConfig : CopyTradingConfig.t) : Completion t :=
  let stats :=
    {| CopyTradingStatus.enabled :=
         copyTradingConfig.(CopyTradingConfig.enabled);
       CopyTradingStatus.dryRun :=
         TradeExecutor.orDefault
           copyTradingConfig.(CopyTradingConfig.dryRun) false;
       CopyTradingStatus.totalTradesExecuted := 0;
       CopyTradingStatus.totalTradesFailed := 0;
       CopyTradingStatus.totalVolume := "0";
       CopyTradingStatus.tradersMonitored :=
         Z.of_nat (List.length targetAddresses);
       CopyTradingStatus.activePositions := 0 |} in
  match TradeExecutor.newTradeExecutor wallet copyTradingConfig with
  | Throw message => Throw message
  | Normal _ =>
      match targetAddresses with
      | [] => Throw "At least one target address is required"
      | _ =>
          Normal
            {| config := copyTradingConfig;
               stats := stats;
               executedPositions :=
                 fold_left (fun m address => JSMap.set m address JSSet.empty)
                           targetAddresses JSMap.empty;
               targetPositions :=
                 fold_left (fun m address => JSMap.set m address JSMap.empty)
                           targetAddresses JSMap.empty |}
      end
  end.

Section WithEnv.
Context `{NumberOps}.
Variable env : Env.

(** The success branch of both loops of [handleStatusUpdate]. *)
Definition countExecuted (stats : CopyTradingStatus.t)
    (result : TradeExecutionResult) : CopyTradingStatus.t :=
  let tradeValue :=
    (parseFloat (JS.optOrElse result.(executedQuantity) "0")
     * parseFloat (JS.optOrElse result.(executedPrice) "0"))%float in
  CopyTradingStatus.mk
    stats.(CopyTradingStatus.enabled)
    stats.(CopyTradingStatus.dryRun)
    (stats.(CopyTradingStatus.totalTradesExecuted) + 1)
    stats.(CopyTradingStatus.totalTradesFailed)
    (toFixed (parseFloat stats.(CopyTradingStatus.totalVolume) + tradeValue)
             2)
    stats.(CopyTradingStatus.tradersMonitored)
    stats.(CopyTradingStatus.activePositions).

(** [this.stats.totalTradesFailed++] *)
Definition countFailed (stats : CopyTradingStatus.t) : CopyTradingStatus.t :=
  CopyTradingStatus.mk
    stats.(CopyTradingStatus.enabled)
    stats.(CopyTradingStatus.dryRun)
    stats.(CopyTradingStatus.totalTradesExecuted)
    (stats.(CopyTradingStatus.totalTradesFailed) + 1)
    stats.(CopyTradingStatus.totalVolume)
    stats.(CopyTradingStatus.tradersMonitored)
    stats.(CopyTradingStatus.activePositions).

Definition setActivePositions (stats : CopyTradingStatus.t) (n : Z)
    : CopyTradingStatus.t :=
  CopyTradingStatus.mk
    stats.(CopyTradingStatus.enabled)
    stats.(CopyTradingStatus.dryRun)
    stats.(CopyTradingStatus.totalTradesExecuted)
    stats.(CopyTradingStatus.totalTradesFailed)
    stats.(CopyTradingStatus.totalVolume)
    stats.(CopyTradingStatus.tradersMonitored)
    n.

(** What the two loops of [handleStatusUpdate] change: the set
    [executedForTrader], the counters, the world, and (for the
    properties below) the executions made so far, oldest first. *)
Record Loop : Type := mkLoop {
  executed : JSSet.t;
  counters : CopyTradingStatus.t;
  world : World;
  executions : list Execution
}.

(** The body of [for (const position of newPositions)]. *)
Definition buyStep (executor : Config.t) (traderAddress : string)
    (l : Loop) (position : Position) : Loop :=
  let '(result, w) :=
    TradeExecutor.executeBuy executor env position traderAddress 0
                             l.(world) in
  if result.(success) then
    mkLoop (JSSet.add l.(executed) position.(id))
           (countExecuted l.(counters) result)
           w (l.(executions) ++ [(buy, result)])
  else
    mkLoop l.(executed) (countFailed l.(counters))
           w (l.(executions) ++ [(buy, result)]).

(** The body of [for (const position of closedPositions)]. *)
Definition sellStep (executor : Config.t) (traderAddress : string)
    (l : Loop) (position : Position) : Loop :=
  let '(result, w) :=
    TradeExecutor.executeSell executor env position traderAddress 0
                              l.(world) in
  if result.(success) then
    mkLoop (JSSet.delete l.(executed) position.(id))
           (countExecuted l.(counters) result)
           w (l.(executions) ++ [(sell, result)])
  else
    mkLoop l.(executed) (countFailed l.(counters))
           w (l.(executions) ++ [(sell, result)]).

(** [currentPositions] of [handleStatusUpdate]. *)
Definition currentPositionsOf (status : TradingStatus) : JSMap.t Position :=
  fold_left (fun m pos => JSMap.set m pos.(id) pos)
            status.(openPositions) JSMap.empty.

(** [newPositions] of [handleStatusUpdate]. *)
Definition newPositionsOf (currentPositions lastPositions : JSMap.t Position)
    (executedForTrader : JSSet.t) : list Position :=
  map snd
      (filter (fun entry : string * Position =>
                 negb (JSMap.has lastPositions (fst entry))
                 && negb (JSSet.has executedForTrader (fst entry)))
              currentPositions).

(** [closedPositions] of [handleStatusUpdate]. *)
Definition closedPositionsOf
    (currentPositions lastPositions : JSMap.t Position)
    (executedForTrader : JSSet.t) : list Position :=
  map snd
      (filter (fun entry : string * Position =>
                 negb (JSMap.has currentPositions (fst entry))
                 && JSSet.has executedForTrader (fst entry))
              lastPositions).

(** [handleStatusUpdate(status, traderAddress)], as one call that runs
    from its first line to its last with no other update of the monitor
    in between.  The caller does not await the call, so that a second
    update can be delivered while the first one awaits an answer; the
    module [Async] below has the method in steps, for those runs, and
    this function is what the steps of one call make when no other call
    runs between them ([Async.run]).  The set
    [executedForTrader] is the one stored in [executedPositions] when the
    trader has an entry there, so what the loops do to it stays; it is a
    fresh set, dropped at the end, when the trader has none. *)
Definition handleStatusUpdate (m : t) (w : World) (status : TradingStatus)
    (traderAddress : string) : t * World * list Execution :=
  let executor := TradeExecutor.constructor m.(config) in
  let currentPositions := currentPositionsOf status in
  let lastPositions :=
    TradeExecutor.orDefault (JSMap.get m.(targetPositions) traderAddress)
                            JSMap.empty in
  let stored := JSMap.get m.(executedPositions) traderAddress in
  let executedForTrader := TradeExecutor.orDefault stored JSSet.empty in
  let newPositions :=
    newPositionsOf currentPositions lastPositions executedForTrader in
  let closedPositions :=
    closedPositionsOf currentPositions lastPositions executedForTrader in
  let l := mkLoop executedForTrader m.(stats) w [] in
  let l := fold_left (buyStep executor traderAddress) newPositions l in
  let l := fold_left (sellStep executor traderAddress) closedPositions l in
  let targetPositions' :=
    JSMap.set m.(targetPositions) traderAddress currentPositions in
  let executedPositions' :=
    match stored with
    | Some _ =>
        JSMap.set m.(executedPositions) traderAddress l.(executed)
    | None => m.(executedPositions)
    end in
  let activePositions :=
    fold_left (fun sum positions => (sum + Z.of_nat (JSMap.size positions))%Z)
              (JSMap.values targetPositions') 0%Z in
  (mk m.(config) (setActivePositions l.(counters) activePositions)
      executedPositions' targetPositions',
   l.(world), l.(executions)).

(** The [onUpdate] callback the constructor hands to the account monitor. *)
Definition onUpdate (m : t) (w : World) (status : TradingStatus)
    (address : string) : t * World * list Execution :=
  if m.(config).(CopyTradingConfig.enabled)
  then handleStatusUpdate m w status address
  else (m, w, []).

(** A sequence of status updates for one trader, each handled to its end
    before the next one is delivered, with nothing else happening to the
    monitor and to the store in between. *)
Fixpoint handleStatusUpdates (m : t) (w : World)
    (statuses : list TradingStatus) (traderAddress : string)
    : t * World * list Execution :=
  match statuses with
  | [] => (m, w, [])
  | status :: rest =>
      let '(m1, w1, done1) := handleStatusUpdate m w status traderAddress in
      let '(m2, w2, done2) := handleStatusUpdates m1 w1 rest traderAddress in
      (m2, w2, done1 ++ done2)
  end.

End WithEnv.
End CopyTradingMonitor.

(* ================================================================== *)
(** * Vocabulary of the properties *)
(* ================================================================== *)

Module Spec.
Section WithConfig.
Context `{NumberOps}.
Variable config : Config.t.

(** The quantities [executeBuy] and [executeSell] compute from a position. *)
Definition tradeQuantity (p : Position) : float :=
  (parseFloat p.(quantity) * config.(Config.positionSizeMultiplier))%float.

Definition tradePrice (p : Position) : float := parseFloat p.(price).

Definition tradeValue (p : Position) : float :=
  (tradeQuantity p * tradePrice p)%float.

Definition positionValue (p : Position) : float :=
  (parseFloat (JS.orElse p.(value) "0")
   * config.(Config.positionSizeMultiplier))%float.

(** The three limit checks of [executeBuy], in its order. *)
Definition belowMinimum (p : Position) : bool :=
  JS.lt (tradeValue p) config.(Config.minTradeSize).

Definition aboveMaximum (p : Position) : bool :=
  JS.gt (tradeValue p) config.(Config.maxTradeSize).

Definition positionLimitExceeded (p : Position) : bool :=
  JS.gt (positionValue p) config.(Config.maxPositionSize).

(** The orders the two methods submit for a position. *)
Definition buyOrder (p : Position) : Order.t :=
  Order.mk p.(id) (tradePrice p) (tradeQuantity p) Order.BUY.

Definition sellOrder (p : Position) : Order.t :=
  Order.mk p.(id) (tradePrice p) (tradeQuantity p) Order.SELL.

(** The events of [n] retries of [order]: a wait of [retryDelay], then the
    order again. *)
Fixpoint retries (n : nat) (order : Order.t) : list Event :=
  match n with
  | O => []
  | S n' =>
      Waited config.(Config.retryDelay) :: Submitted order :: retries n' order
  end.

(** The same configuration with other limits. *)
Definition withLimits (minTradeSize maxTradeSize maxPositionSize : float)
    : Config.t :=
  Config.mk config.(Config.enabled) config.(Config.privateKey)
            config.(Config.dryRun) config.(Config.positionSizeMultiplier)
            maxPositionSize maxTradeSize config.(Config.slippageTolerance)
            minTradeSize config.(Config.chainId) config.(Config.clobHost)
            config.(Config.maxRetryAttempts) config.(Config.retryDelay).

End WithConfig.

(** The store holds a successful trade of this side for the position and
    the trader. *)
Definition recorded (w : World) (positionId traderAddress : string)
    (side : TradeSide) : bool :=
  existsb (TradeModel.matches positionId traderAddress side) w.(trades).

(** The store does not record the buy as done. *)
Definition unrecorded (p : Position) (t : string) (w : World) : Prop :=
  (dbConnected w && recorded w p.(id) t buy)%bool = false.

(** Two worlds that differ in the store only. *)
Definition agree (w1 w2 : World) : Prop :=
  apiKeyCreated w1 = apiKeyCreated w2
  /\ keyCalls w1 = keyCalls w2
  /\ timeline w1 = timeline w2.

(** What a call leaves behind: the result is about the position it was
    called for; the store stays connected or not; a failure stores
    nothing, and a success ends with [saveTrade] and [onTradeExecuted]. *)
Definition callOutcome `{NumberOps} (env : Env) (p : Position) (t : string)
    (w : World) (res : TradeExecutionResult * World) : Prop :=
  position (fst res) = p
  /\ dbConnected (snd res) = dbConnected w
  /\ ((success (fst res) = false /\ trades (snd res) = trades w)
      \/ (success (fst res) = true
          /\ exists w1,
               snd res
               = onTradeExecuted
                   (TradeExecutor.saveTrade env (fst res) t w1) (fst res)
               /\ trades w1 = trades w
               /\ dbConnected w1 = dbConnected w)).

(** The same for one attempt; an attempt that throws stores nothing. *)
Definition attemptOutcome `{NumberOps} (env : Env)
    (attempt : Position -> string -> Z -> World ->
               Completion TradeExecutionResult * World)
    (p : Position) (t : string) : Prop :=
  forall rc w,
    match attempt p t rc w with
    | (Normal result, w') => callOutcome env p t w (result, w')
    | (Throw _, w') => trades w' = trades w /\ dbConnected w' = dbConnected w
    end.

(** Every document of the store is a success. *)
Definition allSuccessful (w : World) : Prop :=
  forall d, In d w.(trades) -> d.(ITrade.success) = true.

(** A position whose successful buy makes a valid document with side
    [buy]: no required field is empty, and [value] is not empty. *)
Definition storable (p : Position) (t : string) : Prop :=
  JS.truthy p.(id) = true
  /\ JS.truthy t = true
  /\ JS.truthy p.(market).(Market.id) = true
  /\ JS.truthy p.(outcome) = true
  /\ JS.truthy p.(quantity) = true
  /\ JS.truthy p.(price) = true
  /\ JS.truthy p.(value) = true.

(** [lastPositions] and [executedForTrader] as [handleStatusUpdate] reads
    them from the monitor. *)
Definition lastPositions (m : CopyTradingMonitor.t) (t : string)
    : JSMap.t Position :=
  TradeExecutor.orDefault
    (JSMap.get m.(CopyTradingMonitor.targetPositions) t) JSMap.empty.

Definition inFlight (m : CopyTradingMonitor.t) (t : string) : JSSet.t :=
  TradeExecutor.orDefault
    (JSMap.get m.(CopyTradingMonitor.executedPositions) t) JSSet.empty.

(** The constructor gave the trader a set of executed positions. *)
Definition registered (m : CopyTradingMonitor.t) (t : string) : Prop :=
  exists s, JSMap.get m.(CopyTradingMonitor.executedPositions) t = Some s.

(** The positions remembered for the trader form a map (no key twice) and
    sit under their own identifiers, as [handleStatusUpdate] stores
    them. *)
Definition wellKeyed (m : CopyTradingMonitor.t) (t : string) : Prop :=
  JSMap.keyedBy id (lastPositions m t)
  /\ NoDup (JSMap.keys (lastPositions m t)).

(** The identifier an execution is about. *)
Definition subjectId (e : CopyTradingMonitor.Execution) : string :=
  (snd e).(position).(id).

(** The side and the position of an execution. *)
Definition subject (e : CopyTradingMonitor.Execution) : TradeSide * Position :=
  (fst e, (snd e).(position)).

(** The execution is about the position [k]. *)
Definition about (k : string) (e : CopyTradingMonitor.Execution) : bool :=
  String.eqb (snd e).(position).(id) k.

Definition successfulBuy (k : string) (e : CopyTradingMonitor.Execution)
    : bool :=
  match fst e with
  | buy => success (snd e) && about k e
  | sell => false
  end.

Definition successfulSell (k : string) (e : CopyTradingMonitor.Execution)
    : bool :=
  match fst e with
  | buy => false
  | sell => success (snd e) && about k e
  end.

(** The number of successful buys of the position [k]. *)
Definition successfulBuys (k : string)
    (done : list CopyTradingMonitor.Execution) : nat :=
  List.length (filter (successfulBuy k) done).

(** Reads the executions about [k], oldest first, from a position that is
    open or not: a successful buy must find it closed and opens it, a
    successful sell must find it open and closes it.  [None] when one of
    them does not; otherwise whether the position is open at the end. *)
Fixpoint alternates (k : string) (open : bool)
    (done : list CopyTradingMonitor.Execution) : option bool :=
  match done with
  | [] => Some open
  | e :: rest =>
      if successfulBuy k e
      then (if open then None else alternates k true rest)
      else if successfulSell k e
      then (if open then alternates k false rest else None)
      else alternates k open rest
  end.

(** The number of failures among executions. *)
Definition failures (done : list CopyTradingMonitor.Execution) : nat :=
  List.length (filter (fun e => negb (success (snd e))) done).

Definition successes (done : list CopyTradingMonitor.Execution) : nat :=
  List.length (filter (fun e => success (snd e)) done).

(** The state of the store and of the executions so far, for the buys of
    the position [k]: at most one has succeeded; if one has, the store
    records it; if the store recorded one from the start, none has. *)
Definition atMostOnce (k t : string) (recordedBefore : Prop) (w : World)
    (done : list CopyTradingMonitor.Execution) : Prop :=
  dbConnected w = true
  /\ allSuccessful w
  /\ successfulBuys k done <= 1
  /\ (successfulBuys k done = 1 -> recorded w k t buy = true)
  /\ (recordedBefore ->
      recorded w k t buy = true /\ successfulBuys k done = 0).

(** From [w] to [w'] the store keeps its connection and only gains
    documents of successes. *)
Definition grows (w w' : World) : Prop :=
  dbConnected w' = dbConnected w
  /\ exists added,
       trades w' = trades w ++ added
       /\ forall d, In d added -> d.(ITrade.success) = true.

(** The database driver never throws. *)
Definition healthy (env : Env) : Prop := forall n, env.(dbFault) n = None.

(** The execution boundary throws on every order. *)
Definition alwaysRejects (env : Env) : Prop :=
  forall n order, exists message, env.(postOrder) n order = Throw message.

(** The API key is there, or can be derived. *)
Definition keyAvailable (env : Env) (w : World) : Prop :=
  w.(apiKeyCreated) = true \/ forall n, env.(deriveApiKey) n = Normal tt.

End Spec.

(* ================================================================== *)
(** * Concrete inputs *)
(* ================================================================== *)

Module Sample.

Definition aMarket : Market.t :=
  Market.mk "0xmarket" "Will it rain tomorrow?" "rain-tomorrow"
            None None None None None (Some []) None None (Some true).

(** A position as [normalizePositions] produces it. *)
Definition aPosition (id quantity price value : string) : Position :=
  mkPosition id aMarket "Yes" quantity price value None
             "2024-01-01T00:00:00.000Z".

Definition aStatus (positions : list Position) (totalValue : string)
    : TradingStatus :=
  mkTradingStatus "0xtrader" (List.length positions) totalValue []
                  positions "2024-01-01T00:00:00.000Z".

Definition trader : string := "0xtrader".

(** A private key that [new Wallet] accepts (the first account of the
    Hardhat test network) and the address of its wallet; [aWallet] is
    [new Wallet(key).address] for that key and refuses the other
    strings. *)
Definition aPrivateKey : string :=
  "0xac0974bec39a17e36ba4a6b4d238ff944bacb478cbed5efcae784d7bf4f2ff80".

Definition aWalletAddress : string :=
  "0xf39Fd6e51aad88F6F4ce6aB8827279cffFb92266".

Definition aWallet (key : string) : Completion string :=
  if String.eqb key aPrivateKey then Normal aWalletAddress
  else Throw "invalid private key".

(** The configuration [loadConfig] yields from an environment that only
    sets the private key, with copy trading enabled. *)
Definition aConfig (dryRun : bool) : CopyTradingConfig.t :=
  CopyTradingConfig.mk true aPrivateKey (Some dryRun) (Some 1%float)
                       (Some 10000%float) (Some 5000%float) (Some 1%float)
                       (Some 1%float) (Some 137%Z)
                       (Some "https://clob.polymarket.com") (Some 3%Z)
                       (Some 1000%Z).

(** A boundary that accepts every order, one that refuses every order,
    and a healthy database driver. *)
Definition accepting : Env :=
  mkEnv (fun _ _ => Normal (Some "order")) (fun _ => Normal tt)
        (fun _ => None).

Definition failing : Env :=
  mkEnv (fun _ _ => Throw "network error") (fun _ => Normal tt)
        (fun _ => None).

(** A world in which nothing has happened yet. *)
Definition aWorld (dbConnected : bool) (trades : list ITrade.t) : World :=
  mkWorld false dbConnected trades 0 0 [].

(** The monitor right after its construction for [trader]. *)
Definition aMonitor (config : CopyTradingConfig.t) : CopyTradingMonitor.t :=
  CopyTradingMonitor.mk
    config
    (CopyTradingStatus.mk true
       (TradeExecutor.orDefault config.(CopyTradingConfig.dryRun) false)
       0 0 "0" 1 0)
    [(trader, JSSet.empty)]
    [(trader, JSMap.empty)].

End Sample.

(* ================================================================== *)
(** * Vocabulary for the traces of the execution engine *)
(* ================================================================== *)

Module Trace.

Definition isWait (e : Event) : bool :=
  match e with
  | Waited _ => true
  | _ => false
  end.

Definition isCallback (e : Event) : bool :=
  match e with
  | TradeExecuted _ | TradeError _ _ => true
  | _ => false
  end.

(** The number of [setTimeout] waits among events. *)
Definition waits (events : list Event) : nat :=
  List.length (filter isWait events).

(** The calls of [onTradeExecuted] and [onTradeError] among events, oldest
    first. *)
Definition callbacks (events : list Event) : list Event :=
  filter isCallback events.

(** The database driver throws on every call. *)
Definition driverDown (env : Env) : Prop :=
  forall n, exists message, env.(dbFault) n = Some message.

(** [createOrDeriveApiKey] throws on every call. *)
Definition keyRefused (env : Env) : Prop :=
  forall n, exists message, env.(deriveApiKey) n = Throw message.

(** The boundary throws on the [k] orders that follow the first [n], and
    answers the next one with [orderID]. *)
Definition acceptsAfter (env : Env) (n k : nat) (order : Order.t)
    (orderID : option string) : Prop :=
  (forall i, i < k -> exists message,
        env.(postOrder) (n + i) order = Throw message)
  /\ env.(postOrder) (n + k) order = Normal orderID.

(** From [w] to [w'] nothing was submitted, no callback was called and
    the API key was not touched. *)
Definition untouched (w w' : World) : Prop :=
  timeline w' = timeline w /\ keyCalls w' = keyCalls w
  /\ apiKeyCreated w' = apiKeyCreated w.

(** From [w] to [w'] the API key was there, or was derived by one call. *)
Definition keyStep (env : Env) (w w' : World) : Prop :=
  (apiKeyCreated w = true /\ keyCalls w' = keyCalls w
   /\ apiKeyCreated w' = true)
  \/ (apiKeyCreated w = false
      /\ env.(deriveApiKey) (keyCalls w) = Normal tt
      /\ keyCalls w' = S (keyCalls w) /\ apiKeyCreated w' = true).

(** From [w] to [w'] the derivation of the API key was tried and threw;
    [message] is the error of [initialize]. *)
Definition keyFailure (env : Env) (w w' : World) (message : string) : Prop :=
  exists cause,
    apiKeyCreated w = false
    /\ env.(deriveApiKey) (keyCalls w) = Throw cause
    /\ message = ("Failed to initialize trade executor: " ++ cause)%string
    /\ timeline w' = timeline w /\ keyCalls w' = S (keyCalls w)
    /\ apiKeyCreated w' = false.

(** What one attempt costs: at most one order, at most one derivation of
    the key, no wait. *)
Definition attemptCost (config : Config.t) (w w' : World) : Prop :=
  List.length (orders w) <= List.length (orders w')
                         <= List.length (orders w) + 1
  /\ Trace.waits (timeline w') = Trace.waits (timeline w)
  /\ keyCalls w <= keyCalls w' <= keyCalls w + 1
  /\ (apiKeyCreated w = true ->
      apiKeyCreated w' = true /\ keyCalls w' = keyCalls w)
  /\ (config.(Config.dryRun) = true ->
      orders w' = orders w /\ keyCalls w' = keyCalls w
      /\ apiKeyCreated w' = apiKeyCreated w).

(** The same world with the store disconnected. *)
Definition disconnected (w : World) : World :=
  mkWorld w.(apiKeyCreated) false w.(trades) w.(dbCalls) w.(keyCalls)
          w.(timeline).

End Trace.

(* ================================================================== *)
(** * Vocabulary for the updates of several traders *)
(* ================================================================== *)

Module Updates.
Section WithEnv.
Context `{NumberOps}.
Variable env : Env.

(** The updates the account monitor delivers to [onUpdate], each with the
    address it is for, each handled to its end before the next one is
    delivered ([Async.schedule] has the runs in which they overlap). *)
Fixpoint deliver (m : CopyTradingMonitor.t) (w : World)
    (updates : list (TradingStatus * string))
    : CopyTradingMonitor.t * World * list CopyTradingMonitor.Execution :=
  match updates with
  | [] => (m, w, [])
  | (status, address) :: rest =>
      let '(m1, w1, done1) :=
        CopyTradingMonitor.onUpdate env m w status address in
      let '(m2, w2, done2) := deliver m1 w1 rest in
      (m2, w2, done1 ++ done2)
  end.

End WithEnv.

(** The last position of a list that has the identifier [k]. *)
Definition lastWith (k : string) (positions : list Position)
    : option Position :=
  find (fun p => String.eqb p.(id) k) (rev positions).

(** The buys among executions. *)
Definition buys (done : list CopyTradingMonitor.Execution)
    : list CopyTradingMonitor.Execution :=
  filter (fun e => TradeSide_eqb (fst e) buy) done.

End Updates.

(* ================================================================== *)
(** * The account monitor ([src/monitor/account-monitor.ts], the class) *)
(* ================================================================== *)

(** [UserPositions] ([src/types/index.ts]): what
    [client.getUserPositions(address)] resolves to. *)
Module UserPositions.
Record t : Type := mk {
  user : string;
  positions : list Position;
  totalValue : string;
  timestamp : string
}.
End UserPositions.

Module MonitorOptions.
(** [MonitorOptions] without its two callbacks, which are passed to the
    methods that call them (see [Callbacks]). *)
Record t : Type := mk {
  targetAddresses : list string;
  pollInterval : option Z;
  enableWebSocket : option bool
}.
End MonitorOptions.

(** [TraderStatus], without the wall-clock field [lastPollTime], which
    only paces a log line. *)
Module TraderStatus.
Record t : Type := mk {
  address : string;
  lastStatus : option TradingStatus;
  errorCount : Z
}.
End TraderStatus.

Module AccountMonitorClass.

(** The callbacks of the options.  [onUpdate] may throw; [St] is the state
    the callbacks work on. *)
Record Callbacks (St : Type) : Type := mkCallbacks {
  onUpdate : TradingStatus -> string -> St -> Completion unit * St;
  onError : string -> string -> St -> St
}.
Arguments mkCallbacks {St} onUpdate onError.
Arguments onUpdate {St} c status address s.
Arguments onError {St} c message address s.

(** The fields of the class, and the intervals that are running: each
    [setInterval] returns a fresh identifier and polls an address. *)
Record t : Type := mk {
  pollIntervalOption : Z;
  enableWebSocketOption : bool;
  targetAddresses : list string;
  pollIntervalIds : JSMap.t nat;
  isMonitoring : bool;
  traderStatuses : JSMap.t TraderStatus.t;
  intervals : list (nat * string);
  nextInterval : nat
}.

(** [options.pollInterval || 2000] *)
Definition pollIntervalOr (pollInterval : option Z) : Z :=
  match pollInterval with
  | Some n => if (n =? 0)%Z then 2000%Z else n
  | None => 2000%Z
  end.

(** The constructor. *)
Definition constructor (options : MonitorOptions.t) : Completion t :=
  match options.(MonitorOptions.targetAddresses) with
  | [] => Throw "At least one target address is required"
  | addresses =>
      Normal
        {| pollIntervalOption :=
             pollIntervalOr options.(MonitorOptions.pollInterval);
           enableWebSocketOption :=
             TradeExecutor.orDefault options.(MonitorOptions.enableWebSocket)
                                     false;
           targetAddresses := addresses;
           pollIntervalIds := JSMap.empty;
           isMonitoring := false;
           traderStatuses :=
             fold_left
               (fun m address =>
                  JSMap.set m address (TraderStatus.mk address None 0))
               addresses JSMap.empty;
           intervals := [];
           nextInterval := 0 |}
  end.

Section WithNumberOps.
Context `{NumberOps}.

(** [getStatus(address)]: [fetched] is how
    [client.getUserPositions(address)] settled and [now] is
    [new Date().toISOString()].  A rejected fetch is read as no
    positions. *)
Definition getStatus (fetched : Completion UserPositions.t) (now : string)
    (address : string) : TradingStatus :=
  let positions :=
    match fetched with
    | Normal value => value
    | Throw _ => UserPositions.mk address [] "0" now
    end in
  {| user := address;
     totalPositions := List.length positions.(UserPositions.positions);
     totalValue := positions.(UserPositions.totalValue);
     recentTrades := [];
     openPositions := positions.(UserPositions.positions);
     lastUpdated := now |}.

Definition setTraderStatus (mon : t) (address : string) (ts : TraderStatus.t)
    : t :=
  mk mon.(pollIntervalOption) mon.(enableWebSocketOption)
     mon.(targetAddresses) mon.(pollIntervalIds) mon.(isMonitoring)
     (JSMap.set mon.(traderStatuses) address ts)
     mon.(intervals) mon.(nextInterval).

(** [updateStatus(address)].  For an address that is not monitored,
    [traderStatus] is [undefined] in the [try] block and in the [catch]
    block, and the call is rejected without any effect. *)
Definition updateStatus {St : Type} (callbacks : Callbacks St)
    (fetched : Completion UserPositions.t) (now : string) (address : string)
    (mon : t) (s : St) : t * St :=
  let status := getStatus fetched now address in
  match JSMap.get mon.(traderStatuses) address with
  | None => (mon, s)
  | Some traderStatus =>
      let hasChanges :=
        AccountMonitor.detectChanges status
          traderStatus.(TraderStatus.lastStatus) in
      if (hasChanges
          || match traderStatus.(TraderStatus.lastStatus) with
             | Some _ => false
             | None => true
             end)%bool
      then
        let mon :=
          setTraderStatus mon address
            (TraderStatus.mk traderStatus.(TraderStatus.address)
                             (Some status) 0) in
        match onUpdate callbacks status address s with
        | (Normal _, s) => (mon, s)
        | (Throw message, s) =>
            (setTraderStatus mon address
               (TraderStatus.mk traderStatus.(TraderStatus.address)
                                (Some status) (0 + 1)),
             onError callbacks message address s)
        end
      else (mon, s)
  end.

(** One poll of an address: how the fetch settled, and the time. *)
Definition Poll : Type := (Completion UserPositions.t * string)%type.

(** The polls of one address, in order. *)
Fixpoint updateStatuses {St : Type} (callbacks : Callbacks St)
    (polls : list Poll) (address : string) (mon : t) (s : St) : t * St :=
  match polls with
  | [] => (mon, s)
  | (fetched, now) :: rest =>
      let '(mon, s) := updateStatus callbacks fetched now address mon s in
      updateStatuses callbacks rest address mon s
  end.

(** The body of the second [forEach] of [start()]: [setInterval] returns
    a fresh identifier, which is stored under the address. *)
Definition startPolling (mon : t) (address : string) : t :=
  let intervalId := mon.(nextInterval) in
  mk mon.(pollIntervalOption) mon.(enableWebSocketOption)
     mon.(targetAddresses)
     (JSMap.set mon.(pollIntervalIds) address intervalId)
     mon.(isMonitoring) mon.(traderStatuses)
     (mon.(intervals) ++ [(intervalId, address)])
     (S mon.(nextInterval)).

(** [start()]: the first poll of every address, here in the order of the
    addresses, then one interval per address. *)
Definition start {St : Type} (callbacks : Callbacks St)
    (fetch : string -> Poll) (mon : t) (s : St) : t * St :=
  if mon.(isMonitoring) then (mon, s)
  else
    let '(mon, s) :=
      fold_left
        (fun (acc : t * St) address =>
           updateStatus callbacks (fst (fetch address)) (snd (fetch address))
                        address (fst acc) (snd acc))
        mon.(targetAddresses)
        (mk mon.(pollIntervalOption) mon.(enableWebSocketOption)
            mon.(targetAddresses) mon.(pollIntervalIds) true
            mon.(traderStatuses) mon.(intervals) mon.(nextInterval), s) in
    (fold_left startPolling mon.(targetAddresses) mon, s).

(** [clearInterval(intervalId)] *)
Definition clearInterval (running : list (nat * string)) (intervalId : nat)
    : list (nat * string) :=
  filter (fun interval => negb (Nat.eqb (fst interval) intervalId)) running.

(** [stop()] *)
Definition stop (mon : t) : t :=
  if negb mon.(isMonitoring) then mon
  else
    mk mon.(pollIntervalOption) mon.(enableWebSocketOption)
       mon.(targetAddresses) JSMap.empty false mon.(traderStatuses)
       (fold_left clearInterval (JSMap.values mon.(pollIntervalIds))
                  mon.(intervals))
       mon.(nextInterval).

End WithNumberOps.

(** [isRunning()], [getMonitoredAddresses()], [getTraderStatus(address)] *)
Definition isRunning (mon : t) : bool := mon.(isMonitoring).

Definition getMonitoredAddresses (mon : t) : list string :=
  JSMap.keys mon.(traderStatuses).

Definition getTraderStatus (mon : t) (address : string)
    : option TraderStatus.t :=
  JSMap.get mon.(traderStatuses) address.

End AccountMonitorClass.

(** ** Vocabulary for the intervals *)

Module Timers.

(** The interval identifiers the monitor still knows. *)
Definition known (mon : AccountMonitorClass.t) : list nat :=
  JSMap.values mon.(AccountMonitorClass.pollIntervalIds).

(** What [start()] keeps true of the intervals: every stored identifier
    is of a running interval of its address, the identifiers are below
    the next one and differ, and the addresses of the map differ. *)
Definition consistent (mon : AccountMonitorClass.t) : Prop :=
  (forall address intervalId,
      In (address, intervalId) mon.(AccountMonitorClass.pollIntervalIds) ->
      In (intervalId, address) mon.(AccountMonitorClass.intervals))
  /\ (forall interval,
         In interval mon.(AccountMonitorClass.intervals) ->
         fst interval < mon.(AccountMonitorClass.nextInterval))
  /\ NoDup (map fst mon.(AccountMonitorClass.intervals))
  /\ NoDup (JSMap.keys mon.(AccountMonitorClass.pollIntervalIds))
  /\ (NoDup (map snd mon.(AccountMonitorClass.intervals)) ->
      forall interval,
        In interval mon.(AccountMonitorClass.intervals) ->
        In (snd interval, fst interval)
           mon.(AccountMonitorClass.pollIntervalIds)).

End Timers.

(** ** Vocabulary for the polls *)

Module Polling.

(** The calls of [onUpdate], oldest first. *)
Definition Log : Type := list (TradingStatus * string).

(** Callbacks that only record the calls of [onUpdate]. *)
Definition recording : AccountMonitorClass.Callbacks Log :=
  AccountMonitorClass.mkCallbacks
    (fun status address log => (Normal tt, log ++ [(status, address)]))
    (fun _ _ log => log).

(** The status [getStatus] makes of a rejected fetch. *)
Definition emptyStatus (address now : string) : TradingStatus :=
  mkTradingStatus address 0 "0" [] [] now.

Section WithNumberOps.
Context `{NumberOps}.

(** Each status of the list is a change from the one before it, the first
    one from [previous]. *)
Fixpoint eachChanged (previous : option TradingStatus)
    (statuses : list TradingStatus) : bool :=
  match statuses with
  | [] => true
  | status :: rest =>
      AccountMonitor.detectChanges status previous
      && eachChanged (Some status) rest
  end.

End WithNumberOps.

End Polling.

(* ================================================================== *)
(** * The monitor and the orchestrator together *)
(* ================================================================== *)

Module Bot.
Section WithEnv.
Context `{NumberOps}.
Variable env : Env.

(** What the callbacks of the orchestrator work on: the orchestrator, the
    world, and the executions made so far. *)
Definition State : Type :=
  (CopyTradingMonitor.t * World * list CopyTradingMonitor.Execution)%type.

(** The callbacks the constructor of [CopyTradingMonitor] hands to the
    account monitor.  [userOnUpdate] is [monitorOptions.onUpdate] when
    there is one; [monitorOptions.onError] and the logger do not touch the
    state. *)
Definition callbacks
    (userOnUpdate : option (TradingStatus -> string -> Completion unit))
    : AccountMonitorClass.Callbacks State :=
  AccountMonitorClass.mkCallbacks
    (fun status address s =>
       let '(m, w, done) := s in
       match
         match userOnUpdate with
         | Some f => f status address
         | None => Normal tt
         end
       with
       | Throw message => (Throw message, s)
       | Normal _ =>
           let '(m', w', done') :=
             CopyTradingMonitor.onUpdate env m w status address in
           (Normal tt, (m', w', done ++ done'))
       end)
    (fun _ _ s => s).

(** [CopyTradingMonitor.start()] *)
Definition start
    (userOnUpdate : option (TradingStatus -> string -> Completion unit))
    (fetch : string -> AccountMonitorClass.Poll)
    (mon : AccountMonitorClass.t) (s : State)
    : Completion unit * AccountMonitorClass.t * State :=
  let '(m, w, done) := s in
  let config := m.(CopyTradingMonitor.config) in
  let startMonitor (w : World) :=
    let '(mon, s) :=
      AccountMonitorClass.start (callbacks userOnUpdate) fetch mon
                                (m, w, done) in
    (Normal tt, mon, s) in
  if negb config.(CopyTradingConfig.enabled) then startMonitor w
  else
    match
      TradeExecutor.initialize (TradeExecutor.constructor config) env w
    with
    | (Normal _, w) => startMonitor w
    | (Throw message, w) =>
        if negb (TradeExecutor.orDefault config.(CopyTradingConfig.dryRun)
                                         false)
        then (Throw message, mon, (m, w, done))
        else startMonitor w
    end.

End WithEnv.
End Bot.

(* ================================================================== *)
(** * The health monitor ([src/health/health-monitor.ts]) *)
(* ================================================================== *)

(** [HealthMetrics] ([src/types/index.ts]) *)
Module HealthStatus.
Inductive t : Type := healthy | degraded | unhealthy.
End HealthStatus.

Module WalletBalance.
Record t : Type := mk {
  usdc : string;
  pol : string
}.
End WalletBalance.

Module HealthError.
Record t : Type := mk {
  message : string;
  timestamp : string
}.
End HealthError.

Module HealthMetrics.
Record t : Type := mk {
  uptime : Z;
  status : HealthStatus.t;
  tradesExecuted : Z;
  tradesFailed : Z;
  lastTradeTime : option string;
  walletBalance : WalletBalance.t;
  tradersMonitored : Z;
  activePositions : Z;
  errors : list HealthError.t
}.
End HealthMetrics.

Module HealthMonitor.

(** The fields of the class, without the [express] application. *)
Record t : Type := mk {
  port : Z;
  startTime : Z;
  metrics : HealthMetrics.t;
  copyTradingStats : option CopyTradingStatus.t;
  walletAddress : option string;
  rpcUrl : option string
}.

(** A string that may be [undefined], as a condition. *)
Definition given (o : option string) : bool :=
  match o with
  | Some s => JS.truthy s
  | None => false
  end.

(** The constructor.  [wallet] is [new Wallet(privateKey).address], which
    throws on a key that is not one, and [now] is [Date.now()]. *)
Definition constructor (wallet : string -> Completion string) (now : Z)
    (port : option Z) (privateKey rpcUrl : option string) : Completion t :=
  let make (walletAddress : option string) : t :=
    {| port := TradeExecutor.orDefault port 3000%Z;
       startTime := now;
       metrics :=
         HealthMetrics.mk 0 HealthStatus.healthy 0 0 None
                          (WalletBalance.mk "0" "0") 0 0 [];
       copyTradingStats := None;
       walletAddress := walletAddress;
       rpcUrl := rpcUrl |} in
  match privateKey with
  | Some key =>
      if JS.truthy key then
        match wallet key with
        | Normal address => Normal (make (Some address))
        | Throw message => Throw message
        end
      else Normal (make None)
  | None => Normal (make None)
  end.

Definition setMetrics (hm : t) (metrics : HealthMetrics.t) : t :=
  mk hm.(port) hm.(startTime) metrics hm.(copyTradingStats)
     hm.(walletAddress) hm.(rpcUrl).

(** The end of [updateMetrics()]: the status, from the number of errors
    that are kept. *)
Definition determineStatus (hm : t) : t :=
  let m := hm.(metrics) in
  let count := List.length m.(HealthMetrics.errors) in
  setMetrics hm
    (HealthMetrics.mk
       m.(HealthMetrics.uptime)
       (if (10 <? count)%nat then HealthStatus.unhealthy
        else if (5 <? count)%nat then HealthStatus.degraded
        else HealthStatus.healthy)
       m.(HealthMetrics.tradesExecuted) m.(HealthMetrics.tradesFailed)
       m.(HealthMetrics.lastTradeTime) m.(HealthMetrics.walletBalance)
       m.(HealthMetrics.tradersMonitored) m.(HealthMetrics.activePositions)
       m.(HealthMetrics.errors)).

(** [updateMetrics()], up to its first [await]: the uptime in seconds and
    the counters of the last statistics.  Without a wallet address or
    without an RPC URL there is no [await] and the call runs to its end;
    with both, the call is suspended ([true]) before the status is
    determined. *)
Definition updateMetricsBegin (now : Z) (hm : t) : t * bool :=
  let m := hm.(metrics) in
  let uptime := ((now - hm.(startTime)) / 1000)%Z in
  let m :=
    match hm.(copyTradingStats) with
    | Some stats =>
        HealthMetrics.mk
          uptime m.(HealthMetrics.status)
          stats.(CopyTradingStatus.totalTradesExecuted)
          stats.(CopyTradingStatus.totalTradesFailed)
          m.(HealthMetrics.lastTradeTime) m.(HealthMetrics.walletBalance)
          stats.(CopyTradingStatus.tradersMonitored)
          stats.(CopyTradingStatus.activePositions)
          m.(HealthMetrics.errors)
    | None =>
        HealthMetrics.mk
          uptime m.(HealthMetrics.status)
          m.(HealthMetrics.tradesExecuted) m.(HealthMetrics.tradesFailed)
          m.(HealthMetrics.lastTradeTime) m.(HealthMetrics.walletBalance)
          m.(HealthMetrics.tradersMonitored)
          m.(HealthMetrics.activePositions)
          m.(HealthMetrics.errors)
    end in
  let hm := setMetrics hm m in
  if given hm.(walletAddress) && given hm.(rpcUrl)
  then (hm, true)
  else (determineStatus hm, false).

(** A suspended [updateMetrics()] when it is resumed: [balance] is how
    [provider.getBalance] settled, formatted in ether; a failure is
    logged. *)
Definition updateMetricsResume (balance : Completion string) (hm : t) : t :=
  let m := hm.(metrics) in
  let hm :=
    match balance with
    | Normal pol =>
        setMetrics hm
          (HealthMetrics.mk
             m.(HealthMetrics.uptime) m.(HealthMetrics.status)
             m.(HealthMetrics.tradesExecuted) m.(HealthMetrics.tradesFailed)
             m.(HealthMetrics.lastTradeTime)
             (WalletBalance.mk
                m.(HealthMetrics.walletBalance).(WalletBalance.usdc) pol)
             m.(HealthMetrics.tradersMonitored)
             m.(HealthMetrics.activePositions)
             m.(HealthMetrics.errors))
    | Throw _ => hm
    end in
  determineStatus hm.

(** [await this.updateMetrics()], as the route [/metrics] calls it. *)
Definition updateMetrics (now : Z) (balance : Completion string) (hm : t)
    : t :=
  let '(hm, suspended) := updateMetricsBegin now hm in
  if suspended then updateMetricsResume balance hm else hm.

(** [updateCopyTradingStats(stats)] *)
Definition updateCopyTradingStats (stats : CopyTradingStatus.t) (hm : t)
    : t :=
  mk hm.(port) hm.(startTime) hm.(metrics) (Some stats)
     hm.(walletAddress) hm.(rpcUrl).

(** [array.slice(-n)] *)
Definition sliceLast {A : Type} (n : nat) (l : list A) : list A :=
  skipn (List.length l - n) l.

(** [addError(message)]; [now] is [new Date().toISOString()]. *)
Definition addError (message now : string) (hm : t) : t :=
  let m := hm.(metrics) in
  let errors := m.(HealthMetrics.errors) ++ [HealthError.mk message now] in
  let errors :=
    if (20 <? List.length errors)%nat then sliceLast 20 errors else errors in
  setMetrics hm
    (HealthMetrics.mk
       m.(HealthMetrics.uptime) m.(HealthMetrics.status)
       m.(HealthMetrics.tradesExecuted) m.(HealthMetrics.tradesFailed)
       m.(HealthMetrics.lastTradeTime) m.(HealthMetrics.walletBalance)
       m.(HealthMetrics.tradersMonitored) m.(HealthMetrics.activePositions)
       errors).

(** [getMetrics()]: [updateMetrics()] is called and not awaited, and a
    copy of the metrics is returned; [true] when the update is still
    suspended. *)
Definition getMetrics (now : Z) (hm : t) : HealthMetrics.t * t * bool :=
  let '(hm, suspended) := updateMetricsBegin now hm in
  (hm.(metrics), hm, suspended).

(** The route [/health], which does not await the update either: the
    status and the uptime of the reply. *)
Definition healthRoute (now : Z) (hm : t)
    : (HealthStatus.t * Z) * t * bool :=
  let '(hm, suspended) := updateMetricsBegin now hm in
  ((hm.(metrics).(HealthMetrics.status),
    hm.(metrics).(HealthMetrics.uptime)), hm, suspended).

End HealthMonitor.

(** ** Vocabulary for the life of a health monitor *)

Module Health.

(** What happens to a health monitor: the calls of its methods, and the
    resumption of an update that was suspended. *)
Inductive Op : Type :=
| AddError (message now : string)
| UpdateCopyTradingStats (stats : CopyTradingStatus.t)
| UpdateMetrics (now : Z) (balance : Completion string)
| GetMetrics (now : Z)
| HealthRoute (now : Z)
| Resume (balance : Completion string).

Definition step (hm : HealthMonitor.t) (op : Op) : HealthMonitor.t :=
  match op with
  | AddError message now => HealthMonitor.addError message now hm
  | UpdateCopyTradingStats stats =>
      HealthMonitor.updateCopyTradingStats stats hm
  | UpdateMetrics now balance => HealthMonitor.updateMetrics now balance hm
  | GetMetrics now => snd (fst (HealthMonitor.getMetrics now hm))
  | HealthRoute now => snd (fst (HealthMonitor.healthRoute now hm))
  | Resume balance => HealthMonitor.updateMetricsResume balance hm
  end.

Definition run (ops : list Op) (hm : HealthMonitor.t) : HealthMonitor.t :=
  fold_left step ops hm.

(** The errors that were added, oldest first. *)
Fixpoint added (ops : list Op) : list HealthError.t :=
  match ops with
  | [] => []
  | AddError message now :: rest => HealthError.mk message now :: added rest
  | _ :: rest => added rest
  end.

(** The calls of [addError] that add the errors of a list. *)
Definition adding (errors : list HealthError.t) : list Op :=
  map (fun e => AddError e.(HealthError.message) e.(HealthError.timestamp))
      errors.

End Health.

(* ================================================================== *)
(** * The API client ([src/api/polymarket-client.ts], the positions) *)
(* ================================================================== *)

Module PolymarketClient.

(** What the code reads of an error: [error.response?.status] and
    [error.message]. *)
Record HttpError : Type := mkHttpError {
  status : option Z;
  message : string
}.

(** The two endpoints that are asked for positions. *)
Inductive Endpoint : Type :=
| usersPositions   (* [/users/${userAddress}/positions] *)
| positionsOfUser. (* [/positions], with the parameter [user] *)

(** What a request comes to, once [pagePositions] is read off the
    response: an array of items, something that is not an array, or an
    exception. *)
Inductive Page (Raw : Type) : Type :=
| Items (items : list Raw)
| NotArray
| Fail (error : HttpError).
Arguments Items {Raw} items.
Arguments NotArray {Raw}.
Arguments Fail {Raw} error.

(** How the loop of [getUserPositions] ends. *)
Inductive Fetched (Raw : Type) : Type :=
| Collected (positions : list Raw)
| NotFound
| Failed (error : HttpError).
Arguments Collected {Raw} positions.
Arguments NotFound {Raw}.
Arguments Failed {Raw} error.

Definition is404 (error : HttpError) : bool :=
  match error.(status) with
  | Some code => (code =? 404)%Z
  | None => false
  end.

Definition limit : nat := 100.

Section WithApi.
Context `{NumberOps}.
(** The items of the API, which are not typed; [normalizePositions],
    which reads their fields and may throw; and the API, asked for the
    positions of the user at an offset. *)
Variable Raw : Type.
Variable normalizePositions : list Raw -> Completion (list Position).
Variable get : Endpoint -> nat -> Page Raw.

(** The requests that were made, oldest first. *)
Definition Requests : Type := list (Endpoint * nat).

(** The loop [while (hasMore && page < 10)], with [pagesLeft] for
    [10 - page]. *)
Fixpoint fetchPages (pagesLeft page : nat) (positions : list Raw)
    (requests : Requests) : Fetched Raw * Requests :=
  match pagesLeft with
  | 0 => (Collected positions, requests)
  | S pagesLeft =>
      let offset := page * limit in
      let continue (pagePositions : list Raw) (requests : Requests) :=
        if Nat.eqb (List.length pagePositions) limit
        then fetchPages pagesLeft (S page) (positions ++ pagePositions)
                        requests
        else (Collected (positions ++ pagePositions), requests) in
      let requests := requests ++ [(usersPositions, offset)] in
      match get usersPositions offset with
      | Items pagePositions => continue pagePositions requests
      | NotArray => (Collected [], requests)
      | Fail primaryError =>
          let requests := requests ++ [(positionsOfUser, offset)] in
          match get positionsOfUser offset with
          | Items pagePositions => continue pagePositions requests
          | NotArray => (Collected [], requests)
          | Fail altError =>
              if is404 primaryError || is404 altError
              then (NotFound, requests)
              else (Failed primaryError, requests)
          end
      end
  end.

(** [calculateTotalValue(positions)] *)
Definition calculateTotalValue (positions : list Position) : string :=
  let total :=
    fold_left
      (fun (sum : float) (pos : Position) =>
         let value := parseFloat (JS.orElse pos.(value) "0") in
         (sum + (if PrimFloat.is_nan value then 0 else value))%float)
      positions 0%float in
  toFixed total 6.

(** The portfolio that is returned after a 404. *)
Definition noPositions (userAddress now : string) : UserPositions.t :=
  UserPositions.mk userAddress [] "0" now.

(** [getUserPositions(userAddress)]; [now] is
    [new Date().toISOString()]. *)
Definition getUserPositions (userAddress now : string)
    : Completion UserPositions.t * Requests :=
  let '(fetched, requests) := fetchPages 10 0 [] [] in
  let outcome :=
    match fetched with
    | Collected positionsArray =>
        match normalizePositions positionsArray with
        | Normal normalizedPositions =>
            Normal (UserPositions.mk userAddress normalizedPositions
                      (calculateTotalValue normalizedPositions) now)
        | Throw message =>
            Throw ("Failed to fetch user positions: " ++ message)
        end
    | NotFound => Normal (noPositions userAddress now)
    | Failed error =>
        if is404 error then Normal (noPositions userAddress now)
        else Throw ("Failed to fetch user positions: " ++ error.(message))
    end in
  (outcome, requests).

End WithApi.

End PolymarketClient.

(** ** Vocabulary for the pages *)

Module Pages.

(** The requests of one endpoint. *)
Definition sentTo (endpoint : PolymarketClient.Endpoint)
    (requests : list (PolymarketClient.Endpoint * nat)) : list nat :=
  map snd
      (filter
         (fun request =>
            match fst request, endpoint with
            | PolymarketClient.usersPositions,
              PolymarketClient.usersPositions => true
            | PolymarketClient.positionsOfUser,
              PolymarketClient.positionsOfUser => true
            | _, _ => false
            end)
         requests).

(** The offsets of the first [count] pages. *)
Definition offsets (count : nat) : list nat :=
  map (fun page => page * PolymarketClient.limit) (seq 0 count).

(** An endpoint answers with a full page at an offset. *)
Definition full {Raw : Type}
    (get : PolymarketClient.Endpoint -> nat -> PolymarketClient.Page Raw)
    (offset : nat) (items : list Raw) : Prop :=
  List.length items = PolymarketClient.limit
  /\ (get PolymarketClient.usersPositions offset
      = PolymarketClient.Items items
      \/ (exists error,
             get PolymarketClient.usersPositions offset
             = PolymarketClient.Fail error)
         /\ get PolymarketClient.positionsOfUser offset
            = PolymarketClient.Items items).

End Pages.

(* ================================================================== *)
(** * The asynchronous methods, in steps *)
(* ================================================================== *)

(** [handleStatusUpdate], [executeBuy] and [executeSell] are [async]:
    a call runs until it awaits an answer from outside (the database,
    the key service, the order boundary, a timer), and goes on when the
    answer is there.  The account monitor calls [onUpdate] without
    awaiting [handleStatusUpdate], so that while one call awaits, another
    update can be delivered and another call can go on.  Between two
    answers the code of one call runs alone: JavaScript has one thread,
    and an [await] of something that is settled already gives way only
    to code that is ready to run, of which there is none while the other
    calls await their answers.

    This module has the methods as tasks, which say where a call awaits
    and what it does in between.  [Async.run] runs one task with every
    answer given at once, which is the sequential reading of the
    functions above; [Async.schedule] runs several tasks, in any order of
    the answers. *)
Module Async.

(** What the calls share: the fields of the monitor, and the world. *)
Definition State : Type := (CopyTradingMonitor.t * World)%type.

(** A call that returns an [A]: what it does next. *)
Inductive Task (A : Type) : Type :=
| Return (a : A)
    (** the call returns *)
| Get (k : State -> Task A)
    (** it reads what the calls share *)
| Modify (f : State -> State) (k : Task A)
    (** it writes to what the calls share *)
| FindOne (positionId traderAddress : string) (side : TradeSide)
          (k : Completion (option ITrade.t) -> Task A)
    (** [await TradeModel.findOne(...)] *)
| Save (d : ITrade.t) (k : Completion unit -> Task A)
    (** [await trade.save()] *)
| CreateOrDeriveApiKey (k : Completion unit -> Task A)
    (** [await this.client.createOrDeriveApiKey()] *)
| CreateAndPostOrder (index : nat) (order : Order.t)
                     (k : Completion (option string) -> Task A)
    (** [await this.client.createAndPostOrder(order)], for the order
        that was submitted after [index] others *)
| SetTimeout (ms : Z) (k : Task A)
    (** [await new Promise((resolve) => setTimeout(resolve, ms))] *).
Arguments Return {A} a.
Arguments Get {A} k.
Arguments Modify {A} f k.
Arguments FindOne {A} positionId traderAddress side k.
Arguments Save {A} d k.
Arguments CreateOrDeriveApiKey {A} k.
Arguments CreateAndPostOrder {A} index order k.
Arguments SetTimeout {A} ms k.

(** One piece of code after another. *)
Fixpoint bind {A B : Type} (t : Task A) (f : A -> Task B) : Task B :=
  match t with
  | Return a => f a
  | Get k => Get (fun s => bind (k s) f)
  | Modify g k => Modify g (bind k f)
  | FindOne positionId traderAddress side k =>
      FindOne positionId traderAddress side (fun r => bind (k r) f)
  | Save d k => Save d (fun r => bind (k r) f)
  | CreateOrDeriveApiKey k => CreateOrDeriveApiKey (fun r => bind (k r) f)
  | CreateAndPostOrder index order k =>
      CreateAndPostOrder index order (fun r => bind (k r) f)
  | SetTimeout ms k => SetTimeout ms (bind k f)
  end.

Declare Scope task_scope.
Delimit Scope task_scope with task.
Notation "x <- t ;; u" := (bind t (fun x => u))
  (at level 61, t at next level, right associativity) : task_scope.
Notation "t ;; u" := (bind t (fun _ => u))
  (at level 61, right associativity) : task_scope.
Local Open Scope task_scope.

Definition getWorld : Task World := Get (fun s => Return (snd s)).

Definition getMonitor : Task CopyTradingMonitor.t :=
  Get (fun s => Return (fst s)).

Definition updateWorld (f : World -> World) : Task unit :=
  Modify (fun s => (fst s, f (snd s))) (Return tt).

Definition updateMonitor (f : CopyTradingMonitor.t -> CopyTradingMonitor.t)
    : Task unit :=
  Modify (fun s => (f (fst s), snd s)) (Return tt).

(** [for (const a of l) { b = await f(b, a) }] *)
Fixpoint forEach {A B : Type} (l : list A) (f : B -> A -> Task B) (b : B)
    : Task B :=
  match l with
  | [] => Return b
  | a :: rest => b' <- f b a ;; forEach rest f b'
  end.

Section WithConfig.
Context `{NumberOps}.
Variable config : Config.t.

(** [isDuplicateTrade(positionId, traderAddress, side)] *)
Definition isDuplicateTrade (positionId traderAddress : string)
    (side : TradeSide) : Task bool :=
  w <- getWorld ;;
  if negb w.(dbConnected) then Return false
  else
    FindOne positionId traderAddress side
            (fun existing =>
               match existing with
               | Normal (Some _) => Return true
               | Normal None => Return false
               | Throw _ => Return false
               end).

(** [saveTrade(result, traderAddress)] *)
Definition saveTrade (result : TradeExecutionResult) (traderAddress : string)
    : Task unit :=
  w <- getWorld ;;
  if (negb w.(dbConnected) || negb result.(success))%bool then Return tt
  else Save (TradeExecutor.tradeOf result traderAddress)
            (fun _ => Return tt).

(** [initialize()] *)
Definition initialize : Task (Completion unit) :=
  if config.(Config.dryRun) then Return (Normal tt)
  else
    CreateOrDeriveApiKey
      (fun derived =>
         match derived with
         | Normal _ =>
             updateWorld (fun w => setApiKeyCreated w true) ;;
             Return (Normal tt)
         | Throw message =>
             Return
               (Throw ("Failed to initialize trade executor: " ++ message)
                      %string)
         end).

(** [await this.client.createAndPostOrder(order)]: the order is
    submitted when the method is called, and answered later. *)
Definition createAndPostOrder (order : Order.t)
    : Task (Completion (option string)) :=
  w <- getWorld ;;
  updateWorld (fun w => record w (Submitted order)) ;;
  CreateAndPostOrder (List.length (orders w)) order
                     (fun response => Return response).

(** [if (!this.apiKeyCreated) await this.initialize()], then the order. *)
Definition submit (order : Order.t) : Task (Completion (option string)) :=
  w <- getWorld ;;
  initialized <-
    (if w.(apiKeyCreated) then Return (Normal tt) else initialize) ;;
  match initialized with
  | Throw message => Return (Throw message)
  | Normal _ => createAndPostOrder order
  end.

(** The end of a [try] block after the order was answered, or in a dry
    run. *)
Definition succeed (result : TradeExecutionResult) (traderAddress : string)
    : Task (Completion TradeExecutionResult) :=
  saveTrade result traderAddress ;;
  updateWorld (fun w => onTradeExecuted w result) ;;
  Return (Normal result).

(** A limit is not met: [result.error = errorMsg;
    this.config.onTradeError(new Error(errorMsg), position);
    return result]. *)
Definition refuse (result : TradeExecutionResult) (errorMsg : string)
    (position : Position) : Task (Completion TradeExecutionResult) :=
  updateWorld (fun w => onTradeError w errorMsg position) ;;
  Return (Normal (TradeExecutor.withError result errorMsg)).

(** The [try] block of [executeBuy]. *)
Definition tryBuy (position : Position) (traderAddress : string)
    (retryCount : Z) : Task (Completion TradeExecutionResult) :=
  let result := TradeExecutor.initialResult config position retryCount in
  duplicate <- isDuplicateTrade position.(id) traderAddress buy ;;
  if duplicate
  then Return (Normal (TradeExecutor.withError result "Duplicate trade"))
  else
    let tokenId := position.(id) in
    if negb (JS.truthy tokenId)
    then Return (Throw "Position ID (token ID) is missing")
    else
      let baseQuantity := parseFloat position.(quantity) in
      let tradeQuantity :=
        (baseQuantity * config.(Config.positionSizeMultiplier))%float in
      let tradePrice := parseFloat position.(price) in
      let tradeValue := (tradeQuantity * tradePrice)%float in
      if JS.lt tradeValue config.(Config.minTradeSize) then
        refuse result
               ("Trade size $" ++ toFixed tradeValue 2
                ++ " is below minimum $"
                ++ numberToString config.(Config.minTradeSize))%string
               position
      else if JS.gt tradeValue config.(Config.maxTradeSize) then
        refuse result
               ("Trade size $" ++ toFixed tradeValue 2
                ++ " exceeds maximum $"
                ++ numberToString config.(Config.maxTradeSize))%string
               position
      else
        let positionValue :=
          (parseFloat (JS.orElse position.(value) "0")
           * config.(Config.positionSizeMultiplier))%float in
        if JS.gt positionValue config.(Config.maxPositionSize) then
          refuse result
                 ("Position size $" ++ toFixed positionValue 2
                  ++ " exceeds maximum $"
                  ++ numberToString config.(Config.maxPositionSize))%string
                 position
        else if config.(Config.dryRun) then
          succeed (TradeExecutor.withSuccess result None tradeQuantity
                                             tradePrice)
                  traderAddress
        else
          response <-
            submit (Order.mk tokenId tradePrice tradeQuantity Order.BUY) ;;
          match response with
          | Throw message => Return (Throw message)
          | Normal orderID =>
              succeed (TradeExecutor.withSuccess result orderID tradeQuantity
                                                 tradePrice)
                      traderAddress
          end.

(** The [try] block of [executeSell]. *)
Definition trySell (position : Position) (traderAddress : string)
    (retryCount : Z) : Task (Completion TradeExecutionResult) :=
  let result := TradeExecutor.initialResult config position retryCount in
  let tokenId := position.(id) in
  if negb (JS.truthy tokenId)
  then Return (Throw "Position ID (token ID) is missing")
  else
    let baseQuantity := parseFloat position.(quantity) in
    let tradeQuantity :=
      (baseQuantity * config.(Config.positionSizeMultiplier))%float in
    let tradePrice := parseFloat position.(price) in
    if config.(Config.dryRun) then
      succeed (TradeExecutor.withSuccess result None tradeQuantity tradePrice)
              traderAddress
    else
      response <-
        submit (Order.mk tokenId tradePrice tradeQuantity Order.SELL) ;;
      match response with
      | Throw message => Return (Throw message)
      | Normal orderID =>
          succeed (TradeExecutor.withSuccess result orderID tradeQuantity
                                             tradePrice)
                  traderAddress
      end.

(** The last part of both [catch] blocks, reached when no retry is
    left. *)
Definition giveUp (position : Position) (traderAddress : string)
    (retryCount : Z) (message : string) : Task TradeExecutionResult :=
  let errorMsg := JS.orElse message "Unknown error" in
  let result :=
    TradeExecutor.withError
      (TradeExecutor.initialResult config position retryCount) errorMsg in
  saveTrade result traderAddress ;;
  updateWorld (fun w => onTradeError w message position) ;;
  Return result.

(** [try { ... } catch { retry or give up }], for either side, with
    [budget] as in [TradeExecutor.withRetry]. *)
Fixpoint withRetry
    (attempt : Position -> string -> Z ->
               Task (Completion TradeExecutionResult))
    (budget : nat) (position : Position) (traderAddress : string)
    (retryCount : Z) : Task TradeExecutionResult :=
  attempted <- attempt position traderAddress retryCount ;;
  match attempted with
  | Normal result => Return result
  | Throw message =>
      if (retryCount <? config.(Config.maxRetryAttempts))%Z then
        match budget with
        | S budget' =>
            SetTimeout config.(Config.retryDelay)
                       (withRetry attempt budget' position traderAddress
                                  (retryCount + 1)%Z)
        | O => giveUp position traderAddress retryCount message
        end
      else giveUp position traderAddress retryCount message
  end.

(** [executeBuy(position, traderAddress, retryCount = 0)] *)
Definition executeBuy (position : Position) (traderAddress : string)
    (retryCount : Z) : Task TradeExecutionResult :=
  withRetry tryBuy (TradeExecutor.retriesLeft config retryCount)
            position traderAddress retryCount.

(** [executeSell(position, traderAddress, retryCount = 0)] *)
Definition executeSell (position : Position) (traderAddress : string)
    (retryCount : Z) : Task TradeExecutionResult :=
  withRetry trySell (TradeExecutor.retriesLeft config retryCount)
            position traderAddress retryCount.

End WithConfig.

Section WithNumberOps.
Context `{NumberOps}.

(** [executedForTrader.add(id)] and [executedForTrader.delete(id)].  The
    set of a trader who has one in [executedPositions] is that set, which
    all calls share; for a trader without one it is a set of the call's
    own, which is not read after the first lines of the call. *)
Definition updateExecuted (stored : bool) (traderAddress : string)
    (f : JSSet.t -> JSSet.t) : Task unit :=
  if stored then
    updateMonitor
      (fun m =>
         CopyTradingMonitor.mk
           m.(CopyTradingMonitor.config) m.(CopyTradingMonitor.stats)
           (JSMap.set m.(CopyTradingMonitor.executedPositions) traderAddress
                      (f (TradeExecutor.orDefault
                            (JSMap.get m.(CopyTradingMonitor.executedPositions)
                                       traderAddress)
                            JSSet.empty)))
           m.(CopyTradingMonitor.targetPositions))
  else Return tt.

(** [this.stats.totalTradesExecuted++] and the like. *)
Definition updateStats (f : CopyTradingStatus.t -> CopyTradingStatus.t)
    : Task unit :=
  updateMonitor
    (fun m =>
       CopyTradingMonitor.mk
         m.(CopyTradingMonitor.config) (f m.(CopyTradingMonitor.stats))
         m.(CopyTradingMonitor.executedPositions)
         m.(CopyTradingMonitor.targetPositions)).

(** The body of [for (const position of newPositions)]; [done] is the
    list of the executions of the call so far. *)
Definition buyStep (executor : Config.t) (traderAddress : string)
    (stored : bool) (done : list CopyTradingMonitor.Execution)
    (position : Position) : Task (list CopyTradingMonitor.Execution) :=
  result <- executeBuy executor position traderAddress 0 ;;
  (if result.(success) then
     updateExecuted stored traderAddress
                    (fun s => JSSet.add s position.(id)) ;;
     updateStats (fun stats => CopyTradingMonitor.countExecuted stats result)
   else updateStats CopyTradingMonitor.countFailed) ;;
  Return (done ++ [(buy, result)]).

(** The body of [for (const position of closedPositions)]. *)
Definition sellStep (executor : Config.t) (traderAddress : string)
    (stored : bool) (done : list CopyTradingMonitor.Execution)
    (position : Position) : Task (list CopyTradingMonitor.Execution) :=
  result <- executeSell executor position traderAddress 0 ;;
  (if result.(success) then
     updateExecuted stored traderAddress
                    (fun s => JSSet.delete s position.(id)) ;;
     updateStats (fun stats => CopyTradingMonitor.countExecuted stats result)
   else updateStats CopyTradingMonitor.countFailed) ;;
  Return (done ++ [(sell, result)]).

(** The last two statements of [handleStatusUpdate]. *)
Definition remember (traderAddress : string)
    (currentPositions : JSMap.t Position) (m : CopyTradingMonitor.t)
    : CopyTradingMonitor.t :=
  let targetPositions' :=
    JSMap.set m.(CopyTradingMonitor.targetPositions) traderAddress
              currentPositions in
  let activePositions :=
    fold_left (fun sum positions => (sum + Z.of_nat (JSMap.size positions))%Z)
              (JSMap.values targetPositions') 0%Z in
  CopyTradingMonitor.mk
    m.(CopyTradingMonitor.config)
    (CopyTradingMonitor.setActivePositions m.(CopyTradingMonitor.stats)
                                           activePositions)
    m.(CopyTradingMonitor.executedPositions) targetPositions'.

(** [handleStatusUpdate(status, traderAddress)]: the new and the closed
    positions are found when the call starts, from what the monitor
    remembers then; the remembered positions are replaced when the call
    ends.  The task returns the executions of the call. *)
Definition handleStatusUpdate (status : TradingStatus)
    (traderAddress : string) : Task (list CopyTradingMonitor.Execution) :=
  m <- getMonitor ;;
  let executor := TradeExecutor.constructor m.(CopyTradingMonitor.config) in
  let currentPositions := CopyTradingMonitor.currentPositionsOf status in
  let lastPositions :=
    TradeExecutor.orDefault
      (JSMap.get m.(CopyTradingMonitor.targetPositions) traderAddress)
      JSMap.empty in
  let stored :=
    JSMap.get m.(CopyTradingMonitor.executedPositions) traderAddress in
  let executedForTrader := TradeExecutor.orDefault stored JSSet.empty in
  let newPositions :=
    CopyTradingMonitor.newPositionsOf currentPositions lastPositions
                                      executedForTrader in
  let closedPositions :=
    CopyTradingMonitor.closedPositionsOf currentPositions lastPositions
                                         executedForTrader in
  let isStored := match stored with Some _ => true | None => false end in
  done <- forEach newPositions (buyStep executor traderAddress isStored) [] ;;
  done <-
    forEach closedPositions (sellStep executor traderAddress isStored) done ;;
  updateMonitor (remember traderAddress currentPositions) ;;
  Return done.

End WithNumberOps.

(** ** One call alone *)

Section WithEnv.
Variable env : Env.

(** A task with every answer given as soon as it is awaited: the answer
    of the database is that of [TradeModel], the other answers are those
    of the environment. *)
Fixpoint run {A : Type} (t : Task A) (s : State) : A * State :=
  match t with
  | Return a => (a, s)
  | Get k => run (k s) s
  | Modify f k => run k (f s)
  | FindOne positionId traderAddress side k =>
      let '(found, w) :=
        TradeModel.findOne env positionId traderAddress side (snd s) in
      run (k found) (fst s, w)
  | Save d k =>
      let '(saved, w) := TradeModel.save env d (snd s) in
      run (k saved) (fst s, w)
  | CreateOrDeriveApiKey k =>
      run (k (env.(deriveApiKey) (snd s).(keyCalls)))
          (fst s, countKeyCall (snd s))
  | CreateAndPostOrder index order k =>
      run (k (env.(postOrder) index order)) s
  | SetTimeout ms k => run k (fst s, setTimeout (snd s) ms)
  end.

(** ** Several calls *)

(** A task runs until it awaits an answer, or returns. *)
Fixpoint advance {A : Type} (t : Task A) (s : State) : Task A * State :=
  match t with
  | Get k => advance (k s) s
  | Modify f k => advance k (f s)
  | _ => (t, s)
  end.

(** The answer a task awaits arrives, and the task goes on until it
    awaits the next one.  The database does what is asked when it
    answers. *)
Definition settle {A : Type} (t : Task A) (s : State) : Task A * State :=
  match t with
  | FindOne positionId traderAddress side k =>
      let '(found, w) :=
        TradeModel.findOne env positionId traderAddress side (snd s) in
      advance (k found) (fst s, w)
  | Save d k =>
      let '(saved, w) := TradeModel.save env d (snd s) in
      advance (k saved) (fst s, w)
  | CreateOrDeriveApiKey k =>
      advance (k (env.(deriveApiKey) (snd s).(keyCalls)))
              (fst s, countKeyCall (snd s))
  | CreateAndPostOrder index order k =>
      advance (k (env.(postOrder) index order)) s
  | SetTimeout ms k => advance k (fst s, setTimeout (snd s) ms)
  | _ => (t, s)
  end.

End WithEnv.

(** The calls of [handleStatusUpdate] that were started, oldest first,
    each where it awaits, or returned. *)
Definition Calls : Type := list (Task (list CopyTradingMonitor.Execution)).

(** What happens next: the account monitor calls [onUpdate] with a
    status; the answer that call number [call] awaits arrives; or the
    database deletes the documents that are [old]. *)
Inductive Action : Type :=
| Deliver (status : TradingStatus) (address : string)
| Settle (call : nat)
| Expire (old : ITrade.t -> bool).

Fixpoint replace {A : Type} (n : nat) (a : A) (l : list A) : list A :=
  match l, n with
  | [], _ => []
  | _ :: rest, O => a :: rest
  | b :: rest, S n' => b :: replace n' a rest
  end.

Section Scheduling.
Context `{NumberOps}.
Variable env : Env.

Definition step (now : State * Calls) (action : Action) : State * Calls :=
  let '(s, calls) := now in
  match action with
  | Deliver status address =>
      if (fst s).(CopyTradingMonitor.config).(CopyTradingConfig.enabled)
      then
        let '(call, s') := advance (handleStatusUpdate status address) s in
        (s', calls ++ [call])
      else (s, calls)
  | Settle n =>
      match nth_error calls n with
      | Some call =>
          let '(call', s') := settle env call s in
          (s', replace n call' calls)
      | None => (s, calls)
      end
  | Expire old => ((fst s, TradeModel.expire old (snd s)), calls)
  end.

Definition schedule (actions : list Action) (now : State * Calls)
    : State * Calls :=
  fold_left step actions now.

End Scheduling.

(** What call number [n] returned, when it has. *)
Definition returned (calls : Calls) (n : nat)
    : option (list CopyTradingMonitor.Execution) :=
  match nth_error calls n with
  | Some (Return done) => Some done
  | _ => None
  end.

(** The updates of a trader handled one at a time: each status is
    delivered and the answers its call awaits arrive, as many as
    [counts] says, before the next status is delivered.  [call] is the
    number of the first call. *)
Fixpoint oneAtATime (address : string) (call : nat)
    (statuses : list TradingStatus) (counts : list nat) : list Action :=
  match statuses, counts with
  | status :: statuses', count :: counts' =>
      Deliver status address
      :: repeat (Settle call) count
         ++ oneAtATime address (S call) statuses' counts'
  | _, _ => []
  end.

End Async.

(* ================================================================== *)
(** * Facts about maps and sets *)
(* ================================================================== *)

Module JSMapFacts.
Section WithValue.
Context {V : Type}.
Implicit Types (m : JSMap.t V) (k : string) (v : V).

Lemma has_get m k : JSMap.has m k = true <-> exists v, JSMap.get m k = Some v.
Proof.
  induction m as [ | [k' v'] m IH]; simpl.
  - split; [discriminate | intros [v Hv]; discriminate].
  - destruct (String.eqb k' k); [ | exact IH].
    split; [eauto | reflexivity].
Qed.

Lemma get_has m k v : JSMap.get m k = Some v -> JSMap.has m k = true.
Proof. intros Hg. apply has_get. eauto. Qed.

Lemma get_In m k v : JSMap.get m k = Some v -> In (k, v) m.
Proof.
  induction m as [ | [k' v'] m IH]; simpl; [discriminate | ].
  destruct (String.eqb_spec k' k) as [-> | Hne].
  - intros [= ->]. now left.
  - intros Hg. right. auto.
Qed.

Lemma In_has m k v : In (k, v) m -> JSMap.has m k = true.
Proof.
  induction m as [ | [k' v'] m IH]; simpl; [tauto | ].
  intros [[= -> ->] | Hin].
  - now rewrite String.eqb_refl.
  - destruct (String.eqb k' k); auto.
Qed.

Lemma keys_has m k : In k (JSMap.keys m) -> JSMap.has m k = true.
Proof.
  unfold JSMap.keys. rewrite in_map_iff. intros [[k' v] [Hk Hin]].
  simpl in Hk. subst k'. eapply In_has; eauto.
Qed.

Lemma has_set m k v k' :
  JSMap.has (JSMap.set m k v) k' = (JSMap.has m k' || String.eqb k k')%bool.
Proof.
  induction m as [ | [k0 v0] m IH]; simpl.
  - destruct (String.eqb k k'); reflexivity.
  - destruct (String.eqb_spec k0 k) as [-> | Hne]; simpl.
    + destruct (String.eqb k k'); [reflexivity | now rewrite orb_false_r].
    + rewrite IH. destruct (String.eqb k0 k'); reflexivity.
Qed.

Lemma get_set_same m k v : JSMap.get (JSMap.set m k v) k = Some v.
Proof.
  induction m as [ | [k0 v0] m IH]; simpl.
  - now rewrite String.eqb_refl.
  - destruct (String.eqb_spec k0 k) as [-> | Hne]; simpl.
    + now rewrite String.eqb_refl.
    + apply String.eqb_neq in Hne. now rewrite Hne.
Qed.

Lemma get_set_other m k v k' :
  k <> k' -> JSMap.get (JSMap.set m k v) k' = JSMap.get m k'.
Proof.
  intros Hne. induction m as [ | [k0 v0] m IH]; simpl.
  - apply String.eqb_neq in Hne. now rewrite Hne.
  - destruct (String.eqb_spec k0 k) as [-> | Hne0]; simpl.
    + apply String.eqb_neq in Hne. now rewrite Hne.
    + rewrite IH. reflexivity.
Qed.

Lemma keyedBy_set (key : V -> string) m v :
  JSMap.keyedBy key m -> JSMap.keyedBy key (JSMap.set m (key v) v).
Proof.
  induction m as [ | [k0 v0] m IH]; simpl; intros Hm k v1.
  - intros [[= <- <-] | []]. reflexivity.
  - destruct (String.eqb_spec k0 (key v)) as [-> | Hne]; simpl.
    + intros [[= <- <-] | Hin]; [reflexivity | ].
      apply Hm. now right.
    + intros [[= <- <-] | Hin].
      * apply Hm. now left.
      * apply IH; [ | exact Hin]. intros k' v' H'. apply Hm. now right.
Qed.

Lemma keys_set_NoDup m k v :
  NoDup (JSMap.keys m) -> NoDup (JSMap.keys (JSMap.set m k v)).
Proof.
  induction m as [ | [k0 v0] m IH]; simpl; intros Hnd.
  - constructor; [intros [] | constructor].
  - inversion Hnd as [ | ? ? Hnotin Hnd']; subst.
    destruct (String.eqb_spec k0 k) as [-> | Hne]; simpl.
    + constructor; assumption.
    + constructor; [ | now apply IH].
      intros Hin. apply keys_has in Hin. rewrite has_set in Hin.
      apply orb_true_iff in Hin. destruct Hin as [Hin | Hin].
      * apply Hnotin. apply has_get in Hin. destruct Hin as [v1 Hv1].
        apply get_In in Hv1. unfold JSMap.keys. apply in_map_iff.
        now exists (k0, v1).
      * apply String.eqb_eq in Hin. congruence.
Qed.

End WithValue.
End JSMapFacts.

Module JSSetFacts.

Lemma has_add s k k' :
  JSSet.has (JSSet.add s k) k' = (JSSet.has s k' || String.eqb k k')%bool.
Proof.
  unfold JSSet.add. destruct (JSSet.has s k) eqn:Hk.
  - destruct (String.eqb_spec k k') as [<- | Hne].
    + now rewrite Hk.
    + now rewrite orb_false_r.
  - clear Hk. induction s as [ | k0 s IH]; simpl.
    + destruct (String.eqb k k'); reflexivity.
    + rewrite IH. destruct (String.eqb k0 k'); reflexivity.
Qed.

Lemma has_delete s k k' :
  JSSet.has (JSSet.delete s k) k'
  = (JSSet.has s k' && negb (String.eqb k k'))%bool.
Proof.
  induction s as [ | k0 s IH]; simpl.
  - reflexivity.
  - destruct (String.eqb_spec k0 k) as [-> | Hne]; simpl.
    + rewrite IH. destruct (String.eqb k k'); simpl.
      * now rewrite andb_false_r.
      * reflexivity.
    + rewrite IH. destruct (String.eqb_spec k0 k') as [<- | Hne'].
      * destruct (String.eqb_spec k k0); [congruence | reflexivity].
      * reflexivity.
Qed.

End JSSetFacts.

(* ================================================================== *)
(** * Facts about numbers *)
(* ================================================================== *)

Module FloatFacts.

Lemma SFcompare_refl (x : spec_float) :
  x <> S754_nan -> SFcompare x x = Some Eq.
Proof.
  destruct x as [s | s | | s m e]; simpl; intros Hx;
    try congruence; try (now destruct s).
  destruct s; rewrite Z.compare_refl, Pos.compare_cont_refl; reflexivity.
Qed.

Lemma SFcompare_antisym (x y : spec_float) :
  SFcompare y x = option_map CompOpp (SFcompare x y).
Proof.
  destruct x as [s1 | s1 | | s1 m1 e1], y as [s2 | s2 | | s2 m2 e2];
    simpl; try reflexivity;
    try (destruct s1; reflexivity); try (destruct s2; reflexivity);
    try (destruct s1, s2; reflexivity).
  destruct s1, s2; simpl; try reflexivity;
    rewrite (Z.compare_antisym e1 e2);
    destruct (e1 ?= e2)%Z; simpl; try reflexivity;
    rewrite (Pos.compare_cont_antisym m1 m2 Eq); simpl;
    try rewrite CompOpp_involutive; reflexivity.
Qed.

Lemma SFcompare_finite_Eq s m e (y : spec_float) :
  SFcompare (S754_finite s m e) y = Some Eq -> y = S754_finite s m e.
Proof.
  destruct y as [s2 | s2 | | s2 m2 e2]; simpl;
    try (destruct s; discriminate); try (destruct s2; discriminate);
    try discriminate.
  destruct s, s2; try discriminate;
    destruct (e ?= e2)%Z eqn:He; try discriminate;
    apply Z.compare_eq in He; subst e2; intros Hm; f_equal;
    injection Hm as Hm.
  - apply (f_equal CompOpp) in Hm. rewrite CompOpp_involutive in Hm.
    simpl in Hm. symmetry. now apply Pos.compare_eq.
  - symmetry. now apply Pos.compare_eq.
Qed.

Lemma ltb_irrefl (x : float) : (x <? x)%float = false.
Proof.
  rewrite ltb_spec. unfold SFltb.
  destruct (Prim2SF x) eqn:Hx; try reflexivity;
    rewrite SFcompare_refl by discriminate; reflexivity.
Qed.

Lemma ltb_nan_l (x : float) : (nan <? x)%float = false.
Proof. rewrite ltb_spec. reflexivity. Qed.

Lemma leb_not_nan (x y : float) :
  (x <=? y)%float = true -> is_nan y = false.
Proof.
  rewrite leb_spec. unfold is_nan. rewrite eqb_spec. unfold SFleb, SFeqb.
  destruct (Prim2SF y) eqn:Hy.
  - now rewrite SFcompare_refl.
  - now rewrite SFcompare_refl.
  - destruct (Prim2SF x); simpl; discriminate.
  - now rewrite SFcompare_refl.
Qed.

Lemma leb_ltb_false (x y : float) :
  (x <=? y)%float = true -> (y <? x)%float = false.
Proof.
  rewrite leb_spec, ltb_spec. unfold SFleb, SFltb.
  rewrite (SFcompare_antisym (Prim2SF x) (Prim2SF y)).
  destruct (SFcompare (Prim2SF x) (Prim2SF y)) as [[ | | ] | ]; simpl;
    congruence.
Qed.

Lemma one_leb_not_ltb (x : float) :
  (1 <=? x)%float = true -> (1 <? x)%float = false -> x = 1%float.
Proof.
  rewrite leb_spec, ltb_spec. unfold SFleb, SFltb.
  destruct (SFcompare (Prim2SF 1) (Prim2SF x)) as [[ | | ] | ] eqn:Hc;
    try discriminate.
  intros _ _. apply Prim2SF_inj.
  change (Prim2SF 1) with (S754_finite false 4503599627370496 (-52)) in *.
  now apply SFcompare_finite_Eq in Hc.
Qed.

(** [Math.max(1, x)] is never below [x]. *)
Lemma max_one_not_ltb (x : float) : (Math.max 1 x <? x)%float = false.
Proof.
  unfold Math.max. change (is_nan 1) with false. simpl orb.
  destruct (is_nan x); [apply ltb_nan_l | ].
  destruct (1 <? x)%float eqn:H1; [apply ltb_irrefl | ].
  destruct (x <? 1)%float; [exact H1 | ].
  change (get_sign 1) with false. exact H1.
Qed.

(** Above 1, [Math.max(1, x)] is [x]. *)
Lemma max_one_above (x : float) :
  (1 <=? x)%float = true -> Math.max 1 x = x.
Proof.
  intros Hx. unfold Math.max. change (is_nan 1) with false. simpl orb.
  rewrite (leb_not_nan _ _ Hx).
  destruct (1 <? x)%float eqn:H1; [reflexivity | ].
  rewrite (leb_ltb_false _ _ Hx). change (get_sign 1) with false.
  symmetry. now apply one_leb_not_ltb.
Qed.

End FloatFacts.

(* ================================================================== *)
(** * Facts about the execution engine *)
(* ================================================================== *)

Lemma ordersIn_app (l1 l2 : list Event) :
  ordersIn (l1 ++ l2) = ordersIn l1 ++ ordersIn l2.
Proof.
  induction l1 as [ | [o | ms | r | msg p] l1 IH]; simpl; congruence.
Qed.

Section ExecutorFacts.
Context `{NumberOps}.
Variable config : Config.t.
Variable env : Env.

Abbreviation tryBuy := (TradeExecutor.tryBuy config env).
Abbreviation trySell := (TradeExecutor.trySell config env).
Abbreviation executeBuy := (TradeExecutor.executeBuy config env).
Abbreviation executeSell := (TradeExecutor.executeSell config env).
Abbreviation withRetry := (TradeExecutor.withRetry config env).
Abbreviation giveUp := (TradeExecutor.giveUp config env).
Abbreviation saveTrade := (TradeExecutor.saveTrade env).
Abbreviation isDuplicateTrade := (TradeExecutor.isDuplicateTrade env).
Abbreviation initialResult := (TradeExecutor.initialResult config).
Abbreviation retriesLeft := (TradeExecutor.retriesLeft config).
Abbreviation Attempt :=
  (Position -> string -> Z -> World -> Completion TradeExecutionResult * World).

(** The recursive equation of [executeBuy] and [executeSell], as the source
    has it: the retry is the same method on [retryCount + 1]. *)
Lemma withRetry_unfold (attempt : Attempt) (p : Position) (t : string)
    (rc : Z) (w : World) :
  withRetry attempt (retriesLeft rc) p t rc w
  = match attempt p t rc w with
    | (Normal result, w') => (result, w')
    | (Throw message, w') =>
        if (rc <? config.(Config.maxRetryAttempts))%Z
        then withRetry attempt (retriesLeft (rc + 1)) p t (rc + 1)%Z
                       (setTimeout w' config.(Config.retryDelay))
        else giveUp p t rc message w'
    end.
Proof.
  unfold TradeExecutor.retriesLeft.
  destruct (rc <? Config.maxRetryAttempts config)%Z eqn:Hlt.
  - apply Z.ltb_lt in Hlt.
    replace (Config.maxRetryAttempts config - rc)%Z
      with (Z.succ (Config.maxRetryAttempts config - (rc + 1)))%Z by lia.
    rewrite Z2Nat.inj_succ by lia. simpl.
    destruct (attempt p t rc w) as [[result | message] w']; [reflexivity | ].
    apply Z.ltb_lt in Hlt. now rewrite Hlt.
  - destruct (Z.to_nat _); simpl;
      destruct (attempt p t rc w) as [[result | message] w'];
      try reflexivity; now rewrite Hlt.
Qed.

Lemma executeBuy_unfold (p : Position) (t : string) (rc : Z) (w : World) :
  executeBuy p t rc w
  = match tryBuy p t rc w with
    | (Normal result, w') => (result, w')
    | (Throw message, w') =>
        if (rc <? config.(Config.maxRetryAttempts))%Z
        then executeBuy p t (rc + 1)%Z
                        (setTimeout w' config.(Config.retryDelay))
        else giveUp p t rc message w'
    end.
Proof. apply withRetry_unfold. Qed.

Lemma executeSell_unfold (p : Position) (t : string) (rc : Z) (w : World) :
  executeSell p t rc w
  = match trySell p t rc w with
    | (Normal result, w') => (result, w')
    | (Throw message, w') =>
        if (rc <? config.(Config.maxRetryAttempts))%Z
        then executeSell p t (rc + 1)%Z
                         (setTimeout w' config.(Config.retryDelay))
        else giveUp p t rc message w'
    end.
Proof. apply withRetry_unfold. Qed.

(** Induction over the attempts of one call. *)
Lemma withRetry_ind (attempt : Attempt) (p : Position) (t : string)
    (P : Z -> World -> TradeExecutionResult * World -> Prop) :
  (forall rc w result w',
      attempt p t rc w = (Normal result, w') -> P rc w (result, w')) ->
  (forall rc w message w',
      attempt p t rc w = (Throw message, w') ->
      P rc w (giveUp p t rc message w')) ->
  (forall rc w message w' res,
      attempt p t rc w = (Throw message, w') ->
      P (rc + 1)%Z (setTimeout w' config.(Config.retryDelay)) res ->
      P rc w res) ->
  forall budget rc w, P rc w (withRetry attempt budget p t rc w).
Proof.
  intros Hnormal Hgive Hretry.
  induction budget as [ | budget IH]; intros rc w; simpl;
    destruct (attempt p t rc w) as [[result | message] w'] eqn:Ha;
    try (now apply Hnormal);
    destruct (rc <? Config.maxRetryAttempts config)%Z;
    try (now apply Hgive).
  eapply Hretry; [exact Ha | apply IH].
Qed.


(** ** The duplicate check *)

Lemma existsb_find {A : Type} (f : A -> bool) (l : list A) :
  existsb f l = match find f l with Some _ => true | None => false end.
Proof.
  induction l as [ | a l IH]; simpl; [reflexivity | ].
  destruct (f a); [reflexivity | exact IH].
Qed.

(** The check changes nothing but the count of driver calls. *)
Lemma isDuplicateTrade_world (positionId t : string) (side : TradeSide)
    (w : World) :
  snd (isDuplicateTrade positionId t side w) = w
  \/ snd (isDuplicateTrade positionId t side w) = countDbCall w.
Proof.
  unfold TradeExecutor.isDuplicateTrade, TradeModel.findOne.
  destruct (dbConnected w); simpl; [ | now left].
  destruct (dbFault env (dbCalls w)); simpl; [now right | ].
  destruct (find _ _); now right.
Qed.

(** It answers [true] only for a recorded trade of a connected store. *)
Lemma isDuplicateTrade_true (positionId t : string) (side : TradeSide)
    (w : World) :
  fst (isDuplicateTrade positionId t side w) = true ->
  dbConnected w = true /\ Spec.recorded w positionId t side = true.
Proof.
  unfold TradeExecutor.isDuplicateTrade, TradeModel.findOne, Spec.recorded.
  rewrite existsb_find.
  destruct (dbConnected w); simpl; [ | discriminate].
  destruct (dbFault env (dbCalls w)); simpl; [discriminate | ].
  destruct (find _ _); simpl; [auto | discriminate].
Qed.

(** With the store connected and the driver answering, it answers whether
    the trade is recorded. *)
Lemma isDuplicateTrade_recorded (positionId t : string) (side : TradeSide)
    (w : World) :
  dbConnected w = true ->
  dbFault env (dbCalls w) = None ->
  isDuplicateTrade positionId t side w
  = (Spec.recorded w positionId t side, countDbCall w).
Proof.
  intros Hc Hf.
  unfold TradeExecutor.isDuplicateTrade, TradeModel.findOne, Spec.recorded.
  rewrite existsb_find, Hc, Hf. simpl.
  destruct (find _ _); reflexivity.
Qed.

(** ** Saving *)

Lemma saveTrade_failed (r : TradeExecutionResult) (t : string) (w : World) :
  success r = false -> saveTrade r t w = w.
Proof.
  intros Hr. unfold TradeExecutor.saveTrade. rewrite Hr.
  now rewrite orb_true_r.
Qed.

(** [saveTrade] leaves the world as it is, or counts one driver call, or
    counts it and inserts the document. *)
Lemma saveTrade_world (r : TradeExecutionResult) (t : string) (w : World) :
  saveTrade r t w = w
  \/ saveTrade r t w = countDbCall w
  \/ (dbConnected w = true /\ success r = true
      /\ saveTrade r t w
         = setTrades (countDbCall w)
                     (trades w ++ [TradeExecutor.tradeOf r t])).
Proof.
  unfold TradeExecutor.saveTrade, TradeModel.save.
  destruct (dbConnected w); simpl; [ | now left].
  destruct (success r); simpl; [ | now left].
  destruct (TradeModel.valid _); simpl; [ | now left].
  destruct (dbFault env (dbCalls w)); simpl; [right; now left | ].
  destruct (existsb _ _); simpl; [right; now left | ].
  right; right. auto.
Qed.

Lemma saveTrade_inserts (r : TradeExecutionResult) (t : string) (w : World) :
  success r = true ->
  dbConnected w = true ->
  env.(dbFault) w.(dbCalls) = None ->
  TradeModel.valid (TradeExecutor.tradeOf r t) = true ->
  existsb (TradeModel.sameKey (TradeExecutor.tradeOf r t)) w.(trades) = false ->
  saveTrade r t w
  = setTrades (countDbCall w) (trades w ++ [TradeExecutor.tradeOf r t]).
Proof.
  intros Hs Hc Hf Hv Hk. unfold TradeExecutor.saveTrade, TradeModel.save.
  rewrite Hc, Hs, Hv, Hf, Hk. reflexivity.
Qed.

Lemma saveTrade_timeline (r : TradeExecutionResult) (t : string) (w : World) :
  timeline (saveTrade r t w) = timeline w.
Proof.
  destruct (saveTrade_world r t w) as [-> | [-> | (_ & _ & ->)]]; reflexivity.
Qed.

Lemma saveTrade_dbConnected (r : TradeExecutionResult) (t : string)
    (w : World) :
  dbConnected (saveTrade r t w) = dbConnected w.
Proof.
  destruct (saveTrade_world r t w) as [-> | [-> | (_ & _ & ->)]]; reflexivity.
Qed.


(** ** Orders *)

Lemma orders_record (w : World) (e : Event) :
  orders (record w e) = orders w ++ ordersIn [e].
Proof. unfold orders, record. simpl. apply ordersIn_app. Qed.

Lemma orders_setTimeout (w : World) (ms : Z) :
  orders (setTimeout w ms) = orders w.
Proof. unfold setTimeout. rewrite orders_record. apply app_nil_r. Qed.

Lemma orders_onTradeError (w : World) (message : string) (p : Position) :
  orders (onTradeError w message p) = orders w.
Proof. unfold onTradeError. rewrite orders_record. apply app_nil_r. Qed.

Lemma orders_onTradeExecuted (w : World) (r : TradeExecutionResult) :
  orders (onTradeExecuted w r) = orders w.
Proof. unfold onTradeExecuted. rewrite orders_record. apply app_nil_r. Qed.

Lemma orders_saveTrade (r : TradeExecutionResult) (t : string) (w : World) :
  orders (saveTrade r t w) = orders w.
Proof. unfold orders. now rewrite saveTrade_timeline. Qed.

Lemma orders_isDuplicateTrade (positionId t : string) (side : TradeSide)
    (w : World) :
  orders (snd (isDuplicateTrade positionId t side w)) = orders w.
Proof.
  destruct (isDuplicateTrade_world positionId t side w) as [-> | ->];
    reflexivity.
Qed.

(** ** The two [try] blocks, case by case *)

Lemma tryBuy_eq (p : Position) (t : string) (rc : Z) (w : World) :
  tryBuy p t rc w
  = let result := initialResult p rc in
    let w0 := snd (isDuplicateTrade p.(id) t buy w) in
    if fst (isDuplicateTrade p.(id) t buy w)
    then (Normal (TradeExecutor.withError result "Duplicate trade"), w0)
    else if negb (JS.truthy p.(id))
    then (Throw "Position ID (token ID) is missing", w0)
    else if Spec.belowMinimum config p then
      let errorMsg :=
        ("Trade size $" ++ toFixed (Spec.tradeValue config p) 2
         ++ " is below minimum $"
         ++ numberToString config.(Config.minTradeSize))%string in
      (Normal (TradeExecutor.withError result errorMsg),
       onTradeError w0 errorMsg p)
    else if Spec.aboveMaximum config p then
      let errorMsg :=
        ("Trade size $" ++ toFixed (Spec.tradeValue config p) 2
         ++ " exceeds maximum $"
         ++ numberToString config.(Config.maxTradeSize))%string in
      (Normal (TradeExecutor.withError result errorMsg),
       onTradeError w0 errorMsg p)
    else if Spec.positionLimitExceeded config p then
      let errorMsg :=
        ("Position size $" ++ toFixed (Spec.positionValue config p) 2
         ++ " exceeds maximum $"
         ++ numberToString config.(Config.maxPositionSize))%string in
      (Normal (TradeExecutor.withError result errorMsg),
       onTradeError w0 errorMsg p)
    else if config.(Config.dryRun) then
      let result :=
        TradeExecutor.withSuccess result None (Spec.tradeQuantity config p)
                                  (Spec.tradePrice p) in
      (Normal result, onTradeExecuted (saveTrade result t w0) result)
    else
      match TradeExecutor.submit config env (Spec.buyOrder config p) w0 with
      | (Throw message, w1) => (Throw message, w1)
      | (Normal orderID, w1) =>
          let result :=
            TradeExecutor.withSuccess result orderID
                                      (Spec.tradeQuantity config p)
                                      (Spec.tradePrice p) in
          (Normal result, onTradeExecuted (saveTrade result t w1) result)
      end.
Proof.
  unfold TradeExecutor.tryBuy.
  destruct (isDuplicateTrade (id p) t buy w) as [duplicate w0].
  reflexivity.
Qed.

Lemma trySell_eq (p : Position) (t : string) (rc : Z) (w : World) :
  trySell p t rc w
  = let result := initialResult p rc in
    if negb (JS.truthy p.(id))
    then (Throw "Position ID (token ID) is missing", w)
    else if config.(Config.dryRun) then
      let result :=
        TradeExecutor.withSuccess result None (Spec.tradeQuantity config p)
                                  (Spec.tradePrice p) in
      (Normal result, onTradeExecuted (saveTrade result t w) result)
    else
      match TradeExecutor.submit config env (Spec.sellOrder config p) w with
      | (Throw message, w1) => (Throw message, w1)
      | (Normal orderID, w1) =>
          let result :=
            TradeExecutor.withSuccess result orderID
                                      (Spec.tradeQuantity config p)
                                      (Spec.tradePrice p) in
          (Normal result, onTradeExecuted (saveTrade result t w1) result)
      end.
Proof. reflexivity. Qed.

(** [submit] either throws before the order (the API key could not be
    derived) or submits the order once. *)
Lemma submit_cases (order : Order.t) (w : World) :
  (exists message w1,
      TradeExecutor.submit config env order w = (Throw message, w1)
      /\ apiKeyCreated w = false
      /\ timeline w1 = timeline w /\ trades w1 = trades w
      /\ dbConnected w1 = dbConnected w /\ dbCalls w1 = dbCalls w)
  \/ (exists w1,
         TradeExecutor.submit config env order w
         = (env.(postOrder) (List.length (orders w1)) order,
            record w1 (Submitted order))
         /\ timeline w1 = timeline w /\ trades w1 = trades w
         /\ dbConnected w1 = dbConnected w /\ dbCalls w1 = dbCalls w
         /\ (apiKeyCreated w1 = true \/ config.(Config.dryRun) = true)).
Proof.
  unfold TradeExecutor.submit, TradeExecutor.initialize,
    TradeExecutor.createAndPostOrder.
  destruct (apiKeyCreated w) eqn:Hk.
  - right. exists w. auto 10.
  - destruct (Config.dryRun config) eqn:Hd.
    + right. exists w. auto 10.
    + destruct (deriveApiKey env (keyCalls w)) as [[] | message].
      * right. exists (setApiKeyCreated (countKeyCall w) true). auto 10.
      * left. do 2 eexists. split; [reflexivity | auto 10].
Qed.


(** With the API key at hand, [submit] submits the order. *)
Lemma submit_available (order : Order.t) (w : World) :
  Spec.keyAvailable env w ->
  config.(Config.dryRun) = false ->
  exists w1,
    TradeExecutor.submit config env order w
    = (env.(postOrder) (List.length (orders w)) order,
       record w1 (Submitted order))
    /\ timeline w1 = timeline w /\ trades w1 = trades w
    /\ dbConnected w1 = dbConnected w /\ apiKeyCreated w1 = true.
Proof.
  intros Hkey Hdry.
  unfold TradeExecutor.submit, TradeExecutor.initialize,
    TradeExecutor.createAndPostOrder.
  destruct (apiKeyCreated w) eqn:Hk.
  - exists w. auto 10.
  - destruct Hkey as [Hkey | Hkey]; [congruence | ].
    rewrite Hdry, Hkey.
    exists (setApiKeyCreated (countKeyCall w) true). auto 10.
Qed.

(** ** Limits *)

(** Every order an attempt to buy submits is [Spec.buyOrder]; it submits at
    most one; a result after an order is a success. *)
Lemma tryBuy_orders (p : Position) (t : string) (rc : Z) (w : World) :
  orders (snd (tryBuy p t rc w)) = orders w
  \/ orders (snd (tryBuy p t rc w)) = orders w ++ [Spec.buyOrder config p].
Proof.
  rewrite tryBuy_eq. cbv zeta.
  pose proof (orders_isDuplicateTrade (id p) t buy w) as Hdup.
  destruct (fst (isDuplicateTrade (id p) t buy w)); [now left | ].
  destruct (negb (JS.truthy (id p))); [now left | ].
  destruct (Spec.belowMinimum config p);
    [left; simpl; now rewrite orders_onTradeError | ].
  destruct (Spec.aboveMaximum config p);
    [left; simpl; now rewrite orders_onTradeError | ].
  destruct (Spec.positionLimitExceeded config p);
    [left; simpl; now rewrite orders_onTradeError | ].
  destruct (Config.dryRun config);
    [left; simpl; now rewrite orders_onTradeExecuted, orders_saveTrade | ].
  destruct (submit_cases (Spec.buyOrder config p)
                         (snd (isDuplicateTrade (id p) t buy w)))
    as [(message & w1 & -> & _ & Ht & _) | (w1 & -> & Ht & _)].
  - left. simpl. unfold orders in *. now rewrite Ht.
  - right.
    assert (Ho : orders (record w1 (Submitted (Spec.buyOrder config p)))
                 = orders w ++ [Spec.buyOrder config p]).
    { rewrite orders_record. simpl. f_equal. unfold orders in *.
      now rewrite Ht. }
    destruct (postOrder env _ _) as [orderID | message]; simpl.
    + now rewrite orders_onTradeExecuted, orders_saveTrade.
    + exact Ho.
Qed.

Lemma trySell_orders (p : Position) (t : string) (rc : Z) (w : World) :
  orders (snd (trySell p t rc w)) = orders w
  \/ orders (snd (trySell p t rc w)) = orders w ++ [Spec.sellOrder config p].
Proof.
  rewrite trySell_eq. cbv zeta.
  destruct (negb (JS.truthy (id p))); [now left | ].
  destruct (Config.dryRun config);
    [left; simpl; now rewrite orders_onTradeExecuted, orders_saveTrade | ].
  destruct (submit_cases (Spec.sellOrder config p) w)
    as [(message & w1 & -> & _ & Ht & _) | (w1 & -> & Ht & _)].
  - left. simpl. unfold orders in *. now rewrite Ht.
  - right.
    assert (Ho : orders (record w1 (Submitted (Spec.sellOrder config p)))
                 = orders w ++ [Spec.sellOrder config p]).
    { rewrite orders_record. simpl. f_equal. unfold orders in *.
      now rewrite Ht. }
    destruct (postOrder env _ _) as [orderID | message]; simpl.
    + now rewrite orders_onTradeExecuted, orders_saveTrade.
    + exact Ho.
Qed.

Lemma orders_giveUp (p : Position) (t : string) (rc : Z) (message : string)
    (w : World) :
  orders (snd (giveUp p t rc message w)) = orders w.
Proof.
  unfold TradeExecutor.giveUp. simpl.
  now rewrite orders_onTradeError, orders_saveTrade.
Qed.

(** All the orders of one call are the same order. *)
Lemma withRetry_orders (attempt : Attempt) (order : Order.t) (p : Position)
    (t : string) :
  (forall rc w,
      orders (snd (attempt p t rc w)) = orders w
      \/ orders (snd (attempt p t rc w)) = orders w ++ [order]) ->
  forall budget rc w,
    exists n,
      orders (snd (withRetry attempt budget p t rc w))
      = orders w ++ repeat order n.
Proof.
  intros Hattempt budget rc w.
  apply (withRetry_ind attempt p t
           (fun rc w res =>
              exists n, orders (snd res) = orders w ++ repeat order n)).
  - intros rc0 w0 result w' Ha. simpl.
    destruct (Hattempt rc0 w0) as [Ho | Ho]; rewrite Ha in Ho; simpl in Ho.
    + exists 0. simpl. now rewrite app_nil_r.
    + now exists 1.
  - intros rc0 w0 message w' Ha. rewrite orders_giveUp.
    destruct (Hattempt rc0 w0) as [Ho | Ho]; rewrite Ha in Ho; simpl in Ho.
    + exists 0. simpl. now rewrite app_nil_r.
    + now exists 1.
  - intros rc0 w0 message w' res Ha [n Hn].
    rewrite orders_setTimeout in Hn.
    destruct (Hattempt rc0 w0) as [Ho | Ho]; rewrite Ha in Ho; simpl in Ho.
    + exists n. now rewrite Hn, Ho.
    + exists (S n). rewrite Hn, Ho, <- app_assoc. reflexivity.
Qed.

(** An attempt to buy past a limit submits nothing and does not succeed. *)
Lemma tryBuy_over_limits (p : Position) (t : string) (rc : Z) (w : World) :
  (Spec.belowMinimum config p || Spec.aboveMaximum config p
   || Spec.positionLimitExceeded config p)%bool = true ->
  orders (snd (tryBuy p t rc w)) = orders w
  /\ forall result, fst (tryBuy p t rc w) = Normal result ->
                    success result = false.
Proof.
  intros Hover. rewrite tryBuy_eq. cbv zeta.
  pose proof (orders_isDuplicateTrade (id p) t buy w) as Hdup.
  destruct (fst (isDuplicateTrade (id p) t buy w));
    [split; [exact Hdup | now intros result [= <-]] | ].
  destruct (negb (JS.truthy (id p)));
    [split; [exact Hdup | discriminate] | ].
  destruct (Spec.belowMinimum config p);
    [split; [simpl; now rewrite orders_onTradeError
            | now intros result [= <-]] | ].
  destruct (Spec.aboveMaximum config p);
    [split; [simpl; now rewrite orders_onTradeError
            | now intros result [= <-]] | ].
  destruct (Spec.positionLimitExceeded config p);
    [split; [simpl; now rewrite orders_onTradeError
            | now intros result [= <-]] | ].
  discriminate.
Qed.

Lemma executeBuy_over_limits (p : Position) (t : string) (rc : Z)
    (w : World) :
  (Spec.belowMinimum config p || Spec.aboveMaximum config p
   || Spec.positionLimitExceeded config p)%bool = true ->
  success (fst (executeBuy p t rc w)) = false
  /\ orders (snd (executeBuy p t rc w)) = orders w.
Proof.
  intros Hover. unfold TradeExecutor.executeBuy.
  apply (withRetry_ind tryBuy p t
           (fun rc w res =>
              success (fst res) = false /\ orders (snd res) = orders w)).
  - intros rc0 w0 result w' Ha.
    destruct (tryBuy_over_limits p t rc0 w0 Hover) as [Ho Hs].
    rewrite Ha in Ho, Hs. simpl in *. auto.
  - intros rc0 w0 message w' Ha.
    destruct (tryBuy_over_limits p t rc0 w0 Hover) as [Ho _].
    rewrite Ha in Ho. rewrite orders_giveUp. simpl in *. auto.
  - intros rc0 w0 message w' res Ha [Hs Ho].
    destruct (tryBuy_over_limits p t rc0 w0 Hover) as [Ho' _].
    rewrite Ha in Ho'. rewrite orders_setTimeout in Ho. simpl in *.
    split; congruence.
Qed.


(** ** Retries *)

(** When every attempt ends with the boundary throwing on [order], a call
    submits [order] once per attempt, waits [retryDelay] between two
    attempts, and gives up with the error of the last one. *)
Lemma withRetry_exhausts (attempt : Attempt) (order : Order.t)
    (p : Position) (t : string) (Inv : World -> Prop) :
  (forall rc w,
      Inv w ->
      exists message w1,
        attempt p t rc w = (Throw message, w1)
        /\ env.(postOrder) (List.length (orders w)) order = Throw message
        /\ timeline w1 = timeline w ++ [Submitted order]
        /\ Inv (setTimeout w1 config.(Config.retryDelay))) ->
  forall k rc w,
    retriesLeft rc = k ->
    Inv w ->
    exists message w',
      withRetry attempt (retriesLeft rc) p t rc w
      = (TradeExecutor.withError (initialResult p (rc + Z.of_nat k))
                                 (JS.orElse message "Unknown error"),
         w')
      /\ env.(postOrder) (List.length (orders w) + k) order = Throw message
      /\ timeline w'
         = timeline w
           ++ Submitted order :: Spec.retries config k order
           ++ [TradeError message p].
Proof.
  intros Hattempt.
  induction k as [ | k IH]; intros rc w Hk Hinv;
    rewrite withRetry_unfold;
    destruct (Hattempt rc w Hinv) as (message & w1 & -> & Hpost & Ht & Hinv1);
    unfold TradeExecutor.retriesLeft in Hk.
  - assert (Hlt : (rc <? Config.maxRetryAttempts config)%Z = false)
      by (apply Z.ltb_ge; lia).
    rewrite Hlt. exists message. eexists. split; [ | split].
    + unfold TradeExecutor.giveUp. rewrite saveTrade_failed by reflexivity.
      rewrite Z.add_0_r. reflexivity.
    + now rewrite Nat.add_0_r.
    + simpl. rewrite Ht, <- app_assoc. reflexivity.
  - assert (Hlt : (rc <? Config.maxRetryAttempts config)%Z = true)
      by (apply Z.ltb_lt; lia).
    rewrite Hlt.
    destruct (IH (rc + 1)%Z (setTimeout w1 (Config.retryDelay config)))
      as (message' & w' & -> & Hpost' & Ht'); [ | exact Hinv1 | ].
    { unfold TradeExecutor.retriesLeft. lia. }
    exists message', w'. split; [ | split].
    + do 3 f_equal. lia.
    + rewrite <- Hpost'. f_equal.
      rewrite orders_setTimeout. unfold orders. rewrite Ht, ordersIn_app.
      rewrite length_app. simpl. lia.
    + rewrite Ht'. simpl. rewrite Ht, <- !app_assoc. reflexivity.
Qed.

(** An attempt to buy that reaches the boundary, with a boundary that
    throws. *)
Lemma tryBuy_rejected (p : Position) (t : string) (rc : Z) (w : World) :
  Spec.alwaysRejects env ->
  config.(Config.dryRun) = false ->
  JS.truthy p.(id) = true ->
  (Spec.belowMinimum config p || Spec.aboveMaximum config p
   || Spec.positionLimitExceeded config p)%bool = false ->
  (dbConnected w && Spec.recorded w p.(id) t buy)%bool = false ->
  Spec.keyAvailable env w ->
  exists message w1,
    tryBuy p t rc w = (Throw message, w1)
    /\ env.(postOrder) (List.length (orders w)) (Spec.buyOrder config p)
       = Throw message
    /\ timeline w1 = timeline w ++ [Submitted (Spec.buyOrder config p)]
    /\ (dbConnected w1 && Spec.recorded w1 p.(id) t buy)%bool = false
    /\ Spec.keyAvailable env w1.
Proof.
  intros Hrej Hdry Hid Hlim Hrec Hkey.
  apply orb_false_iff in Hlim. destruct Hlim as [Hlim Hpos].
  apply orb_false_iff in Hlim. destruct Hlim as [Hmin Hmax].
  rewrite tryBuy_eq. cbv zeta.
  destruct (fst (isDuplicateTrade (id p) t buy w)) eqn:Hdup.
  { apply isDuplicateTrade_true in Hdup. destruct Hdup as [Hc Hr].
    rewrite Hc, Hr in Hrec. discriminate. }
  rewrite Hid, Hmin, Hmax, Hpos, Hdry. simpl negb. cbv iota.
  set (w0 := snd (isDuplicateTrade (id p) t buy w)).
  assert (Hw0 : timeline w0 = timeline w /\ trades w0 = trades w
                /\ dbConnected w0 = dbConnected w
                /\ apiKeyCreated w0 = apiKeyCreated w).
  { subst w0.
    destruct (isDuplicateTrade_world (id p) t buy w) as [-> | ->];
      repeat split. }
  destruct Hw0 as (Ht0 & Htr0 & Hc0 & Hk0).
  assert (Hkey0 : Spec.keyAvailable env w0).
  { destruct Hkey as [Hkey | Hkey]; [left; congruence | now right]. }
  destruct (submit_available (Spec.buyOrder config p) w0 Hkey0 Hdry)
    as (w1 & Hs & Ht & Htr & Hc & Hk).
  rewrite Hs.
  assert (Ho : orders w0 = orders w) by (unfold orders; now rewrite Ht0).
  rewrite Ho.
  destruct (Hrej (List.length (orders w)) (Spec.buyOrder config p))
    as [message Hm].
  rewrite Hm. exists message. eexists. split; [reflexivity | ].
  split; [reflexivity | ]. split; [simpl; now rewrite Ht, Ht0 | ].
  split.
  - simpl. unfold Spec.recorded in *. simpl. now rewrite Hc, Hc0, Htr, Htr0.
  - now left.
Qed.

Lemma trySell_rejected (p : Position) (t : string) (rc : Z) (w : World) :
  Spec.alwaysRejects env ->
  config.(Config.dryRun) = false ->
  JS.truthy p.(id) = true ->
  Spec.keyAvailable env w ->
  exists message w1,
    trySell p t rc w = (Throw message, w1)
    /\ env.(postOrder) (List.length (orders w)) (Spec.sellOrder config p)
       = Throw message
    /\ timeline w1 = timeline w ++ [Submitted (Spec.sellOrder config p)]
    /\ Spec.keyAvailable env w1.
Proof.
  intros Hrej Hdry Hid Hkey.
  rewrite trySell_eq. cbv zeta. rewrite Hid, Hdry. simpl negb. cbv iota.
  destruct (submit_available (Spec.sellOrder config p) w Hkey Hdry)
    as (w1 & Hs & Ht & _ & _ & Hk).
  rewrite Hs.
  destruct (Hrej (List.length (orders w)) (Spec.sellOrder config p))
    as [message Hm].
  rewrite Hm. exists message. eexists. split; [reflexivity | ].
  split; [reflexivity | ]. split; [simpl; now rewrite Ht | ].
  now left.
Qed.


(** ** Duplicates *)

(** A buy that the connected store records as done returns at once. *)
Lemma executeBuy_duplicate (p : Position) (t : string) (rc : Z) (w : World) :
  dbConnected w = true ->
  env.(dbFault) w.(dbCalls) = None ->
  Spec.recorded w p.(id) t buy = true ->
  executeBuy p t rc w
  = (TradeExecutor.withError (initialResult p rc) "Duplicate trade",
     countDbCall w).
Proof.
  intros Hc Hf Hr. rewrite executeBuy_unfold, tryBuy_eq.
  rewrite (isDuplicateTrade_recorded _ _ _ _ Hc Hf), Hr. reflexivity.
Qed.

(** ** What reaches the store *)

(** An attempt that does not end in a success leaves the documents as
    they are. *)
Lemma tryBuy_trades (p : Position) (t : string) (rc : Z) (w : World) :
  match tryBuy p t rc w with
  | (Normal result, w') => success result = false -> trades w' = trades w
  | (Throw _, w') => trades w' = trades w
  end.
Proof.
  rewrite tryBuy_eq. cbv zeta.
  assert (H0 : trades (snd (isDuplicateTrade (id p) t buy w)) = trades w).
  { destruct (isDuplicateTrade_world (id p) t buy w) as [-> | ->];
      reflexivity. }
  destruct (fst (isDuplicateTrade (id p) t buy w)); [auto | ].
  destruct (negb (JS.truthy (id p))); [auto | ].
  destruct (Spec.belowMinimum config p); [auto | ].
  destruct (Spec.aboveMaximum config p); [auto | ].
  destruct (Spec.positionLimitExceeded config p); [auto | ].
  destruct (Config.dryRun config); [discriminate | ].
  destruct (submit_cases (Spec.buyOrder config p)
                         (snd (isDuplicateTrade (id p) t buy w)))
    as [(message & w1 & -> & _ & _ & Htr & _) | (w1 & -> & _ & Htr & _)].
  - congruence.
  - destruct (postOrder env _ _); [discriminate | simpl; congruence].
Qed.

Lemma trySell_trades (p : Position) (t : string) (rc : Z) (w : World) :
  match trySell p t rc w with
  | (Normal result, w') => success result = false -> trades w' = trades w
  | (Throw _, w') => trades w' = trades w
  end.
Proof.
  rewrite trySell_eq. cbv zeta.
  destruct (negb (JS.truthy (id p))); [auto | ].
  destruct (Config.dryRun config); [discriminate | ].
  destruct (submit_cases (Spec.sellOrder config p) w)
    as [(message & w1 & -> & _ & _ & Htr & _) | (w1 & -> & _ & Htr & _)].
  - congruence.
  - destruct (postOrder env _ _); [discriminate | simpl; congruence].
Qed.

(** A call that returns a failure has stored nothing. *)
Lemma withRetry_failed_trades (attempt : Attempt) (p : Position)
    (t : string) :
  (forall rc w,
      match attempt p t rc w with
      | (Normal result, w') => success result = false -> trades w' = trades w
      | (Throw _, w') => trades w' = trades w
      end) ->
  forall budget rc w,
    success (fst (withRetry attempt budget p t rc w)) = false ->
    trades (snd (withRetry attempt budget p t rc w)) = trades w.
Proof.
  intros Hattempt.
  apply (withRetry_ind attempt p t
           (fun rc w res =>
              success (fst res) = false -> trades (snd res) = trades w)).
  - intros rc w result w' Ha. specialize (Hattempt rc w).
    rewrite Ha in Hattempt. exact Hattempt.
  - intros rc w message w' Ha _. specialize (Hattempt rc w).
    rewrite Ha in Hattempt. unfold TradeExecutor.giveUp.
    rewrite saveTrade_failed by reflexivity. exact Hattempt.
  - intros rc w message w' res Ha IH Hs. specialize (Hattempt rc w).
    rewrite Ha in Hattempt. rewrite (IH Hs). exact Hattempt.
Qed.

End ExecutorFacts.

(** ** The result does not depend on the store *)

Section StoreIndependence.
Context `{NumberOps}.
Variable config : Config.t.
Variables env1 env2 : Env.
Hypothesis same_boundary :
  forall n order, env1.(postOrder) n order = env2.(postOrder) n order.
Hypothesis same_keys : forall n, env1.(deriveApiKey) n = env2.(deriveApiKey) n.

Lemma agree_record (w1 w2 : World) (e : Event) :
  Spec.agree w1 w2 -> Spec.agree (record w1 e) (record w2 e).
Proof.
  intros (Hk & Hc & Ht). unfold Spec.agree. simpl. rewrite Hk, Hc, Ht. auto.
Qed.

Lemma agree_saveTrade (r : TradeExecutionResult) (t : string)
    (w1 w2 : World) :
  Spec.agree w1 w2 ->
  Spec.agree (TradeExecutor.saveTrade env1 r t w1)
        (TradeExecutor.saveTrade env2 r t w2).
Proof.
  intros Hagree.
  destruct (saveTrade_world env1 r t w1) as [-> | [-> | (_ & _ & ->)]];
    destruct (saveTrade_world env2 r t w2) as [-> | [-> | (_ & _ & ->)]];
    exact Hagree.
Qed.

Lemma agree_isDuplicateTrade (positionId t : string) (side : TradeSide)
    (w1 w2 : World) :
  Spec.agree w1 w2 ->
  Spec.agree (snd (TradeExecutor.isDuplicateTrade env1 positionId t side w1))
        (snd (TradeExecutor.isDuplicateTrade env2 positionId t side w2)).
Proof.
  intros Hagree.
  destruct (isDuplicateTrade_world env1 positionId t side w1) as [-> | ->];
    destruct (isDuplicateTrade_world env2 positionId t side w2) as [-> | ->];
    exact Hagree.
Qed.

Lemma agree_submit (order : Order.t) (w1 w2 : World) :
  Spec.agree w1 w2 ->
  fst (TradeExecutor.submit config env1 order w1)
  = fst (TradeExecutor.submit config env2 order w2)
  /\ Spec.agree (snd (TradeExecutor.submit config env1 order w1))
           (snd (TradeExecutor.submit config env2 order w2))
  /\ trades (snd (TradeExecutor.submit config env1 order w1)) = trades w1
  /\ trades (snd (TradeExecutor.submit config env2 order w2)) = trades w2
  /\ dbConnected (snd (TradeExecutor.submit config env1 order w1))
     = dbConnected w1
  /\ dbConnected (snd (TradeExecutor.submit config env2 order w2))
     = dbConnected w2.
Proof.
  intros (Hk & Hc & Ht).
  unfold TradeExecutor.submit, TradeExecutor.initialize,
    TradeExecutor.createAndPostOrder, orders.
  rewrite <- Hk, <- Hc, same_keys.
  destruct (apiKeyCreated w1) eqn:Hk1.
  - simpl. rewrite Ht, same_boundary. repeat split; simpl; congruence.
  - destruct (Config.dryRun config).
    + simpl. rewrite Ht, same_boundary. repeat split; simpl; congruence.
    + destruct (deriveApiKey env2 (keyCalls w1)) as [[] | message]; simpl.
      * rewrite Ht, same_boundary. repeat split; simpl; congruence.
      * repeat split; simpl; congruence.
Qed.

Lemma unrecorded_not_duplicate (env : Env) (p : Position) (t : string)
    (w : World) :
  Spec.unrecorded p t w ->
  fst (TradeExecutor.isDuplicateTrade env p.(id) t buy w) = false.
Proof.
  intros Hu. apply not_true_is_false. intros Hd.
  apply isDuplicateTrade_true in Hd. destruct Hd as [Hc Hr].
  unfold Spec.unrecorded in Hu. rewrite Hc, Hr in Hu. discriminate.
Qed.

Lemma unrecorded_isDuplicateTrade (env : Env) (p : Position) (t : string)
    (w : World) :
  Spec.unrecorded p t w ->
  Spec.unrecorded p t (snd (TradeExecutor.isDuplicateTrade env p.(id) t buy w)).
Proof.
  destruct (isDuplicateTrade_world env (id p) t buy w) as [-> | ->]; auto.
Qed.

Ltac agree_normal :=
  simpl; split; [reflexivity | split; [ | intros ?; discriminate]].

(** Two attempts to buy, in worlds that differ in the store only, end the
    same way. *)
Lemma tryBuy_agree (p : Position) (t : string) (rc : Z) (w1 w2 : World) :
  Spec.agree w1 w2 -> Spec.unrecorded p t w1 -> Spec.unrecorded p t w2 ->
  fst (TradeExecutor.tryBuy config env1 p t rc w1)
  = fst (TradeExecutor.tryBuy config env2 p t rc w2)
  /\ Spec.agree (snd (TradeExecutor.tryBuy config env1 p t rc w1))
           (snd (TradeExecutor.tryBuy config env2 p t rc w2))
  /\ (forall message,
         fst (TradeExecutor.tryBuy config env1 p t rc w1) = Throw message ->
         Spec.unrecorded p t (snd (TradeExecutor.tryBuy config env1 p t rc w1))
         /\ Spec.unrecorded p t (snd (TradeExecutor.tryBuy config env2 p t rc w2))).
Proof.
  intros Hagree Hu1 Hu2. rewrite !tryBuy_eq. cbv zeta.
  rewrite (unrecorded_not_duplicate env1 p t w1 Hu1).
  rewrite (unrecorded_not_duplicate env2 p t w2 Hu2).
  pose proof (agree_isDuplicateTrade (id p) t buy w1 w2 Hagree) as Hagree0.
  pose proof (unrecorded_isDuplicateTrade env1 p t w1 Hu1) as Hu10.
  pose proof (unrecorded_isDuplicateTrade env2 p t w2 Hu2) as Hu20.
  set (w10 := snd (TradeExecutor.isDuplicateTrade env1 (id p) t buy w1)) in *.
  set (w20 := snd (TradeExecutor.isDuplicateTrade env2 (id p) t buy w2)) in *.
  destruct (negb (JS.truthy (id p))); [simpl; auto | ].
  destruct (Spec.belowMinimum config p);
    [agree_normal; now apply agree_record | ].
  destruct (Spec.aboveMaximum config p);
    [agree_normal; now apply agree_record | ].
  destruct (Spec.positionLimitExceeded config p);
    [agree_normal; now apply agree_record | ].
  destruct (Config.dryRun config).
  { agree_normal. now apply agree_record, agree_saveTrade. }
  destruct (agree_submit (Spec.buyOrder config p) w10 w20 Hagree0)
    as (Hfst & Hag & Htr1 & Htr2 & Hc1 & Hc2).
  destruct (TradeExecutor.submit config env1 (Spec.buyOrder config p) w10)
    as [c1 w11].
  destruct (TradeExecutor.submit config env2 (Spec.buyOrder config p) w20)
    as [c2 w21].
  simpl in Hfst, Hag, Htr1, Htr2, Hc1, Hc2. simpl. rewrite <- Hfst.
  destruct c1 as [orderID | message].
  - agree_normal. now apply agree_record, agree_saveTrade.
  - simpl. split; [reflexivity | ]. split; [exact Hag | ].
    intros message0 _. unfold Spec.unrecorded, Spec.recorded in *.
    rewrite Htr1, Htr2, Hc1, Hc2. auto.
Qed.

Lemma trySell_agree (p : Position) (t : string) (rc : Z) (w1 w2 : World) :
  Spec.agree w1 w2 ->
  fst (TradeExecutor.trySell config env1 p t rc w1)
  = fst (TradeExecutor.trySell config env2 p t rc w2)
  /\ Spec.agree (snd (TradeExecutor.trySell config env1 p t rc w1))
           (snd (TradeExecutor.trySell config env2 p t rc w2)).
Proof.
  intros Hagree. rewrite !trySell_eq. cbv zeta.
  destruct (negb (JS.truthy (id p))); [simpl; auto | ].
  destruct (Config.dryRun config).
  { simpl. split; [reflexivity | ].
    now apply agree_record, agree_saveTrade. }
  destruct (agree_submit (Spec.sellOrder config p) w1 w2 Hagree)
    as (Hfst & Hag & _).
  destruct (TradeExecutor.submit config env1 (Spec.sellOrder config p) w1)
    as [c1 w11].
  destruct (TradeExecutor.submit config env2 (Spec.sellOrder config p) w2)
    as [c2 w21].
  simpl in *. subst c2. destruct c1 as [orderID | message]; simpl.
  - split; [reflexivity | ]. now apply agree_record, agree_saveTrade.
  - auto.
Qed.

Lemma giveUp_agree (p : Position) (t : string) (rc : Z) (message : string)
    (w1 w2 : World) :
  Spec.agree w1 w2 ->
  fst (TradeExecutor.giveUp config env1 p t rc message w1)
  = fst (TradeExecutor.giveUp config env2 p t rc message w2)
  /\ Spec.agree (snd (TradeExecutor.giveUp config env1 p t rc message w1))
           (snd (TradeExecutor.giveUp config env2 p t rc message w2)).
Proof.
  intros Hagree. unfold TradeExecutor.giveUp. simpl.
  split; [reflexivity | ]. now apply agree_record, agree_saveTrade.
Qed.

Lemma executeBuy_agree (p : Position) (t : string) :
  forall budget rc w1 w2,
    Spec.agree w1 w2 -> Spec.unrecorded p t w1 -> Spec.unrecorded p t w2 ->
    fst (TradeExecutor.withRetry config env1
           (TradeExecutor.tryBuy config env1) budget p t rc w1)
    = fst (TradeExecutor.withRetry config env2
             (TradeExecutor.tryBuy config env2) budget p t rc w2).
Proof.
  induction budget as [ | budget IH]; intros rc w1 w2 Hagree Hu1 Hu2; simpl;
    destruct (tryBuy_agree p t rc w1 w2 Hagree Hu1 Hu2) as (Hfst & Hag & Hun);
    destruct (TradeExecutor.tryBuy config env1 p t rc w1) as [c1 w1'];
    destruct (TradeExecutor.tryBuy config env2 p t rc w2) as [c2 w2'];
    simpl in *; subst c2; destruct c1 as [result | message];
    try reflexivity;
    destruct (rc <? Config.maxRetryAttempts config)%Z;
    try (now apply giveUp_agree).
  destruct (Hun message eq_refl) as [Hu1' Hu2'].
  apply IH; [now apply agree_record | exact Hu1' | exact Hu2'].
Qed.

Lemma executeSell_agree (p : Position) (t : string) :
  forall budget rc w1 w2,
    Spec.agree w1 w2 ->
    fst (TradeExecutor.withRetry config env1
           (TradeExecutor.trySell config env1) budget p t rc w1)
    = fst (TradeExecutor.withRetry config env2
             (TradeExecutor.trySell config env2) budget p t rc w2).
Proof.
  induction budget as [ | budget IH]; intros rc w1 w2 Hagree; simpl;
    destruct (trySell_agree p t rc w1 w2 Hagree) as (Hfst & Hag);
    destruct (TradeExecutor.trySell config env1 p t rc w1) as [c1 w1'];
    destruct (TradeExecutor.trySell config env2 p t rc w2) as [c2 w2'];
    simpl in *; subst c2; destruct c1 as [result | message];
    try reflexivity;
    destruct (rc <? Config.maxRetryAttempts config)%Z;
    try (now apply giveUp_agree).
  apply IH. now apply agree_record.
Qed.

End StoreIndependence.

(** ** What a call leaves behind *)

Section Outcome.
Context `{NumberOps}.
Variable config : Config.t.
Variable env : Env.

Abbreviation Attempt :=
  (Position -> string -> Z -> World -> Completion TradeExecutionResult * World).

Lemma isDuplicateTrade_store (positionId t : string) (side : TradeSide)
    (w : World) :
  trades (snd (TradeExecutor.isDuplicateTrade env positionId t side w))
  = trades w
  /\ dbConnected (snd (TradeExecutor.isDuplicateTrade env positionId t side w))
     = dbConnected w.
Proof.
  destruct (isDuplicateTrade_world env positionId t side w) as [-> | ->];
    auto.
Qed.

Lemma submit_store (order : Order.t) (w : World) :
  trades (snd (TradeExecutor.submit config env order w)) = trades w
  /\ dbConnected (snd (TradeExecutor.submit config env order w))
     = dbConnected w.
Proof.
  unfold TradeExecutor.submit, TradeExecutor.initialize,
    TradeExecutor.createAndPostOrder.
  destruct (apiKeyCreated w); [auto | ].
  destruct (Config.dryRun config); [auto | ].
  destruct (deriveApiKey env (keyCalls w)); auto.
Qed.

Lemma tryBuy_outcome (p : Position) (t : string) :
  Spec.attemptOutcome env (TradeExecutor.tryBuy config env) p t.
Proof.
  intros rc w. rewrite tryBuy_eq. cbv zeta.
  destruct (isDuplicateTrade_store (id p) t buy w) as [Htr0 Hc0].
  set (w0 := snd (TradeExecutor.isDuplicateTrade env (id p) t buy w)) in *.
  assert (Hfail : forall message w',
             trades w' = trades w -> dbConnected w' = dbConnected w ->
             Spec.callOutcome env p t w
               (TradeExecutor.withError
                  (TradeExecutor.initialResult config p rc) message, w')).
  { intros message w' Htr Hc. repeat split; auto. }
  assert (Hok : forall orderID w1,
             trades w1 = trades w -> dbConnected w1 = dbConnected w ->
             let result :=
               TradeExecutor.withSuccess
                 (TradeExecutor.initialResult config p rc) orderID
                 (Spec.tradeQuantity config p) (Spec.tradePrice p) in
             Spec.callOutcome env p t w
               (result,
                onTradeExecuted (TradeExecutor.saveTrade env result t w1)
                                result)).
  { intros orderID w1 Htr Hc result. split; [reflexivity | ]. split.
    - simpl. now rewrite saveTrade_dbConnected.
    - right. split; [reflexivity | ]. exists w1. auto. }
  destruct (fst (TradeExecutor.isDuplicateTrade env (id p) t buy w));
    [now apply Hfail | ].
  destruct (negb (JS.truthy (id p))); [auto | ].
  destruct (Spec.belowMinimum config p); [now apply Hfail | ].
  destruct (Spec.aboveMaximum config p); [now apply Hfail | ].
  destruct (Spec.positionLimitExceeded config p); [now apply Hfail | ].
  destruct (Config.dryRun config); [now apply Hok | ].
  destruct (submit_store (Spec.buyOrder config p) w0) as [Htr1 Hc1].
  destruct (TradeExecutor.submit config env (Spec.buyOrder config p) w0)
    as [[orderID | message] w1]; simpl in Htr1, Hc1.
  - apply Hok; congruence.
  - split; congruence.
Qed.

Lemma trySell_outcome (p : Position) (t : string) :
  Spec.attemptOutcome env (TradeExecutor.trySell config env) p t.
Proof.
  intros rc w. rewrite trySell_eq. cbv zeta.
  assert (Hok : forall orderID w1,
             trades w1 = trades w -> dbConnected w1 = dbConnected w ->
             let result :=
               TradeExecutor.withSuccess
                 (TradeExecutor.initialResult config p rc) orderID
                 (Spec.tradeQuantity config p) (Spec.tradePrice p) in
             Spec.callOutcome env p t w
               (result,
                onTradeExecuted (TradeExecutor.saveTrade env result t w1)
                                result)).
  { intros orderID w1 Htr Hc result. split; [reflexivity | ]. split.
    - simpl. now rewrite saveTrade_dbConnected.
    - right. split; [reflexivity | ]. exists w1. auto. }
  destruct (negb (JS.truthy (id p))); [auto | ].
  destruct (Config.dryRun config); [now apply Hok | ].
  destruct (submit_store (Spec.sellOrder config p) w) as [Htr1 Hc1].
  destruct (TradeExecutor.submit config env (Spec.sellOrder config p) w)
    as [[orderID | message] w1]; simpl in Htr1, Hc1.
  - apply Hok; congruence.
  - split; congruence.
Qed.

Lemma withRetry_outcome (attempt : Attempt) (p : Position) (t : string) :
  Spec.attemptOutcome env attempt p t ->
  forall budget rc w,
    Spec.callOutcome env p t w (TradeExecutor.withRetry config env attempt budget p t rc w).
Proof.
  intros Hattempt.
  apply (withRetry_ind config env attempt p t
           (fun rc w res => Spec.callOutcome env p t w res)).
  - intros rc w result w' Ha. specialize (Hattempt rc w).
    now rewrite Ha in Hattempt.
  - intros rc w message w' Ha. specialize (Hattempt rc w).
    rewrite Ha in Hattempt. destruct Hattempt as [Htr Hc].
    unfold TradeExecutor.giveUp. rewrite saveTrade_failed by reflexivity.
    repeat split; auto.
  - intros rc w message w' res Ha (Hp & Hc & Hres). specialize (Hattempt rc w).
    rewrite Ha in Hattempt. destruct Hattempt as [Htr Hc'].
    simpl in Hc, Hres. split; [exact Hp | ]. split; [congruence | ].
    destruct Hres as [[Hs Ht] | (Hs & w1 & Hw & Ht & Hc1)].
    + left. split; congruence.
    + right. split; [exact Hs | ]. exists w1. repeat split; congruence.
Qed.

Lemma executeBuy_outcome (p : Position) (t : string) (rc : Z) (w : World) :
  Spec.callOutcome env p t w (TradeExecutor.executeBuy config env p t rc w).
Proof. apply withRetry_outcome, tryBuy_outcome. Qed.

Lemma executeSell_outcome (p : Position) (t : string) (rc : Z) (w : World) :
  Spec.callOutcome env p t w (TradeExecutor.executeSell config env p t rc w).
Proof. apply withRetry_outcome, trySell_outcome. Qed.

End Outcome.

(* ================================================================== *)
(** * Properties of the change detector *)
(* ================================================================== *)

Section ChangeDetector.
Context `{NumberOps}.
Import AccountMonitor.

(** A position whose quantity moved past the threshold makes
    [detectChanges] answer [true]. *)
Lemma detectChanges_quantityChanged (current last : TradingStatus)
    (id : string) (currentPos lastPos : Position) :
  JSMap.get (positionsMap current) id = Some currentPos ->
  JSMap.get (positionsMap last) id = Some lastPos ->
  quantityChanged currentPos lastPos = true ->
  detectChanges current (Some last) = true.
Proof.
  intros Hc Hl Hq. unfold detectChanges.
  destruct (negb _); [reflexivity | ].
  match goal with
  | |- (if existsb ?f ?m then _ else _) = _ =>
      assert (Hex : existsb f m = true)
  end.
  { apply existsb_exists. exists (id, currentPos). split.
    - now apply JSMapFacts.get_In.
    - simpl. rewrite (JSMapFacts.get_has _ _ _ Hl). simpl.
      rewrite Hc, Hl. exact Hq. }
  rewrite Hex. reflexivity.
Qed.

(** Without any new, removed or resized position, [detectChanges] is the
    total-value test. *)
Lemma detectChanges_same_positions (current last : TradingStatus) :
  List.length current.(openPositions) = List.length last.(openPositions) ->
  (forall id, JSMap.has (positionsMap current) id
              = JSMap.has (positionsMap last) id) ->
  (forall id currentPos lastPos,
      JSMap.get (positionsMap current) id = Some currentPos ->
      JSMap.get (positionsMap last) id = Some lastPos ->
      quantityChanged currentPos lastPos = false) ->
  detectChanges current (Some last) = totalValueChanged current last.
Proof.
  intros Hlen Hids Hqty. unfold detectChanges.
  rewrite Hlen, Nat.eqb_refl. simpl negb. cbv iota.
  match goal with
  | |- (if existsb ?f ?m then _ else _) = _ =>
      assert (Hex : existsb f m = false)
  end.
  { apply not_true_is_false. intros Hex.
    apply existsb_exists in Hex. destruct Hex as [[id p] [Hin Hbody]].
    simpl in Hbody.
    rewrite <- Hids, (JSMapFacts.In_has _ _ _ Hin) in Hbody.
    simpl in Hbody.
    destruct (JSMap.get (positionsMap current) id) eqn:Hc;
      [ | discriminate].
    destruct (JSMap.get (positionsMap last) id) eqn:Hl; [ | discriminate].
    rewrite (Hqty _ _ _ Hc Hl) in Hbody. discriminate. }
  rewrite Hex.
  match goal with
  | |- (if existsb ?f ?m then _ else _) = _ =>
      assert (Hex' : existsb f m = false)
  end.
  { apply not_true_is_false. intros Hex'.
    apply existsb_exists in Hex'. destruct Hex' as [id [Hin Hbody]].
    rewrite Hids, (JSMapFacts.keys_has _ _ Hin) in Hbody. discriminate. }
  rewrite Hex'. reflexivity.
Qed.

(** C6, as amended.  The quantities are the doubles [parseFloat] gives,
    and the difference, the product and the comparisons are those of
    doubles.  A quantity change is signalled exactly when the computed
    [|newQty - oldQty|] strictly exceeds the computed
    [max(1, oldQty * 0.01)], and a position for which it does makes
    [detectChanges] report a change; a change whose computed value is
    the computed [oldQty * 0.01] is never signalled; a change whose
    computed value is above the computed [oldQty * 0.01] is signalled
    when [oldQty * 0.01] is at least the floor of 1.  Nothing is said of
    the decimal quantities: a change that is a hundredth of the old
    quantity in decimal arithmetic may have a computed value above the
    computed [oldQty * 0.01], see [resize_threshold_counterexample]. *)
Theorem resize_threshold (currentPos lastPos : Position) :
  let oldQty := parseFloat lastPos.(quantity) in
  let newQty := parseFloat currentPos.(quantity) in
  let change := Math.abs (newQty - oldQty) in
  (quantityChanged currentPos lastPos
   = JS.gt change (Math.max 1 (oldQty * 0.01)))
  /\ (forall current last id,
         JSMap.get (positionsMap current) id = Some currentPos ->
         JSMap.get (positionsMap last) id = Some lastPos ->
         JS.gt change (Math.max 1 (oldQty * 0.01)) = true ->
         detectChanges current (Some last) = true)
  /\ (change = (oldQty * 0.01)%float ->
      quantityChanged currentPos lastPos = false)
  /\ ((1 <=? oldQty * 0.01)%float = true ->
      JS.gt change (oldQty * 0.01) = true ->
      quantityChanged currentPos lastPos = true).
Proof.
  intros oldQty newQty change. repeat split.
  - intros current last id Hc Hl Hgt.
    eapply detectChanges_quantityChanged; eauto.
  - intros Hexact. unfold quantityChanged, JS.gt.
    fold oldQty newQty change. rewrite Hexact.
    apply FloatFacts.max_one_not_ltb.
  - intros Hfloor Hgt. unfold quantityChanged.
    fold oldQty newQty change.
    now rewrite (FloatFacts.max_one_above _ Hfloor).
Qed.


End ChangeDetector.

(** The concrete statements run the program with the computed conversions
    of [JSNumber]. *)
Section ChangeDetectorExamples.
#[local] Existing Instance JSNumber.numberOps.

(** C6, counterexample.  (1) From 50 to 50.6 units the change, 0.6, is
    above [oldQty * 0.01 = 0.5], yet below the floor of 1: it is not
    signalled.  (2) From 101 to 102.01 units the change of the decimal
    quantities is 1.01, exactly a hundredth of 101.  The doubles nearest
    to 102.01 and to 101 differ by 1.0100000000000051, which is above
    the product [oldQty * 0.01], the double nearest to 1.01: the change
    is signalled. *)
Lemma resize_threshold_counterexample :
  let lastPos := Sample.aPosition "tok" "50" "0.5" "25" in
  let currentPos := Sample.aPosition "tok" "50.6" "0.5" "25" in
  let oldQty := parseFloat lastPos.(quantity) in
  let newQty := parseFloat currentPos.(quantity) in
  let lastExact := Sample.aPosition "tok" "101" "0.5" "50.5" in
  let currentExact := Sample.aPosition "tok" "102.01" "0.5" "50.5" in
  let oldExact := parseFloat lastExact.(quantity) in
  let newExact := parseFloat currentExact.(quantity) in
  (JS.gt (Math.abs (newQty - oldQty)) (oldQty * 0.01) = true
   /\ AccountMonitor.quantityChanged currentPos lastPos = false
   /\ AccountMonitor.detectChanges (Sample.aStatus [currentPos] "25")
                                   (Some (Sample.aStatus [lastPos] "25"))
      = false)
  /\ (oldExact = JSNumber.ofDecimal false 10100 (-2)
      /\ newExact = JSNumber.ofDecimal false 10201 (-2)
      /\ (oldExact * 0.01)%float = JSNumber.ofDecimal false 101 (-2)
      /\ numberToString (oldExact * 0.01) = "1.01"
      /\ numberToString (Math.abs (newExact - oldExact))
         = "1.0100000000000051"
      /\ JS.gt (Math.abs (newExact - oldExact)) (oldExact * 0.01) = true
      /\ AccountMonitor.quantityChanged currentExact lastExact = true
      /\ AccountMonitor.detectChanges
           (Sample.aStatus [currentExact] "50.5")
           (Some (Sample.aStatus [lastExact] "50.5"))
         = true).
Proof. vm_compute. repeat split. Qed.

(** C6, witness: from 1000 to 1010 units the change is exactly 1% and is
    not signalled; from 1000 to 1011 it is above 1% and is signalled. *)
Lemma resize_threshold_witness :
  let lastPos := Sample.aPosition "tok" "1000" "0.5" "500" in
  let atThreshold := Sample.aPosition "tok" "1010" "0.5" "505" in
  let above := Sample.aPosition "tok" "1011" "0.5" "505.5" in
  AccountMonitor.quantityChanged atThreshold lastPos = false
  /\ AccountMonitor.quantityChanged above lastPos = true
  /\ AccountMonitor.detectChanges (Sample.aStatus [above] "500")
                                  (Some (Sample.aStatus [lastPos] "500"))
     = true.
Proof.
  intros lastPos atThreshold above.
  destruct (resize_threshold atThreshold lastPos) as (_ & _ & Hexact & _).
  destruct (resize_threshold above lastPos) as (_ & Hsignal & _ & Habove).
  split; [apply Hexact; vm_compute; reflexivity | ].
  split; [apply Habove; vm_compute; reflexivity | ].
  apply (Hsignal _ _ "tok"); vm_compute; reflexivity.
Defined.



End ChangeDetectorExamples.

(* ================================================================== *)
(** * Properties of the execution engine *)
(* ================================================================== *)

Section ExecutionEngine.
Context `{NumberOps}.
Variable config : Config.t.
Variable env : Env.

Abbreviation executeBuy := (TradeExecutor.executeBuy config env).
Abbreviation executeSell := (TradeExecutor.executeSell config env).

Lemma ordersIn_retries (n : nat) (order : Order.t) :
  ordersIn (Spec.retries config n order) = repeat order n.
Proof. induction n as [ | n IH]; simpl; congruence. Qed.



(** C4.  [executeBuy] scales the quantity by [positionSizeMultiplier],
    values the trade at the scaled quantity times the price, and checks,
    in this order, the minimum trade size, the maximum trade size and the
    maximum position size; the first check that fails ends the call with a
    failure and no order; [executeSell] does not look at the limits. *)
Theorem open_validation (p : Position) (t : string) (rc : Z) (w : World) :
  let tradeQuantity :=
    (parseFloat p.(quantity) * config.(Config.positionSizeMultiplier))%float in
  let tradePrice := parseFloat p.(price) in
  let notional := (tradeQuantity * tradePrice)%float in
  let positionValue :=
    (parseFloat (JS.orElse p.(value) "0")
     * config.(Config.positionSizeMultiplier))%float in
  let w0 := snd (TradeExecutor.isDuplicateTrade env p.(id) t buy w) in
  let failure message :=
    (TradeExecutor.withError (TradeExecutor.initialResult config p rc) message,
     onTradeError w0 message p) in
  (* every order of the call has the scaled quantity *)
  (exists n,
      orders (snd (executeBuy p t rc w))
      = orders w ++ repeat (Order.mk p.(id) tradePrice tradeQuantity Order.BUY)
                           n)
  (* a limit that fails: a failure, and nothing submitted *)
  /\ ((JS.lt notional config.(Config.minTradeSize)
       || JS.gt notional config.(Config.maxTradeSize)
       || JS.gt positionValue config.(Config.maxPositionSize))%bool = true ->
      success (fst (executeBuy p t rc w)) = false
      /\ orders (snd (executeBuy p t rc w)) = orders w)
  (* the order of the checks *)
  /\ (fst (TradeExecutor.isDuplicateTrade env p.(id) t buy w) = false ->
      JS.truthy p.(id) = true ->
      (JS.lt notional config.(Config.minTradeSize) = true ->
       executeBuy p t rc w
       = failure ("Trade size $" ++ toFixed notional 2
                  ++ " is below minimum $"
                  ++ numberToString config.(Config.minTradeSize))%string)
      /\ (JS.lt notional config.(Config.minTradeSize) = false ->
          JS.gt notional config.(Config.maxTradeSize) = true ->
          executeBuy p t rc w
          = failure ("Trade size $" ++ toFixed notional 2
                     ++ " exceeds maximum $"
                     ++ numberToString config.(Config.maxTradeSize))%string)
      /\ (JS.lt notional config.(Config.minTradeSize) = false ->
          JS.gt notional config.(Config.maxTradeSize) = false ->
          JS.gt positionValue config.(Config.maxPositionSize) = true ->
          executeBuy p t rc w
          = failure ("Position size $" ++ toFixed positionValue 2
                     ++ " exceeds maximum $"
                     ++ numberToString config.(Config.maxPositionSize))%string))
  (* no limit for a sell *)
  /\ (forall minTradeSize maxTradeSize maxPositionSize,
         TradeExecutor.executeSell
           (Spec.withLimits config minTradeSize maxTradeSize maxPositionSize)
           env p t rc w
         = executeSell p t rc w).
Proof.
  intros tradeQuantity tradePrice notional positionValue w0 failure.
  split; [ | split; [ | split]].
  - apply (withRetry_orders config env (TradeExecutor.tryBuy config env)
             (Spec.buyOrder config p) p t).
    intros rc0 w1. apply tryBuy_orders.
  - apply executeBuy_over_limits.
  - intros Hdup Hid.
    assert (Hrun : forall c,
               TradeExecutor.tryBuy config env p t rc w = (Normal (fst c), snd c) ->
               executeBuy p t rc w = c).
    { intros [r w'] Htry. rewrite executeBuy_unfold, Htry. reflexivity. }
    split; [ | split].
    + intros Hmin. apply Hrun. rewrite tryBuy_eq. cbv zeta.
      rewrite Hdup, Hid. simpl negb. cbv iota.
      unfold Spec.belowMinimum, Spec.tradeValue, Spec.tradeQuantity,
        Spec.tradePrice.
      fold tradeQuantity tradePrice notional. rewrite Hmin. reflexivity.
    + intros Hmin Hmax. apply Hrun. rewrite tryBuy_eq. cbv zeta.
      rewrite Hdup, Hid. simpl negb. cbv iota.
      unfold Spec.belowMinimum, Spec.aboveMaximum, Spec.tradeValue,
        Spec.tradeQuantity, Spec.tradePrice.
      fold tradeQuantity tradePrice notional. rewrite Hmin, Hmax.
      reflexivity.
    + intros Hmin Hmax Hpos. apply Hrun. rewrite tryBuy_eq. cbv zeta.
      rewrite Hdup, Hid. simpl negb. cbv iota.
      unfold Spec.belowMinimum, Spec.aboveMaximum,
        Spec.positionLimitExceeded, Spec.positionValue, Spec.tradeValue,
        Spec.tradeQuantity, Spec.tradePrice.
      fold tradeQuantity tradePrice notional positionValue.
      rewrite Hmin, Hmax, Hpos. reflexivity.
  - intros minTradeSize maxTradeSize maxPositionSize. reflexivity.
Qed.


End ExecutionEngine.

(** ** The engine on concrete inputs *)

Section ExecutionEngineExamples.
#[local] Existing Instance JSNumber.numberOps.
Import Sample.


(** C4, witness: the scenario of the specification.  With a multiplier of
    0.5, 100 units at a price of 2 are worth 100; with a maximum trade
    size of 50 the buy fails and nothing is submitted. *)
Lemma open_validation_witness :
  let config :=
    Spec.withLimits
      (Config.mk true Sample.aPrivateKey false 0.5 10000 5000 1 1 137
                 "https://clob.polymarket.com" 3 1000)
      1 50 10000 in
  let p := aPosition "tok1" "100" "2" "200" in
  let res := TradeExecutor.executeBuy config accepting p trader 0
                                      (aWorld false []) in
  success (fst res) = false
  /\ error (fst res) = Some "Trade size $100.00 exceeds maximum $50"
  /\ orders (snd res) = [].
Proof.
  intros config p res.
  destruct (open_validation config accepting p trader 0 (aWorld false []))
    as (_ & Hlimit & Horder & _).
  destruct Hlimit as [_ Ho]; [vm_compute; reflexivity | ].
  destruct Horder as (_ & Hmax & _); [reflexivity | reflexivity | ].
  subst res. rewrite Ho.
  rewrite Hmax by (vm_compute; reflexivity).
  vm_compute. auto.
Defined.



(** C2, on the sell side.  The store is connected and holds a successful
    sell of the position for the trader; [executeSell] submits the order
    again.  [executeBuy], in the same situation on its side, does not. *)
Lemma sell_ignores_recorded_sell :
  let config := TradeExecutor.constructor (aConfig false) in
  let p := aPosition "tok1" "100" "0.5" "50" in
  let sold :=
    ITrade.mk "tok1" trader "0xmarket" "Yes" sell "100.0000" "0.5000"
              (Some "order") None false true None in
  let bought :=
    ITrade.mk "tok1" trader "0xmarket" "Yes" buy "100.0000" "0.5000"
              (Some "order") None false true None in
  let w := aWorld true [sold; bought] in
  let sellAgain := TradeExecutor.executeSell config accepting p trader 0 w in
  let buyAgain := TradeExecutor.executeBuy config accepting p trader 0 w in
  dbConnected w = true
  /\ Spec.recorded w p.(id) trader sell = true
  /\ success (fst sellAgain) = true
  /\ orders (snd sellAgain) = [Spec.sellOrder config p]
  /\ Spec.recorded w p.(id) trader buy = true
  /\ success (fst buyAgain) = false
  /\ error (fst buyAgain) = Some "Duplicate trade"
  /\ orders (snd buyAgain) = [].
Proof. vm_compute. auto 10. Qed.

End ExecutionEngineExamples.

(* ================================================================== *)
(** * Facts about the orchestrator *)
(* ================================================================== *)

(** ** The position maps *)

Lemma filter_fst_NoDup {A B : Type} (f : A * B -> bool) (l : list (A * B)) :
  NoDup (map fst l) -> NoDup (map fst (filter f l)).
Proof.
  induction l as [ | [a b] l IH]; simpl; intros Hnd; [constructor | ].
  inversion Hnd as [ | ? ? Hnotin Hnd']; subst.
  destruct (f (a, b)); simpl; [ | auto].
  constructor; [ | auto].
  intros Hin. apply Hnotin. apply in_map_iff in Hin.
  destruct Hin as [[a' b'] [Ha Hin]]. simpl in Ha. subst a'.
  apply filter_In in Hin. destruct Hin as [Hin _].
  apply in_map_iff. now exists (a, b').
Qed.

Lemma NoDup_map_inj {A B : Type} (f : A -> B) (l : list A) (a b : A) :
  NoDup (map f l) -> In a l -> In b l -> f a = f b -> a = b.
Proof.
  induction l as [ | x l IH]; simpl; intros Hnd Ha Hb Hf; [tauto | ].
  inversion Hnd as [ | ? ? Hnotin Hnd']; subst.
  destruct Ha as [-> | Ha], Hb as [-> | Hb]; auto.
  - exfalso. apply Hnotin. rewrite Hf. now apply in_map.
  - exfalso. apply Hnotin. rewrite <- Hf. now apply in_map.
Qed.

Lemma fold_left_invariant {A B : Type} (f : B -> A -> B) (I : B -> Prop)
    (l : list A) :
  (forall b a, In a l -> I b -> I (f b a)) ->
  forall b, I b -> I (fold_left f l b).
Proof.
  induction l as [ | a l IH]; simpl; intros Hstep b Hb; [exact Hb | ].
  apply IH; auto.
Qed.

(** The executions of a list all have the side of their subjects. *)
Lemma subject_side (side : TradeSide) (ps : list Position)
    (l : list CopyTradingMonitor.Execution) :
  map Spec.subject l = map (pair side) ps ->
  forall e, In e l -> fst e = side /\ In (snd e).(position) ps.
Proof.
  intros Hl e Hin. apply (in_map Spec.subject) in Hin. rewrite Hl in Hin.
  apply in_map_iff in Hin. destruct Hin as (p & Hp & Hin).
  unfold Spec.subject in Hp. injection Hp as Hside Hpos.
  split; congruence.
Qed.

Lemma map_snd_pair {A B : Type} (a : A) (l : list B) :
  map snd (map (pair a) l) = l.
Proof. induction l as [ | b l IH]; simpl; congruence. Qed.

Lemma existsb_false {A : Type} (f : A -> bool) (l : list A) :
  (forall a, In a l -> f a = false) -> existsb f l = false.
Proof.
  intros Hall. apply not_true_is_false. intros Hex.
  apply existsb_exists in Hex. destruct Hex as (a & Hin & Hf).
  rewrite (Hall a Hin) in Hf. discriminate.
Qed.

Lemma keyedBy_values_keys {V : Type} (key : V -> string) (m : JSMap.t V) :
  JSMap.keyedBy key m -> map key (map snd m) = map fst m.
Proof.
  induction m as [ | [k v] m IH]; simpl; intros Hm; [reflexivity | ].
  f_equal.
  - apply Hm. now left.
  - apply IH. intros k' v' Hin. apply Hm. now right.
Qed.

Lemma keyedBy_filter {V : Type} (key : V -> string)
    (f : string * V -> bool) (m : JSMap.t V) :
  JSMap.keyedBy key m -> JSMap.keyedBy key (filter f m).
Proof.
  intros Hm k v Hin. apply filter_In in Hin. apply Hm. tauto.
Qed.

Lemma fold_set_spec (ps : list Position) :
  forall m : JSMap.t Position,
    JSMap.keyedBy id m -> NoDup (JSMap.keys m) ->
    let m' := fold_left (fun m pos => JSMap.set m pos.(id) pos) ps m in
    JSMap.keyedBy id m' /\ NoDup (JSMap.keys m').
Proof.
  induction ps as [ | p ps IH]; simpl; intros m Hk Hnd; [auto | ].
  apply IH.
  - now apply JSMapFacts.keyedBy_set.
  - now apply JSMapFacts.keys_set_NoDup.
Qed.

Lemma currentPositionsOf_keyed (status : TradingStatus) :
  JSMap.keyedBy id (CopyTradingMonitor.currentPositionsOf status).
Proof.
  apply (fold_set_spec (openPositions status) JSMap.empty).
  - intros k v [].
  - constructor.
Qed.

Lemma currentPositionsOf_NoDup (status : TradingStatus) :
  NoDup (JSMap.keys (CopyTradingMonitor.currentPositionsOf status)).
Proof.
  apply (fold_set_spec (openPositions status) JSMap.empty).
  - intros k v [].
  - constructor.
Qed.

Lemma In_set {V : Type} (m : JSMap.t V) (k : string) (v : V) (k' : string)
    (v' : V) :
  In (k', v') (JSMap.set m k v) -> In (k', v') m \/ v' = v.
Proof.
  induction m as [ | [k0 v0] m IH]; simpl.
  - intros [[= <- <-] | []]. now right.
  - destruct (String.eqb k0 k); simpl.
    + intros [[= <- <-] | Hin]; [now right | left; now right].
    + intros [Heq | Hin]; [left; now left | ].
      destruct (IH Hin) as [Hin' | ->]; [left; now right | now right].
Qed.

Lemma currentPositionsOf_In (status : TradingStatus) (k : string)
    (p : Position) :
  In (k, p) (CopyTradingMonitor.currentPositionsOf status) ->
  In p (openPositions status).
Proof.
  unfold CopyTradingMonitor.currentPositionsOf.
  assert (Hgen : forall ps (m : JSMap.t Position),
             In (k, p) (fold_left (fun m pos => JSMap.set m (id pos) pos) ps m) ->
             In (k, p) m \/ In p ps).
  { induction ps as [ | q ps IH]; simpl; intros m Hin; [now left | ].
    destruct (IH _ Hin) as [Hin' | Hin']; [ | right; now right].
    destruct (In_set _ _ _ _ _ Hin') as [Hm | ->]; [now left | ].
    right; now left. }
  intros Hin. destruct (Hgen _ _ Hin) as [[] | Hp]. exact Hp.
Qed.

(** [newPositions]: the current positions that are neither remembered nor
    executed, each identifier once. *)
Lemma newPositionsOf_In (current last : JSMap.t Position)
    (executedForTrader : JSSet.t) (p : Position) :
  JSMap.keyedBy id current ->
  In p (CopyTradingMonitor.newPositionsOf current last executedForTrader) ->
  In (p.(id), p) current
  /\ JSMap.has last p.(id) = false
  /\ JSSet.has executedForTrader p.(id) = false.
Proof.
  intros Hk Hin. unfold CopyTradingMonitor.newPositionsOf in Hin.
  apply in_map_iff in Hin. destruct Hin as [[k v] [Hv Hin]].
  simpl in Hv. subst v. apply filter_In in Hin. destruct Hin as [Hin Hf].
  simpl in Hf. apply andb_true_iff in Hf. destruct Hf as [Hl He].
  apply negb_true_iff in Hl, He. rewrite (Hk _ _ Hin). auto.
Qed.

Lemma newPositionsOf_NoDup (current last : JSMap.t Position)
    (executedForTrader : JSSet.t) :
  JSMap.keyedBy id current -> NoDup (JSMap.keys current) ->
  NoDup (map id
           (CopyTradingMonitor.newPositionsOf current last executedForTrader)).
Proof.
  intros Hk Hnd. unfold CopyTradingMonitor.newPositionsOf.
  rewrite keyedBy_values_keys by now apply keyedBy_filter.
  now apply filter_fst_NoDup.
Qed.

Lemma closedPositionsOf_In (current last : JSMap.t Position)
    (executedForTrader : JSSet.t) (p : Position) :
  JSMap.keyedBy id last ->
  In p (CopyTradingMonitor.closedPositionsOf current last executedForTrader) ->
  In (p.(id), p) last
  /\ JSMap.has current p.(id) = false
  /\ JSSet.has executedForTrader p.(id) = true.
Proof.
  intros Hk Hin. unfold CopyTradingMonitor.closedPositionsOf in Hin.
  apply in_map_iff in Hin. destruct Hin as [[k v] [Hv Hin]].
  simpl in Hv. subst v. apply filter_In in Hin. destruct Hin as [Hin Hf].
  simpl in Hf. apply andb_true_iff in Hf. destruct Hf as [Hc He].
  apply negb_true_iff in Hc. rewrite (Hk _ _ Hin). auto.
Qed.

Lemma closedPositionsOf_NoDup (current last : JSMap.t Position)
    (executedForTrader : JSSet.t) :
  JSMap.keyedBy id last -> NoDup (JSMap.keys last) ->
  NoDup (map id
           (CopyTradingMonitor.closedPositionsOf current last
                                                 executedForTrader)).
Proof.
  intros Hk Hnd. unfold CopyTradingMonitor.closedPositionsOf.
  rewrite keyedBy_values_keys by now apply keyedBy_filter.
  now apply filter_fst_NoDup.
Qed.

(** A remembered position that is gone and was executed is closed. *)
Lemma closedPositionsOf_complete (current last : JSMap.t Position)
    (executedForTrader : JSSet.t) (k : string) :
  JSMap.keyedBy id last ->
  JSMap.has last k = true ->
  JSMap.has current k = false ->
  JSSet.has executedForTrader k = true ->
  exists p,
    In p (CopyTradingMonitor.closedPositionsOf current last executedForTrader)
    /\ p.(id) = k.
Proof.
  intros Hk Hl Hc He. apply JSMapFacts.has_get in Hl. destruct Hl as [p Hp].
  apply JSMapFacts.get_In in Hp. exists p. split; [ | now apply Hk].
  unfold CopyTradingMonitor.closedPositionsOf. apply in_map_iff.
  exists (k, p). split; [reflexivity | ]. apply filter_In. split; [exact Hp | ].
  simpl. now rewrite Hc, He.
Qed.

(** ** The two loops *)

Section Loops.
Context `{NumberOps}.
Variable env : Env.
Variable executor : Config.t.
Variable t : string.

Abbreviation buyStep := (CopyTradingMonitor.buyStep env executor t).
Abbreviation sellStep := (CopyTradingMonitor.sellStep env executor t).
Abbreviation Loop := CopyTradingMonitor.Loop.
Abbreviation executed := CopyTradingMonitor.executed.
Abbreviation counters := CopyTradingMonitor.counters.
Abbreviation world := CopyTradingMonitor.world.
Abbreviation executions := CopyTradingMonitor.executions.

Lemma buyStep_eq (l : Loop) (p : Position) :
  buyStep l p
  = let res := TradeExecutor.executeBuy executor env p t 0 (world l) in
    CopyTradingMonitor.mkLoop
      (if success (fst res) then JSSet.add (executed l) p.(id)
       else executed l)
      (if success (fst res)
       then CopyTradingMonitor.countExecuted (counters l) (fst res)
       else CopyTradingMonitor.countFailed (counters l))
      (snd res)
      (executions l ++ [(buy, fst res)]).
Proof.
  unfold CopyTradingMonitor.buyStep.
  destruct (TradeExecutor.executeBuy executor env p t 0 (world l)) as [r w].
  simpl. destruct (success r); reflexivity.
Qed.

Lemma sellStep_eq (l : Loop) (p : Position) :
  sellStep l p
  = let res := TradeExecutor.executeSell executor env p t 0 (world l) in
    CopyTradingMonitor.mkLoop
      (if success (fst res) then JSSet.delete (executed l) p.(id)
       else executed l)
      (if success (fst res)
       then CopyTradingMonitor.countExecuted (counters l) (fst res)
       else CopyTradingMonitor.countFailed (counters l))
      (snd res)
      (executions l ++ [(sell, fst res)]).
Proof.
  unfold CopyTradingMonitor.sellStep.
  destruct (TradeExecutor.executeSell executor env p t 0 (world l)) as [r w].
  simpl. destruct (success r); reflexivity.
Qed.

Lemma grows_refl (w : World) : Spec.grows w w.
Proof.
  split; [reflexivity | ]. exists []. split; [now rewrite app_nil_r | ].
  intros d [].
Qed.

Lemma grows_trans (w1 w2 w3 : World) :
  Spec.grows w1 w2 -> Spec.grows w2 w3 -> Spec.grows w1 w3.
Proof.
  intros (Hc1 & a1 & Ht1 & Hs1) (Hc2 & a2 & Ht2 & Hs2).
  split; [congruence | ]. exists (a1 ++ a2).
  split; [now rewrite Ht2, Ht1, app_assoc | ].
  intros d Hin. apply in_app_iff in Hin. destruct Hin; auto.
Qed.

(** A call only adds to the store, and only the document of its
    success. *)
Lemma callOutcome_grows (p : Position) (w : World)
    (res : TradeExecutionResult * World) :
  Spec.callOutcome env p t w res -> Spec.grows w (snd res).
Proof.
  intros (_ & Hc & Hres). split; [exact Hc | ].
  destruct Hres as [[_ Ht] | (Hs & w1 & Hw & Ht & Hc1)].
  - exists []. split; [now rewrite app_nil_r | intros d []].
  - rewrite Hw. simpl.
    destruct (saveTrade_world env (fst res) t w1)
      as [-> | [-> | (_ & _ & ->)]]; simpl.
    + exists []. split; [now rewrite app_nil_r | intros d []].
    + exists []. split; [now rewrite app_nil_r | intros d []].
    + exists [TradeExecutor.tradeOf (fst res) t].
      split; [now rewrite Ht | ]. intros d [<- | []]. exact Hs.
Qed.

(** What a loop does: one execution per position, in order, each about
    its position; the identifiers of the successes join (or leave) the
    set; each execution counts as executed or as failed; the store only
    grows. *)
Lemma buyLoop_spec (ps : list Position) :
  forall l,
    exists added,
      executions (fold_left buyStep ps l) = executions l ++ added
      /\ map Spec.subject added = map (pair buy) ps
      /\ (forall k,
             JSSet.has (executed (fold_left buyStep ps l)) k
             = (JSSet.has (executed l) k
                || existsb (Spec.successfulBuy k) added)%bool)
      /\ CopyTradingStatus.totalTradesFailed
           (counters (fold_left buyStep ps l))
         = (CopyTradingStatus.totalTradesFailed (counters l)
            + Z.of_nat (Spec.failures added))%Z
      /\ CopyTradingStatus.totalTradesExecuted
           (counters (fold_left buyStep ps l))
         = (CopyTradingStatus.totalTradesExecuted (counters l)
            + Z.of_nat (Spec.successes added))%Z
      /\ Spec.grows (world l) (world (fold_left buyStep ps l)).
Proof.
  induction ps as [ | p ps IH]; simpl; intros l.
  - exists []. rewrite app_nil_r. repeat split; try (simpl; lia).
    + intros k. simpl. now rewrite orb_false_r.
    + apply grows_refl.
  - pose proof (executeBuy_outcome executor env p t 0 (world l)) as Hout.
    rewrite buyStep_eq. cbv zeta.
    set (res := TradeExecutor.executeBuy executor env p t 0 (world l)) in *.
    match goal with
    | |- context [fold_left _ ps ?l1] =>
        destruct (IH l1) as (added & Hex & Hsub & Hset & Hf & Hs & Hg)
    end.
    simpl in Hex, Hset, Hf, Hs, Hg.
    exists ((buy, fst res) :: added).
    split; [now rewrite Hex, <- app_assoc | ].
    split.
    { simpl. rewrite Hsub. f_equal. unfold Spec.subject. simpl. f_equal.
      apply Hout. }
    split.
    { intros k. rewrite Hset. simpl.
      unfold Spec.successfulBuy at 2, Spec.about. simpl.
      destruct Hout as (-> & _).
      destruct (success (fst res)); simpl.
      - now rewrite JSSetFacts.has_add, orb_assoc.
      - reflexivity. }
    split.
    { rewrite Hf. unfold Spec.failures. simpl.
      destruct (success (fst res)); simpl; lia. }
    split.
    { rewrite Hs. unfold Spec.successes. simpl.
      destruct (success (fst res)); simpl; lia. }
    eapply grows_trans; [ | exact Hg].
    apply (callOutcome_grows p). exact Hout.
Qed.

Lemma sellLoop_spec (ps : list Position) :
  forall l,
    exists added,
      executions (fold_left sellStep ps l) = executions l ++ added
      /\ map Spec.subject added = map (pair sell) ps
      /\ (forall k,
             JSSet.has (executed (fold_left sellStep ps l)) k
             = (JSSet.has (executed l) k
                && negb (existsb (Spec.successfulSell k) added))%bool)
      /\ CopyTradingStatus.totalTradesFailed
           (counters (fold_left sellStep ps l))
         = (CopyTradingStatus.totalTradesFailed (counters l)
            + Z.of_nat (Spec.failures added))%Z
      /\ CopyTradingStatus.totalTradesExecuted
           (counters (fold_left sellStep ps l))
         = (CopyTradingStatus.totalTradesExecuted (counters l)
            + Z.of_nat (Spec.successes added))%Z
      /\ Spec.grows (world l) (world (fold_left sellStep ps l)).
Proof.
  induction ps as [ | p ps IH]; simpl; intros l.
  - exists []. rewrite app_nil_r. repeat split; try (simpl; lia).
    + intros k. simpl. now rewrite andb_true_r.
    + apply grows_refl.
  - pose proof (executeSell_outcome executor env p t 0 (world l)) as Hout.
    rewrite sellStep_eq. cbv zeta.
    set (res := TradeExecutor.executeSell executor env p t 0 (world l)) in *.
    match goal with
    | |- context [fold_left _ ps ?l1] =>
        destruct (IH l1) as (added & Hex & Hsub & Hset & Hf & Hs & Hg)
    end.
    simpl in Hex, Hset, Hf, Hs, Hg.
    exists ((sell, fst res) :: added).
    split; [now rewrite Hex, <- app_assoc | ].
    split.
    { simpl. rewrite Hsub. f_equal. unfold Spec.subject. simpl. f_equal.
      apply Hout. }
    split.
    { intros k. rewrite Hset. simpl.
      unfold Spec.successfulSell at 2, Spec.about. simpl.
      destruct Hout as (-> & _).
      destruct (success (fst res)); simpl.
      - rewrite JSSetFacts.has_delete, negb_orb, andb_assoc. reflexivity.
      - reflexivity. }
    split.
    { rewrite Hf. unfold Spec.failures. simpl.
      destruct (success (fst res)); simpl; lia. }
    split.
    { rewrite Hs. unfold Spec.successes. simpl.
      destruct (success (fst res)); simpl; lia. }
    eapply grows_trans; [ | exact Hg].
    apply (callOutcome_grows p). exact Hout.
Qed.

End Loops.

(** ** One status update *)

Section StatusUpdate.
Context `{NumberOps}.
Variable env : Env.

(** The parts of [handleStatusUpdate]. *)
Lemma handleStatusUpdate_eq (m : CopyTradingMonitor.t) (w : World)
    (status : TradingStatus) (t : string) :
  let executor := TradeExecutor.constructor m.(CopyTradingMonitor.config) in
  let current := CopyTradingMonitor.currentPositionsOf status in
  let last := Spec.lastPositions m t in
  let executedForTrader := Spec.inFlight m t in
  let afterBuys :=
    fold_left (CopyTradingMonitor.buyStep env executor t)
      (CopyTradingMonitor.newPositionsOf current last executedForTrader)
      (CopyTradingMonitor.mkLoop executedForTrader
                                 m.(CopyTradingMonitor.stats) w []) in
  let afterSells :=
    fold_left (CopyTradingMonitor.sellStep env executor t)
      (CopyTradingMonitor.closedPositionsOf current last executedForTrader)
      afterBuys in
  forall m' w' done,
    CopyTradingMonitor.handleStatusUpdate env m w status t = (m', w', done) ->
    done = CopyTradingMonitor.executions afterSells
    /\ w' = CopyTradingMonitor.world afterSells
    /\ Spec.lastPositions m' t = current
    /\ Spec.inFlight m' t
       = match JSMap.get m.(CopyTradingMonitor.executedPositions) t with
         | Some _ => CopyTradingMonitor.executed afterSells
         | None => JSSet.empty
         end
    /\ (Spec.registered m t -> Spec.registered m' t)
    /\ m'.(CopyTradingMonitor.config) = m.(CopyTradingMonitor.config)
    /\ CopyTradingStatus.totalTradesFailed m'.(CopyTradingMonitor.stats)
       = CopyTradingStatus.totalTradesFailed
           (CopyTradingMonitor.counters afterSells)
    /\ CopyTradingStatus.totalTradesExecuted m'.(CopyTradingMonitor.stats)
       = CopyTradingStatus.totalTradesExecuted
           (CopyTradingMonitor.counters afterSells).
Proof.
  intros executor current last executedForTrader afterBuys afterSells
    m' w' done Hrun.
  unfold CopyTradingMonitor.handleStatusUpdate in Hrun.
  fold executor current in Hrun.
  change (TradeExecutor.orDefault
            (JSMap.get (CopyTradingMonitor.targetPositions m) t) JSMap.empty)
    with last in Hrun.
  change (TradeExecutor.orDefault
            (JSMap.get (CopyTradingMonitor.executedPositions m) t) JSSet.empty)
    with executedForTrader in Hrun.
  fold afterBuys in Hrun. fold afterSells in Hrun.
  injection Hrun as <- <- <-.
  split; [reflexivity | ]. split; [reflexivity | ].
  split.
  { unfold Spec.lastPositions. simpl.
    now rewrite JSMapFacts.get_set_same. }
  split.
  { unfold Spec.inFlight. simpl.
    destruct (JSMap.get (CopyTradingMonitor.executedPositions m) t) eqn:Hg.
    - now rewrite JSMapFacts.get_set_same.
    - now rewrite Hg. }
  split.
  { intros [s Hs]. unfold Spec.registered. simpl. rewrite Hs.
    rewrite JSMapFacts.get_set_same. eauto. }
  repeat split.
Qed.

(** The executions of one update: a buy for each new position, then a
    sell for each closed position. *)
Lemma handleStatusUpdate_executions (m : CopyTradingMonitor.t) (w : World)
    (status : TradingStatus) (t : string) m' w' done :
  CopyTradingMonitor.handleStatusUpdate env m w status t = (m', w', done) ->
  map Spec.subject done
  = map (pair buy)
        (CopyTradingMonitor.newPositionsOf
           (CopyTradingMonitor.currentPositionsOf status)
           (Spec.lastPositions m t) (Spec.inFlight m t))
    ++ map (pair sell)
           (CopyTradingMonitor.closedPositionsOf
              (CopyTradingMonitor.currentPositionsOf status)
              (Spec.lastPositions m t) (Spec.inFlight m t)).
Proof.
  intros Hrun.
  destruct (handleStatusUpdate_eq m w status t m' w' done Hrun) as (-> & _).
  set (executor := TradeExecutor.constructor (CopyTradingMonitor.config m)).
  match goal with
  | |- context [fold_left ?sell ?closed (fold_left ?buy ?new ?l)] =>
      destruct (buyLoop_spec env executor t new l) as (b & Hb & Hbp & _);
      destruct (sellLoop_spec env executor t closed (fold_left buy new l))
        as (s & Hs & Hsp & _)
  end.
  rewrite Hs, Hb. simpl. rewrite map_app, Hbp, Hsp. reflexivity.
Qed.

(** What an execution of one update is about. *)
Lemma handleStatusUpdate_subject (m : CopyTradingMonitor.t) (w : World)
    (status : TradingStatus) (t : string) m' w' done
    (e : CopyTradingMonitor.Execution) :
  Spec.wellKeyed m t ->
  CopyTradingMonitor.handleStatusUpdate env m w status t = (m', w', done) ->
  In e done ->
  let k := (snd e).(position).(id) in
  (fst e = buy
   /\ JSMap.has (CopyTradingMonitor.currentPositionsOf status) k = true
   /\ JSMap.has (Spec.lastPositions m t) k = false
   /\ JSSet.has (Spec.inFlight m t) k = false)
  \/ (fst e = sell
      /\ JSMap.has (CopyTradingMonitor.currentPositionsOf status) k = false
      /\ JSMap.has (Spec.lastPositions m t) k = true
      /\ JSSet.has (Spec.inFlight m t) k = true).
Proof.
  intros Hkeyed Hrun Hin k.
  apply (in_map Spec.subject) in Hin.
  rewrite (handleStatusUpdate_executions m w status t m' w' done Hrun) in Hin.
  apply in_app_iff in Hin. destruct Hin as [Hin | Hin];
    apply in_map_iff in Hin; destruct Hin as [p [Hp Hin]];
    unfold Spec.subject in Hp; injection Hp as Hside Hpos;
    subst k; rewrite <- Hpos.
  - left. split; [auto | ].
    apply newPositionsOf_In in Hin; [ | apply currentPositionsOf_keyed].
    destruct Hin as (Hcur & Hl & He).
    apply JSMapFacts.In_has in Hcur. auto.
  - right. split; [auto | ].
    apply closedPositionsOf_In in Hin; [ | apply Hkeyed].
    destruct Hin as (Hlast & Hc & He).
    apply JSMapFacts.In_has in Hlast. auto.
Qed.

(** C5.  For a position that is remembered for the trader and absent from
    the new status, the update executes a sell exactly when the identifier
    is in the trader's executed set; when it is not, the update executes
    nothing about the position. *)
Theorem close_requires_open (m : CopyTradingMonitor.t) (w : World)
    (status : TradingStatus) (t k : string) m' w' done :
  Spec.wellKeyed m t ->
  JSMap.has (Spec.lastPositions m t) k = true ->
  JSMap.has (CopyTradingMonitor.currentPositionsOf status) k = false ->
  CopyTradingMonitor.handleStatusUpdate env m w status t = (m', w', done) ->
  (forall e, In e done -> Spec.about k e = true ->
             fst e = sell /\ JSSet.has (Spec.inFlight m t) k = true)
  /\ (JSSet.has (Spec.inFlight m t) k = false ->
      forall e, In e done -> Spec.about k e = false)
  /\ (JSSet.has (Spec.inFlight m t) k = true ->
      exists e, In e done /\ fst e = sell /\ Spec.about k e = true).
Proof.
  intros Hkeyed Hlast Hgone Hrun.
  assert (Hsell : forall e, In e done -> Spec.about k e = true ->
                            fst e = sell
                            /\ JSSet.has (Spec.inFlight m t) k = true).
  { intros e Hin Habout. apply String.eqb_eq in Habout.
    destruct (handleStatusUpdate_subject m w status t m' w' done e
                Hkeyed Hrun Hin) as [(_ & Hcur & _) | (Hs & _ & _ & He)];
      rewrite Habout in *; [congruence | auto]. }
  split; [exact Hsell | ]. split.
  - intros Hout e Hin. destruct (Spec.about k e) eqn:Habout; [ | reflexivity].
    destruct (Hsell e Hin Habout) as [_ He]. congruence.
  - intros He.
    destruct (closedPositionsOf_complete
                (CopyTradingMonitor.currentPositionsOf status)
                (Spec.lastPositions m t) (Spec.inFlight m t) k
                (proj1 Hkeyed) Hlast Hgone He) as (p & Hp & Hid).
    assert (Hin : In (sell, p) (map Spec.subject done)).
    { rewrite (handleStatusUpdate_executions m w status t m' w' done Hrun).
      apply in_app_iff. right. now apply in_map. }
    apply in_map_iff in Hin. destruct Hin as (e & Hsub & Hin).
    exists e. unfold Spec.subject in Hsub. injection Hsub as Hside Hpos.
    split; [exact Hin | ]. split; [exact Hside | ].
    unfold Spec.about. rewrite Hpos, Hid. apply String.eqb_refl.
Qed.

(** The whole of one update. *)
Lemma handleStatusUpdate_spec (m : CopyTradingMonitor.t) (w : World)
    (status : TradingStatus) (t : string) m' w' done :
  CopyTradingMonitor.handleStatusUpdate env m w status t = (m', w', done) ->
  let current := CopyTradingMonitor.currentPositionsOf status in
  exists buys sells,
    done = buys ++ sells
    /\ map Spec.subject buys
       = map (pair buy)
             (CopyTradingMonitor.newPositionsOf
                current (Spec.lastPositions m t) (Spec.inFlight m t))
    /\ map Spec.subject sells
       = map (pair sell)
             (CopyTradingMonitor.closedPositionsOf
                current (Spec.lastPositions m t) (Spec.inFlight m t))
    /\ Spec.lastPositions m' t = current
    /\ (Spec.registered m t ->
        Spec.registered m' t
        /\ forall k,
             JSSet.has (Spec.inFlight m' t) k
             = ((JSSet.has (Spec.inFlight m t) k
                 || existsb (Spec.successfulBuy k) buys)
                && negb (existsb (Spec.successfulSell k) sells))%bool)
    /\ (~ Spec.registered m t ->
        ~ Spec.registered m' t /\ Spec.inFlight m' t = JSSet.empty)
    /\ CopyTradingStatus.totalTradesFailed m'.(CopyTradingMonitor.stats)
       = (CopyTradingStatus.totalTradesFailed m.(CopyTradingMonitor.stats)
          + Z.of_nat (Spec.failures done))%Z
    /\ CopyTradingStatus.totalTradesExecuted m'.(CopyTradingMonitor.stats)
       = (CopyTradingStatus.totalTradesExecuted m.(CopyTradingMonitor.stats)
          + Z.of_nat (Spec.successes done))%Z
    /\ m'.(CopyTradingMonitor.config) = m.(CopyTradingMonitor.config)
    /\ Spec.grows w w'.
Proof.
  intros Hrun current.
  destruct (handleStatusUpdate_eq m w status t m' w' done Hrun)
    as (-> & -> & Hlast & Hfl & Hreg & Hcfg & Hfail & Hexec).
  set (executor := TradeExecutor.constructor (CopyTradingMonitor.config m))
    in *.
  fold current in Hfl, Hfail, Hexec, Hlast |- *.
  match goal with
  | |- context [fold_left ?sell ?closed (fold_left ?buy ?new ?l)] =>
      destruct (buyLoop_spec env executor t new l)
        as (b & Hb & Hbp & Hbset & Hbf & Hbs & Hbg);
      destruct (sellLoop_spec env executor t closed (fold_left buy new l))
        as (s & Hs & Hsp & Hsset & Hsf & Hss & Hsg)
  end.
  simpl in Hb, Hbset, Hbf, Hbs, Hbg.
  exists b, s. rewrite Hs, Hb.
  split; [reflexivity | ]. split; [exact Hbp | ]. split; [exact Hsp | ].
  split; [exact Hlast | ]. split.
  { intros Hr. split; [auto | ]. intros k. rewrite Hfl.
    destruct Hr as [s0 Hs0]. rewrite Hs0. now rewrite Hsset, Hbset. }
  split.
  { intros Hr.
    assert (Hnone : JSMap.get (CopyTradingMonitor.executedPositions m) t
                    = None).
    { destruct (JSMap.get (CopyTradingMonitor.executedPositions m) t) eqn:Hg;
        [ | reflexivity]. exfalso. apply Hr. eexists. exact Hg. }
    split; [ | now rewrite Hfl, Hnone].
    intros [s0 Hs0]. revert Hs0.
    unfold CopyTradingMonitor.handleStatusUpdate in Hrun.
    rewrite Hnone in Hrun. injection Hrun as <- _ _. simpl.
    now rewrite Hnone. }
  split.
  { rewrite Hfail, Hsf, Hbf. unfold Spec.failures.
    rewrite filter_app, length_app, Nat2Z.inj_add, Z.add_assoc.
    reflexivity. }
  split.
  { rewrite Hexec, Hss, Hbs. unfold Spec.successes.
    rewrite filter_app, length_app, Nat2Z.inj_add, Z.add_assoc.
    reflexivity. }
  split; [exact Hcfg | ].
  eapply grows_trans; eassumption.
Qed.

End StatusUpdate.

(** ** Duplicates in an update *)

Section Duplicates.
Context `{NumberOps}.
Variable env : Env.

Lemma grows_recorded (w w' : World) (k t : string) (side : TradeSide) :
  Spec.grows w w' ->
  Spec.recorded w k t side = true -> Spec.recorded w' k t side = true.
Proof.
  intros (_ & added & Ht & _). unfold Spec.recorded.
  rewrite Ht, existsb_app. intros ->. reflexivity.
Qed.

Lemma registered_dec (m : CopyTradingMonitor.t) (t : string) :
  Spec.registered m t \/ ~ Spec.registered m t.
Proof.
  unfold Spec.registered.
  destruct (JSMap.get (CopyTradingMonitor.executedPositions m) t) as [s | ].
  - left. now exists s.
  - right. intros [s Hs]. discriminate.
Qed.

(** The buys of one update are about different positions. *)
Lemma handleStatusUpdate_buys_unique (m : CopyTradingMonitor.t) (w : World)
    (status : TradingStatus) (t : string) m' w' done
    (e1 e2 : CopyTradingMonitor.Execution) :
  CopyTradingMonitor.handleStatusUpdate env m w status t = (m', w', done) ->
  In e1 done -> In e2 done -> fst e1 = buy -> fst e2 = buy ->
  Spec.subjectId e1 = Spec.subjectId e2 ->
  e1 = e2.
Proof.
  intros Hrun Hin1 Hin2 Hb1 Hb2 Hid.
  destruct (handleStatusUpdate_spec env m w status t m' w' done Hrun)
    as (buys & sells & -> & Hbuys & Hsells & _).
  assert (Hinb : forall e, In e (buys ++ sells) -> fst e = buy -> In e buys).
  { intros e Hin Hb. apply in_app_iff in Hin. destruct Hin as [Hin | Hin];
      [exact Hin | ].
    destruct (subject_side _ _ _ Hsells e Hin) as [Hs _]. congruence. }
  apply Hinb in Hin1, Hin2; auto.
  apply (NoDup_map_inj Spec.subjectId buys); auto.
  replace (map Spec.subjectId buys)
    with (map id (map snd (map Spec.subject buys)))
    by (rewrite !map_map; reflexivity).
  rewrite Hbuys, map_snd_pair.
  apply newPositionsOf_NoDup.
  - apply currentPositionsOf_keyed.
  - apply currentPositionsOf_NoDup.
Qed.

(** C10.  When the connected store records a successful buy of the
    position for the trader, [executeBuy] returns, without an order, a
    result with [success = false] and [error = 'Duplicate trade']; an
    update in which the position is new counts it as failed and leaves
    its identifier out of the trader's executed set. *)
Theorem duplicate_is_failure (m : CopyTradingMonitor.t) (w : World)
    (status : TradingStatus) (t : string) (p : Position) m' w' done :
  let executor := TradeExecutor.constructor m.(CopyTradingMonitor.config) in
  let duplicate :=
    mkResult false p None None None None (Some "Duplicate trade")
             executor.(Config.dryRun) (Some 0%Z) in
  Spec.healthy env ->
  dbConnected w = true ->
  Spec.recorded w p.(id) t buy = true ->
  In p (CopyTradingMonitor.newPositionsOf
          (CopyTradingMonitor.currentPositionsOf status)
          (Spec.lastPositions m t) (Spec.inFlight m t)) ->
  CopyTradingMonitor.handleStatusUpdate env m w status t = (m', w', done) ->
  TradeExecutor.executeBuy executor env p t 0 w = (duplicate, countDbCall w)
  /\ In (buy, duplicate) done
  /\ CopyTradingStatus.totalTradesFailed m'.(CopyTradingMonitor.stats)
     = (CopyTradingStatus.totalTradesFailed m.(CopyTradingMonitor.stats)
        + Z.of_nat (Spec.failures done))%Z
  /\ 1 <= Spec.failures done
  /\ JSSet.has (Spec.inFlight m' t) p.(id) = false.
Proof.
  intros executor duplicate Hh Hc Hr Hnew Hrun.
  assert (Hdup : forall w0,
             dbConnected w0 = true ->
             Spec.recorded w0 (id p) t buy = true ->
             TradeExecutor.executeBuy executor env p t 0 w0
             = (duplicate, countDbCall w0)).
  { intros w0 Hc0 Hr0. now apply executeBuy_duplicate. }
  split; [now apply Hdup | ].
  (* every buy of [p] in the update returns [duplicate] *)
  set (I := fun l : CopyTradingMonitor.Loop =>
              dbConnected (CopyTradingMonitor.world l) = true
              /\ Spec.recorded (CopyTradingMonitor.world l) (id p) t buy = true
              /\ forall e, In e (CopyTradingMonitor.executions l) ->
                           Spec.subject e = (buy, p) -> snd e = duplicate).
  assert (Hbuy : forall l q, I l ->
                             I (CopyTradingMonitor.buyStep env executor t l q)).
  { intros l q (Hcl & Hrl & Hel). rewrite buyStep_eq. cbv zeta.
    pose proof (executeBuy_outcome executor env q t 0
                  (CopyTradingMonitor.world l)) as Hout.
    destruct (callOutcome_grows env t q _ _ Hout) as [Hcg Hg].
    split; [simpl; congruence | ]. split.
    { simpl. eapply grows_recorded; [ | exact Hrl]. now split. }
    simpl. intros e Hin Hsub. apply in_app_iff in Hin.
    destruct Hin as [Hin | [<- | []]]; [auto | ].
    unfold Spec.subject in Hsub. simpl in Hsub. injection Hsub as Hq.
    destruct Hout as (Hpos & _). rewrite Hpos in Hq. subst q.
    simpl. now rewrite Hdup. }
  assert (Hsell : forall l q, I l ->
                              I (CopyTradingMonitor.sellStep env executor t l q)).
  { intros l q (Hcl & Hrl & Hel). rewrite sellStep_eq. cbv zeta.
    pose proof (executeSell_outcome executor env q t 0
                  (CopyTradingMonitor.world l)) as Hout.
    destruct (callOutcome_grows env t q _ _ Hout) as [Hcg Hg].
    split; [simpl; congruence | ]. split.
    { simpl. eapply grows_recorded; [ | exact Hrl]. now split. }
    simpl. intros e Hin Hsub. apply in_app_iff in Hin.
    destruct Hin as [Hin | [<- | []]]; [auto | ].
    unfold Spec.subject in Hsub. simpl in Hsub. discriminate. }
  assert (Hall : forall e, In e done -> Spec.subject e = (buy, p) ->
                           snd e = duplicate).
  { destruct (handleStatusUpdate_eq env m w status t m' w' done Hrun)
      as (-> & _).
    apply (fold_left_invariant _ I); [intros; now apply Hsell | ].
    apply (fold_left_invariant _ I); [intros; now apply Hbuy | ].
    repeat split; auto. intros e []. }
  destruct (handleStatusUpdate_spec env m w status t m' w' done Hrun)
    as (buys & sells & Hdone & Hbuys & Hsells & _ & Hreg & Hunreg & Hfail & _).
  assert (Hin : In (buy, duplicate) done).
  { assert (Hsub : In (buy, p) (map Spec.subject buys))
      by (rewrite Hbuys; now apply in_map).
    apply in_map_iff in Hsub. destruct Hsub as ([side r] & Hsub & Hin).
    assert (Hin' : In (side, r) done)
      by (rewrite Hdone; apply in_app_iff; now left).
    pose proof (Hall _ Hin' Hsub) as Hr'. simpl in Hr'. subst r.
    unfold Spec.subject in Hsub. simpl in Hsub. injection Hsub as ->.
    exact Hin'. }
  split; [exact Hin | ]. split; [exact Hfail | ]. split.
  { unfold Spec.failures.
    assert (Hf : In (buy, duplicate)
                    (filter (fun e => negb (success (snd e))) done))
      by (apply filter_In; split; [exact Hin | reflexivity]).
    destruct (filter (fun e => negb (success (snd e))) done);
      [destruct Hf | simpl; lia]. }
  destruct (registered_dec m t) as [Hr0 | Hr0].
  - destruct (Hreg Hr0) as [_ Hset]. rewrite Hset.
    apply newPositionsOf_In in Hnew; [ | apply currentPositionsOf_keyed].
    destruct Hnew as (_ & _ & ->). simpl.
    rewrite existsb_false; [reflexivity | ].
    intros e Hine. unfold Spec.successfulBuy.
    destruct (subject_side _ _ _ Hbuys e Hine) as [Hside Hpos].
    rewrite Hside.
    destruct (Spec.about (id p) e) eqn:Habout; [ | apply andb_false_r].
    apply String.eqb_eq in Habout.
    assert (He : e = (buy, duplicate)).
    { apply (handleStatusUpdate_buys_unique m w status t m' w' done);
        auto.
      rewrite Hdone. apply in_app_iff. now left. }
    rewrite He. reflexivity.
  - destruct (Hunreg Hr0) as [_ ->]. reflexivity.
Qed.

End Duplicates.

(** ** A failed open *)

Section FailedOpen.
Context `{NumberOps}.
Variable env : Env.
Variable t : string.

(** After an update the remembered positions are those of the status. *)
Lemma handleStatusUpdate_wellKeyed (m : CopyTradingMonitor.t) (w : World)
    (status : TradingStatus) m' w' done :
  CopyTradingMonitor.handleStatusUpdate env m w status t = (m', w', done) ->
  Spec.wellKeyed m' t.
Proof.
  intros Hrun.
  destruct (handleStatusUpdate_spec env m w status t m' w' done Hrun)
    as (buys & sells & _ & _ & _ & Hlast & _).
  unfold Spec.wellKeyed. rewrite Hlast. split.
  - apply currentPositionsOf_keyed.
  - apply currentPositionsOf_NoDup.
Qed.

(** The executed set after an update in which no buy of [k] succeeded. *)
Lemma handleStatusUpdate_not_opened (m : CopyTradingMonitor.t) (w : World)
    (status : TradingStatus) (k : string) m' w' done :
  CopyTradingMonitor.handleStatusUpdate env m w status t = (m', w', done) ->
  JSSet.has (Spec.inFlight m t) k = false ->
  (forall e, In e done -> Spec.successfulBuy k e = false) ->
  JSSet.has (Spec.inFlight m' t) k = false.
Proof.
  intros Hrun Hout Hnone.
  destruct (handleStatusUpdate_spec env m w status t m' w' done Hrun)
    as (buys & sells & Hdone & _ & _ & _ & Hreg & Hunreg & _).
  destruct (registered_dec m t) as [Hr | Hr].
  - destruct (Hreg Hr) as [_ Hset]. rewrite Hset, Hout. simpl.
    rewrite existsb_false; [reflexivity | ].
    intros e Hin. apply Hnone. rewrite Hdone. apply in_app_iff. now left.
  - destruct (Hunreg Hr) as [_ ->]. reflexivity.
Qed.

(** An update in whose status a remembered, unexecuted position is still
    present executes nothing about it. *)
Lemma quiet_update (m : CopyTradingMonitor.t) (w : World)
    (status : TradingStatus) (k : string) m' w' done :
  Spec.wellKeyed m t ->
  JSMap.has (Spec.lastPositions m t) k = true ->
  JSSet.has (Spec.inFlight m t) k = false ->
  JSMap.has (CopyTradingMonitor.currentPositionsOf status) k = true ->
  CopyTradingMonitor.handleStatusUpdate env m w status t = (m', w', done) ->
  (forall e, In e done -> Spec.about k e = false)
  /\ Spec.wellKeyed m' t
  /\ JSMap.has (Spec.lastPositions m' t) k = true
  /\ JSSet.has (Spec.inFlight m' t) k = false.
Proof.
  intros Hkeyed Hlast Hout Hcur Hrun.
  assert (Hquiet : forall e, In e done -> Spec.about k e = false).
  { intros e Hin. destruct (Spec.about k e) eqn:Habout; [ | reflexivity].
    apply String.eqb_eq in Habout.
    destruct (handleStatusUpdate_subject env m w status t m' w' done e
                Hkeyed Hrun Hin) as [(_ & _ & Hl & _) | (_ & Hc & _)];
      rewrite Habout in *; congruence. }
  split; [exact Hquiet | ].
  split; [eapply handleStatusUpdate_wellKeyed; eauto | ].
  split.
  - destruct (handleStatusUpdate_spec env m w status t m' w' done Hrun)
      as (buys & sells & _ & _ & _ & -> & _). exact Hcur.
  - eapply handleStatusUpdate_not_opened; eauto.
    intros e Hin. unfold Spec.successfulBuy. rewrite (Hquiet e Hin).
    destruct (fst e); [apply andb_false_r | reflexivity].
Qed.

Lemma handleStatusUpdates_cons (m : CopyTradingMonitor.t) (w : World)
    (status : TradingStatus) (rest : list TradingStatus) :
  CopyTradingMonitor.handleStatusUpdates env m w (status :: rest) t
  = let '(m1, w1, done1) :=
      CopyTradingMonitor.handleStatusUpdate env m w status t in
    let '(m2, w2, done2) :=
      CopyTradingMonitor.handleStatusUpdates env m1 w1 rest t in
    (m2, w2, done1 ++ done2).
Proof. reflexivity. Qed.

Lemma quiet_updates (k : string) (later : list TradingStatus) :
  forall (m : CopyTradingMonitor.t) (w : World) m' w' done,
    Spec.wellKeyed m t ->
    JSMap.has (Spec.lastPositions m t) k = true ->
    JSSet.has (Spec.inFlight m t) k = false ->
    (forall s, In s later ->
               JSMap.has (CopyTradingMonitor.currentPositionsOf s) k = true) ->
    CopyTradingMonitor.handleStatusUpdates env m w later t = (m', w', done) ->
    (forall e, In e done -> Spec.about k e = false)
    /\ Spec.wellKeyed m' t
    /\ JSMap.has (Spec.lastPositions m' t) k = true
    /\ JSSet.has (Spec.inFlight m' t) k = false.
Proof.
  induction later as [ | s later IH];
    intros m w m' w' done Hkeyed Hlast Hout Hcur Hrun.
  - injection Hrun as <- <- <-.
    split; [intros e [] | ]. split; [exact Hkeyed | ]. split; assumption.
  - rewrite handleStatusUpdates_cons in Hrun.
    destruct (CopyTradingMonitor.handleStatusUpdate env m w s t)
      as [[m1 w1] done1] eqn:Hrun1.
    destruct (CopyTradingMonitor.handleStatusUpdates env m1 w1 later t)
      as [[m2 w2] done2] eqn:Hrun2.
    injection Hrun as <- <- <-.
    destruct (quiet_update m w s k m1 w1 done1 Hkeyed Hlast Hout
                (Hcur s (or_introl eq_refl)) Hrun1)
      as (Hq1 & Hk1 & Hl1 & Ho1).
    destruct (IH m1 w1 m2 w2 done2 Hk1 Hl1 Ho1
                (fun s' Hs' => Hcur s' (or_intror Hs')) Hrun2)
      as (Hq2 & Hk2 & Hl2 & Ho2).
    split; [ | split; [exact Hk2 | split; assumption]].
    intros e Hin. apply in_app_iff in Hin. destruct Hin; auto.
Qed.

(** C9, as amended.  With the updates of the trader handled one at a
    time, each call returned before the next update is delivered: a buy
    that fails during an update leaves the position
    remembered for the trader and out of the executed set; no later update
    in whose status the position is still present executes anything about
    it; and the update in which it disappears executes no sell. *)
Theorem failed_open_not_retried (m : CopyTradingMonitor.t) (w : World)
    (status : TradingStatus) (k : string) (r : TradeExecutionResult)
    m1 w1 done1 (later : list TradingStatus) m2 w2 done2
    (gone : TradingStatus) m3 w3 done3 :
  CopyTradingMonitor.handleStatusUpdate env m w status t = (m1, w1, done1) ->
  In (buy, r) done1 -> r.(position).(id) = k -> r.(success) = false ->
  (forall s, In s later ->
             JSMap.has (CopyTradingMonitor.currentPositionsOf s) k = true) ->
  CopyTradingMonitor.handleStatusUpdates env m1 w1 later t
  = (m2, w2, done2) ->
  JSMap.has (CopyTradingMonitor.currentPositionsOf gone) k = false ->
  CopyTradingMonitor.handleStatusUpdate env m2 w2 gone t = (m3, w3, done3) ->
  JSMap.has (Spec.lastPositions m1 t) k = true
  /\ JSSet.has (Spec.inFlight m1 t) k = false
  /\ (forall e, In e done2 -> Spec.about k e = false)
  /\ (forall e, In e done3 -> Spec.about k e = false).
Proof.
  intros Hrun1 Hin Hk Hfailed Hpresent Hrun2 Hgone Hrun3.
  destruct (handleStatusUpdate_spec env m w status t m1 w1 done1 Hrun1)
    as (buys & sells & Hdone & Hbuys & Hsells & Hlast & _).
  assert (Hinb : In (buy, r) buys).
  { rewrite Hdone in Hin. apply in_app_iff in Hin.
    destruct Hin as [Hin | Hin]; [exact Hin | ].
    destruct (subject_side _ _ _ Hsells _ Hin) as [Hs _]. discriminate. }
  destruct (subject_side _ _ _ Hbuys _ Hinb) as [_ Hnew]. simpl in Hnew.
  apply newPositionsOf_In in Hnew; [ | apply currentPositionsOf_keyed].
  destruct Hnew as (Hcur & _ & Hout). rewrite Hk in Hcur, Hout.
  apply JSMapFacts.In_has in Hcur.
  assert (Hlast1 : JSMap.has (Spec.lastPositions m1 t) k = true)
    by now rewrite Hlast.
  assert (Hout1 : JSSet.has (Spec.inFlight m1 t) k = false).
  { eapply handleStatusUpdate_not_opened; eauto.
    intros e Hine. unfold Spec.successfulBuy.
    destruct (fst e) eqn:Hside; [ | reflexivity].
    destruct (Spec.about k e) eqn:Habout; [ | apply andb_false_r].
    apply String.eqb_eq in Habout.
    assert (He : e = (buy, r)).
    { apply (handleStatusUpdate_buys_unique env m w status t m1 w1 done1);
        auto. unfold Spec.subjectId. simpl. congruence. }
    rewrite He. simpl. now rewrite Hfailed. }
  pose proof (handleStatusUpdate_wellKeyed m w status m1 w1 done1 Hrun1)
    as Hkeyed1.
  destruct (quiet_updates k later m1 w1 m2 w2 done2 Hkeyed1 Hlast1 Hout1
              Hpresent Hrun2) as (Hq2 & Hkeyed2 & Hlast2 & Hout2).
  split; [exact Hlast1 | ]. split; [exact Hout1 | ]. split; [exact Hq2 | ].
  intros e Hine. destruct (Spec.about k e) eqn:Habout; [ | reflexivity].
  apply String.eqb_eq in Habout.
  destruct (handleStatusUpdate_subject env m2 w2 gone t m3 w3 done3 e
              Hkeyed2 Hrun3 Hine) as [(_ & Hc & _) | (_ & _ & _ & Ho)];
    rewrite Habout in *; congruence.
Qed.

End FailedOpen.

(** ** No double open *)

Section Alternation.

Lemma alternates_app (k : string) (l1 l2 : list CopyTradingMonitor.Execution) :
  forall open,
    Spec.alternates k open (l1 ++ l2)
    = match Spec.alternates k open l1 with
      | Some open' => Spec.alternates k open' l2
      | None => None
      end.
Proof.
  induction l1 as [ | e l1 IH]; simpl; intros open; [reflexivity | ].
  destruct (Spec.successfulBuy k e); [destruct open; auto | ].
  destruct (Spec.successfulSell k e); [destruct open; auto | ].
  apply IH.
Qed.

Lemma about_subjectId (k : string) (e : CopyTradingMonitor.Execution) :
  Spec.about k e = true <-> Spec.subjectId e = k.
Proof. apply String.eqb_eq. Qed.

(** Executions that are not about [k] do not count. *)
Lemma alternates_quiet (k : string) (l : list CopyTradingMonitor.Execution) :
  (forall e, In e l -> Spec.about k e = false) ->
  forall open, Spec.alternates k open l = Some open.
Proof.
  induction l as [ | e l IH]; simpl; intros Hq open; [reflexivity | ].
  unfold Spec.successfulBuy, Spec.successfulSell.
  rewrite (Hq e (or_introl eq_refl)), andb_false_r.
  destruct (fst e); apply IH; auto.
Qed.

Lemma NoDup_quiet (k : string) (e : CopyTradingMonitor.Execution)
    (l : list CopyTradingMonitor.Execution) :
  NoDup (map Spec.subjectId (e :: l)) ->
  Spec.about k e = true ->
  forall e', In e' l -> Spec.about k e' = false.
Proof.
  intros Hnd Hk e' Hin. inversion Hnd as [ | ? ? Hnotin _]; subst.
  apply not_true_is_false. intros Hk'.
  apply about_subjectId in Hk, Hk'. apply Hnotin. rewrite Hk, <- Hk'.
  now apply in_map.
Qed.

(** Buys about different positions, from a closed position: it is open at
    the end exactly when one of them succeeded. *)
Lemma alternates_buys (k : string) (l : list CopyTradingMonitor.Execution) :
  (forall e, In e l -> fst e = buy) ->
  NoDup (map Spec.subjectId l) ->
  Spec.alternates k false l = Some (existsb (Spec.successfulBuy k) l).
Proof.
  induction l as [ | e l IH]; intros Hside Hnd; [reflexivity | ].
  simpl. destruct (Spec.successfulBuy k e) eqn:Hb.
  - simpl. apply alternates_quiet. apply (NoDup_quiet k e); [exact Hnd | ].
    unfold Spec.successfulBuy in Hb. destruct (fst e); [ | discriminate].
    now apply andb_true_iff in Hb.
  - unfold Spec.successfulSell. rewrite (Hside e (or_introl eq_refl)).
    simpl. apply IH; [intros e0 Hin0; apply Hside; now right | ].
    simpl in Hnd. now inversion Hnd.
Qed.

Lemma alternates_sells (k : string) (l : list CopyTradingMonitor.Execution) :
  (forall e, In e l -> fst e = sell) ->
  NoDup (map Spec.subjectId l) ->
  Spec.alternates k true l
  = Some (negb (existsb (Spec.successfulSell k) l)).
Proof.
  induction l as [ | e l IH]; intros Hside Hnd; [reflexivity | ].
  simpl. unfold Spec.successfulBuy at 1. rewrite (Hside e (or_introl eq_refl)).
  destruct (Spec.successfulSell k e) eqn:Hs.
  - simpl. apply alternates_quiet. apply (NoDup_quiet k e); [exact Hnd | ].
    unfold Spec.successfulSell in Hs. destruct (fst e); [discriminate | ].
    now apply andb_true_iff in Hs.
  - simpl. apply IH; [intros e0 Hin0; apply Hside; now right | ].
    simpl in Hnd. now inversion Hnd.
Qed.

End Alternation.

Section NoDoubleOpen.
Context `{NumberOps}.
Variable env : Env.
Variable t : string.

(** Over one update the executions about a position alternate, and the
    executed set says whether the position is open at the end. *)
Lemma handleStatusUpdate_alternates (m : CopyTradingMonitor.t) (w : World)
    (status : TradingStatus) (k : string) m' w' done :
  Spec.registered m t -> Spec.wellKeyed m t ->
  CopyTradingMonitor.handleStatusUpdate env m w status t = (m', w', done) ->
  Spec.alternates k (JSSet.has (Spec.inFlight m t) k) done
  = Some (JSSet.has (Spec.inFlight m' t) k).
Proof.
  intros Hreg Hkeyed Hrun.
  destruct (handleStatusUpdate_spec env m w status t m' w' done Hrun)
    as (buys & sells & Hdone & Hbuys & Hsells & _ & Hset & _).
  destruct (Hset Hreg) as [_ ->]. subst done.
  assert (Hbside : forall e, In e buys -> fst e = buy)
    by (intros e Hin; now apply (subject_side _ _ _ Hbuys)).
  assert (Hsside : forall e, In e sells -> fst e = sell)
    by (intros e Hin; now apply (subject_side _ _ _ Hsells)).
  assert (Hbnd : NoDup (map Spec.subjectId buys)).
  { replace (map Spec.subjectId buys)
      with (map id (map snd (map Spec.subject buys)))
      by (rewrite !map_map; reflexivity).
    rewrite Hbuys, map_snd_pair. apply newPositionsOf_NoDup.
    - apply currentPositionsOf_keyed.
    - apply currentPositionsOf_NoDup. }
  assert (Hsnd : NoDup (map Spec.subjectId sells)).
  { replace (map Spec.subjectId sells)
      with (map id (map snd (map Spec.subject sells)))
      by (rewrite !map_map; reflexivity).
    rewrite Hsells, map_snd_pair. apply closedPositionsOf_NoDup; apply Hkeyed. }
  assert (Hbout : forall e, In e buys ->
                            JSSet.has (Spec.inFlight m t) (Spec.subjectId e)
                            = false).
  { intros e Hin. destruct (subject_side _ _ _ Hbuys e Hin) as [_ Hnew].
    apply newPositionsOf_In in Hnew; [ | apply currentPositionsOf_keyed].
    apply Hnew. }
  assert (Hsin : forall e, In e sells ->
                           JSSet.has (Spec.inFlight m t) (Spec.subjectId e)
                           = true).
  { intros e Hin. destruct (subject_side _ _ _ Hsells e Hin) as [_ Hclosed].
    apply closedPositionsOf_In in Hclosed; [ | apply Hkeyed].
    apply Hclosed. }
  rewrite alternates_app.
  destruct (JSSet.has (Spec.inFlight m t) k) eqn:Hk.
  - (* open: no buy is about [k] *)
    assert (Hq : forall e, In e buys -> Spec.about k e = false).
    { intros e Hin. apply not_true_is_false. intros Ha.
      apply about_subjectId in Ha. specialize (Hbout e Hin). congruence. }
    rewrite (alternates_quiet k buys Hq).
    rewrite (alternates_sells k sells Hsside Hsnd). simpl. reflexivity.
  - (* closed: no sell is about [k] *)
    assert (Hq : forall e, In e sells -> Spec.about k e = false).
    { intros e Hin. apply not_true_is_false. intros Ha.
      apply about_subjectId in Ha. specialize (Hsin e Hin). congruence. }
    rewrite (alternates_buys k buys Hbside Hbnd).
    rewrite (alternates_quiet k sells Hq). simpl.
    rewrite (existsb_false (Spec.successfulSell k) sells);
      [simpl; now rewrite andb_true_r | ].
    intros e Hin. unfold Spec.successfulSell. rewrite (Hq e Hin).
    destruct (fst e); [reflexivity | apply andb_false_r].
Qed.

Lemma handleStatusUpdates_alternates (k : string)
    (statuses : list TradingStatus) :
  forall (m : CopyTradingMonitor.t) (w : World) m' w' done,
    Spec.registered m t -> Spec.wellKeyed m t ->
    CopyTradingMonitor.handleStatusUpdates env m w statuses t
    = (m', w', done) ->
    Spec.alternates k (JSSet.has (Spec.inFlight m t) k) done
    = Some (JSSet.has (Spec.inFlight m' t) k).
Proof.
  induction statuses as [ | s statuses IH];
    intros m w m' w' done Hreg Hkeyed Hrun.
  - injection Hrun as <- <- <-. reflexivity.
  - rewrite handleStatusUpdates_cons in Hrun.
    destruct (CopyTradingMonitor.handleStatusUpdate env m w s t)
      as [[m1 w1] done1] eqn:Hrun1.
    destruct (CopyTradingMonitor.handleStatusUpdates env m1 w1 statuses t)
      as [[m2 w2] done2] eqn:Hrun2.
    injection Hrun as <- <- <-.
    rewrite alternates_app.
    rewrite (handleStatusUpdate_alternates m w s k m1 w1 done1 Hreg Hkeyed
                                           Hrun1).
    apply (IH m1 w1 m2 w2 done2); [ | | exact Hrun2].
    + destruct (handleStatusUpdate_spec env m w s t m1 w1 done1 Hrun1)
        as (buys & sells & _ & _ & _ & _ & Hset & _).
      now apply Hset.
    + eapply handleStatusUpdate_wellKeyed; eauto.
Qed.

End NoDoubleOpen.

(** ** No double open, with the store *)

Section StoreBacked.
Context `{NumberOps}.
Variable env : Env.
Variable t : string.

Lemma truthy_orElse (s d : string) :
  JS.truthy d = true -> JS.truthy (JS.orElse s d) = true.
Proof. intros Hd. unfold JS.orElse. now destruct (JS.truthy s) eqn:Hs. Qed.

Lemma truthy_optOrElse (o : option string) (d : string) :
  JS.truthy d = true -> JS.truthy (JS.optOrElse o d) = true.
Proof. destruct o; simpl; [apply truthy_orElse | auto]. Qed.

Lemma grows_allSuccessful (w w' : World) :
  Spec.grows w w' -> Spec.allSuccessful w -> Spec.allSuccessful w'.
Proof.
  intros (_ & added & Ht & Hs) Hall d Hin. rewrite Ht in Hin.
  apply in_app_iff in Hin. destruct Hin; auto.
Qed.

(** The document of a successful buy of a storable position. *)
Lemma tradeOf_storable (r : TradeExecutionResult) :
  Spec.storable r.(position) t -> r.(success) = true ->
  TradeModel.valid (TradeExecutor.tradeOf r t) = true
  /\ TradeModel.matches r.(position).(id) t buy (TradeExecutor.tradeOf r t)
     = true
  /\ forall d,
       TradeModel.sameKey (TradeExecutor.tradeOf r t) d = true ->
       d.(ITrade.success) = true ->
       TradeModel.matches r.(position).(id) t buy d = true.
Proof.
  intros (Hid & Ht & Hm & Ho & Hq & Hp & Hv) Hs.
  unfold TradeModel.valid, TradeModel.matches, TradeModel.sameKey. simpl.
  rewrite Hid, Ht, Hm, Ho, Hv, Hs, !String.eqb_refl.
  rewrite (truthy_optOrElse _ _ Hq), (truthy_optOrElse _ _ Hp).
  split; [reflexivity | ]. split; [reflexivity | ].
  intros d Hk Hd.
  apply andb_true_iff in Hk. destruct Hk as [Hk Hside].
  apply andb_true_iff in Hk. destruct Hk as [Hpid Htr].
  apply String.eqb_eq in Hpid, Htr. rewrite <- Hpid, <- Htr, Hd.
  rewrite !String.eqb_refl. simpl.
  destruct (ITrade.side d); [reflexivity | discriminate].
Qed.

(** After a successful buy of a storable position, a connected store that
    answers and holds only successes records the buy. *)
Lemma callOutcome_recorded (p : Position) (w : World)
    (res : TradeExecutionResult * World) :
  Spec.callOutcome env p t w res ->
  Spec.healthy env -> dbConnected w = true -> Spec.allSuccessful w ->
  Spec.storable p t ->
  success (fst res) = true ->
  Spec.recorded (snd res) p.(id) t buy = true.
Proof.
  intros (Hpos & _ & Hres) Hh Hc Hall Hst Hs.
  destruct Hres as [[Hs' _] | (_ & w1 & -> & Htr & Hc1)]; [congruence | ].
  rewrite <- Hpos in Hst.
  destruct (tradeOf_storable (fst res) Hst Hs) as (Hv & Hm & Hk).
  rewrite Hpos in Hm, Hk.
  unfold Spec.recorded, TradeExecutor.saveTrade, TradeModel.save. simpl.
  rewrite Hc1, Hc, Hs, Hv, (Hh (dbCalls w1)). simpl.
  destruct (existsb (TradeModel.sameKey (TradeExecutor.tradeOf (fst res) t))
                    (trades w1)) eqn:Hex; simpl.
  - apply existsb_exists in Hex. destruct Hex as (d & Hin & Hd).
    apply existsb_exists. exists d. split; [exact Hin | ].
    apply Hk; [exact Hd | ]. apply Hall. now rewrite <- Htr.
  - rewrite existsb_app. simpl. rewrite Hm. apply orb_true_r.
Qed.

Lemma successfulBuys_app (k : string)
    (l1 l2 : list CopyTradingMonitor.Execution) :
  Spec.successfulBuys k (l1 ++ l2)
  = Spec.successfulBuys k l1 + Spec.successfulBuys k l2.
Proof.
  unfold Spec.successfulBuys. now rewrite filter_app, length_app.
Qed.

Section Steps.
Variable k : string.
Variable recordedBefore : Prop.
Hypothesis env_healthy : Spec.healthy env.

(** One call keeps [Spec.atMostOnce]. *)
Lemma atMostOnce_call (side : TradeSide) (p : Position) (w : World)
    (res : TradeExecutionResult * World)
    (done : list CopyTradingMonitor.Execution) :
  Spec.callOutcome env p t w res ->
  (side = buy -> p.(id) = k ->
   Spec.storable p t
   /\ (Spec.recorded w k t buy = true -> success (fst res) = false)) ->
  Spec.atMostOnce k t recordedBefore w done ->
  Spec.atMostOnce k t recordedBefore (snd res) (done ++ [(side, fst res)]).
Proof.
  intros Hout Hbuy (Hc & Hall & Hle & Hone & Hbefore).
  pose proof (callOutcome_grows env t p w res Hout) as Hg.
  assert (Hmono : Spec.recorded w k t buy = true ->
                  Spec.recorded (snd res) k t buy = true)
    by now apply grows_recorded.
  split; [destruct Hg; congruence | ].
  split; [eapply grows_allSuccessful; eauto | ].
  rewrite successfulBuys_app.
  assert (Hlast : Spec.successfulBuys k [(side, fst res)]
                  = if Spec.successfulBuy k (side, fst res) then 1 else 0).
  { unfold Spec.successfulBuys. simpl.
    destruct (Spec.successfulBuy k (side, fst res)); reflexivity. }
  rewrite Hlast. clear Hlast.
  destruct (Spec.successfulBuy k (side, fst res)) eqn:Hsb.
  - (* a successful buy of [k] *)
    unfold Spec.successfulBuy in Hsb. simpl in Hsb.
    destruct side; [ | discriminate].
    apply andb_true_iff in Hsb. destruct Hsb as [Hs Habout].
    unfold Spec.about in Habout. simpl in Habout.
    apply String.eqb_eq in Habout.
    assert (Hid : id p = k) by (destruct Hout as (<- & _); exact Habout).
    destruct (Hbuy eq_refl Hid) as [Hst Hdup].
    assert (Hnot : Spec.recorded w k t buy = false).
    { destruct (Spec.recorded w k t buy); [ | reflexivity].
      rewrite Hdup in Hs by reflexivity. discriminate. }
    assert (Hzero : Spec.successfulBuys k done = 0).
    { destruct (Spec.successfulBuys k done) as [ | [ | n]];
        [reflexivity | | lia].
      rewrite Hone in Hnot by reflexivity. discriminate. }
    assert (Hrec : Spec.recorded (snd res) k t buy = true).
    { rewrite <- Hid.
      apply (callOutcome_recorded p w res); auto. }
    rewrite Hzero. split; [lia | ]. split; [auto | ].
    intros Hb. destruct (Hbefore Hb) as [Hr _]. congruence.
  - rewrite Nat.add_0_r. split; [exact Hle | ]. split; [auto | ].
    intros Hb. destruct (Hbefore Hb). auto.
Qed.

End Steps.

Lemma handleStatusUpdate_atMostOnce (k : string) (recordedBefore : Prop)
    (m : CopyTradingMonitor.t) (w : World) (status : TradingStatus)
    (acc : list CopyTradingMonitor.Execution) m' w' done :
  Spec.healthy env ->
  (forall p, In p (openPositions status) -> p.(id) = k -> Spec.storable p t) ->
  Spec.atMostOnce k t recordedBefore w acc ->
  CopyTradingMonitor.handleStatusUpdate env m w status t = (m', w', done) ->
  Spec.atMostOnce k t recordedBefore w' (acc ++ done).
Proof.
  intros Hh Hst Hacc Hrun.
  destruct (handleStatusUpdate_eq env m w status t m' w' done Hrun)
    as (-> & -> & _).
  set (executor := TradeExecutor.constructor (CopyTradingMonitor.config m)).
  set (I := fun l : CopyTradingMonitor.Loop =>
              Spec.atMostOnce k t recordedBefore
                (CopyTradingMonitor.world l)
                (acc ++ CopyTradingMonitor.executions l)).
  apply (fold_left_invariant _ I).
  { (* a sell *)
    intros l p _ Hl. unfold I. rewrite sellStep_eq. cbv zeta. simpl.
    rewrite app_assoc. apply (atMostOnce_call k recordedBefore Hh sell p
             (CopyTradingMonitor.world l)
             (TradeExecutor.executeSell executor env p t 0
                (CopyTradingMonitor.world l))).
    - apply executeSell_outcome.
    - discriminate.
    - exact Hl. }
  apply (fold_left_invariant _ I).
  { (* a buy *)
    intros l p Hnew Hl. unfold I. rewrite buyStep_eq. cbv zeta. simpl.
    rewrite app_assoc. apply (atMostOnce_call k recordedBefore Hh buy p
             (CopyTradingMonitor.world l)
             (TradeExecutor.executeBuy executor env p t 0
                (CopyTradingMonitor.world l))).
    - apply executeBuy_outcome.
    - intros _ Hid. split.
      + apply Hst; [ | exact Hid].
        apply newPositionsOf_In in Hnew; [ | apply currentPositionsOf_keyed].
        destruct Hnew as (Hcur & _).
        eapply currentPositionsOf_In; eauto.
      + intros Hrec. destruct Hl as (Hc & _).
        rewrite <- Hid in Hrec.
        now rewrite (executeBuy_duplicate executor env p t 0 _ Hc (Hh _) Hrec).
    - exact Hl. }
  unfold I. simpl. now rewrite app_nil_r.
Qed.

Lemma handleStatusUpdates_atMostOnce (k : string) (recordedBefore : Prop)
    (statuses : list TradingStatus) :
  forall (m : CopyTradingMonitor.t) (w : World)
         (acc : list CopyTradingMonitor.Execution) m' w' done,
    Spec.healthy env ->
    (forall s p, In s statuses -> In p (openPositions s) -> p.(id) = k ->
                 Spec.storable p t) ->
    Spec.atMostOnce k t recordedBefore w acc ->
    CopyTradingMonitor.handleStatusUpdates env m w statuses t
    = (m', w', done) ->
    Spec.atMostOnce k t recordedBefore w' (acc ++ done).
Proof.
  induction statuses as [ | s statuses IH];
    intros m w acc m' w' done Hh Hst Hacc Hrun.
  - injection Hrun as <- <- <-. now rewrite app_nil_r.
  - rewrite handleStatusUpdates_cons in Hrun.
    destruct (CopyTradingMonitor.handleStatusUpdate env m w s t)
      as [[m1 w1] done1] eqn:Hrun1.
    destruct (CopyTradingMonitor.handleStatusUpdates env m1 w1 statuses t)
      as [[m2 w2] done2] eqn:Hrun2.
    injection Hrun as <- <- <-. rewrite app_assoc.
    apply (IH m1 w1 (acc ++ done1) m2 w2 done2); auto.
    + intros s' p Hs'. apply Hst. now right.
    + apply (handleStatusUpdate_atMostOnce k recordedBefore m w s acc m1 w1);
        auto.
      intros p. apply Hst. now left.
Qed.


End StoreBacked.

(** ** The orchestrator on concrete inputs *)

Section OrchestratorExamples.
#[local] Existing Instance JSNumber.numberOps.
Import Sample.



(** C5, witness: a remembered position that was never executed
    disappears, and nothing is executed. *)
Lemma close_requires_open_witness :
  let p := aPosition "tok1" "100" "0.5" "50" in
  let m :=
    CopyTradingMonitor.mk (aConfig false)
      (CopyTradingStatus.mk true false 0 1 "0" 1 1)
      [(trader, JSSet.empty)] [(trader, [("tok1", p)])] in
  snd (CopyTradingMonitor.handleStatusUpdate
         accepting m (aWorld false []) (aStatus [] "0") trader)
  = [].
Proof.
  intros p m.
  destruct (CopyTradingMonitor.handleStatusUpdate
              accepting m (aWorld false []) (aStatus [] "0") trader)
    as [[m' w'] done] eqn:Hrun.
  destruct (close_requires_open accepting m (aWorld false []) (aStatus [] "0")
              trader "tok1" m' w' done) as (_ & Hnone & _).
  - split.
    + intros k v [[= <- <-] | []]. reflexivity.
    + repeat constructor. intros [].
  - reflexivity.
  - reflexivity.
  - exact Hrun.
  - specialize (Hnone eq_refl). simpl.
    vm_compute in Hrun. injection Hrun as _ _ <-. reflexivity.
Defined.

(** C10, witness: the store records a buy of the new position. *)
Lemma duplicate_is_failure_witness :
  let p := aPosition "tok1" "100" "0.5" "50" in
  let bought :=
    ITrade.mk "tok1" trader "0xmarket" "Yes" buy "100.0000" "0.5000"
              (Some "order") None false true None in
  let run :=
    CopyTradingMonitor.handleStatusUpdate
      accepting (aMonitor (aConfig false)) (aWorld true [bought])
      (aStatus [p] "50") trader in
  CopyTradingStatus.totalTradesFailed
    (CopyTradingMonitor.stats (fst (fst run))) = 1%Z
  /\ JSSet.has (Spec.inFlight (fst (fst run)) trader) "tok1" = false
  /\ orders (snd (fst run)) = [].
Proof.
  intros p bought run.
  destruct run as [[m' w'] done] eqn:Hrun. subst run.
  destruct (duplicate_is_failure accepting (aMonitor (aConfig false))
              (aWorld true [bought]) (aStatus [p] "50") trader p m' w' done)
    as (_ & _ & Hfailed & _ & Hout).
  - intros n. reflexivity.
  - reflexivity.
  - reflexivity.
  - left. reflexivity.
  - exact Hrun.
  - simpl. split; [ | split; [exact Hout | ]].
    + rewrite Hfailed. vm_compute in Hrun. injection Hrun as _ _ <-.
      reflexivity.
    + vm_compute in Hrun. injection Hrun as _ <- _. reflexivity.
Defined.

(** C9, witness: a buy below the minimum fails; the position stays for
    two more statuses and then disappears, and nothing more is
    executed. *)
Lemma failed_open_not_retried_witness :
  let small := aPosition "tok1" "1" "0.5" "0.5" in
  let first :=
    CopyTradingMonitor.handleStatusUpdate
      accepting (aMonitor (aConfig false)) (aWorld false [])
      (aStatus [small] "0.5") trader in
  let later :=
    CopyTradingMonitor.handleStatusUpdates
      accepting (fst (fst first)) (snd (fst first))
      [aStatus [small] "0.5"; aStatus [small] "0.6"] trader in
  let last :=
    CopyTradingMonitor.handleStatusUpdate
      accepting (fst (fst later)) (snd (fst later)) (aStatus [] "0") trader in
  map (fun e => (fst e, (snd e).(success))) (snd first) = [(buy, false)]
  /\ (forall e, In e (snd later) -> Spec.about "tok1" e = false)
  /\ (forall e, In e (snd last) -> Spec.about "tok1" e = false).
Proof.
  intros small first later last.
  destruct first as [[m1 w1] done1] eqn:Hrun1.
  destruct later as [[m2 w2] done2] eqn:Hrun2.
  destruct last as [[m3 w3] done3] eqn:Hrun3.
  subst first later last. simpl in Hrun2, Hrun3 |- *.
  assert (Hdone1 : map (fun e => (fst e, success (snd e))) done1
                   = [(buy, false)]).
  { vm_compute in Hrun1. injection Hrun1 as _ _ <-. reflexivity. }
  split; [exact Hdone1 | ].
  destruct done1 as [ | [side r] [ | ? ?]]; try discriminate.
  injection Hdone1 as -> Hfailed.
  apply (failed_open_not_retried
           accepting trader (aMonitor (aConfig false)) (aWorld false [])
           (aStatus [small] "0.5") "tok1" r m1 w1 [(buy, r)]
           [aStatus [small] "0.5"; aStatus [small] "0.6"] m2 w2 done2
           (aStatus [] "0") m3 w3 done3).
  - exact Hrun1.
  - now left.
  - vm_compute in Hrun1. injection Hrun1 as _ _ <-. reflexivity.
  - exact Hfailed.
  - intros s [<- | [<- | []]]; reflexivity.
  - exact Hrun2.
  - reflexivity.
  - exact Hrun3.
Defined.

(** C9, counterexample.  A monitor that is no dry run, without store.
    (1) The boundary throws on the first four orders and accepts the
    later ones.  The first update has tok1 and tok2.  The buy of tok1
    fails when its retries are used up, and the call awaits the answer to
    its order for tok2 when a second update, with tok1, tok2 and tok3, is
    delivered.  The first call has not written what it remembers for the
    trader, so the second call finds tok1 new and buys it.
    (2) The boundary throws on the second to the fifth order and accepts
    the others.  An update with tok2 is delivered, and its call awaits
    the answer to its order when an update with tok1 and tok2 is
    delivered.  The call of that one returns first: its buy of tok1 has
    failed, and tok1 and tok2 are remembered for the trader.  Then the
    older call returns and replaces what is remembered by tok2 alone.  A
    third update, with tok1, tok2 and tok3, is delivered after both
    calls have returned: tok1 is new again and is bought. *)
Lemma failed_open_counterexample :
  let p := aPosition "tok1" "100" "0.5" "50" in
  let q := aPosition "tok2" "200" "0.5" "100" in
  let r := aPosition "tok3" "300" "0.5" "150" in
  let outcome (e : CopyTradingMonitor.Execution) :=
    (fst e, (snd e).(position).(id), (snd e).(success)) in
  let started := mkWorld true false [] 0 1 [] in
  let late : Env :=
    mkEnv (fun n _ =>
             if Nat.ltb n 4 then Throw "network error"
             else Normal (Some "order"))
          (fun _ => Normal tt) (fun _ => None) in
  let first :=
    Async.Deliver (aStatus [p; q] "150") trader
    :: repeat (Async.Settle 0) 7 in
  let second :=
    [Async.Deliver (aStatus [p; q; r] "300") trader;
     Async.Settle 0; Async.Settle 1; Async.Settle 1; Async.Settle 1] in
  let before :=
    Async.schedule late first ((aMonitor (aConfig false), started), []) in
  let calls := snd (Async.schedule late second before) in
  let flaky : Env :=
    mkEnv (fun n _ =>
             if (Nat.leb 1 n && Nat.leb n 4)%bool then Throw "network error"
             else Normal (Some "order"))
          (fun _ => Normal tt) (fun _ => None) in
  let failed :=
    Async.schedule
      flaky
      (Async.Deliver (aStatus [q] "100") trader
       :: Async.Deliver (aStatus [p; q] "150") trader
       :: repeat (Async.Settle 1) 8)
      ((aMonitor (aConfig false), started), []) in
  let overwritten := Async.schedule flaky [Async.Settle 0] failed in
  let retried :=
    Async.schedule
      flaky
      [Async.Deliver (aStatus [p; q; r] "300") trader;
       Async.Settle 2; Async.Settle 2]
      overwritten in
  (CopyTradingStatus.totalTradesFailed
     (CopyTradingMonitor.stats (fst (fst before))) = 1%Z
   /\ Async.returned (snd before) 0 = None
   /\ option_map (map outcome) (Async.returned calls 0)
      = Some [(buy, "tok1", false); (buy, "tok2", true)]
   /\ option_map (map outcome) (Async.returned calls 1)
      = Some [(buy, "tok1", true); (buy, "tok2", true); (buy, "tok3", true)])
  /\ (option_map (map outcome) (Async.returned (snd failed) 1)
      = Some [(buy, "tok1", false); (buy, "tok2", true)]
      /\ Async.returned (snd failed) 0 = None
      /\ map fst (Spec.lastPositions (fst (fst failed)) trader)
         = ["tok1"; "tok2"]
      /\ option_map (map outcome) (Async.returned (snd overwritten) 0)
         = Some [(buy, "tok2", true)]
      /\ map fst (Spec.lastPositions (fst (fst overwritten)) trader)
         = ["tok2"]
      /\ option_map (map outcome) (Async.returned (snd retried) 2)
         = Some [(buy, "tok1", true); (buy, "tok3", true)]).
Proof. vm_compute. repeat split. Qed.

End OrchestratorExamples.

(* ================================================================== *)
(** * More facts about the execution engine *)
(* ================================================================== *)

Lemma waits_app (l1 l2 : list Event) :
  Trace.waits (l1 ++ l2) = Trace.waits l1 + Trace.waits l2.
Proof. unfold Trace.waits. now rewrite filter_app, length_app. Qed.

Lemma callbacks_app (l1 l2 : list Event) :
  Trace.callbacks (l1 ++ l2) = Trace.callbacks l1 ++ Trace.callbacks l2.
Proof. unfold Trace.callbacks. apply filter_app. Qed.

Section EngineTraces.
Context `{NumberOps}.
Variable config : Config.t.
Variable env : Env.

Abbreviation Attempt :=
  (Position -> string -> Z -> World -> Completion TradeExecutionResult * World).

(** Induction over the calls [executeBuy] and [executeSell] make to
    themselves: a retry happens only while [retryCount] is below
    [maxRetryAttempts]. *)
Lemma execute_ind (attempt : Attempt) (p : Position) (t : string)
    (P : Z -> World -> TradeExecutionResult * World -> Prop) :
  (forall rc w result w',
      attempt p t rc w = (Normal result, w') -> P rc w (result, w')) ->
  (forall rc w message w',
      attempt p t rc w = (Throw message, w') ->
      (config.(Config.maxRetryAttempts) <= rc)%Z ->
      P rc w (TradeExecutor.giveUp config env p t rc message w')) ->
  (forall rc w message w' res,
      attempt p t rc w = (Throw message, w') ->
      (rc < config.(Config.maxRetryAttempts))%Z ->
      P (rc + 1)%Z (setTimeout w' config.(Config.retryDelay)) res ->
      P rc w res) ->
  forall rc w,
    P rc w (TradeExecutor.withRetry config env attempt
              (TradeExecutor.retriesLeft config rc) p t rc w).
Proof.
  intros Hnormal Hgive Hretry.
  assert (Hall : forall k rc w,
             TradeExecutor.retriesLeft config rc = k ->
             P rc w (TradeExecutor.withRetry config env attempt
                       (TradeExecutor.retriesLeft config rc) p t rc w)).
  { induction k as [ | k IH]; intros rc w Hk; rewrite withRetry_unfold;
      destruct (attempt p t rc w) as [[result | message] w'] eqn:Hattempt;
      try (now apply Hnormal); unfold TradeExecutor.retriesLeft in Hk.
    - assert (Hlt : (rc <? Config.maxRetryAttempts config)%Z = false)
        by (apply Z.ltb_ge; lia).
      rewrite Hlt. apply (Hgive _ _ _ _ Hattempt). lia.
    - assert (Hlt : (rc <? Config.maxRetryAttempts config)%Z = true)
        by (apply Z.ltb_lt; lia).
      rewrite Hlt. apply (Hretry _ _ _ _ _ Hattempt); [lia | ].
      apply IH. unfold TradeExecutor.retriesLeft. lia. }
  intros rc w. now apply (Hall (TradeExecutor.retriesLeft config rc)).
Qed.

(** What the helpers leave alone. *)
Lemma isDuplicateTrade_frame (positionId t : string) (side : TradeSide)
    (w : World) :
  let w' := snd (TradeExecutor.isDuplicateTrade env positionId t side w) in
  timeline w' = timeline w /\ keyCalls w' = keyCalls w
  /\ apiKeyCreated w' = apiKeyCreated w.
Proof.
  destruct (isDuplicateTrade_world env positionId t side w) as [-> | ->];
    auto.
Qed.

Lemma saveTrade_frame (r : TradeExecutionResult) (t : string) (w : World) :
  let w' := TradeExecutor.saveTrade env r t w in
  timeline w' = timeline w /\ keyCalls w' = keyCalls w
  /\ apiKeyCreated w' = apiKeyCreated w.
Proof.
  destruct (saveTrade_world env r t w) as [-> | [-> | (_ & _ & ->)]]; auto.
Qed.

(** The two ways [submit] ends: the key cannot be derived and nothing is
    submitted, or the order is submitted and the boundary decides. *)
Lemma submit_shape (order : Order.t) (w : World) :
  let res := TradeExecutor.submit config env order w in
  (exists message,
      apiKeyCreated w = false /\ config.(Config.dryRun) = false
      /\ env.(deriveApiKey) (keyCalls w) = Throw message
      /\ fst res
         = Throw ("Failed to initialize trade executor: " ++ message)%string
      /\ timeline (snd res) = timeline w
      /\ keyCalls (snd res) = S (keyCalls w)
      /\ apiKeyCreated (snd res) = false)
  \/ (fst res = env.(postOrder) (List.length (orders w)) order
      /\ timeline (snd res) = timeline w ++ [Submitted order]
      /\ (apiKeyCreated w = true ->
          keyCalls (snd res) = keyCalls w /\ apiKeyCreated (snd res) = true)
      /\ (apiKeyCreated w = false ->
          (config.(Config.dryRun) = true /\ keyCalls (snd res) = keyCalls w)
          \/ (env.(deriveApiKey) (keyCalls w) = Normal tt
              /\ keyCalls (snd res) = S (keyCalls w)
              /\ apiKeyCreated (snd res) = true))).
Proof.
  unfold TradeExecutor.submit, TradeExecutor.initialize,
    TradeExecutor.createAndPostOrder.
  destruct (apiKeyCreated w) eqn:Hk.
  - right. simpl. repeat split; auto. discriminate.
  - destruct (Config.dryRun config) eqn:Hdry.
    + right. simpl. repeat split; auto; discriminate.
    + destruct (deriveApiKey env (keyCalls w)) as [[] | message] eqn:Hd.
      * right. simpl. repeat split; auto; discriminate.
      * left. exists message. simpl. auto 10.
Qed.

Ltac save_frame :=
  match goal with
  | |- context [TradeExecutor.saveTrade ?env ?r ?t ?w] =>
      let Ht := fresh "Ht" in
      let Hk := fresh "Hk" in
      let Ha := fresh "Ha" in
      destruct (saveTrade_frame r t w) as (Ht & Hk & Ha);
      rewrite ?Ht, ?Hk, ?Ha
  end.

(** The live branch of both attempts: [submit], then on an answer the
    result, [saveTrade] and [onTradeExecuted]. *)
Lemma submit_then (order : Order.t) (t : string) (w : World)
    (result : option string -> TradeExecutionResult) :
  match
    match TradeExecutor.submit config env order w with
    | (Throw message, w1) => (Throw message, w1)
    | (Normal orderID, w1) =>
        (Normal (result orderID),
         onTradeExecuted (TradeExecutor.saveTrade env (result orderID) t w1)
                         (result orderID))
    end
  with
  | (Throw message, w') =>
      Trace.keyFailure env w w' message
      \/ (env.(postOrder) (List.length (orders w)) order = Throw message
          /\ timeline w' = timeline w ++ [Submitted order]
          /\ (config.(Config.dryRun) = false -> Trace.keyStep env w w'))
  | (Normal r, w') =>
      exists orderID,
        r = result orderID
        /\ env.(postOrder) (List.length (orders w)) order = Normal orderID
        /\ timeline w' = timeline w ++ [Submitted order; TradeExecuted r]
        /\ (config.(Config.dryRun) = false -> Trace.keyStep env w w')
  end.
Proof.
  pose proof (submit_shape order w) as Hsub. cbv zeta in Hsub.
  assert (Hstep : forall w1,
             (apiKeyCreated w = true ->
              keyCalls w1 = keyCalls w /\ apiKeyCreated w1 = true) ->
             (apiKeyCreated w = false ->
              (config.(Config.dryRun) = true /\ keyCalls w1 = keyCalls w)
              \/ (env.(deriveApiKey) (keyCalls w) = Normal tt
                  /\ keyCalls w1 = S (keyCalls w)
                  /\ apiKeyCreated w1 = true)) ->
             config.(Config.dryRun) = false -> Trace.keyStep env w w1).
  { intros w1 Hk1 Hk0 Hdry. unfold Trace.keyStep.
    destruct (apiKeyCreated w) eqn:Hkey.
    - left. destruct (Hk1 eq_refl). auto.
    - right. destruct (Hk0 eq_refl) as [[Hd _] | (? & ? & ?)];
        [congruence | auto]. }
  destruct (TradeExecutor.submit config env order w)
    as [[orderID | message] w1] eqn:Hs; simpl in Hsub.
  - exists orderID. split; [reflexivity | ].
    destruct Hsub as [(m0 & _ & _ & _ & Hf & _) | (Hp & Ht & Hk1 & Hk0)];
      [discriminate | ].
    split; [now rewrite Hp | ]. unfold Trace.keyStep. simpl. save_frame.
    split; [now rewrite Ht, <- app_assoc | ].
    intros Hdry. apply (Hstep w1 Hk1 Hk0 Hdry).
  - destruct Hsub as [(m0 & Hk & _ & Hd & Hf & Ht & Hc & Ha)
                     | (Hp & Ht & Hk1 & Hk0)].
    + left. exists m0. injection Hf as ->. auto 10.
    + right. split; [now rewrite Hp | ]. split; [exact Ht | ].
      intros Hdry. apply (Hstep w1 Hk1 Hk0 Hdry).
Qed.

(** How an attempt to sell ends. *)
Lemma trySell_shape (p : Position) (t : string) (rc : Z) (w : World) :
  let order := Spec.sellOrder config p in
  match TradeExecutor.trySell config env p t rc w with
  | (Throw message, w') =>
      (JS.truthy p.(id) = false
       /\ message = "Position ID (token ID) is missing" /\ w' = w)
      \/ (JS.truthy p.(id) = true /\ config.(Config.dryRun) = false
          /\ (Trace.keyFailure env w w' message
              \/ (env.(postOrder) (List.length (orders w)) order
                  = Throw message
                  /\ timeline w' = timeline w ++ [Submitted order]
                  /\ Trace.keyStep env w w')))
  | (Normal r, w') =>
      JS.truthy p.(id) = true
      /\ exists orderID,
           r = TradeExecutor.withSuccess
                 (TradeExecutor.initialResult config p rc) orderID
                 (Spec.tradeQuantity config p) (Spec.tradePrice p)
           /\ ((config.(Config.dryRun) = true /\ orderID = None
                /\ timeline w' = timeline w ++ [TradeExecuted r]
                /\ keyCalls w' = keyCalls w
                /\ apiKeyCreated w' = apiKeyCreated w)
               \/ (config.(Config.dryRun) = false
                   /\ env.(postOrder) (List.length (orders w)) order
                      = Normal orderID
                   /\ timeline w'
                      = timeline w ++ [Submitted order; TradeExecuted r]
                   /\ Trace.keyStep env w w'))
  end.
Proof.
  intros order. rewrite trySell_eq. cbv zeta.
  destruct (JS.truthy (id p)) eqn:Hid; simpl negb; cbv iota; [ | now left].
  destruct (Config.dryRun config) eqn:Hdry.
  - split; [reflexivity | ]. exists None. split; [reflexivity | ]. left.
    simpl. save_frame. auto.
  - pose proof (submit_then order t w
                  (fun orderID =>
                     TradeExecutor.withSuccess
                       (TradeExecutor.initialResult config p rc) orderID
                       (Spec.tradeQuantity config p) (Spec.tradePrice p)))
      as Hsub.
    fold order. cbv beta in Hsub.
    destruct (TradeExecutor.submit config env order w)
      as [[orderID | message] w1] eqn:Hs.
    + split; [reflexivity | ].
      destruct Hsub as (oid & Hr & Hp & Ht & Hk).
      exists oid. split; [exact Hr | ]. right. auto.
    + right. split; [reflexivity | ]. split; [reflexivity | ].
      destruct Hsub as [Hf | (Hp & Ht & Hk)]; [now left | right; auto].
Qed.

(** How an attempt to buy ends. *)
Lemma tryBuy_shape (p : Position) (t : string) (rc : Z) (w : World) :
  let order := Spec.buyOrder config p in
  let duplicate := fst (TradeExecutor.isDuplicateTrade env p.(id) t buy w) in
  let overLimits :=
    (Spec.belowMinimum config p || Spec.aboveMaximum config p
     || Spec.positionLimitExceeded config p)%bool in
  match TradeExecutor.tryBuy config env p t rc w with
  | (Throw message, w') =>
      duplicate = false
      /\ ((JS.truthy p.(id) = false
           /\ message = "Position ID (token ID) is missing"
           /\ Trace.untouched w w')
          \/ (JS.truthy p.(id) = true /\ overLimits = false
              /\ config.(Config.dryRun) = false
              /\ (Trace.keyFailure env w w' message
                  \/ (env.(postOrder) (List.length (orders w)) order
                      = Throw message
                      /\ timeline w' = timeline w ++ [Submitted order]
                      /\ Trace.keyStep env w w'))))
  | (Normal r, w') =>
      (duplicate = true
       /\ r = TradeExecutor.withError
                (TradeExecutor.initialResult config p rc) "Duplicate trade"
       /\ Trace.untouched w w')
      \/ (duplicate = false /\ JS.truthy p.(id) = true
          /\ overLimits = true
          /\ exists message,
               r = TradeExecutor.withError
                     (TradeExecutor.initialResult config p rc) message
               /\ timeline w' = timeline w ++ [TradeError message p]
               /\ keyCalls w' = keyCalls w
               /\ apiKeyCreated w' = apiKeyCreated w)
      \/ (duplicate = false /\ JS.truthy p.(id) = true
          /\ overLimits = false
          /\ exists orderID,
               r = TradeExecutor.withSuccess
                     (TradeExecutor.initialResult config p rc) orderID
                     (Spec.tradeQuantity config p) (Spec.tradePrice p)
               /\ ((config.(Config.dryRun) = true /\ orderID = None
                    /\ timeline w' = timeline w ++ [TradeExecuted r]
                    /\ keyCalls w' = keyCalls w
                    /\ apiKeyCreated w' = apiKeyCreated w)
                   \/ (config.(Config.dryRun) = false
                       /\ env.(postOrder) (List.length (orders w)) order
                          = Normal orderID
                       /\ timeline w'
                          = timeline w ++ [Submitted order; TradeExecuted r]
                       /\ Trace.keyStep env w w')))
  end.
Proof.
  intros order duplicate overLimits. rewrite tryBuy_eq. cbv zeta.
  fold duplicate.
  destruct (isDuplicateTrade_frame p.(id) t buy w) as (Ht0 & Hk0 & Ha0).
  cbv zeta in Ht0, Hk0, Ha0.
  set (w0 := snd (TradeExecutor.isDuplicateTrade env (id p) t buy w)) in *.
  assert (Hkey : forall w', Trace.keyStep env w0 w' -> Trace.keyStep env w w').
  { unfold Trace.keyStep. intros w'. rewrite Ha0, Hk0. auto. }
  assert (Hfail : forall w' message,
             Trace.keyFailure env w0 w' message ->
             Trace.keyFailure env w w' message).
  { unfold Trace.keyFailure. intros w' message. rewrite Ha0, Hk0, Ht0. auto. }
  assert (Hord : orders w0 = orders w) by (unfold orders; now rewrite Ht0).
  destruct duplicate eqn:Hdup.
  { left. repeat split; auto. }
  destruct (JS.truthy (id p)) eqn:Hid; simpl negb; cbv iota.
  2:{ split; [reflexivity | ]. left. repeat split; auto. }
  subst overLimits.
  destruct (Spec.belowMinimum config p) eqn:Hmin.
  { right; left. repeat split. eexists. split; [reflexivity | ].
    simpl. now rewrite Ht0, Hk0, Ha0. }
  destruct (Spec.aboveMaximum config p) eqn:Hmax.
  { right; left. repeat split. eexists. split; [reflexivity | ].
    simpl. now rewrite Ht0, Hk0, Ha0. }
  destruct (Spec.positionLimitExceeded config p) eqn:Hpos.
  { right; left. repeat split. eexists. split; [reflexivity | ].
    simpl. now rewrite Ht0, Hk0, Ha0. }
  simpl orb.
  destruct (Config.dryRun config) eqn:Hdry.
  - right; right. repeat split. exists None. split; [reflexivity | ]. left.
    simpl. save_frame. rewrite Ht0, Hk0, Ha0. auto.
  - pose proof (submit_then order t w0
                  (fun orderID =>
                     TradeExecutor.withSuccess
                       (TradeExecutor.initialResult config p rc) orderID
                       (Spec.tradeQuantity config p) (Spec.tradePrice p)))
      as Hsub.
    fold order. cbv beta in Hsub. rewrite Hord, Ht0 in Hsub.
    destruct (TradeExecutor.submit config env order w0)
      as [[orderID | message] w1] eqn:Hs.
    + right; right. repeat split.
      destruct Hsub as (oid & Hr & Hp & Ht & Hk).
      exists oid. split; [exact Hr | ]. right. auto 6.
    + split; [reflexivity | ]. right. repeat split.
      destruct Hsub as [Hf | (Hp & Ht & Hk)]; [left; auto | right; auto 6].
Qed.

Lemma giveUp_frame (p : Position) (t : string) (rc : Z) (message : string)
    (w : World) :
  let res := TradeExecutor.giveUp config env p t rc message w in
  fst res
  = TradeExecutor.withError (TradeExecutor.initialResult config p rc)
                            (JS.orElse message "Unknown error")
  /\ timeline (snd res) = timeline w ++ [TradeError message p]
  /\ keyCalls (snd res) = keyCalls w
  /\ apiKeyCreated (snd res) = apiKeyCreated w
  /\ trades (snd res) = trades w
  /\ dbCalls (snd res) = dbCalls w.
Proof.
  unfold TradeExecutor.giveUp. simpl.
  rewrite saveTrade_failed by reflexivity. auto 6.
Qed.

Ltac cost_timeline :=
  match goal with
  | Ht : timeline ?w' = _ |- _ =>
      unfold orders; rewrite !Ht, ?ordersIn_app, ?waits_app, ?length_app;
      unfold Trace.waits; simpl
  end.

Ltac cost_keys :=
  match goal with
  | Hk : Trace.keyStep _ _ _ |- _ =>
      destruct Hk as [(? & ? & ?) | (? & ? & ? & ?)]
  | Hk : Trace.keyFailure _ _ _ _ |- _ =>
      destruct Hk as (? & ? & ? & ? & ? & ? & ?)
  | Hk : Trace.untouched _ _ |- _ => destruct Hk as (? & ? & ?)
  end.

Ltac cost_done :=
  unfold Trace.attemptCost; repeat cost_keys; try cost_timeline;
  repeat split; try rewrite ?app_nil_r; try lia; try congruence;
  try (intros; congruence); try (intros; lia).

Lemma trySell_cost (p : Position) (t : string) (rc : Z) (w : World) :
  Trace.attemptCost config w (snd (TradeExecutor.trySell config env p t rc w)).
Proof.
  pose proof (trySell_shape p t rc w) as Hs. cbv zeta in Hs.
  destruct (TradeExecutor.trySell config env p t rc w)
    as [[r | message] w']; simpl.
  - destruct Hs as (_ & orderID & _ & [(? & ? & ? & ? & ?) | (? & ? & ? & ?)]);
      cost_done.
  - destruct Hs as [(_ & _ & ->) | (_ & ? & [? | (? & ? & ?)])]; cost_done.
Qed.

Lemma tryBuy_cost (p : Position) (t : string) (rc : Z) (w : World) :
  Trace.attemptCost config w (snd (TradeExecutor.tryBuy config env p t rc w)).
Proof.
  pose proof (tryBuy_shape p t rc w) as Hs. cbv zeta in Hs.
  destruct (TradeExecutor.tryBuy config env p t rc w)
    as [[r | message] w']; simpl.
  - destruct Hs as [(_ & _ & ?)
                   | [(_ & _ & _ & ? & _ & ? & ? & ?)
                     | (_ & _ & _ & orderID & _
                        & [(? & ? & ? & ? & ?) | (? & ? & ? & ?)])]];
      cost_done.
  - destruct Hs as (_ & [(_ & _ & ?) | (_ & _ & ? & [? | (? & ? & ?)])]);
      cost_done.
Qed.

End EngineTraces.

Section EngineBounds.
Context `{NumberOps}.
Variable config : Config.t.
Variable env : Env.

Abbreviation Attempt :=
  (Position -> string -> Z -> World -> Completion TradeExecutionResult * World).

(** What a whole call costs, from what one attempt costs. *)
Lemma withRetry_cost (attempt : Attempt) (p : Position) (t : string) :
  (forall rc w, Trace.attemptCost config w (snd (attempt p t rc w))) ->
  forall rc w,
    let n := TradeExecutor.retriesLeft config rc in
    let w' :=
      snd (TradeExecutor.withRetry config env attempt n p t rc w) in
    List.length (orders w') <= List.length (orders w) + n + 1
    /\ Trace.waits (timeline w') <= Trace.waits (timeline w) + n
    /\ keyCalls w' <= keyCalls w + n + 1
    /\ (apiKeyCreated w = true ->
        apiKeyCreated w' = true /\ keyCalls w' = keyCalls w)
    /\ (config.(Config.dryRun) = true ->
        orders w' = orders w /\ keyCalls w' = keyCalls w
        /\ apiKeyCreated w' = apiKeyCreated w).
Proof.
  intros Hcost rc w. cbv zeta.
  apply (execute_ind config env attempt p t
           (fun rc w res =>
              List.length (orders (snd res))
              <= List.length (orders w)
                 + TradeExecutor.retriesLeft config rc + 1
              /\ Trace.waits (timeline (snd res))
                 <= Trace.waits (timeline w)
                    + TradeExecutor.retriesLeft config rc
              /\ keyCalls (snd res)
                 <= keyCalls w + TradeExecutor.retriesLeft config rc + 1
              /\ (apiKeyCreated w = true ->
                  apiKeyCreated (snd res) = true
                  /\ keyCalls (snd res) = keyCalls w)
              /\ (config.(Config.dryRun) = true ->
                  orders (snd res) = orders w
                  /\ keyCalls (snd res) = keyCalls w
                  /\ apiKeyCreated (snd res) = apiKeyCreated w))).
  - intros rc0 w0 result w' Hattempt.
    pose proof (Hcost rc0 w0) as (Ho & Hw & Hk & Ha & Hd).
    rewrite Hattempt in *. simpl in *.
    split; [lia | ]. split; [lia | ]. split; [lia | ].
    split; [exact Ha | exact Hd].
  - intros rc0 w0 message w' Hattempt Hge.
    pose proof (Hcost rc0 w0) as (Ho & Hw & Hk & Ha & Hd).
    rewrite Hattempt in *. simpl in Ho, Hw, Hk, Ha, Hd.
    destruct (giveUp_frame config env p t rc0 message w')
      as (_ & Ht & Hkc & Hak & _).
    cbv zeta in Ht, Hkc, Hak. unfold orders in *.
    rewrite Ht, Hkc, Hak, ordersIn_app, waits_app. simpl.
    rewrite app_nil_r. unfold Trace.waits at 2. simpl.
    split; [lia | ]. split; [lia | ]. split; [lia | ].
    split; [exact Ha | exact Hd].
  - intros rc0 w0 message w' res Hattempt Hlt (IHo & IHw & IHk & IHa & IHd).
    pose proof (Hcost rc0 w0) as (Ho & Hw & Hk & Ha & Hd).
    rewrite Hattempt in *. simpl in Ho, Hw, Hk, Ha, Hd.
    assert (Hn : TradeExecutor.retriesLeft config rc0
                 = S (TradeExecutor.retriesLeft config (rc0 + 1)))
      by (unfold TradeExecutor.retriesLeft; lia).
    rewrite orders_setTimeout in IHo, IHd.
    unfold setTimeout, record in IHw, IHk, IHa, IHd. simpl in IHw, IHk, IHa, IHd.
    rewrite waits_app in IHw. unfold Trace.waits at 3 in IHw. simpl in IHw.
    rewrite Hn.
    split; [lia | ]. split; [lia | ]. split; [lia | ]. split.
    + intros Hcreated. destruct (Ha Hcreated) as [Ha1 Ha2].
      destruct (IHa Ha1). split; [auto | congruence].
    + intros Hdry. destruct (Hd Hdry) as (Hd1 & Hd2 & Hd3).
      destruct (IHd Hdry) as (I1 & I2 & I3).
      repeat split; congruence.
Qed.

(** X1.  Whatever the boundary, the key service and the store do, a call
    of [executeBuy] or [executeSell] with retry count [retryCount] submits
    at most [maxRetryAttempts - retryCount + 1] orders, waits at most
    [maxRetryAttempts - retryCount] times and derives the key at most
    [maxRetryAttempts - retryCount + 1] times; the differences count from
    zero when [retryCount] is [maxRetryAttempts] or more. *)
Theorem attempts_bounded (p : Position) (t : string) (rc : Z) (w : World) :
  let n := Z.to_nat (config.(Config.maxRetryAttempts) - rc) in
  let bounded (w' : World) :=
    List.length (orders w') <= List.length (orders w) + n + 1
    /\ Trace.waits (timeline w') <= Trace.waits (timeline w) + n
    /\ keyCalls w' <= keyCalls w + n + 1 in
  bounded (snd (TradeExecutor.executeBuy config env p t rc w))
  /\ bounded (snd (TradeExecutor.executeSell config env p t rc w)).
Proof.
  intros n bounded. split.
  - destruct (withRetry_cost (TradeExecutor.tryBuy config env) p t
                (tryBuy_cost config env p t) rc w) as (Ho & Hw & Hk & _).
    repeat split; assumption.
  - destruct (withRetry_cost (TradeExecutor.trySell config env) p t
                (trySell_cost config env p t) rc w) as (Ho & Hw & Hk & _).
    repeat split; assumption.
Qed.

(** X2.  Once the API key is created, no call of [executeBuy] or
    [executeSell] derives it again, and the key stays created. *)
Theorem key_derived_once (p : Position) (t : string) (rc : Z) (w : World) :
  apiKeyCreated w = true ->
  let kept (w' : World) :=
    apiKeyCreated w' = true /\ keyCalls w' = keyCalls w in
  kept (snd (TradeExecutor.executeBuy config env p t rc w))
  /\ kept (snd (TradeExecutor.executeSell config env p t rc w)).
Proof.
  intros Hcreated kept. split.
  - destruct (withRetry_cost (TradeExecutor.tryBuy config env) p t
                (tryBuy_cost config env p t) rc w) as (_ & _ & _ & Ha & _).
    now apply Ha.
  - destruct (withRetry_cost (TradeExecutor.trySell config env) p t
                (trySell_cost config env p t) rc w) as (_ & _ & _ & Ha & _).
    now apply Ha.
Qed.

(** X3.  In a dry run no call submits an order or derives the API key.  A
    sell of a position with an identifier succeeds at once; a buy of one
    succeeds exactly when it is no duplicate and passes the limits. *)
Theorem dry_run_offline (p : Position) (t : string) (rc : Z) (w : World) :
  config.(Config.dryRun) = true ->
  let offline (w' : World) :=
    orders w' = orders w /\ keyCalls w' = keyCalls w
    /\ apiKeyCreated w' = apiKeyCreated w in
  let sold :=
    TradeExecutor.withSuccess (TradeExecutor.initialResult config p rc) None
      (Spec.tradeQuantity config p) (Spec.tradePrice p) in
  offline (snd (TradeExecutor.executeBuy config env p t rc w))
  /\ offline (snd (TradeExecutor.executeSell config env p t rc w))
  /\ (JS.truthy p.(id) = true ->
      TradeExecutor.executeSell config env p t rc w
      = (sold, onTradeExecuted (TradeExecutor.saveTrade env sold t w) sold)
      /\ success (fst (TradeExecutor.executeBuy config env p t rc w))
         = negb (fst (TradeExecutor.isDuplicateTrade env p.(id) t buy w)
                 || Spec.belowMinimum config p
                 || Spec.aboveMaximum config p
                 || Spec.positionLimitExceeded config p)).
Proof.
  intros Hdry offline sold. split; [ | split].
  - destruct (withRetry_cost (TradeExecutor.tryBuy config env) p t
                (tryBuy_cost config env p t) rc w) as (_ & _ & _ & _ & Hd).
    now apply Hd.
  - destruct (withRetry_cost (TradeExecutor.trySell config env) p t
                (trySell_cost config env p t) rc w) as (_ & _ & _ & _ & Hd).
    now apply Hd.
  - intros Hid. split.
    + rewrite executeSell_unfold, trySell_eq. cbv zeta.
      rewrite Hid, Hdry. reflexivity.
    + rewrite executeBuy_unfold, tryBuy_eq. cbv zeta. rewrite Hid, Hdry.
      destruct (fst (TradeExecutor.isDuplicateTrade env (id p) t buy w));
        [reflexivity | ].
      simpl negb at 1. cbv iota.
      destruct (Spec.belowMinimum config p); [reflexivity | ].
      destruct (Spec.aboveMaximum config p); [reflexivity | ].
      destruct (Spec.positionLimitExceeded config p); reflexivity.
Qed.

(** A call whose attempts all throw without submitting anything: it
    waits [retryDelay] before each retry, reports the last error to
    [onTradeError] and returns it. *)
Lemma withRetry_throws (attempt : Attempt) (p : Position) (t : string)
    (Inv : World -> Prop) (Q : string -> Prop) (calls : nat) :
  (forall rc w,
      Inv w ->
      exists message w1,
        attempt p t rc w = (Throw message, w1)
        /\ Q message
        /\ timeline w1 = timeline w
        /\ keyCalls w1 = keyCalls w + calls
        /\ Inv (setTimeout w1 config.(Config.retryDelay))) ->
  forall k rc w,
    TradeExecutor.retriesLeft config rc = k ->
    Inv w ->
    exists message w',
      TradeExecutor.withRetry config env attempt
        (TradeExecutor.retriesLeft config rc) p t rc w
      = (TradeExecutor.withError
           (TradeExecutor.initialResult config p (rc + Z.of_nat k))
           (JS.orElse message "Unknown error"),
         w')
      /\ Q message
      /\ timeline w'
         = timeline w ++ repeat (Waited config.(Config.retryDelay)) k
           ++ [TradeError message p]
      /\ keyCalls w' = keyCalls w + calls * (k + 1).
Proof.
  intros Hattempt.
  induction k as [ | k IH]; intros rc w Hk Hinv;
    rewrite withRetry_unfold;
    destruct (Hattempt rc w Hinv)
      as (message & w1 & -> & Hq & Ht & Hc & Hinv1);
    unfold TradeExecutor.retriesLeft in Hk.
  - assert (Hlt : (rc <? Config.maxRetryAttempts config)%Z = false)
      by (apply Z.ltb_ge; lia).
    rewrite Hlt. exists message. eexists.
    destruct (giveUp_frame config env p t rc message w1)
      as (Hr & Htg & Hkg & _).
    cbv zeta in Hr, Htg, Hkg.
    split; [ | split; [exact Hq | split]].
    + rewrite Z.add_0_r, <- Hr. apply surjective_pairing.
    + now rewrite Htg, Ht.
    + rewrite Hkg, Hc. lia.
  - assert (Hlt : (rc <? Config.maxRetryAttempts config)%Z = true)
      by (apply Z.ltb_lt; lia).
    rewrite Hlt.
    destruct (IH (rc + 1)%Z (setTimeout w1 (Config.retryDelay config)))
      as (message' & w' & -> & Hq' & Ht' & Hc'); [ | exact Hinv1 | ].
    { unfold TradeExecutor.retriesLeft. lia. }
    exists message', w'. split; [ | split; [exact Hq' | split]].
    + do 3 f_equal. lia.
    + rewrite Ht'. simpl. rewrite Ht, <- !app_assoc. reflexivity.
    + rewrite Hc'. simpl. rewrite Hc. lia.
Qed.

Lemma unrecorded_frame (p : Position) (t : string) (w w' : World) :
  trades w' = trades w -> dbConnected w' = dbConnected w ->
  Spec.unrecorded p t w -> Spec.unrecorded p t w'.
Proof.
  unfold Spec.unrecorded, Spec.recorded. intros -> ->. auto.
Qed.

(** An attempt to buy that throws leaves the store as it was. *)
Lemma tryBuy_throw_store (p : Position) (t : string) (rc : Z) (w : World)
    (message : string) (w' : World) :
  TradeExecutor.tryBuy config env p t rc w = (Throw message, w') ->
  trades w' = trades w /\ dbConnected w' = dbConnected w.
Proof.
  intros Hattempt. pose proof (tryBuy_outcome config env p t rc w) as Hout.
  now rewrite Hattempt in Hout.
Qed.

(** X4.  A position without identifier is never submitted, yet the error
    is retried like any other: the call waits [retryDelay]
    [maxRetryAttempts] times, then fails with 'Position ID (token ID) is
    missing' and reports it to [onTradeError], in a dry run too. *)
Theorem missing_identifier_retried (p : Position) (t : string) (w : World)
    (n : nat) :
  JS.truthy p.(id) = false ->
  config.(Config.maxRetryAttempts) = Z.of_nat n ->
  let message := "Position ID (token ID) is missing" in
  let failure :=
    TradeExecutor.withError
      (TradeExecutor.initialResult config p (Z.of_nat n)) message in
  let ended (res : TradeExecutionResult * World) :=
    fst res = failure
    /\ timeline (snd res)
       = timeline w ++ repeat (Waited config.(Config.retryDelay)) n
         ++ [TradeError message p] in
  ended (TradeExecutor.executeSell config env p t 0 w)
  /\ (Spec.unrecorded p t w ->
      ended (TradeExecutor.executeBuy config env p t 0 w)).
Proof.
  intros Hid Hn message failure ended.
  assert (Hleft : TradeExecutor.retriesLeft config 0 = n).
  { unfold TradeExecutor.retriesLeft. rewrite Hn. lia. }
  split.
  - destruct (withRetry_throws (TradeExecutor.trySell config env) p t
                (fun _ => True) (fun m => m = message) 0)
      with (k := n) (rc := 0%Z) (w := w)
      as (m & w' & Hrun & -> & Ht & _); auto.
    { intros rc w0 _. exists message, w0.
      rewrite trySell_eq. cbv zeta. rewrite Hid. simpl.
      repeat split; auto. }
    unfold TradeExecutor.executeSell. rewrite Hrun. split; [ | exact Ht].
    reflexivity.
  - intros Hu.
    destruct (withRetry_throws (TradeExecutor.tryBuy config env) p t
                (Spec.unrecorded p t) (fun m => m = message) 0)
      with (k := n) (rc := 0%Z) (w := w)
      as (m & w' & Hrun & -> & Ht & _); auto.
    { intros rc w0 Hu0.
      pose proof (tryBuy_shape config env p t rc w0) as Hs. cbv zeta in Hs.
      rewrite (unrecorded_not_duplicate env p t w0 Hu0) in Hs.
      destruct (TradeExecutor.tryBuy config env p t rc w0)
        as [[r | m] w1] eqn:Hattempt.
      - destruct Hs as [(? & _) | [(_ & ? & _) | (_ & ? & _)]];
          congruence.
      - destruct Hs as (_ & [(_ & -> & Ht & Hk & _) | (? & _)]);
          [ | congruence].
        exists message, w1. split; [reflexivity | ].
        split; [reflexivity | ]. split; [exact Ht | ].
        split; [lia | ].
        destruct (tryBuy_throw_store p t rc w0 _ _ Hattempt) as [Htr Hc].
        apply (unrecorded_frame p t w0); auto. }
    unfold TradeExecutor.executeBuy. rewrite Hrun. split; [ | exact Ht].
    reflexivity.
Qed.


(** A call whose attempts submit [order]: the boundary throws on [k]
    orders and answers the next one. *)
Lemma withRetry_accepts (attempt : Attempt) (order : Order.t)
    (p : Position) (t : string) (Inv : World -> Prop)
    (result : Z -> option string -> TradeExecutionResult) :
  (forall rc w message,
      Inv w ->
      env.(postOrder) (List.length (orders w)) order = Throw message ->
      exists w1,
        attempt p t rc w = (Throw message, w1)
        /\ timeline w1 = timeline w ++ [Submitted order]
        /\ Inv (setTimeout w1 config.(Config.retryDelay))) ->
  (forall rc w orderID,
      Inv w ->
      env.(postOrder) (List.length (orders w)) order = Normal orderID ->
      exists w1,
        attempt p t rc w = (Normal (result rc orderID), w1)
        /\ timeline w1
           = timeline w ++ [Submitted order; TradeExecuted (result rc orderID)]) ->
  forall k rc w orderID,
    k <= TradeExecutor.retriesLeft config rc ->
    Inv w ->
    Trace.acceptsAfter env (List.length (orders w)) k order orderID ->
    exists w',
      TradeExecutor.withRetry config env attempt
        (TradeExecutor.retriesLeft config rc) p t rc w
      = (result (rc + Z.of_nat k)%Z orderID, w')
      /\ timeline w'
         = timeline w
           ++ Submitted order :: Spec.retries config k order
           ++ [TradeExecuted (result (rc + Z.of_nat k)%Z orderID)].
Proof.
  intros Hthrow Hnormal.
  induction k as [ | k IH]; intros rc w orderID Hle Hinv [Hbefore Hat];
    rewrite withRetry_unfold.
  - rewrite Nat.add_0_r in Hat.
    destruct (Hnormal rc w orderID Hinv Hat) as (w1 & -> & Ht).
    exists w1. rewrite Z.add_0_r. split; [reflexivity | ].
    rewrite Ht. reflexivity.
  - destruct (Hbefore 0) as [message Hm]; [lia | ].
    rewrite Nat.add_0_r in Hm.
    destruct (Hthrow rc w message Hinv Hm) as (w1 & -> & Ht & Hinv1).
    unfold TradeExecutor.retriesLeft in Hle.
    assert (Hlt : (rc <? Config.maxRetryAttempts config)%Z = true)
      by (apply Z.ltb_lt; lia).
    rewrite Hlt.
    assert (Hlen : List.length (orders (setTimeout w1 (Config.retryDelay config)))
                   = S (List.length (orders w))).
    { rewrite orders_setTimeout. unfold orders.
      rewrite Ht, ordersIn_app, length_app. simpl. lia. }
    destruct (IH (rc + 1)%Z (setTimeout w1 (Config.retryDelay config)) orderID)
      as (w' & -> & Ht'); [ | exact Hinv1 | | ].
    { unfold TradeExecutor.retriesLeft. lia. }
    { rewrite Hlen. split.
      - intros i Hi. destruct (Hbefore (S i)) as [m Hmi]; [lia | ].
        exists m. rewrite <- Hmi. f_equal. lia.
      - rewrite <- Hat. f_equal. lia. }
    replace (rc + 1 + Z.of_nat k)%Z with (rc + Z.of_nat (S k))%Z in * by lia.
    exists w'. split; [reflexivity | ].
    rewrite Ht'. simpl. rewrite Ht, <- !app_assoc. reflexivity.
Qed.

Lemma keyAvailable_step (w w' : World) :
  Trace.keyStep env w w' ->
  Spec.keyAvailable env (setTimeout w' config.(Config.retryDelay)).
Proof. intros [(_ & _ & Hk) | (_ & _ & _ & Hk)]; now left. Qed.

Lemma keyAvailable_no_failure (w w' : World) (message : string) :
  Spec.keyAvailable env w -> ~ Trace.keyFailure env w w' message.
Proof.
  intros [Hk | Hd] (cause & Hk0 & Hc & _); [congruence | ].
  rewrite Hd in Hc. discriminate.
Qed.

(** X6.  A live call stops at the first order the boundary accepts: when
    the boundary throws on [k] orders, [k] at most [maxRetryAttempts],
    and answers the next, the call submits [k + 1] orders with a wait
    before each retry and succeeds; the result has [retryCount = k], the
    [orderID] of the answer and no [error]. *)
Theorem retry_until_accepted (p : Position) (t : string) (w : World)
    (n k : nat) (orderID : option string) :
  config.(Config.maxRetryAttempts) = Z.of_nat n ->
  k <= n ->
  config.(Config.dryRun) = false ->
  JS.truthy p.(id) = true ->
  Spec.keyAvailable env w ->
  let accepted :=
    TradeExecutor.withSuccess
      (TradeExecutor.initialResult config p (Z.of_nat k)) orderID
      (Spec.tradeQuantity config p) (Spec.tradePrice p) in
  let ended (order : Order.t) (res : TradeExecutionResult * World) :=
    fst res = accepted
    /\ timeline (snd res)
       = timeline w ++ Submitted order :: Spec.retries config k order
         ++ [TradeExecuted accepted] in
  (Trace.acceptsAfter env (List.length (orders w)) k
                      (Spec.sellOrder config p) orderID ->
   ended (Spec.sellOrder config p)
         (TradeExecutor.executeSell config env p t 0 w))
  /\ (Trace.acceptsAfter env (List.length (orders w)) k
                         (Spec.buyOrder config p) orderID ->
      Spec.unrecorded p t w ->
      (Spec.belowMinimum config p || Spec.aboveMaximum config p
       || Spec.positionLimitExceeded config p)%bool = false ->
      ended (Spec.buyOrder config p)
            (TradeExecutor.executeBuy config env p t 0 w)).
Proof.
  intros Hn Hk Hdry Hid Hkey accepted ended.
  assert (Hleft : k <= TradeExecutor.retriesLeft config 0).
  { unfold TradeExecutor.retriesLeft. rewrite Hn. lia. }
  set (result := fun (rc : Z) (oid : option string) =>
                   TradeExecutor.withSuccess
                     (TradeExecutor.initialResult config p rc) oid
                     (Spec.tradeQuantity config p) (Spec.tradePrice p)).
  split.
  - intros Hacc.
    destruct (withRetry_accepts (TradeExecutor.trySell config env)
                (Spec.sellOrder config p) p t (Spec.keyAvailable env) result)
      with (k := k) (rc := 0%Z) (w := w) (orderID := orderID)
      as (w' & Hrun & Ht); auto.
    + intros rc w0 message Hk0 Hpost.
      pose proof (trySell_shape config env p t rc w0) as Hs. cbv zeta in Hs.
      destruct (TradeExecutor.trySell config env p t rc w0) as [[r | m] w1].
      * destruct Hs as (_ & oid & _ & [(? & _) | (_ & Hp & _)]); congruence.
      * destruct Hs as [(? & _) | (_ & _ & [Hf | (Hp & Ht & Hstep)])];
          [congruence | now destruct (keyAvailable_no_failure w0 w1 m Hk0) | ].
        exists w1. split; [congruence | ]. split; [exact Ht | ].
        now apply (keyAvailable_step w0).
    + intros rc w0 oid Hk0 Hpost.
      pose proof (trySell_shape config env p t rc w0) as Hs. cbv zeta in Hs.
      destruct (TradeExecutor.trySell config env p t rc w0) as [[r | m] w1].
      * destruct Hs as (_ & oid' & -> & [(? & _) | (_ & Hp & Ht & _)]);
          [congruence | ].
        exists w1. rewrite Hpost in Hp. injection Hp as <-.
        split; [reflexivity | exact Ht].
      * destruct Hs as [(? & _) | (_ & _ & [Hf | (Hp & _)])];
          [congruence | now destruct (keyAvailable_no_failure w0 w1 m Hk0) | ].
        congruence.
    + unfold ended, TradeExecutor.executeSell. rewrite Hrun. simpl.
      split; [reflexivity | exact Ht].
  - intros Hacc Hu Hlim.
    destruct (withRetry_accepts (TradeExecutor.tryBuy config env)
                (Spec.buyOrder config p) p t
                (fun w0 => Spec.keyAvailable env w0 /\ Spec.unrecorded p t w0)
                result)
      with (k := k) (rc := 0%Z) (w := w) (orderID := orderID)
      as (w' & Hrun & Ht); auto.
    + intros rc w0 message [Hk0 Hu0] Hpost.
      pose proof (tryBuy_shape config env p t rc w0) as Hs. cbv zeta in Hs.
      rewrite (unrecorded_not_duplicate env p t w0 Hu0), Hlim in Hs.
      destruct (TradeExecutor.tryBuy config env p t rc w0)
        as [[r | m] w1] eqn:Hattempt.
      * destruct Hs as [(? & _) | [(_ & _ & ? & _) | (_ & _ & _ & oid & _ & Hs)]];
          try congruence.
        destruct Hs as [(? & _) | (_ & Hp & _)]; congruence.
      * destruct Hs as (_ & [(? & _) | (_ & _ & _ & [Hf | (Hp & Ht & Hstep)])]);
          [congruence | now destruct (keyAvailable_no_failure w0 w1 m Hk0) | ].
        exists w1. split; [congruence | ]. split; [exact Ht | ].
        split; [now apply (keyAvailable_step w0) | ].
        destruct (tryBuy_throw_store p t rc w0 _ _ Hattempt) as [Htr Hc'].
        apply (unrecorded_frame p t w0); auto.
    + intros rc w0 oid [Hk0 Hu0] Hpost.
      pose proof (tryBuy_shape config env p t rc w0) as Hs. cbv zeta in Hs.
      rewrite (unrecorded_not_duplicate env p t w0 Hu0), Hlim in Hs.
      destruct (TradeExecutor.tryBuy config env p t rc w0)
        as [[r | m] w1] eqn:Hattempt.
      * destruct Hs as [(? & _) | [(_ & _ & ? & _) | (_ & _ & _ & oid' & -> & Hs)]];
          try congruence.
        destruct Hs as [(? & _) | (_ & Hp & Ht & _)]; [congruence | ].
        exists w1. rewrite Hpost in Hp. injection Hp as <-.
        split; [reflexivity | exact Ht].
      * destruct Hs as (_ & [(? & _) | (_ & _ & _ & [Hf | (Hp & _)])]);
          [congruence | now destruct (keyAvailable_no_failure w0 w1 m Hk0) | ].
        congruence.
    + unfold ended, TradeExecutor.executeBuy. rewrite Hrun. simpl.
      split; [reflexivity | exact Ht].
Qed.

Lemma trySell_throw_callbacks (p : Position) (t : string) (rc : Z)
    (w : World) (message : string) (w' : World) :
  TradeExecutor.trySell config env p t rc w = (Throw message, w') ->
  Trace.callbacks (timeline w') = Trace.callbacks (timeline w).
Proof.
  intros Hattempt.
  pose proof (trySell_shape config env p t rc w) as Hs. cbv zeta in Hs.
  rewrite Hattempt in Hs.
  destruct Hs as [(_ & _ & ->) | (_ & _ & [Hf | (_ & Ht & _)])];
    [reflexivity | | ].
  - destruct Hf as (cause & _ & _ & _ & -> & _). reflexivity.
  - rewrite Ht, callbacks_app. simpl. apply app_nil_r.
Qed.

Lemma tryBuy_throw_callbacks (p : Position) (t : string) (rc : Z)
    (w : World) (message : string) (w' : World) :
  TradeExecutor.tryBuy config env p t rc w = (Throw message, w') ->
  Trace.callbacks (timeline w') = Trace.callbacks (timeline w).
Proof.
  intros Hattempt.
  pose proof (tryBuy_shape config env p t rc w) as Hs. cbv zeta in Hs.
  rewrite Hattempt in Hs.
  destruct Hs as (_ & [(_ & _ & -> & _) | (_ & _ & _ & [Hf | (_ & Ht & _)])]);
    [reflexivity | | ].
  - destruct Hf as (cause & _ & _ & _ & -> & _). reflexivity.
  - rewrite Ht, callbacks_app. simpl. apply app_nil_r.
Qed.

(** X7.  Every call ends with exactly one call of a callback:
    [onTradeExecuted] with the returned result when it succeeds,
    [onTradeError] when it fails.  The one exception is a buy that the
    store makes a duplicate, which calls neither. *)
Theorem one_callback_per_call (p : Position) (t : string) (rc : Z)
    (w : World) :
  let calls (w' : World) := Trace.callbacks (timeline w') in
  let bought := TradeExecutor.executeBuy config env p t rc w in
  let sold := TradeExecutor.executeSell config env p t rc w in
  (if success (fst bought)
   then calls (snd bought) = calls w ++ [TradeExecuted (fst bought)]
   else (exists message,
            calls (snd bought) = calls w ++ [TradeError message p])
        \/ (calls (snd bought) = calls w
            /\ error (fst bought) = Some "Duplicate trade"
            /\ dbConnected w = true
            /\ Spec.recorded w p.(id) t buy = true))
  /\ (if success (fst sold)
      then calls (snd sold) = calls w ++ [TradeExecuted (fst sold)]
      else exists message,
             calls (snd sold) = calls w ++ [TradeError message p]).
Proof.
  intros calls bought sold. split.
  - subst bought. unfold TradeExecutor.executeBuy.
    apply (withRetry_ind config env (TradeExecutor.tryBuy config env) p t
             (fun rc w res =>
                if success (fst res)
                then calls (snd res) = calls w ++ [TradeExecuted (fst res)]
                else (exists message,
                         calls (snd res) = calls w ++ [TradeError message p])
                     \/ (calls (snd res) = calls w
                         /\ error (fst res) = Some "Duplicate trade"
                         /\ dbConnected w = true
                         /\ Spec.recorded w p.(id) t buy = true))).
    + intros rc0 w0 r w' Hattempt.
      pose proof (tryBuy_shape config env p t rc0 w0) as Hs. cbv zeta in Hs.
      rewrite Hattempt in Hs. subst calls. simpl.
      destruct Hs as [(Hdup & -> & (Ht & _))
                     | [(_ & _ & _ & message & -> & Ht & _)
                       | (_ & _ & _ & oid & Hr & Hs)]].
      * simpl. right. rewrite Ht.
        apply isDuplicateTrade_true in Hdup. destruct Hdup. auto.
      * simpl. left. exists message. rewrite Ht, callbacks_app. reflexivity.
      * assert (Hok : success r = true) by (rewrite Hr; reflexivity).
        rewrite Hok.
        destruct Hs as [(_ & _ & Ht & _) | (_ & _ & Ht & _)];
          rewrite Ht, callbacks_app; reflexivity.
    + intros rc0 w0 message w' Hattempt.
      destruct (giveUp_frame config env p t rc0 message w')
        as (Hr & Ht & _).
      cbv zeta in Hr, Ht. subst calls. cbv beta. rewrite Hr, Ht. simpl.
      left. exists message. rewrite callbacks_app.
      now rewrite (tryBuy_throw_callbacks p t rc0 w0 message w' Hattempt).
    + intros rc0 w0 message w' res Hattempt IH.
      destruct (tryBuy_throw_store p t rc0 w0 _ _ Hattempt) as [Htr Hc].
      subst calls. cbv beta in *. unfold setTimeout, record in IH.
      simpl in IH. rewrite callbacks_app in IH. simpl in IH.
      rewrite app_nil_r in IH.
      rewrite (tryBuy_throw_callbacks p t rc0 w0 message w' Hattempt) in IH.
      unfold Spec.recorded in *. simpl in IH. rewrite Htr, Hc in IH.
      exact IH.
  - subst sold. unfold TradeExecutor.executeSell.
    apply (withRetry_ind config env (TradeExecutor.trySell config env) p t
             (fun rc w res =>
                if success (fst res)
                then calls (snd res) = calls w ++ [TradeExecuted (fst res)]
                else exists message,
                       calls (snd res) = calls w ++ [TradeError message p])).
    + intros rc0 w0 r w' Hattempt.
      pose proof (trySell_shape config env p t rc0 w0) as Hs. cbv zeta in Hs.
      rewrite Hattempt in Hs. subst calls. simpl.
      destruct Hs as (_ & oid & Hr & Hs).
      assert (Hok : success r = true) by (rewrite Hr; reflexivity).
      rewrite Hok.
      destruct Hs as [(_ & _ & Ht & _) | (_ & _ & Ht & _)];
        rewrite Ht, callbacks_app; reflexivity.
    + intros rc0 w0 message w' Hattempt.
      destruct (giveUp_frame config env p t rc0 message w')
        as (Hr & Ht & _).
      cbv zeta in Hr, Ht. subst calls. cbv beta. rewrite Hr, Ht. simpl.
      exists message. rewrite callbacks_app.
      now rewrite (trySell_throw_callbacks p t rc0 w0 message w' Hattempt).
    + intros rc0 w0 message w' res Hattempt IH.
      subst calls. cbv beta in *. unfold setTimeout, record in IH.
      simpl in IH. rewrite callbacks_app in IH. simpl in IH.
      rewrite app_nil_r in IH.
      rewrite (trySell_throw_callbacks p t rc0 w0 message w' Hattempt) in IH.
      exact IH.
Qed.

Lemma driverDown_not_duplicate (positionId t : string) (side : TradeSide)
    (w : World) :
  Trace.driverDown env ->
  fst (TradeExecutor.isDuplicateTrade env positionId t side w) = false.
Proof.
  intros Hdown. unfold TradeExecutor.isDuplicateTrade, TradeModel.findOne.
  destruct (dbConnected w); [ | reflexivity]. simpl.
  destruct (Hdown (dbCalls w)) as [message ->]. reflexivity.
Qed.

Lemma driverDown_saveTrade (r : TradeExecutionResult) (t : string)
    (w : World) :
  Trace.driverDown env ->
  trades (TradeExecutor.saveTrade env r t w) = trades w.
Proof.
  intros Hdown. unfold TradeExecutor.saveTrade, TradeModel.save.
  destruct (negb (dbConnected w) || negb (success r))%bool; [reflexivity | ].
  destruct (negb (TradeModel.valid (TradeExecutor.tradeOf r t)));
    [reflexivity | ].
  destruct (Hdown (dbCalls w)) as [message ->]. reflexivity.
Qed.

Lemma driverDown_tryBuy (p : Position) (t : string) (rc : Z)
    (w1 w2 : World) :
  Trace.driverDown env ->
  Spec.agree w1 w2 ->
  fst (TradeExecutor.tryBuy config env p t rc w1)
  = fst (TradeExecutor.tryBuy config env p t rc w2)
  /\ Spec.agree (snd (TradeExecutor.tryBuy config env p t rc w1))
                (snd (TradeExecutor.tryBuy config env p t rc w2)).
Proof.
  intros Hdown Hagree. rewrite !tryBuy_eq. cbv zeta.
  rewrite !driverDown_not_duplicate by assumption.
  pose proof (agree_isDuplicateTrade env env (id p) t buy w1 w2 Hagree)
    as Hagree0.
  set (w10 := snd (TradeExecutor.isDuplicateTrade env (id p) t buy w1)) in *.
  set (w20 := snd (TradeExecutor.isDuplicateTrade env (id p) t buy w2)) in *.
  destruct (negb (JS.truthy (id p))); [simpl; auto | ].
  destruct (Spec.belowMinimum config p);
    [simpl; split; [reflexivity | now apply agree_record] | ].
  destruct (Spec.aboveMaximum config p);
    [simpl; split; [reflexivity | now apply agree_record] | ].
  destruct (Spec.positionLimitExceeded config p);
    [simpl; split; [reflexivity | now apply agree_record] | ].
  destruct (Config.dryRun config).
  { simpl. split; [reflexivity | ]. now apply agree_record, agree_saveTrade. }
  destruct (agree_submit config env env (fun _ _ => eq_refl)
              (fun _ => eq_refl) (Spec.buyOrder config p) w10 w20 Hagree0)
    as (Hfst & Hag & _).
  destruct (TradeExecutor.submit config env (Spec.buyOrder config p) w10)
    as [c1 w11].
  destruct (TradeExecutor.submit config env (Spec.buyOrder config p) w20)
    as [c2 w21].
  simpl in Hfst, Hag. simpl. rewrite <- Hfst.
  destruct c1 as [orderID | message]; simpl.
  - split; [reflexivity | ]. now apply agree_record, agree_saveTrade.
  - auto.
Qed.

(** X8.  The duplicate check fails open.  While the database driver
    throws, a buy runs as if no store were connected, whatever the store
    records: it returns what it returns with the store disconnected, and
    stores nothing. *)
Theorem duplicate_check_fails_open (p : Position) (t : string) (rc : Z)
    (w : World) :
  Trace.driverDown env ->
  fst (TradeExecutor.executeBuy config env p t rc w)
  = fst (TradeExecutor.executeBuy config env p t rc (Trace.disconnected w))
  /\ orders (snd (TradeExecutor.executeBuy config env p t rc w))
     = orders (snd (TradeExecutor.executeBuy config env p t rc
                      (Trace.disconnected w)))
  /\ trades (snd (TradeExecutor.executeBuy config env p t rc w)) = trades w.
Proof.
  intros Hdown.
  assert (Hsim : forall budget rc w1 w2,
             Spec.agree w1 w2 ->
             fst (TradeExecutor.withRetry config env
                    (TradeExecutor.tryBuy config env) budget p t rc w1)
             = fst (TradeExecutor.withRetry config env
                      (TradeExecutor.tryBuy config env) budget p t rc w2)
             /\ Spec.agree
                  (snd (TradeExecutor.withRetry config env
                          (TradeExecutor.tryBuy config env) budget p t rc w1))
                  (snd (TradeExecutor.withRetry config env
                          (TradeExecutor.tryBuy config env) budget p t rc w2))).
  { induction budget as [ | budget IH]; intros rc0 w1 w2 Hagree; simpl;
      destruct (driverDown_tryBuy p t rc0 w1 w2 Hdown Hagree) as (Hfst & Hag);
      destruct (TradeExecutor.tryBuy config env p t rc0 w1) as [c1 w1'];
      destruct (TradeExecutor.tryBuy config env p t rc0 w2) as [c2 w2'];
      simpl in *; subst c2; destruct c1 as [result | message];
      try (split; [reflexivity | exact Hag]);
      destruct (rc0 <? Config.maxRetryAttempts config)%Z;
      try (now apply giveUp_agree).
    apply IH. now apply agree_record. }
  destruct (Hsim (TradeExecutor.retriesLeft config rc) rc w
              (Trace.disconnected w)) as [Hfst (_ & _ & Ht)].
  { repeat split. }
  split; [exact Hfst | ]. split.
  - unfold orders, TradeExecutor.executeBuy. now rewrite Ht.
  - pose proof (executeBuy_outcome config env p t rc w) as (_ & _ & Hres).
    destruct Hres as [[_ Htr] | (_ & w1 & -> & Htr & _)]; [exact Htr | ].
    simpl. now rewrite driverDown_saveTrade.
Qed.



End EngineBounds.

(** ** More facts about numbers *)

Module NumberFacts.

Lemma is_nan_Prim2SF (x : float) :
  is_nan x = true <-> Prim2SF x = S754_nan.
Proof.
  unfold is_nan. rewrite negb_true_iff, eqb_spec. unfold SFeqb. split.
  - intros Hc. destruct (Prim2SF x) as [s | s | | s m e] eqn:Hx;
      try reflexivity;
      rewrite FloatFacts.SFcompare_refl in Hc by discriminate; discriminate.
  - intros ->. reflexivity.
Qed.

Lemma is_nan_false (x : float) :
  is_nan x = false <-> Prim2SF x <> S754_nan.
Proof.
  rewrite <- is_nan_Prim2SF. destruct (is_nan x); split; congruence.
Qed.

Lemma is_nan_eq (x : float) : is_nan x = true -> x = nan.
Proof.
  intros Hx. apply Prim2SF_inj. apply is_nan_Prim2SF in Hx. now rewrite Hx.
Qed.

Lemma mul_nan_l (x y : float) : is_nan x = true -> is_nan (x * y) = true.
Proof.
  rewrite !is_nan_Prim2SF, mul_spec. intros ->. reflexivity.
Qed.

Lemma mul_nan_r (x y : float) : is_nan y = true -> is_nan (x * y) = true.
Proof.
  rewrite !is_nan_Prim2SF, mul_spec. intros ->.
  unfold SF64mul. destruct (Prim2SF x); reflexivity.
Qed.

Lemma ltb_nan_r (x y : float) : is_nan y = true -> (x <? y)%float = false.
Proof.
  intros Hy. apply is_nan_Prim2SF in Hy. rewrite ltb_spec, Hy.
  unfold SFltb. destruct (Prim2SF x); reflexivity.
Qed.

Lemma ltb_nan (x y : float) : is_nan x = true -> (x <? y)%float = false.
Proof. intros Hx. rewrite (is_nan_eq x Hx). apply FloatFacts.ltb_nan_l. Qed.

(** Nothing is above [Infinity]. *)
Lemma ltb_infinity (x : float) : (infinity <? x)%float = false.
Proof.
  rewrite ltb_spec. unfold SFltb.
  change (Prim2SF infinity) with (S754_infinity false).
  destruct (Prim2SF x) as [s | [ | ] | | s m e]; reflexivity.
Qed.

End NumberFacts.

Section EngineLimits.
Context `{NumberOps}.
Variable env : Env.

(** X11.  A limit the configuration leaves out is no limit.  Without
    [maxTradeSize] and [maxPositionSize] no buy fails for its size or for
    the size of the position, whatever they are: in a dry run a buy of a
    position with an identifier succeeds exactly when it is no duplicate
    and its value is not below the minimum trade size. *)
Theorem default_limits_unbounded (c : CopyTradingConfig.t) (p : Position)
    (t : string) (rc : Z) (w : World) :
  c.(CopyTradingConfig.maxTradeSize) = None ->
  c.(CopyTradingConfig.maxPositionSize) = None ->
  let config := TradeExecutor.constructor c in
  Spec.aboveMaximum config p = false
  /\ Spec.positionLimitExceeded config p = false
  /\ (c.(CopyTradingConfig.dryRun) = Some true ->
      JS.truthy p.(id) = true ->
      success (fst (TradeExecutor.executeBuy config env p t rc w))
      = negb (fst (TradeExecutor.isDuplicateTrade env p.(id) t buy w)
              || Spec.belowMinimum config p)).
Proof.
  intros Hmax Hpos config.
  assert (Ha : Spec.aboveMaximum config p = false).
  { unfold Spec.aboveMaximum, JS.gt, config. simpl. rewrite Hmax. simpl.
    apply NumberFacts.ltb_infinity. }
  assert (Hp : Spec.positionLimitExceeded config p = false).
  { unfold Spec.positionLimitExceeded, JS.gt, config. simpl. rewrite Hpos.
    simpl. apply NumberFacts.ltb_infinity. }
  split; [exact Ha | ]. split; [exact Hp | ].
  intros Hdry Hid.
  rewrite executeBuy_unfold, tryBuy_eq. cbv zeta. rewrite Hid, Ha, Hp.
  assert (Hd : Config.dryRun config = true)
    by (unfold config; simpl; now rewrite Hdry).
  rewrite Hd.
  destruct (fst (TradeExecutor.isDuplicateTrade env (id p) t buy w));
    [reflexivity | ].
  simpl negb at 1. cbv iota.
  destruct (Spec.belowMinimum config p); reflexivity.
Qed.

(** X12.  A quantity or a price that does not parse passes the checks of
    the trade size, under any limits, since no comparison with [NaN]
    holds; when the position size passes too, a live buy submits the order
    with the [NaN] in it. *)
Theorem unparsable_size_passes_limits (config : Config.t) (p : Position)
    (t : string) (w : World) (orderID : option string) :
  (is_nan (parseFloat p.(quantity)) || is_nan (parseFloat p.(price)))%bool
  = true ->
  Spec.belowMinimum config p = false
  /\ Spec.aboveMaximum config p = false
  /\ (is_nan (Order.size (Spec.buyOrder config p))
      || is_nan (Order.price (Spec.buyOrder config p)))%bool = true
  /\ (config.(Config.dryRun) = false ->
      JS.truthy p.(id) = true ->
      Spec.keyAvailable env w ->
      Spec.unrecorded p t w ->
      Spec.positionLimitExceeded config p = false ->
      env.(postOrder) (List.length (orders w)) (Spec.buyOrder config p)
      = Normal orderID ->
      success (fst (TradeExecutor.executeBuy config env p t 0 w)) = true
      /\ orders (snd (TradeExecutor.executeBuy config env p t 0 w))
         = orders w ++ [Spec.buyOrder config p]).
Proof.
  intros Hnan.
  assert (Hvalue : is_nan (Spec.tradeValue config p) = true).
  { unfold Spec.tradeValue, Spec.tradeQuantity, Spec.tradePrice.
    apply orb_true_iff in Hnan. destruct Hnan as [Hq | Hp].
    - now apply NumberFacts.mul_nan_l, NumberFacts.mul_nan_l.
    - now apply NumberFacts.mul_nan_r. }
  assert (Hmin : Spec.belowMinimum config p = false)
    by (unfold Spec.belowMinimum, JS.lt; now apply NumberFacts.ltb_nan).
  assert (Hmax : Spec.aboveMaximum config p = false)
    by (unfold Spec.aboveMaximum, JS.gt; now apply NumberFacts.ltb_nan_r).
  split; [exact Hmin | ]. split; [exact Hmax | ]. split.
  { simpl. unfold Spec.tradeQuantity, Spec.tradePrice.
    apply orb_true_iff in Hnan. destruct Hnan as [Hq | Hp].
    - now rewrite NumberFacts.mul_nan_l.
    - rewrite Hp. apply orb_true_r. }
  intros Hdry Hid Hkey Hu Hpos Hpost.
  rewrite executeBuy_unfold.
  pose proof (tryBuy_shape config env p t 0 w) as Hs. cbv zeta in Hs.
  rewrite (unrecorded_not_duplicate env p t w Hu), Hmin, Hmax, Hpos in Hs.
  destruct (TradeExecutor.tryBuy config env p t 0 w) as [[r | m] w1].
  - destruct Hs as [(? & _) | [(_ & _ & ? & _) | (_ & _ & _ & oid & -> & Hs)]];
      try discriminate.
    destruct Hs as [(? & _) | (_ & _ & Ht & _)]; [congruence | ].
    simpl. split; [reflexivity | ].
    unfold orders. rewrite Ht, ordersIn_app. reflexivity.
  - destruct Hs as (_ & [(? & _) | (_ & _ & _ & [Hf | (Hp & _)])]);
      [congruence | | congruence].
    destruct Hkey as [Hk | Hd]; destruct Hf as (cause & Hk0 & Hc & _);
      [congruence | rewrite Hd in Hc; discriminate].
Qed.

End EngineLimits.

(** ** The engine on more concrete inputs *)

Section EngineTraceExamples.
#[local] Existing Instance JSNumber.numberOps.
Import Sample.

(** X2, witness: the key is there; a live buy and a live sell derive
    nothing. *)
Lemma key_derived_once_witness :
  let config := TradeExecutor.constructor (aConfig false) in
  let p := aPosition "tok1" "100" "0.5" "50" in
  let w := mkWorld true false [] 0 0 [] in
  keyCalls (snd (TradeExecutor.executeBuy config accepting p trader 0 w)) = 0
  /\ keyCalls (snd (TradeExecutor.executeSell config accepting p trader 0 w))
     = 0.
Proof.
  intros config p w.
  destruct (key_derived_once config accepting p trader 0 w)
    as [[_ Hb] [_ Hs]]; [reflexivity | ].
  split; [exact Hb | exact Hs].
Defined.

(** X3, witness: a dry run of a buy and of a sell. *)
Lemma dry_run_offline_witness :
  let config := TradeExecutor.constructor (aConfig true) in
  let p := aPosition "tok1" "100" "0.5" "50" in
  let w := aWorld false [] in
  orders (snd (TradeExecutor.executeBuy config failing p trader 0 w)) = []
  /\ success (fst (TradeExecutor.executeBuy config failing p trader 0 w))
     = true
  /\ success (fst (TradeExecutor.executeSell config failing p trader 0 w))
     = true.
Proof.
  intros config p w.
  destruct (dry_run_offline config failing p trader 0 w)
    as ((Ho & _) & _ & Hrun); [reflexivity | ].
  destruct Hrun as [Hsell Hbuy]; [reflexivity | ].
  split; [exact Ho | ]. split.
  - rewrite Hbuy. vm_compute. reflexivity.
  - rewrite Hsell. reflexivity.
Defined.

(** X4, witness: a position without identifier, in a dry run. *)
Lemma missing_identifier_retried_witness :
  let config := TradeExecutor.constructor (aConfig true) in
  let p := aPosition "" "100" "0.5" "50" in
  let res :=
    TradeExecutor.executeSell config accepting p trader 0 (aWorld false []) in
  error (fst res) = Some "Position ID (token ID) is missing"
  /\ timeline (snd res)
     = [Waited 1000; Waited 1000; Waited 1000;
        TradeError "Position ID (token ID) is missing" p].
Proof.
  intros config p res.
  destruct (missing_identifier_retried config accepting p trader
              (aWorld false []) 3) as [[Hr Ht] _];
    [reflexivity | reflexivity | ].
  subst res. rewrite Hr, Ht. split; reflexivity.
Defined.


(** X6, witness: the boundary throws twice and answers the third order. *)
Lemma retry_until_accepted_witness :
  let config := TradeExecutor.constructor (aConfig false) in
  let p := aPosition "tok1" "100" "0.5" "50" in
  let busy :=
    mkEnv (fun n _ => if Nat.ltb n 2 then Throw "busy"
                      else Normal (Some "order-3"))
          (fun _ => Normal tt) (fun _ => None) in
  let res :=
    TradeExecutor.executeSell config busy p trader 0 (aWorld false []) in
  success (fst res) = true
  /\ orderId (fst res) = Some "order-3"
  /\ retryCount (fst res) = Some 2%Z
  /\ error (fst res) = None
  /\ List.length (orders (snd res)) = 3.
Proof.
  intros config p busy res.
  destruct (retry_until_accepted config busy p trader (aWorld false []) 3 2
              (Some "order-3")) as [Hsell _];
    [reflexivity | lia | reflexivity | reflexivity
     | right; intros n; reflexivity | ].
  destruct Hsell as [Hr Ht].
  { split; [ | reflexivity].
    intros [ | [ | i]] Hi; [now exists "busy" | now exists "busy" | lia]. }
  subst res. unfold orders. rewrite Hr, Ht. repeat split.
Defined.

(** X8, witness: the store records the buy, the driver is down, and the
    order is submitted again. *)
Lemma duplicate_check_fails_open_witness :
  let config := TradeExecutor.constructor (aConfig false) in
  let p := aPosition "tok1" "100" "0.5" "50" in
  let bought :=
    ITrade.mk "tok1" trader "0xmarket" "Yes" buy "100.0000" "0.5000"
              (Some "order") None false true None in
  let down :=
    mkEnv (fun _ _ => Normal (Some "order")) (fun _ => Normal tt)
          (fun _ => Some "connection lost") in
  let w := aWorld true [bought] in
  let res := TradeExecutor.executeBuy config down p trader 0 w in
  Spec.recorded w "tok1" trader buy = true
  /\ success (fst res) = true
  /\ orders (snd res) = [Spec.buyOrder config p]
  /\ trades (snd res) = [bought].
Proof.
  intros config p bought down w res.
  destruct (duplicate_check_fails_open config down p trader 0 w)
    as (Hr & Ho & Ht); [intros n; now exists "connection lost" | ].
  subst res. rewrite Hr, Ho, Ht. vm_compute. auto.
Defined.



(** X11, witness: a buy worth 5e29 with no maximum configured. *)
Lemma default_limits_unbounded_witness :
  let c :=
    CopyTradingConfig.mk true Sample.aPrivateKey (Some true) None None None
                         None None None None None None in
  let p := aPosition "tok1" "1e30" "0.5" "5e29" in
  success (fst (TradeExecutor.executeBuy (TradeExecutor.constructor c)
                  accepting p trader 0 (aWorld false [])))
  = true.
Proof.
  intros c p.
  destruct (default_limits_unbounded accepting c p trader 0 (aWorld false []))
    as (_ & _ & Hrun); [reflexivity | reflexivity | ].
  rewrite Hrun; reflexivity.
Defined.

(** X12, witness: the quantity 'abc'. *)
Lemma unparsable_size_passes_limits_witness :
  let config := TradeExecutor.constructor (aConfig false) in
  let p := aPosition "tok1" "abc" "0.5" "50" in
  let res :=
    TradeExecutor.executeBuy config accepting p trader 0 (aWorld false []) in
  success (fst res) = true
  /\ map (fun o => is_nan (Order.size o)) (orders (snd res)) = [true].
Proof.
  intros config p res.
  destruct (unparsable_size_passes_limits accepting config p trader
              (aWorld false []) (Some "order")) as (_ & _ & _ & Hrun);
    [reflexivity | ].
  destruct Hrun as [Hs Ho];
    [reflexivity | reflexivity | right; intros n; reflexivity | reflexivity
     | reflexivity | reflexivity | ].
  subst res. rewrite Hs, Ho. split; reflexivity.
Defined.

End EngineTraceExamples.

(* ================================================================== *)
(** * More facts about the orchestrator *)
(* ================================================================== *)

Lemma get_fold_set {V : Type} (v : V) (addresses : list string) :
  forall (m : JSMap.t V) (k : string),
    JSMap.get (fold_left (fun m a => JSMap.set m a v) addresses m) k
    = if existsb (String.eqb k) addresses then Some v else JSMap.get m k.
Proof.
  induction addresses as [ | a addresses IH]; simpl; intros m k;
    [reflexivity | ].
  rewrite IH. destruct (existsb (String.eqb k) addresses);
    [now rewrite orb_true_r | ].
  rewrite orb_false_r. destruct (String.eqb k a) eqn:Hk.
  - apply String.eqb_eq in Hk. subst a. apply JSMapFacts.get_set_same.
  - apply JSMapFacts.get_set_other. intros ->.
    rewrite String.eqb_refl in Hk. discriminate.
Qed.

Lemma set_get_same {V : Type} (m : JSMap.t V) (k : string) (v : V) :
  JSMap.get m k = Some v -> JSMap.set m k v = m.
Proof.
  induction m as [ | [k' v'] m IH]; simpl; [discriminate | ].
  destruct (String.eqb k' k).
  - intros [= ->]. reflexivity.
  - intros Hg. now rewrite IH.
Qed.

Lemma set_set_same {V : Type} (m : JSMap.t V) (k : string) (v1 v2 : V) :
  JSMap.set (JSMap.set m k v1) k v2 = JSMap.set m k v2.
Proof.
  induction m as [ | [k' v'] m IH]; simpl.
  - now rewrite String.eqb_refl.
  - destruct (String.eqb k' k) eqn:Hk; simpl; rewrite Hk; [reflexivity | ].
    now rewrite IH.
Qed.

Section OrchestratorFrame.
Context `{NumberOps}.
Variable env : Env.

(** The loops leave the fields of the statistics they do not count. *)
Lemma loops_keep_stats (executor : Config.t) (t : string)
    (news closed : list Position) (l : CopyTradingMonitor.Loop) :
  let l' :=
    fold_left (CopyTradingMonitor.sellStep env executor t) closed
      (fold_left (CopyTradingMonitor.buyStep env executor t) news l) in
  CopyTradingStatus.enabled (CopyTradingMonitor.counters l')
  = CopyTradingStatus.enabled (CopyTradingMonitor.counters l)
  /\ CopyTradingStatus.dryRun (CopyTradingMonitor.counters l')
     = CopyTradingStatus.dryRun (CopyTradingMonitor.counters l)
  /\ CopyTradingStatus.tradersMonitored (CopyTradingMonitor.counters l')
     = CopyTradingStatus.tradersMonitored (CopyTradingMonitor.counters l).
Proof.
  cbv zeta.
  set (I := fun l' : CopyTradingMonitor.Loop =>
              CopyTradingStatus.enabled (CopyTradingMonitor.counters l')
              = CopyTradingStatus.enabled (CopyTradingMonitor.counters l)
              /\ CopyTradingStatus.dryRun (CopyTradingMonitor.counters l')
                 = CopyTradingStatus.dryRun (CopyTradingMonitor.counters l)
              /\ CopyTradingStatus.tradersMonitored
                   (CopyTradingMonitor.counters l')
                 = CopyTradingStatus.tradersMonitored
                     (CopyTradingMonitor.counters l)).
  apply (fold_left_invariant _ I).
  - intros b a _ Hb. unfold I in *. rewrite sellStep_eq. cbv zeta. simpl.
    destruct (success _); exact Hb.
  - apply (fold_left_invariant _ I).
    + intros b a _ Hb. unfold I in *. rewrite buyStep_eq. cbv zeta. simpl.
      destruct (success _); exact Hb.
    + unfold I. auto.
Qed.

(** What an update for [t] leaves alone: the entries of the other
    traders, the configuration, and the fields of the statistics that
    describe the monitor. *)
Lemma handleStatusUpdate_frame (m : CopyTradingMonitor.t) (w : World)
    (status : TradingStatus) (t : string) m' w' done :
  CopyTradingMonitor.handleStatusUpdate env m w status t = (m', w', done) ->
  (forall t', t' <> t ->
     JSMap.get m'.(CopyTradingMonitor.targetPositions) t'
     = JSMap.get m.(CopyTradingMonitor.targetPositions) t'
     /\ JSMap.get m'.(CopyTradingMonitor.executedPositions) t'
        = JSMap.get m.(CopyTradingMonitor.executedPositions) t')
  /\ CopyTradingStatus.enabled m'.(CopyTradingMonitor.stats)
     = CopyTradingStatus.enabled m.(CopyTradingMonitor.stats)
  /\ CopyTradingStatus.dryRun m'.(CopyTradingMonitor.stats)
     = CopyTradingStatus.dryRun m.(CopyTradingMonitor.stats)
  /\ CopyTradingStatus.tradersMonitored m'.(CopyTradingMonitor.stats)
     = CopyTradingStatus.tradersMonitored m.(CopyTradingMonitor.stats).
Proof.
  intros Hrun. unfold CopyTradingMonitor.handleStatusUpdate in Hrun.
  injection Hrun as <- _ _. simpl. split.
  - intros t' Hne. split.
    + apply JSMapFacts.get_set_other. congruence.
    + destruct (JSMap.get (CopyTradingMonitor.executedPositions m) t);
        [apply JSMapFacts.get_set_other; congruence | reflexivity].
  - apply (loops_keep_stats (TradeExecutor.constructor
                               (CopyTradingMonitor.config m)) t).
Qed.

Lemma successes_app (l1 l2 : list CopyTradingMonitor.Execution) :
  Spec.successes (l1 ++ l2) = Spec.successes l1 + Spec.successes l2.
Proof. unfold Spec.successes. now rewrite filter_app, length_app. Qed.

Lemma failures_app (l1 l2 : list CopyTradingMonitor.Execution) :
  Spec.failures (l1 ++ l2) = Spec.failures l1 + Spec.failures l2.
Proof. unfold Spec.failures. now rewrite filter_app, length_app. Qed.

Lemma lastPositions_frame (m m' : CopyTradingMonitor.t) (t : string) :
  JSMap.get m'.(CopyTradingMonitor.targetPositions) t
  = JSMap.get m.(CopyTradingMonitor.targetPositions) t ->
  Spec.lastPositions m' t = Spec.lastPositions m t.
Proof. unfold Spec.lastPositions. now intros ->. Qed.

Lemma inFlight_frame (m m' : CopyTradingMonitor.t) (t : string) :
  JSMap.get m'.(CopyTradingMonitor.executedPositions) t
  = JSMap.get m.(CopyTradingMonitor.executedPositions) t ->
  Spec.inFlight m' t = Spec.inFlight m t.
Proof. unfold Spec.inFlight. now intros ->. Qed.

(** One delivered update keeps what the constructor established. *)
Lemma onUpdate_invariant (m : CopyTradingMonitor.t) (w : World)
    (status : TradingStatus) (address : string) m' w' done :
  CopyTradingMonitor.onUpdate env m w status address = (m', w', done) ->
  (forall t, Spec.registered m t -> Spec.registered m' t)
  /\ ((forall t, Spec.wellKeyed m t) -> forall t, Spec.wellKeyed m' t)
  /\ m'.(CopyTradingMonitor.config) = m.(CopyTradingMonitor.config)
  /\ CopyTradingStatus.tradersMonitored m'.(CopyTradingMonitor.stats)
     = CopyTradingStatus.tradersMonitored m.(CopyTradingMonitor.stats)
  /\ CopyTradingStatus.totalTradesExecuted m'.(CopyTradingMonitor.stats)
     = (CopyTradingStatus.totalTradesExecuted m.(CopyTradingMonitor.stats)
        + Z.of_nat (Spec.successes done))%Z
  /\ CopyTradingStatus.totalTradesFailed m'.(CopyTradingMonitor.stats)
     = (CopyTradingStatus.totalTradesFailed m.(CopyTradingMonitor.stats)
        + Z.of_nat (Spec.failures done))%Z
  /\ (m.(CopyTradingMonitor.config).(CopyTradingConfig.enabled) = false ->
      m' = m /\ w' = w /\ done = []).
Proof.
  unfold CopyTradingMonitor.onUpdate.
  destruct (CopyTradingConfig.enabled (CopyTradingMonitor.config m)).
  2:{ intros [= <- <- <-]. simpl. rewrite !Z.add_0_r. auto 10. }
  intros Hrun.
  destruct (handleStatusUpdate_spec env m w status address m' w' done Hrun)
    as (buys & sells & _ & _ & _ & _ & Hreg & _ & Hf & He & Hc & _).
  destruct (handleStatusUpdate_frame m w status address m' w' done Hrun)
    as (Hother & _ & _ & Htm).
  split.
  { intros t Ht. destruct (String.eqb_spec t address) as [-> | Hne].
    - now apply Hreg.
    - destruct Ht as [s Hs]. exists s.
      destruct (Hother t Hne) as [_ ->]. exact Hs. }
  split.
  { intros Hall t. destruct (String.eqb_spec t address) as [-> | Hne].
    - eapply handleStatusUpdate_wellKeyed; eauto.
    - unfold Spec.wellKeyed.
      rewrite (lastPositions_frame m m' t) by apply (Hother t Hne).
      apply Hall. }
  split; [exact Hc | ]. split; [exact Htm | ]. split; [exact He | ].
  split; [exact Hf | ]. intros Hd. discriminate.
Qed.

(** X13.  The constructor returns only when the private key makes a
    wallet and there is a target address.  What it establishes then,
    every update that is delivered and handled to its end keeps: each
    target address has its set of executed positions, and the positions
    remembered for any address form a map keyed by their identifiers;
    the configuration and the number of traders do not change. *)
Theorem constructor_invariant (wallet : string -> Completion string)
    (addresses : list string)
    (c : CopyTradingConfig.t) (m0 : CopyTradingMonitor.t) (w : World)
    (updates : list (TradingStatus * string)) m w' done :
  CopyTradingMonitor.constructor wallet addresses c = Normal m0 ->
  Updates.deliver env m0 w updates = (m, w', done) ->
  (exists address, wallet c.(CopyTradingConfig.privateKey) = Normal address)
  /\ addresses <> []
  /\ (forall t, In t addresses -> Spec.registered m t)
  /\ (forall t, Spec.wellKeyed m t)
  /\ m.(CopyTradingMonitor.config) = c
  /\ CopyTradingStatus.tradersMonitored m.(CopyTradingMonitor.stats)
     = Z.of_nat (List.length addresses).
Proof.
  intros Hnew Hrun.
  assert (Hwallet :
            (exists address,
                wallet c.(CopyTradingConfig.privateKey) = Normal address)
            /\ addresses <> []).
  { unfold CopyTradingMonitor.constructor, TradeExecutor.newTradeExecutor
      in Hnew. simpl in Hnew.
    destruct (wallet c.(CopyTradingConfig.privateKey)) as [address | ];
      [ | discriminate].
    split; [now exists address | ].
    intros ->. discriminate. }
  destruct Hwallet as (Hwallet & Hsome).
  split; [exact Hwallet | ]. split; [exact Hsome | ].
  assert (Hinit : (forall t, In t addresses -> Spec.registered m0 t)
                  /\ (forall t, Spec.wellKeyed m0 t)
                  /\ m0.(CopyTradingMonitor.config) = c
                  /\ CopyTradingStatus.tradersMonitored
                       m0.(CopyTradingMonitor.stats)
                     = Z.of_nat (List.length addresses)).
  { assert (Hfields :
              m0.(CopyTradingMonitor.executedPositions)
              = fold_left (fun m a => JSMap.set m a JSSet.empty) addresses
                          JSMap.empty
              /\ m0.(CopyTradingMonitor.targetPositions)
                 = fold_left (fun m a => JSMap.set m a JSMap.empty) addresses
                             JSMap.empty
              /\ m0.(CopyTradingMonitor.config) = c
              /\ CopyTradingStatus.tradersMonitored
                   m0.(CopyTradingMonitor.stats)
                 = Z.of_nat (List.length addresses)).
    { unfold CopyTradingMonitor.constructor in Hnew.
      destruct (TradeExecutor.newTradeExecutor wallet c) as [executor | ];
        [ | discriminate].
      destruct addresses as [ | a addresses]; [discriminate | ].
      injection Hnew as <-. repeat split. }
    destruct Hfields as (He & Ht & Hc & Hn).
    split; [ | split; [ | split; assumption]].
    - intros t Hin. exists JSSet.empty. rewrite He, get_fold_set.
      assert (Hex : existsb (String.eqb t) addresses = true).
      { apply existsb_exists. exists t. split; [exact Hin | ].
        apply String.eqb_refl. }
      now rewrite Hex.
    - intros t. unfold Spec.wellKeyed, Spec.lastPositions.
      rewrite Ht, get_fold_set.
      destruct (existsb (String.eqb t) addresses); simpl;
        (split; [intros k v [] | constructor]). }
  clear Hnew. revert m0 w m w' done Hrun Hinit.
  induction updates as [ | [status address] updates IH];
    intros m0 w m w' done Hrun Hinit.
  - injection Hrun as <- _ _. exact Hinit.
  - simpl in Hrun.
    destruct (CopyTradingMonitor.onUpdate env m0 w status address)
      as [[m1 w1] done1] eqn:Hone.
    destruct (Updates.deliver env m1 w1 updates) as [[m2 w2] done2] eqn:Hrest.
    injection Hrun as <- _ _.
    destruct (onUpdate_invariant m0 w status address m1 w1 done1 Hone)
      as (Hreg & Hkeyed & Hc & Htm & _).
    destruct Hinit as (I1 & I2 & I3 & I4).
    apply (IH m1 w1 m2 w2 done2 Hrest).
    split; [auto | ]. split; [auto | ]. split; congruence.
Qed.

(** X14.  The counters count the executions: after any updates they have
    grown by the number of successful executions and by the number of
    failed ones, and every execution is one or the other.  A monitor
    whose configuration is not enabled executes nothing. *)
Theorem stats_count_executions (m0 : CopyTradingMonitor.t) (w : World)
    (updates : list (TradingStatus * string)) m w' done :
  Updates.deliver env m0 w updates = (m, w', done) ->
  CopyTradingStatus.totalTradesExecuted m.(CopyTradingMonitor.stats)
  = (CopyTradingStatus.totalTradesExecuted m0.(CopyTradingMonitor.stats)
     + Z.of_nat (Spec.successes done))%Z
  /\ CopyTradingStatus.totalTradesFailed m.(CopyTradingMonitor.stats)
     = (CopyTradingStatus.totalTradesFailed m0.(CopyTradingMonitor.stats)
        + Z.of_nat (Spec.failures done))%Z
  /\ List.length done = Spec.successes done + Spec.failures done
  /\ (m0.(CopyTradingMonitor.config).(CopyTradingConfig.enabled) = false ->
      m = m0 /\ w' = w /\ done = []).
Proof.
  assert (Hlen : forall l : list CopyTradingMonitor.Execution,
             List.length l = Spec.successes l + Spec.failures l).
  { unfold Spec.successes, Spec.failures.
    induction l as [ | e l IH]; simpl; [reflexivity | ].
    destruct (success (snd e)); simpl; lia. }
  revert m0 w m w' done.
  induction updates as [ | [status address] updates IH];
    intros m0 w m w' done Hrun.
  - injection Hrun as <- <- <-. simpl. rewrite !Z.add_0_r. auto 10.
  - simpl in Hrun.
    destruct (CopyTradingMonitor.onUpdate env m0 w status address)
      as [[m1 w1] done1] eqn:Hone.
    destruct (Updates.deliver env m1 w1 updates) as [[m2 w2] done2] eqn:Hrest.
    injection Hrun as <- <- <-.
    destruct (onUpdate_invariant m0 w status address m1 w1 done1 Hone)
      as (_ & _ & Hc & _ & He & Hf & Hoff).
    destruct (IH m1 w1 m2 w2 done2 Hrest) as (IHe & IHf & _ & IHoff).
    split; [rewrite successes_app, IHe, He; lia | ].
    split; [rewrite failures_app, IHf, Hf; lia | ].
    split; [apply Hlen | ].
    intros Hdis. destruct (Hoff Hdis) as (-> & -> & ->).
    destruct (IHoff Hdis) as (-> & -> & ->). auto.
Qed.

(** X15.  The traders do not interfere: an update for one address leaves
    the remembered positions and the executed set of every other address
    as they are, so the positions an update buys and sells for another
    address are the same before and after it. *)
Theorem traders_isolated (m : CopyTradingMonitor.t) (w : World)
    (status : TradingStatus) (t t' : string) m' w' done :
  t' <> t ->
  CopyTradingMonitor.handleStatusUpdate env m w status t = (m', w', done) ->
  JSMap.get m'.(CopyTradingMonitor.targetPositions) t'
  = JSMap.get m.(CopyTradingMonitor.targetPositions) t'
  /\ JSMap.get m'.(CopyTradingMonitor.executedPositions) t'
     = JSMap.get m.(CopyTradingMonitor.executedPositions) t'
  /\ forall status' w1 w2,
       map Spec.subject
           (snd (CopyTradingMonitor.handleStatusUpdate env m w1 status' t'))
       = map Spec.subject
             (snd (CopyTradingMonitor.handleStatusUpdate env m' w2 status' t')).
Proof.
  intros Hne Hrun.
  destruct (handleStatusUpdate_frame m w status t m' w' done Hrun)
    as (Hother & _).
  destruct (Hother t' Hne) as [Ht He].
  split; [exact Ht | ]. split; [exact He | ].
  intros status' w1 w2.
  destruct (CopyTradingMonitor.handleStatusUpdate env m w1 status' t')
    as [[m1 w1'] done1] eqn:Hrun1.
  destruct (CopyTradingMonitor.handleStatusUpdate env m' w2 status' t')
    as [[m2 w2'] done2] eqn:Hrun2.
  simpl.
  rewrite (handleStatusUpdate_executions env m w1 status' t' _ _ _ Hrun1).
  rewrite (handleStatusUpdate_executions env m' w2 status' t' _ _ _ Hrun2).
  rewrite (lastPositions_frame m m' t' Ht), (inFlight_frame m m' t' He).
  reflexivity.
Qed.

Lemma filter_none {A : Type} (f : A -> bool) (l : list A) :
  (forall a, In a l -> f a = false) -> filter f l = [].
Proof.
  induction l as [ | a l IH]; simpl; intros Hall; [reflexivity | ].
  rewrite (Hall a) by now left. apply IH. intros b Hin. apply Hall.
  now right.
Qed.

Lemma find_app {A : Type} (f : A -> bool) (l1 l2 : list A) :
  find f (l1 ++ l2)
  = match find f l1 with
    | Some a => Some a
    | None => find f l2
    end.
Proof.
  induction l1 as [ | a l1 IH]; simpl; [reflexivity | ].
  destruct (f a); auto.
Qed.

(** [new Map] filled by [set]: a key holds the last value set for it. *)
Lemma get_fold_positions (ps : list Position) :
  forall (m : JSMap.t Position) (k : string),
    JSMap.get (fold_left (fun m pos => JSMap.set m pos.(id) pos) ps m) k
    = match Updates.lastWith k ps with
      | Some p => Some p
      | None => JSMap.get m k
      end.
Proof.
  unfold Updates.lastWith.
  induction ps as [ | p ps IH]; simpl; intros m k; [reflexivity | ].
  rewrite IH, find_app. simpl.
  destruct (find (fun q => String.eqb (id q) k) (rev ps)); [reflexivity | ].
  destruct (String.eqb (id p) k) eqn:Hk.
  - apply String.eqb_eq in Hk. subst k. apply JSMapFacts.get_set_same.
  - apply JSMapFacts.get_set_other. intros Heq.
    rewrite Heq, String.eqb_refl in Hk. discriminate.
Qed.

Lemma NoDup_get_In {V : Type} (m : JSMap.t V) (k : string) (v : V) :
  NoDup (JSMap.keys m) -> In (k, v) m -> JSMap.get m k = Some v.
Proof.
  induction m as [ | [k' v'] m IH]; simpl; intros Hnd Hin; [tauto | ].
  inversion Hnd as [ | ? ? Hnotin Hnd']; subst.
  destruct Hin as [[= -> ->] | Hin].
  - now rewrite String.eqb_refl.
  - destruct (String.eqb k' k) eqn:Hk; [ | auto].
    apply String.eqb_eq in Hk. subst k'. exfalso. apply Hnotin.
    apply in_map_iff. now exists (k, v).
Qed.

(** X16.  A status that lists an identifier several times counts it once,
    with the position listed last: the update buys each identifier at most
    once, the position it buys is the last one listed with the
    identifier, and so is the position it remembers. *)
Theorem repeated_identifier_last_wins (m : CopyTradingMonitor.t) (w : World)
    (status : TradingStatus) (t : string) m' w' done :
  CopyTradingMonitor.handleStatusUpdate env m w status t = (m', w', done) ->
  NoDup (map Spec.subjectId (Updates.buys done))
  /\ (forall e, In e done -> fst e = buy ->
                Updates.lastWith (Spec.subjectId e) status.(openPositions)
                = Some (snd e).(position))
  /\ (forall k, JSMap.get (Spec.lastPositions m' t) k
                = Updates.lastWith k status.(openPositions)).
Proof.
  intros Hrun.
  destruct (handleStatusUpdate_spec env m w status t m' w' done Hrun)
    as (buys & sells & -> & Hbuys & Hsells & Hlast & _).
  assert (Hget : forall k,
             JSMap.get (CopyTradingMonitor.currentPositionsOf status) k
             = Updates.lastWith k status.(openPositions)).
  { intros k. unfold CopyTradingMonitor.currentPositionsOf.
    rewrite get_fold_positions.
    now destruct (Updates.lastWith k (openPositions status)). }
  assert (Hfilter : Updates.buys (buys ++ sells) = buys).
  { unfold Updates.buys. rewrite filter_app.
    transitivity (buys ++ []); [ | apply app_nil_r]. f_equal.
    - apply forallb_filter_id. apply forallb_forall. intros e Hin.
      destruct (subject_side _ _ _ Hbuys e Hin) as [-> _]. reflexivity.
    - apply filter_none. intros e Hin.
      destruct (subject_side _ _ _ Hsells e Hin) as [-> _]. reflexivity. }
  split; [ | split].
  - rewrite Hfilter.
    replace (map Spec.subjectId buys)
      with (map id (map snd (map Spec.subject buys)))
      by (rewrite !map_map; reflexivity).
    rewrite Hbuys, map_snd_pair.
    apply newPositionsOf_NoDup;
      [apply currentPositionsOf_keyed | apply currentPositionsOf_NoDup].
  - intros e Hin Hside.
    assert (Hinb : In e buys).
    { apply in_app_iff in Hin. destruct Hin as [Hin | Hin]; [exact Hin | ].
      destruct (subject_side _ _ _ Hsells e Hin) as [Hs _]. congruence. }
    destruct (subject_side _ _ _ Hbuys e Hinb) as [_ Hnew].
    apply newPositionsOf_In in Hnew; [ | apply currentPositionsOf_keyed].
    destruct Hnew as (Hcur & _).
    rewrite <- Hget. apply NoDup_get_In;
      [apply currentPositionsOf_NoDup | exact Hcur].
  - intros k. rewrite Hlast. apply Hget.
Qed.

(** With the identifiers of the status equal to the remembered ones
    there is nothing new and nothing closed. *)
Lemma same_identifiers_quiet (current last : JSMap.t Position)
    (executedForTrader : JSSet.t) :
  (forall k, JSMap.has current k = JSMap.has last k) ->
  CopyTradingMonitor.newPositionsOf current last executedForTrader = []
  /\ CopyTradingMonitor.closedPositionsOf current last executedForTrader = [].
Proof.
  intros Hsame.
  unfold CopyTradingMonitor.newPositionsOf,
    CopyTradingMonitor.closedPositionsOf.
  split.
  - rewrite filter_none; [reflexivity | ]. intros [k p] Hin. simpl.
    rewrite <- Hsame, (JSMapFacts.In_has _ _ _ Hin). reflexivity.
  - rewrite filter_none; [reflexivity | ]. intros [k p] Hin. simpl.
    rewrite Hsame, (JSMapFacts.In_has _ _ _ Hin). reflexivity.
Qed.

(** An update with nothing new and nothing closed only stores the
    positions of the status. *)
Lemma handleStatusUpdate_quiet (m : CopyTradingMonitor.t) (w : World)
    (status : TradingStatus) (t : string) :
  let current := CopyTradingMonitor.currentPositionsOf status in
  (forall k, JSMap.has current k = JSMap.has (Spec.lastPositions m t) k) ->
  CopyTradingMonitor.handleStatusUpdate env m w status t
  = (CopyTradingMonitor.mk
       m.(CopyTradingMonitor.config)
       (CopyTradingMonitor.setActivePositions
          m.(CopyTradingMonitor.stats)
          (fold_left
             (fun sum positions => (sum + Z.of_nat (JSMap.size positions))%Z)
             (JSMap.values
                (JSMap.set m.(CopyTradingMonitor.targetPositions) t current))
             0%Z))
       (match JSMap.get m.(CopyTradingMonitor.executedPositions) t with
        | Some s => JSMap.set m.(CopyTradingMonitor.executedPositions) t s
        | None => m.(CopyTradingMonitor.executedPositions)
        end)
       (JSMap.set m.(CopyTradingMonitor.targetPositions) t current),
     w, []).
Proof.
  intros current Hsame. unfold CopyTradingMonitor.handleStatusUpdate.
  fold current.
  destruct (same_identifiers_quiet current (Spec.lastPositions m t)
              (Spec.inFlight m t) Hsame) as [Hnew Hclosed].
  unfold Spec.lastPositions, Spec.inFlight in Hnew, Hclosed.
  rewrite Hnew, Hclosed. simpl.
  destruct (JSMap.get (CopyTradingMonitor.executedPositions m) t);
    reflexivity.
Qed.

(** X17.  Only openings and closings are copied.  An update whose status
    has the identifiers that are remembered for the trader executes
    nothing, whatever has become of the quantities, prices and values of
    the positions; it only replaces the remembered positions. *)
Theorem resize_is_not_copied (m : CopyTradingMonitor.t) (w : World)
    (status : TradingStatus) (t : string) m' w' done :
  (forall k, JSMap.has (CopyTradingMonitor.currentPositionsOf status) k
             = JSMap.has (Spec.lastPositions m t) k) ->
  CopyTradingMonitor.handleStatusUpdate env m w status t = (m', w', done) ->
  done = [] /\ w' = w
  /\ Spec.inFlight m' t = Spec.inFlight m t
  /\ Spec.lastPositions m' t = CopyTradingMonitor.currentPositionsOf status
  /\ CopyTradingStatus.totalTradesExecuted m'.(CopyTradingMonitor.stats)
     = CopyTradingStatus.totalTradesExecuted m.(CopyTradingMonitor.stats)
  /\ CopyTradingStatus.totalTradesFailed m'.(CopyTradingMonitor.stats)
     = CopyTradingStatus.totalTradesFailed m.(CopyTradingMonitor.stats)
  /\ CopyTradingStatus.totalVolume m'.(CopyTradingMonitor.stats)
     = CopyTradingStatus.totalVolume m.(CopyTradingMonitor.stats).
Proof.
  intros Hsame Hrun. rewrite handleStatusUpdate_quiet in Hrun by exact Hsame.
  injection Hrun as <- <- <-.
  split; [reflexivity | ]. split; [reflexivity | ]. split.
  { unfold Spec.inFlight. simpl.
    destruct (JSMap.get (CopyTradingMonitor.executedPositions m) t) eqn:Hg.
    - now rewrite JSMapFacts.get_set_same.
    - now rewrite Hg. }
  split.
  { unfold Spec.lastPositions. simpl.
    now rewrite JSMapFacts.get_set_same. }
  repeat split.
Qed.

(** X18.  Delivering a status again, once the call for its first
    delivery has returned and with no other call under way, changes
    nothing: the second update
    executes nothing and leaves the monitor and the world as the first
    one left them, also when the first one had failures. *)
Theorem redelivery_is_noop (m : CopyTradingMonitor.t) (w : World)
    (status : TradingStatus) (t : string) m1 w1 done1 :
  CopyTradingMonitor.handleStatusUpdate env m w status t = (m1, w1, done1) ->
  CopyTradingMonitor.handleStatusUpdate env m1 w1 status t = (m1, w1, []).
Proof.
  intros Hrun.
  destruct (handleStatusUpdate_spec env m w status t m1 w1 done1 Hrun)
    as (_ & _ & _ & _ & _ & Hlast & _).
  rewrite handleStatusUpdate_quiet by (intros k; now rewrite Hlast).
  f_equal. f_equal.
  unfold CopyTradingMonitor.handleStatusUpdate in Hrun.
  injection Hrun as <- _ _. simpl.
  set (current := CopyTradingMonitor.currentPositionsOf status).
  rewrite set_set_same. f_equal.
  destruct (JSMap.get (CopyTradingMonitor.executedPositions m) t) eqn:Hg.
  - rewrite JSMapFacts.get_set_same. apply set_set_same.
  - now rewrite Hg.
Qed.

End OrchestratorFrame.

(** ** The orchestrator on more concrete inputs *)

Section OrchestratorFrameExamples.
#[local] Existing Instance JSNumber.numberOps.
Import Sample.

(** X13, witness: two traders, an update for each. *)
Lemma constructor_invariant_witness :
  let p := aPosition "tok1" "100" "0.5" "50" in
  match
    CopyTradingMonitor.constructor aWallet ["0xa"; "0xb"] (aConfig true)
  with
  | Normal m0 =>
      let m :=
        fst (fst (Updates.deliver accepting m0 (aWorld false [])
                    [(aStatus [p] "50", "0xa"); (aStatus [] "0", "0xb")])) in
      Spec.registered m "0xb" /\ Spec.wellKeyed m "0xa"
  | Throw _ => False
  end.
Proof.
  intros p.
  destruct (CopyTradingMonitor.constructor aWallet ["0xa"; "0xb"]
                                           (aConfig true))
    as [m0 | message] eqn:Hnew; [ | discriminate].
  destruct (Updates.deliver accepting m0 (aWorld false [])
              [(aStatus [p] "50", "0xa"); (aStatus [] "0", "0xb")])
    as [[m w'] done] eqn:Hrun.
  destruct (constructor_invariant accepting aWallet ["0xa"; "0xb"]
              (aConfig true) m0 (aWorld false []) _ m w' done Hnew Hrun)
    as (_ & _ & Hreg & Hk & _).
  simpl. split; [apply Hreg; right; now left | apply Hk].
Defined.

(** X14, witness: a buy that succeeds and one that is below the minimum. *)
Lemma stats_count_executions_witness :
  let p := aPosition "tok1" "100" "0.5" "50" in
  let small := aPosition "tok2" "1" "0.5" "0.5" in
  let m :=
    fst (fst (Updates.deliver accepting (aMonitor (aConfig true))
                (aWorld false []) [(aStatus [p; small] "50.5", trader)])) in
  CopyTradingStatus.totalTradesExecuted (CopyTradingMonitor.stats m) = 1%Z
  /\ CopyTradingStatus.totalTradesFailed (CopyTradingMonitor.stats m) = 1%Z.
Proof.
  intros p small.
  destruct (Updates.deliver accepting (aMonitor (aConfig true))
              (aWorld false []) [(aStatus [p; small] "50.5", trader)])
    as [[m w'] done] eqn:Hrun.
  destruct (stats_count_executions accepting (aMonitor (aConfig true))
              (aWorld false []) _ m w' done Hrun) as (He & Hf & _).
  simpl. rewrite He, Hf.
  vm_compute in Hrun. injection Hrun as _ _ <-. split; reflexivity.
Defined.

(** X15, witness: an update for another trader. *)
Lemma traders_isolated_witness :
  let p := aPosition "tok1" "100" "0.5" "50" in
  let m' :=
    fst (fst (CopyTradingMonitor.handleStatusUpdate
                accepting (aMonitor (aConfig true)) (aWorld false [])
                (aStatus [p] "50") "0xother")) in
  JSMap.get m'.(CopyTradingMonitor.executedPositions) trader
  = Some JSSet.empty.
Proof.
  intros p.
  destruct (CopyTradingMonitor.handleStatusUpdate
              accepting (aMonitor (aConfig true)) (aWorld false [])
              (aStatus [p] "50") "0xother") as [[m' w'] done] eqn:Hrun.
  destruct (traders_isolated accepting (aMonitor (aConfig true))
              (aWorld false []) (aStatus [p] "50") "0xother" trader
              m' w' done) as (_ & He & _); [discriminate | exact Hrun | ].
  simpl. rewrite He. reflexivity.
Defined.

(** X16, witness: the identifier listed twice, with 100 and with 300
    units. *)
Lemma repeated_identifier_last_wins_witness :
  let first := aPosition "tok1" "100" "0.5" "50" in
  let second := aPosition "tok1" "300" "0.5" "150" in
  let done :=
    snd (CopyTradingMonitor.handleStatusUpdate
           accepting (aMonitor (aConfig true)) (aWorld false [])
           (aStatus [first; second] "200") trader) in
  map (fun e => (snd e).(position)) done = [second].
Proof.
  intros first second.
  destruct (CopyTradingMonitor.handleStatusUpdate
              accepting (aMonitor (aConfig true)) (aWorld false [])
              (aStatus [first; second] "200") trader)
    as [[m' w'] done] eqn:Hrun.
  destruct (repeated_identifier_last_wins accepting (aMonitor (aConfig true))
              (aWorld false []) (aStatus [first; second] "200") trader
              m' w' done Hrun) as (_ & Hlast & _).
  simpl.
  assert (Hshape : map (fun e => (fst e, Spec.subjectId e)) done
                   = [(buy, "tok1")]).
  { vm_compute in Hrun. injection Hrun as _ _ <-. reflexivity. }
  destruct done as [ | e [ | ? ?]]; try discriminate.
  injection Hshape as Hside Hid.
  specialize (Hlast e (or_introl eq_refl) Hside). rewrite Hid in Hlast.
  unfold Updates.lastWith in Hlast. simpl in Hlast.
  injection Hlast as Hp. simpl. now rewrite <- Hp.
Defined.

(** X17, witness: the position goes from 100 to 300 units. *)
Lemma resize_is_not_copied_witness :
  let before := aPosition "tok1" "100" "0.5" "50" in
  let after := aPosition "tok1" "300" "0.5" "150" in
  let opened :=
    CopyTradingMonitor.handleStatusUpdate
      accepting (aMonitor (aConfig true)) (aWorld false [])
      (aStatus [before] "50") trader in
  snd (CopyTradingMonitor.handleStatusUpdate
         accepting (fst (fst opened)) (snd (fst opened))
         (aStatus [after] "150") trader)
  = [].
Proof.
  intros before after opened.
  destruct opened as [[m1 w1] done1] eqn:Hopen. cbn [fst snd].
  destruct (CopyTradingMonitor.handleStatusUpdate
              accepting m1 w1 (aStatus [after] "150") trader)
    as [[m2 w2] done2] eqn:Hrun.
  destruct (resize_is_not_copied accepting m1 w1 (aStatus [after] "150")
              trader m2 w2 done2) as (Hdone & _); [ | exact Hrun | exact Hdone].
  intros k. vm_compute in Hopen. injection Hopen as <- _ _. reflexivity.
Defined.

(** X18, witness: a status with a buy that fails, delivered twice. *)
Lemma redelivery_is_noop_witness :
  let small := aPosition "tok2" "1" "0.5" "0.5" in
  let first :=
    CopyTradingMonitor.handleStatusUpdate
      accepting (aMonitor (aConfig true)) (aWorld false [])
      (aStatus [small] "0.5") trader in
  Spec.failures (snd first) = 1
  /\ snd (CopyTradingMonitor.handleStatusUpdate
            accepting (fst (fst first)) (snd (fst first))
            (aStatus [small] "0.5") trader)
     = [].
Proof.
  intros small first.
  destruct first as [[m1 w1] done1] eqn:Hfirst. cbn [fst snd].
  rewrite (redelivery_is_noop accepting (aMonitor (aConfig true))
             (aWorld false []) (aStatus [small] "0.5") trader m1 w1 done1
             Hfirst).
  split; [ | reflexivity].
  vm_compute in Hfirst. injection Hfirst as _ _ <-. reflexivity.
Defined.

End OrchestratorFrameExamples.

(** ** A number against itself *)

Module SelfFacts.

(** [x - x] is [+0], or [NaN] when [x] is not finite. *)
Lemma sub_diag (x : float) :
  Prim2SF (x - x) = S754_nan \/ Prim2SF (x - x) = S754_zero false.
Proof.
  rewrite sub_spec. unfold SF64sub, SFsub.
  destruct (Prim2SF x) as [[ | ] | [ | ] | | s m e]; auto.
  right. rewrite Z.sub_diag. reflexivity.
Qed.

Lemma abs_sub_diag (x : float) :
  Prim2SF (abs (x - x)) = S754_nan
  \/ Prim2SF (abs (x - x)) = S754_zero false.
Proof.
  rewrite abs_spec. destruct (sub_diag x) as [-> | ->]; auto.
Qed.

(** Nothing at or above 1 is below [+0]. *)
Lemma above_one_not_negative (y : float) :
  (1 <? y)%float = true -> (y <? 0)%float = false.
Proof.
  rewrite !ltb_spec. unfold SFltb.
  change (Prim2SF 1) with (S754_finite false 4503599627370496 (-52)).
  change (Prim2SF 0) with (S754_zero false).
  destruct (Prim2SF y) as [[ | ] | [ | ] | | [ | ] m e]; simpl;
    try discriminate; try reflexivity.
Qed.

Lemma max_one_not_negative (y : float) :
  (Math.max 1 y <? 0)%float = false.
Proof.
  unfold Math.max.
  destruct (is_nan 1 || is_nan y)%bool; [apply FloatFacts.ltb_nan_l | ].
  destruct (1 <? y)%float eqn:Hy; [now apply above_one_not_negative | ].
  destruct (y <? 1)%float; [reflexivity | ].
  change (get_sign 1) with false. reflexivity.
Qed.

(** The quantity test of the change detector, on one quantity. *)
Lemma quantity_unchanged (q : float) :
  JS.gt (Math.abs (q - q)) (Math.max 1 (q * 0.01)) = false.
Proof.
  unfold JS.gt, Math.abs.
  destruct (abs_sub_diag q) as [Hn | Hz].
  - apply NumberFacts.ltb_nan_r. now apply NumberFacts.is_nan_Prim2SF.
  - assert (Hzero : abs (q - q) = 0%float).
    { apply Prim2SF_inj. now rewrite Hz. }
    rewrite Hzero. apply max_one_not_negative.
Qed.

(** The total-value test of the change detector, on one value. *)
Lemma value_unchanged (v : float) :
  JS.gt (Math.abs (v - v) / Math.max v 0.01) 0.01 = false.
Proof.
  unfold JS.gt, Math.abs. rewrite ltb_spec, div_spec. unfold SFltb.
  change (Prim2SF 0.01)
    with (S754_finite false 5764607523034235 (-59)).
  destruct (abs_sub_diag v) as [-> | ->].
  - reflexivity.
  - simpl. destruct (Prim2SF (Math.max v 0.01)) as [s | s | | s m e];
      reflexivity.
Qed.

End SelfFacts.

(* ================================================================== *)
(** * Properties of the account monitor *)
(* ================================================================== *)

Lemma get_fold_set_with {V : Type} (f : string -> V)
    (addresses : list string) :
  forall (m : JSMap.t V) (k : string),
    JSMap.get (fold_left (fun m a => JSMap.set m a (f a)) addresses m) k
    = if existsb (String.eqb k) addresses then Some (f k) else JSMap.get m k.
Proof.
  induction addresses as [ | a addresses IH]; simpl; intros m k;
    [reflexivity | ].
  rewrite IH. destruct (existsb (String.eqb k) addresses);
    [now rewrite orb_true_r | ].
  rewrite orb_false_r. destruct (String.eqb k a) eqn:Hk.
  - apply String.eqb_eq in Hk. subst a. apply JSMapFacts.get_set_same.
  - apply JSMapFacts.get_set_other. intros ->.
    rewrite String.eqb_refl in Hk. discriminate.
Qed.

(** What the constructor builds. *)
Lemma constructor_fields (options : MonitorOptions.t)
    (mon0 : AccountMonitorClass.t) :
  AccountMonitorClass.constructor options = Normal mon0 ->
  mon0
  = AccountMonitorClass.mk
      (AccountMonitorClass.pollIntervalOr
         options.(MonitorOptions.pollInterval))
      (TradeExecutor.orDefault options.(MonitorOptions.enableWebSocket) false)
      options.(MonitorOptions.targetAddresses)
      JSMap.empty false
      (fold_left
         (fun m address =>
            JSMap.set m address (TraderStatus.mk address None 0))
         options.(MonitorOptions.targetAddresses) JSMap.empty)
      [] 0.
Proof.
  unfold AccountMonitorClass.constructor.
  destruct (MonitorOptions.targetAddresses options); [discriminate | ].
  now intros [= <-].
Qed.

Section Poller.
Context `{NumberOps}.

(** X19.  A status with the positions and the total value of the last
    one is no change, whatever the numbers are and whether they parse or
    not. *)
Theorem unchanged_status_is_quiet (current last : TradingStatus) :
  openPositions current = openPositions last ->
  totalValue current = totalValue last ->
  AccountMonitor.detectChanges current (Some last) = false.
Proof.
  intros Hp Hv.
  assert (Hmap : AccountMonitor.positionsMap current
                 = AccountMonitor.positionsMap last)
    by (unfold AccountMonitor.positionsMap; now rewrite Hp).
  rewrite detectChanges_same_positions.
  - unfold AccountMonitor.totalValueChanged. rewrite Hv.
    apply SelfFacts.value_unchanged.
  - now rewrite Hp.
  - intros k. now rewrite Hmap.
  - intros k currentPos lastPos Hc Hl. rewrite Hmap in Hc.
    rewrite Hc in Hl. injection Hl as <-.
    apply SelfFacts.quantity_unchanged.
Qed.

Lemma last_default {A : Type} (l : list A) (a d d' : A) :
  last (a :: l) d = last (a :: l) d'.
Proof.
  revert a. induction l as [ | b l IH]; intros a; [reflexivity | ].
  change (last (b :: l) d = last (b :: l) d'). apply IH.
Qed.

Lemma eachChanged_app (previous : option TradingStatus)
    (l : list TradingStatus) (s : TradingStatus) :
  Polling.eachChanged previous (l ++ [s])
  = (Polling.eachChanged previous l
     && AccountMonitor.detectChanges s (last (map Some l) previous))%bool.
Proof.
  revert previous. induction l as [ | a l IH]; intros previous; simpl.
  - now rewrite andb_true_r.
  - rewrite IH, andb_assoc. destruct l as [ | b l]; [reflexivity | ].
    simpl map. now rewrite (last_default _ _ (Some a) previous).
Qed.

Lemma last_app_one {A : Type} (l : list A) (a d : A) : last (l ++ [a]) d = a.
Proof.
  induction l as [ | b l IH]; simpl; [reflexivity | ].
  rewrite IH. destruct (l ++ [a]) eqn:Hl; [ | reflexivity].
  destruct l; discriminate.
Qed.

(** One poll, with callbacks that record the notifications. *)
Lemma updateStatus_recording (fetched : Completion UserPositions.t)
    (now t : string) (mon : AccountMonitorClass.t) (log : Polling.Log)
    (ts : TraderStatus.t) :
  AccountMonitorClass.getTraderStatus mon t = Some ts ->
  let status := AccountMonitorClass.getStatus fetched now t in
  AccountMonitorClass.updateStatus Polling.recording fetched now t mon log
  = if AccountMonitor.detectChanges status ts.(TraderStatus.lastStatus)
    then (AccountMonitorClass.setTraderStatus mon t
            (TraderStatus.mk ts.(TraderStatus.address) (Some status) 0),
          log ++ [(status, t)])
    else (mon, log).
Proof.
  intros Hget status.
  unfold AccountMonitorClass.getTraderStatus in Hget.
  unfold AccountMonitorClass.updateStatus. rewrite Hget. fold status.
  destruct (TraderStatus.lastStatus ts) as [last | ]; simpl.
  - rewrite orb_false_r. reflexivity.
  - reflexivity.
Qed.

(** X20.  The reference of the change detector is the status notified
    last, not the status polled last.  From the constructor on, with
    callbacks that do not throw: the first poll of an address is always
    notified, also when its fetch failed; every notified status is a
    change from the one notified before it; [lastStatus] is the status
    notified last; and [errorCount] stays 0, whatever the fetches do. *)
Theorem notified_on_change_only (options : MonitorOptions.t)
    (mon0 : AccountMonitorClass.t) (t : string)
    (polls : list AccountMonitorClass.Poll) mon log :
  AccountMonitorClass.constructor options = Normal mon0 ->
  In t options.(MonitorOptions.targetAddresses) ->
  AccountMonitorClass.updateStatuses Polling.recording polls t mon0 []
  = (mon, log) ->
  exists ts,
    AccountMonitorClass.getTraderStatus mon t = Some ts
    /\ ts.(TraderStatus.lastStatus) = last (map Some (map fst log)) None
    /\ ts.(TraderStatus.errorCount) = 0%Z
    /\ Polling.eachChanged None (map fst log) = true
    /\ (forall p rest,
           polls = p :: rest ->
           exists later,
             log = (AccountMonitorClass.getStatus (fst p) (snd p) t, t)
                   :: later).
Proof.
  intros Hnew Hin Hrun.
  assert (Hinit : AccountMonitorClass.getTraderStatus mon0 t
                  = Some (TraderStatus.mk t None 0)).
  { rewrite (constructor_fields options mon0 Hnew).
    unfold AccountMonitorClass.getTraderStatus.
    cbn [AccountMonitorClass.traderStatuses].
    rewrite (get_fold_set_with (fun address => TraderStatus.mk address None 0)).
    assert (Hex : existsb (String.eqb t)
                          (MonitorOptions.targetAddresses options) = true).
    { apply existsb_exists. exists t. split; [exact Hin | ].
      apply String.eqb_refl. }
    now rewrite Hex. }
  assert (Hgen : forall polls mon0 log0 mon log ts0,
             AccountMonitorClass.getTraderStatus mon0 t = Some ts0 ->
             ts0.(TraderStatus.lastStatus)
             = last (map Some (map fst log0)) None ->
             ts0.(TraderStatus.errorCount) = 0%Z ->
             Polling.eachChanged None (map fst log0) = true ->
             AccountMonitorClass.updateStatuses Polling.recording polls t
               mon0 log0 = (mon, log) ->
             exists ts added,
               AccountMonitorClass.getTraderStatus mon t = Some ts
               /\ ts.(TraderStatus.lastStatus)
                  = last (map Some (map fst log)) None
               /\ ts.(TraderStatus.errorCount) = 0%Z
               /\ Polling.eachChanged None (map fst log) = true
               /\ log = log0 ++ added
               /\ (forall p rest,
                      polls = p :: rest ->
                      ts0.(TraderStatus.lastStatus) = None ->
                      exists later,
                        added
                        = (AccountMonitorClass.getStatus (fst p) (snd p) t, t)
                          :: later)).
  { clear. induction polls as [ | [fetched now] polls IH];
      intros mon0 log0 mon log ts0 Hget Hlast Herr Hchain Hrun.
    - injection Hrun as <- <-. exists ts0, [].
      rewrite app_nil_r. repeat split; auto. discriminate.
    - cbn [AccountMonitorClass.updateStatuses] in Hrun.
      rewrite (updateStatus_recording fetched now t mon0 log0 ts0 Hget)
        in Hrun.
      cbv zeta in Hrun.
      set (status := AccountMonitorClass.getStatus fetched now t) in *.
      destruct (AccountMonitor.detectChanges status
                  (TraderStatus.lastStatus ts0)) eqn:Hchanged.
      + destruct (IH (AccountMonitorClass.setTraderStatus mon0 t
                        (TraderStatus.mk (TraderStatus.address ts0)
                                         (Some status) 0))
                    (log0 ++ [(status, t)]) mon log
                    (TraderStatus.mk (TraderStatus.address ts0) (Some status) 0))
          as (ts & added & Hg & Hl & He & Hc & Hlog & _);
          [ | | | | exact Hrun | ].
        * unfold AccountMonitorClass.getTraderStatus,
            AccountMonitorClass.setTraderStatus. simpl.
          apply JSMapFacts.get_set_same.
        * cbn [TraderStatus.lastStatus]. rewrite !map_app. cbn [map fst].
          now rewrite last_app_one.
        * reflexivity.
        * rewrite map_app. cbn [map fst]. rewrite eachChanged_app, Hchain.
          cbn [andb]. now rewrite <- Hlast.
        * exists ts, ((status, t) :: added).
          split; [exact Hg | ]. split; [exact Hl | ]. split; [exact He | ].
          split; [exact Hc | ]. split.
          { rewrite Hlog, <- app_assoc. reflexivity. }
          intros p rest [= <- <-] _. now exists added.
      + destruct (IH _ _ mon log ts0 Hget Hlast Herr Hchain Hrun)
          as (ts & added & Hg & Hl & He & Hc & Hlog & _).
        exists ts, added. repeat split; auto.
        intros p rest _ Hnone. rewrite Hnone in Hchanged. discriminate. }
  destruct (Hgen polls mon0 [] mon log _ Hinit eq_refl eq_refl eq_refl Hrun)
    as (ts & added & Hg & Hl & He & Hc & Hlog & Hfirst).
  exists ts. repeat split; auto.
  intros p rest Hp. destruct (Hfirst p rest Hp eq_refl) as [later Hl'].
  exists later. now rewrite Hlog, Hl'.
Qed.

End Poller.

Section MonitorAndOrchestrator.
Context `{NumberOps}.
Variable env : Env.

(** X21.  A failed fetch is read as an empty portfolio.  When the last
    notified status of a trader had positions and the fetch of the next
    poll is rejected, the poll counts no error: it notifies a status
    without positions, and the orchestrator, when enabled, sells every
    position it remembers and has executed for the trader, and
    remembers none. *)
Theorem fetch_failure_closes_positions
    (userOnUpdate : option (TradingStatus -> string -> Completion unit))
    (mon : AccountMonitorClass.t) (m : CopyTradingMonitor.t) (w : World)
    (done0 : list CopyTradingMonitor.Execution) (t : string)
    (ts : TraderStatus.t) (last : TradingStatus) (reason now : string)
    mon' m' w' done :
  AccountMonitorClass.getTraderStatus mon t = Some ts ->
  ts.(TraderStatus.lastStatus) = Some last ->
  openPositions last <> [] ->
  (forall f status address,
      userOnUpdate = Some f -> f status address = Normal tt) ->
  m.(CopyTradingMonitor.config).(CopyTradingConfig.enabled) = true ->
  Spec.wellKeyed m t ->
  AccountMonitorClass.updateStatus (Bot.callbacks env userOnUpdate)
    (Throw reason) now t mon (m, w, done0)
  = (mon', (m', w', done)) ->
  exists sold,
    done = done0 ++ sold
    /\ (forall e, In e sold -> fst e = sell)
    /\ (forall k,
           JSMap.has (Spec.lastPositions m t) k = true ->
           JSSet.has (Spec.inFlight m t) k = true ->
           exists e, In e sold /\ Spec.about k e = true)
    /\ Spec.lastPositions m' t = JSMap.empty
    /\ AccountMonitorClass.getTraderStatus mon' t
       = Some (TraderStatus.mk ts.(TraderStatus.address)
                               (Some (Polling.emptyStatus t now)) 0).
Proof.
  intros Hget Hlast Hpos Huser Henabled Hkeyed Hrun.
  unfold AccountMonitorClass.getTraderStatus in Hget.
  unfold AccountMonitorClass.updateStatus in Hrun. rewrite Hget, Hlast in Hrun.
  change (AccountMonitorClass.getStatus (Throw reason) now t)
    with (Polling.emptyStatus t now) in Hrun.
  assert (Hchanged : AccountMonitor.detectChanges (Polling.emptyStatus t now)
                                                  (Some last) = true).
  { unfold AccountMonitor.detectChanges. simpl.
    destruct (openPositions last); [contradiction | reflexivity]. }
  rewrite Hchanged in Hrun. cbn [orb] in Hrun.
  unfold Bot.callbacks in Hrun. cbn [AccountMonitorClass.onUpdate] in Hrun.
  assert (Hu : match userOnUpdate with
               | Some f => f (Polling.emptyStatus t now) t
               | None => Normal tt
               end = Normal tt).
  { destruct userOnUpdate as [f | ]; [now apply Huser | reflexivity]. }
  rewrite Hu in Hrun.
  unfold CopyTradingMonitor.onUpdate in Hrun. rewrite Henabled in Hrun.
  destruct (CopyTradingMonitor.handleStatusUpdate env m w
              (Polling.emptyStatus t now) t) as [[m1 w1] sold] eqn:Hupdate.
  injection Hrun as <- <- <- <-.
  pose proof (handleStatusUpdate_executions env m w _ t m1 w1 sold Hupdate)
    as Hsub.
  change (CopyTradingMonitor.currentPositionsOf (Polling.emptyStatus t now))
    with (@JSMap.empty Position) in Hsub.
  change (CopyTradingMonitor.newPositionsOf JSMap.empty
            (Spec.lastPositions m t) (Spec.inFlight m t))
    with (@nil Position) in Hsub.
  simpl app in Hsub.
  exists sold. split; [reflexivity | ]. split; [ | split; [ | split]].
  - intros e Hin. now destruct (subject_side _ _ _ Hsub e Hin).
  - intros k Hl He.
    destruct (closedPositionsOf_complete JSMap.empty (Spec.lastPositions m t)
                (Spec.inFlight m t) k) as (p & Hin & Hid);
      [apply Hkeyed | exact Hl | reflexivity | exact He | ].
    apply (in_map (pair sell)) in Hin. rewrite <- Hsub in Hin.
    apply in_map_iff in Hin. destruct Hin as (e & Hs & Hin).
    exists e. split; [exact Hin | ].
    unfold Spec.subject in Hs. injection Hs as _ Hp.
    unfold Spec.about. rewrite Hp, Hid. apply String.eqb_refl.
  - destruct (handleStatusUpdate_spec env m w _ t m1 w1 sold Hupdate)
      as (_ & _ & _ & _ & _ & -> & _). reflexivity.
  - unfold AccountMonitorClass.getTraderStatus,
      AccountMonitorClass.setTraderStatus. simpl.
    apply JSMapFacts.get_set_same.
Qed.

End MonitorAndOrchestrator.

(** ** The intervals of the account monitor *)

Lemma In_set_inv {V : Type} (m : JSMap.t V) (k k' : string) (v v' : V) :
  In (k', v') (JSMap.set m k v) -> (k', v') = (k, v) \/ In (k', v') m.
Proof.
  induction m as [ | [k0 v0] m IH]; simpl.
  - intros [Heq | []]. left. now symmetry.
  - destruct (String.eqb_spec k0 k) as [-> | Hne]; simpl.
    + intros [Heq | Hin]; [left; now symmetry | right; now right].
    + intros [Heq | Hin]; [right; now left | ].
      destruct (IH Hin) as [Heq | Hin']; [now left | right; now right].
Qed.

Lemma In_set_same {V : Type} (m : JSMap.t V) (k : string) (v : V) :
  In (k, v) (JSMap.set m k v).
Proof.
  induction m as [ | [k0 v0] m IH]; simpl; [now left | ].
  destruct (String.eqb_spec k0 k) as [-> | Hne]; simpl; [now left | now right].
Qed.

Lemma In_set_other {V : Type} (m : JSMap.t V) (k k' : string) (v v' : V) :
  k' <> k -> In (k', v') m -> In (k', v') (JSMap.set m k v).
Proof.
  intros Hne. induction m as [ | [k0 v0] m IH]; simpl; [tauto | ].
  destruct (String.eqb_spec k0 k) as [-> | Hne0]; simpl.
  - intros [[= <- <-] | Hin]; [congruence | now right].
  - intros [Heq | Hin]; [now left | right; auto].
Qed.

(** [clearInterval] for each identifier of a list. *)
Lemma clearIntervals_spec (ids : list nat) (running : list (nat * string)) :
  fold_left AccountMonitorClass.clearInterval ids running
  = filter (fun interval => negb (existsb (Nat.eqb (fst interval)) ids))
           running.
Proof.
  revert running. induction ids as [ | i ids IH]; intros running; simpl.
  - symmetry. apply forallb_filter_id. now apply forallb_forall.
  - rewrite IH. unfold AccountMonitorClass.clearInterval.
    induction running as [ | [j a] running IHr]; simpl; [reflexivity | ].
    destruct (Nat.eqb j i) eqn:Hji; simpl.
    + exact IHr.
    + destruct (existsb (Nat.eqb j) ids); simpl; [exact IHr | now f_equal].
Qed.

Lemma filter_nil_iff {A : Type} (f : A -> bool) (l : list A) :
  filter f l = [] <-> forall x, In x l -> f x = false.
Proof.
  induction l as [ | a l IH]; simpl.
  - split; [intros _ x [] | reflexivity].
  - destruct (f a) eqn:Hfa.
    + split; [discriminate | ].
      intros Hall. rewrite (Hall a) in Hfa; [discriminate | now left].
    + rewrite IH. split.
      * intros Hall x [<- | Hin]; auto.
      * intros Hall x Hin. apply Hall. now right.
Qed.

Section Intervals.
Context `{NumberOps}.

(** A poll leaves the intervals alone. *)
Lemma updateStatus_timers {St : Type}
    (callbacks : AccountMonitorClass.Callbacks St)
    (fetched : Completion UserPositions.t) (now address : string)
    (mon : AccountMonitorClass.t) (s : St) :
  let mon' :=
    fst (AccountMonitorClass.updateStatus callbacks fetched now address mon s)
  in
  mon'.(AccountMonitorClass.targetAddresses)
  = mon.(AccountMonitorClass.targetAddresses)
  /\ mon'.(AccountMonitorClass.pollIntervalIds)
     = mon.(AccountMonitorClass.pollIntervalIds)
  /\ mon'.(AccountMonitorClass.isMonitoring)
     = mon.(AccountMonitorClass.isMonitoring)
  /\ mon'.(AccountMonitorClass.intervals)
     = mon.(AccountMonitorClass.intervals)
  /\ mon'.(AccountMonitorClass.nextInterval)
     = mon.(AccountMonitorClass.nextInterval).
Proof.
  unfold AccountMonitorClass.updateStatus.
  destruct (JSMap.get _ address) as [ts | ]; [ | simpl; auto].
  destruct (_ || _)%bool; [ | simpl; auto].
  destruct (AccountMonitorClass.onUpdate _ _ _ _) as [[u | message] s'];
    simpl; auto.
Qed.

Lemma firstPolls_timers {St : Type}
    (callbacks : AccountMonitorClass.Callbacks St)
    (fetch : string -> AccountMonitorClass.Poll) (addresses : list string)
    (mon : AccountMonitorClass.t) (s : St) :
  let mon' :=
    fst (fold_left
           (fun (acc : AccountMonitorClass.t * St) address =>
              AccountMonitorClass.updateStatus
                callbacks (fst (fetch address)) (snd (fetch address))
                address (fst acc) (snd acc))
           addresses (mon, s))
  in
  mon'.(AccountMonitorClass.targetAddresses)
  = mon.(AccountMonitorClass.targetAddresses)
  /\ mon'.(AccountMonitorClass.pollIntervalIds)
     = mon.(AccountMonitorClass.pollIntervalIds)
  /\ mon'.(AccountMonitorClass.isMonitoring)
     = mon.(AccountMonitorClass.isMonitoring)
  /\ mon'.(AccountMonitorClass.intervals)
     = mon.(AccountMonitorClass.intervals)
  /\ mon'.(AccountMonitorClass.nextInterval)
     = mon.(AccountMonitorClass.nextInterval).
Proof.
  revert mon s. induction addresses as [ | a addresses IH]; intros mon s.
  - simpl. auto.
  - cbn [fold_left fst snd].
    pose proof (updateStatus_timers callbacks (fst (fetch a)) (snd (fetch a))
                  a mon s) as Hstep.
    destruct (AccountMonitorClass.updateStatus _ _ _ a mon s) as [mon1 s1].
    cbn [fst] in Hstep. destruct Hstep as (H1 & H2 & H3 & H4 & H5).
    specialize (IH mon1 s1). cbv zeta in IH |- *.
    destruct IH as (I1 & I2 & I3 & I4 & I5).
    repeat split; congruence.
Qed.

(** Setting up the interval of one more address keeps the intervals
    consistent. *)
Lemma startPolling_consistent (mon : AccountMonitorClass.t) (a : string) :
  Timers.consistent mon ->
  Timers.consistent (AccountMonitorClass.startPolling mon a).
Proof.
  intros (Hids & Hbelow & Hfresh & Hkeys & Hback).
  unfold Timers.consistent, AccountMonitorClass.startPolling. simpl.
  split; [ | split; [ | split; [ | split]]].
  - intros k i Hin. apply in_or_app.
    destruct (In_set_inv _ _ _ _ _ Hin) as [[= -> ->] | Hold].
    + right. now left.
    + left. auto.
  - intros interval Hin. apply in_app_or in Hin.
    destruct Hin as [Hin | [<- | []]]; [ | simpl; lia].
    specialize (Hbelow _ Hin). lia.
  - rewrite map_app. simpl. apply NoDup_app; [exact Hfresh | | ].
    + constructor; [intros [] | constructor].
    + intros i Hin [<- | []].
      apply in_map_iff in Hin. destruct Hin as (interval & Hfst & Hin).
      specialize (Hbelow _ Hin). lia.
  - apply JSMapFacts.keys_set_NoDup. exact Hkeys.
  - rewrite map_app. simpl. intros Hnd interval Hin.
    apply NoDup_app_remove_r in Hnd as Hnd'.
    apply in_app_or in Hin. destruct Hin as [Hin | [<- | []]].
    + apply In_set_other; [ | now apply Hback].
      intros Heq. apply NoDup_remove_2 in Hnd. apply Hnd.
      rewrite app_nil_r. rewrite <- Heq. apply in_map. exact Hin.
    + simpl. apply In_set_same.
Qed.

Lemma startPolling_fold (addresses : list string)
    (mon : AccountMonitorClass.t) :
  Timers.consistent mon ->
  let mon' := fold_left AccountMonitorClass.startPolling addresses mon in
  Timers.consistent mon'
  /\ map snd mon'.(AccountMonitorClass.intervals)
     = map snd mon.(AccountMonitorClass.intervals) ++ addresses
  /\ mon'.(AccountMonitorClass.isMonitoring)
     = mon.(AccountMonitorClass.isMonitoring)
  /\ mon'.(AccountMonitorClass.traderStatuses)
     = mon.(AccountMonitorClass.traderStatuses)
  /\ mon'.(AccountMonitorClass.targetAddresses)
     = mon.(AccountMonitorClass.targetAddresses).
Proof.
  revert mon. induction addresses as [ | a addresses IH]; intros mon Hc.
  - simpl. rewrite app_nil_r. auto.
  - cbn [fold_left]. cbv zeta.
    destruct (IH _ (startPolling_consistent mon a Hc))
      as (Hc' & Hsnd & Hmon & Hts & Hta).
    split; [exact Hc' | ]. rewrite Hsnd, Hmon, Hts, Hta.
    unfold AccountMonitorClass.startPolling. simpl.
    rewrite map_app, <- app_assoc. simpl. auto.
Qed.

(** With consistent intervals, [stop()] clears all of them exactly when
    no two of them poll the same address. *)
Lemma stop_consistent (mon : AccountMonitorClass.t) :
  Timers.consistent mon ->
  mon.(AccountMonitorClass.isMonitoring) = true ->
  ((AccountMonitorClass.stop mon).(AccountMonitorClass.intervals) = []
   <-> NoDup (map snd mon.(AccountMonitorClass.intervals))).
Proof.
  intros (Hids & Hbelow & Hfresh & Hkeys & Hback) Hrun.
  unfold AccountMonitorClass.stop. rewrite Hrun. simpl.
  rewrite clearIntervals_spec, filter_nil_iff.
  assert (Hknown : forall interval,
             In interval mon.(AccountMonitorClass.intervals) ->
             (In (snd interval, fst interval)
                 mon.(AccountMonitorClass.pollIntervalIds)
              <-> negb (existsb (Nat.eqb (fst interval))
                          (JSMap.values
                             mon.(AccountMonitorClass.pollIntervalIds)))
                  = false)).
  { intros [i a] Hin. simpl. rewrite negb_false_iff, existsb_exists. split.
    - intros Hmap. exists i. split; [ | apply Nat.eqb_refl].
      unfold JSMap.values. apply in_map_iff. now exists (a, i).
    - intros (j & Hj & Heq). apply Nat.eqb_eq in Heq. subst j.
      unfold JSMap.values in Hj. apply in_map_iff in Hj.
      destruct Hj as ([k i'] & Hi' & Hmap). simpl in Hi'. subst i'.
      specialize (Hids _ _ Hmap).
      assert (k = a) as ->; [ | exact Hmap].
      clear - Hfresh Hids Hin.
      induction mon.(AccountMonitorClass.intervals) as [ | [j b] l IH];
        [destruct Hin | ].
      simpl in Hfresh. inversion Hfresh as [ | ? ? Hnotin Hnd]; subst.
      destruct Hin as [[= -> ->] | Hin], Hids as [[= ->] | Hids]; auto.
      + exfalso. apply Hnotin. apply in_map_iff. now exists (i, k).
      + exfalso. subst. apply Hnotin. apply in_map_iff. now exists (i, a).
  }
  split.
  - intros Hall.
    apply NoDup_incl_NoDup
      with (l := JSMap.keys mon.(AccountMonitorClass.pollIntervalIds));
      [exact Hkeys | | ].
    + rewrite length_map. unfold JSMap.keys. rewrite length_map.
      rewrite <- (length_map (fun kv : string * nat => (snd kv, fst kv))
                             mon.(AccountMonitorClass.pollIntervalIds)).
      apply NoDup_incl_length.
      * clear - Hfresh. induction mon.(AccountMonitorClass.intervals)
          as [ | [j b] l IH]; [constructor | ].
        simpl in Hfresh. inversion Hfresh as [ | ? ? Hnotin Hnd]; subst.
        constructor; [ | auto].
        intros Hin. apply Hnotin. apply in_map_iff. now exists (j, b).
      * intros [i a] Hin. apply in_map_iff. exists (a, i). split; [easy | ].
        apply (Hknown (i, a) Hin). now apply Hall.
    + intros k Hk. unfold JSMap.keys in Hk. apply in_map_iff in Hk.
      destruct Hk as ([k' i] & Hfst & Hmap). simpl in Hfst. subst k'.
      apply in_map_iff. exists (i, k). split; [easy | now apply Hids].
  - intros Hnd interval Hin. apply (Hknown _ Hin). now apply Hback.
Qed.


End Intervals.

(** ** The errors and the status of the health monitor *)

Lemma sliceLast_app_one {A : Type} (l : list A) (x : A) :
  HealthMonitor.sliceLast 20 (l ++ [x])
  = let errors := HealthMonitor.sliceLast 20 l ++ [x] in
    if (20 <? List.length errors)%nat
    then HealthMonitor.sliceLast 20 errors
    else errors.
Proof.
  unfold HealthMonitor.sliceLast. cbv zeta.
  rewrite !length_app, length_skipn. cbn [List.length].
  destruct (Nat.ltb_spec 20 (List.length l - (List.length l - 20) + 1))
    as [Hlong | Hshort].
  - rewrite !skipn_app, skipn_skipn, length_skipn.
    replace (List.length l - (List.length l - 20) + 1 - 20) with 1 by lia.
    replace (1 + (List.length l - 20)) with (List.length l + 1 - 20) by lia.
    f_equal. f_equal. lia.
  - replace (List.length l + 1 - 20) with 0 by lia.
    replace (List.length l - 20) with 0 by lia. reflexivity.
Qed.

Lemma sliceLast_length {A : Type} (l : list A) :
  List.length (HealthMonitor.sliceLast 20 l) = Nat.min 20 (List.length l).
Proof. unfold HealthMonitor.sliceLast. rewrite length_skipn. lia. Qed.

Lemma added_app (ops more : list Health.Op) :
  Health.added (ops ++ more) = Health.added ops ++ Health.added more.
Proof.
  induction ops as [ | op ops IH]; [reflexivity | ].
  destruct op; simpl; now rewrite IH.
Qed.

Lemma added_adding (errors : list HealthError.t) :
  Health.added (Health.adding errors) = errors.
Proof.
  induction errors as [ | [m ts] errors IH]; [reflexivity | ].
  simpl. now rewrite IH.
Qed.

(** What a step keeps: the wallet address, the RPC URL and the start
    time; and the errors, but for [addError]. *)
Lemma step_errors (hm : HealthMonitor.t) (op : Health.Op) :
  let hm' := Health.step hm op in
  hm'.(HealthMonitor.walletAddress) = hm.(HealthMonitor.walletAddress)
  /\ hm'.(HealthMonitor.rpcUrl) = hm.(HealthMonitor.rpcUrl)
  /\ hm'.(HealthMonitor.metrics).(HealthMetrics.errors)
     = match op with
       | Health.AddError message now =>
           let errors :=
             hm.(HealthMonitor.metrics).(HealthMetrics.errors)
             ++ [HealthError.mk message now] in
           if (20 <? List.length errors)%nat
           then HealthMonitor.sliceLast 20 errors
           else errors
       | _ => hm.(HealthMonitor.metrics).(HealthMetrics.errors)
       end.
Proof.
  destruct op as [message now | stats | now balance | now | now | balance];
    simpl; auto.
  - unfold HealthMonitor.updateMetrics, HealthMonitor.updateMetricsBegin.
    destruct (_ && _)%bool; destruct hm.(HealthMonitor.copyTradingStats);
      destruct balance; simpl; auto.
  - unfold HealthMonitor.getMetrics, HealthMonitor.updateMetricsBegin.
    destruct (_ && _)%bool; destruct hm.(HealthMonitor.copyTradingStats);
      simpl; auto.
  - unfold HealthMonitor.healthRoute, HealthMonitor.updateMetricsBegin.
    destruct (_ && _)%bool; destruct hm.(HealthMonitor.copyTradingStats);
      simpl; auto.
  - unfold HealthMonitor.updateMetricsResume. destruct balance; simpl; auto.
Qed.

Lemma run_errors (ops : list Health.Op) (hm : HealthMonitor.t)
    (prior : list HealthError.t) :
  hm.(HealthMonitor.metrics).(HealthMetrics.errors)
  = HealthMonitor.sliceLast 20 prior ->
  let hm' := Health.run ops hm in
  hm'.(HealthMonitor.walletAddress) = hm.(HealthMonitor.walletAddress)
  /\ hm'.(HealthMonitor.rpcUrl) = hm.(HealthMonitor.rpcUrl)
  /\ hm'.(HealthMonitor.metrics).(HealthMetrics.errors)
     = HealthMonitor.sliceLast 20 (prior ++ Health.added ops).
Proof.
  revert hm prior. induction ops as [ | op ops IH]; intros hm prior Hprior.
  - simpl. rewrite app_nil_r. auto.
  - cbv zeta. unfold Health.run. cbn [fold_left].
    destruct (step_errors hm op) as (Hw & Hr & He).
    assert (Hstep : exists prior',
               (Health.step hm op).(HealthMonitor.metrics)
                                   .(HealthMetrics.errors)
               = HealthMonitor.sliceLast 20 prior'
               /\ prior' ++ Health.added ops
                  = prior ++ Health.added (op :: ops)).
    { destruct op as [message now | | | | | ];
        try (exists prior; split; [now rewrite He | reflexivity]).
      exists (prior ++ [HealthError.mk message now]). split.
      - rewrite He, Hprior. symmetry. apply sliceLast_app_one.
      - simpl. now rewrite <- app_assoc. }
    destruct Hstep as (prior' & Hprior' & Happ).
    destruct (IH _ _ Hprior') as (Hw' & Hr' & He').
    unfold Health.run in Hw', Hr', He'.
    rewrite Hw', Hr', He', Hw, Hr, Happ. auto.
Qed.

Lemma constructor_fresh (wallet : string -> Completion string) (now : Z)
    (port : option Z) (privateKey rpcUrl : option string)
    (hm0 : HealthMonitor.t) :
  HealthMonitor.constructor wallet now port privateKey rpcUrl = Normal hm0 ->
  hm0.(HealthMonitor.metrics).(HealthMetrics.errors) = []
  /\ hm0.(HealthMonitor.metrics).(HealthMetrics.status)
     = HealthStatus.healthy
  /\ hm0.(HealthMonitor.rpcUrl) = rpcUrl.
Proof.
  unfold HealthMonitor.constructor.
  destruct privateKey as [key | ];
    [destruct (JS.truthy key); [destruct (wallet key) | ] | ];
    intros [= <-]; simpl; auto.
Qed.

Lemma updateMetrics_status (now : Z) (balance : Completion string)
    (hm : HealthMonitor.t) :
  (HealthMonitor.updateMetrics now balance hm)
    .(HealthMonitor.metrics).(HealthMetrics.status)
  = let count :=
      List.length hm.(HealthMonitor.metrics).(HealthMetrics.errors) in
    if (10 <? count)%nat then HealthStatus.unhealthy
    else if (5 <? count)%nat then HealthStatus.degraded
    else HealthStatus.healthy.
Proof.
  unfold HealthMonitor.updateMetrics, HealthMonitor.updateMetricsBegin.
  destruct (_ && _)%bool; destruct hm.(HealthMonitor.copyTradingStats);
    destruct balance; reflexivity.
Qed.

Section HealthFacts.
Variable wallet : string -> Completion string.
Variables (now0 : Z) (port : option Z) (privateKey rpcUrl : option string).
Variable hm0 : HealthMonitor.t.
Hypothesis Hnew :
  HealthMonitor.constructor wallet now0 port privateKey rpcUrl = Normal hm0.

(** X23.  Whatever is called on a health monitor, the errors it keeps
    are the latest ones that were added, in the order in which they were
    added, and at most twenty: the older ones are dropped. *)
Theorem errors_keep_the_latest (ops : list Health.Op) :
  let kept :=
    (Health.run ops hm0).(HealthMonitor.metrics).(HealthMetrics.errors) in
  (exists older, Health.added ops = older ++ kept)
  /\ List.length kept = Nat.min 20 (List.length (Health.added ops)).
Proof.
  destruct (constructor_fresh _ _ _ _ _ _ Hnew) as (He0 & _).
  destruct (run_errors ops hm0 [] He0) as (_ & _ & He).
  cbv zeta. rewrite He. simpl. split.
  - exists (firstn (List.length (Health.added ops) - 20) (Health.added ops)).
    unfold HealthMonitor.sliceLast. symmetry. apply firstn_skipn.
  - apply sliceLast_length.
Qed.

(** X24.  The status that a completed update reports counts the errors
    added since the monitor was made, not the recent ones: unhealthy with
    more than ten, degraded with six to ten, healthy with at most five.
    So a monitor that was once reported unhealthy is reported unhealthy
    by every later update. *)
Theorem unhealthy_for_good (ops : list Health.Op) (now : Z)
    (balance : Completion string) :
  let status ops :=
    (HealthMonitor.updateMetrics now balance (Health.run ops hm0))
      .(HealthMonitor.metrics).(HealthMetrics.status) in
  let count := List.length (Health.added ops) in
  (status ops = HealthStatus.unhealthy <-> 10 < count)
  /\ (status ops = HealthStatus.degraded <-> 5 < count <= 10)
  /\ (status ops = HealthStatus.healthy <-> count <= 5)
  /\ (forall more,
        status ops = HealthStatus.unhealthy ->
        status (ops ++ more) = HealthStatus.unhealthy).
Proof.
  destruct (constructor_fresh _ _ _ _ _ _ Hnew) as (He0 & _).
  assert (Hstatus : forall ops,
             (HealthMonitor.updateMetrics now balance (Health.run ops hm0))
               .(HealthMonitor.metrics).(HealthMetrics.status)
             = let count := Nat.min 20 (List.length (Health.added ops)) in
               if (10 <? count)%nat then HealthStatus.unhealthy
               else if (5 <? count)%nat then HealthStatus.degraded
               else HealthStatus.healthy).
  { intros ops'. rewrite updateMetrics_status.
    destruct (run_errors ops' hm0 [] He0) as (_ & _ & He).
    cbv zeta in He |- *. rewrite He. simpl. now rewrite sliceLast_length. }
  assert (Hcases : forall ops,
             let status :=
               (HealthMonitor.updateMetrics now balance (Health.run ops hm0))
                 .(HealthMonitor.metrics).(HealthMetrics.status) in
             let count := List.length (Health.added ops) in
             (status = HealthStatus.unhealthy <-> 10 < count)
             /\ (status = HealthStatus.degraded <-> 5 < count <= 10)
             /\ (status = HealthStatus.healthy <-> count <= 5)).
  { intros ops'. cbv zeta. rewrite Hstatus. cbv zeta.
    destruct (Nat.ltb_spec 10 (Nat.min 20 (List.length (Health.added ops'))));
      [ | destruct (Nat.ltb_spec 5
                      (Nat.min 20 (List.length (Health.added ops'))))];
      repeat split; intros; try discriminate; try lia. }
  cbv zeta. destruct (Hcases ops) as (Hu & Hd & Hh).
  split; [exact Hu | ]. split; [exact Hd | ]. split; [exact Hh | ].
  intros more Hbad. apply (Hcases (ops ++ more)).
  rewrite added_app, length_app. apply Hu in Hbad. lia.
Qed.

(** X25.  The route [/health] and [getMetrics()] do not wait for the
    update they start.  With a wallet address and an RPC URL they answer
    with the status of the update before, so that the errors added since
    do not count, and a new monitor answers healthy whatever errors were
    added; without one of the two the answer counts the errors. *)
Theorem health_reply_lags (ops : list Health.Op)
    (errors : list HealthError.t) (now : Z) :
  let before := Health.run ops hm0 in
  let hm := Health.run (ops ++ Health.adding errors) hm0 in
  let reply := fst (fst (fst (HealthMonitor.healthRoute now hm))) in
  reply
  = (fst (fst (HealthMonitor.getMetrics now hm))).(HealthMetrics.status)
  /\ if (HealthMonitor.given hm0.(HealthMonitor.walletAddress)
         && HealthMonitor.given rpcUrl)%bool
     then reply = before.(HealthMonitor.metrics).(HealthMetrics.status)
          /\ (ops = [] -> reply = HealthStatus.healthy)
     else (reply = HealthStatus.unhealthy
           <-> 10 < List.length (Health.added ops) + List.length errors).
Proof.
  destruct (constructor_fresh _ _ _ _ _ _ Hnew) as (He0 & Hs0 & Hrpc).
  cbv zeta.
  assert (Hsame :
            (Health.run (ops ++ Health.adding errors) hm0)
              .(HealthMonitor.metrics).(HealthMetrics.status)
            = (Health.run ops hm0)
                .(HealthMonitor.metrics).(HealthMetrics.status)).
  { unfold Health.run. rewrite fold_left_app.
    generalize (fold_left Health.step ops hm0) as hm.
    induction errors as [ | [m ts] l IH]; intros hm; [reflexivity | ].
    simpl. rewrite IH. reflexivity. }
  destruct (run_errors (ops ++ Health.adding errors) hm0 [] He0)
    as (Hw & Hr & He).
  cbv zeta in Hw, Hr, He. simpl in He.
  rewrite added_app, added_adding in He.
  unfold HealthMonitor.healthRoute, HealthMonitor.getMetrics,
    HealthMonitor.updateMetricsBegin.
  cbn [HealthMonitor.setMetrics HealthMonitor.walletAddress
         HealthMonitor.rpcUrl].
  rewrite Hw, Hr, Hrpc.
  destruct (HealthMonitor.given hm0.(HealthMonitor.walletAddress)
            && HealthMonitor.given rpcUrl)%bool.
  - destruct (Health.run (ops ++ Health.adding errors) hm0)
               .(HealthMonitor.copyTradingStats); cbn [fst snd];
      cbn [HealthMonitor.metrics HealthMetrics.status];
      (split; [reflexivity | ]);
      (split; [exact Hsame | intros ->; rewrite Hsame; exact Hs0]).
  - destruct (Health.run (ops ++ Health.adding errors) hm0)
               .(HealthMonitor.copyTradingStats); cbn [fst snd];
      unfold HealthMonitor.determineStatus;
      cbn [HealthMonitor.metrics HealthMonitor.setMetrics
             HealthMetrics.status HealthMetrics.errors];
      (split; [reflexivity | ]);
      rewrite He, sliceLast_length, length_app;
      (destruct (Nat.ltb_spec 10
                   (Nat.min 20 (List.length (Health.added ops)
                                + List.length errors)));
       [ | destruct (Nat.ltb_spec 5
                       (Nat.min 20 (List.length (Health.added ops)
                                    + List.length errors)))];
       split; intros; try discriminate; try lia; try reflexivity).
Qed.

End HealthFacts.

(** ** The pages of [getUserPositions] *)

Lemma sentTo_app (endpoint : PolymarketClient.Endpoint)
    (a b : list (PolymarketClient.Endpoint * nat)) :
  Pages.sentTo endpoint (a ++ b)
  = Pages.sentTo endpoint a ++ Pages.sentTo endpoint b.
Proof. unfold Pages.sentTo. now rewrite filter_app, map_app. Qed.

Lemma offsets_from_S (page n : nat) :
  map (fun page => page * PolymarketClient.limit) (seq page (S n))
  = page * PolymarketClient.limit
    :: map (fun page => page * PolymarketClient.limit) (seq (S page) n).
Proof. reflexivity. Qed.

Section ClientFacts.
Context `{NumberOps}.
Variable Raw : Type.
Variable normalizePositions : list Raw -> Completion (list Position).
Variable get : PolymarketClient.Endpoint -> nat -> PolymarketClient.Page Raw.

Local Abbreviation primary := PolymarketClient.usersPositions.
Local Abbreviation alternative := PolymarketClient.positionsOfUser.
Local Abbreviation offsetsFrom page n :=
  (map (fun page => page * PolymarketClient.limit) (seq page n)).

(** What the requests [rs] add to [requests], for a loop that starts at
    [page] with [pagesLeft] pages left. *)
Local Abbreviation asks pagesLeft page requests rs :=
  (exists n,
      n <= pagesLeft
      /\ (0 < pagesLeft -> 0 < n)
      /\ Pages.sentTo primary rs
         = Pages.sentTo primary requests ++ offsetsFrom page n
      /\ exists asked,
           Pages.sentTo alternative rs
           = Pages.sentTo alternative requests ++ asked
           /\ List.length asked <= n
           /\ forall offset,
                In offset asked ->
                In offset (offsetsFrom page n)
                /\ exists error,
                     get primary offset = PolymarketClient.Fail error).

(** The requests of the loop: the first endpoint is asked for
    consecutive pages, the second one only for pages for which the first
    one failed. *)
Lemma fetchPages_requests (pagesLeft : nat) :
  forall page positions requests,
    let rs :=
      snd (PolymarketClient.fetchPages Raw get pagesLeft page positions
                                       requests) in
    asks pagesLeft page requests rs.
Proof.
  induction pagesLeft as [ | pagesLeft IH]; intros page positions requests.
  - simpl. exists 0. repeat split; try lia.
    + simpl. now rewrite app_nil_r.
    + exists []. split; [now rewrite app_nil_r | ].
      split; [simpl; lia | intros ? []].
  - cbn [PolymarketClient.fetchPages]. cbv zeta.
    assert (Hstop : forall fetched,
               let rs :=
                 snd (fetched : PolymarketClient.Fetched Raw,
                      requests ++ [(primary, page * PolymarketClient.limit)])
               in
               asks (S pagesLeft) page requests rs).
    { intros fetched. simpl. exists 1. repeat split; try lia.
      - now rewrite sentTo_app.
      - exists []. split; [ | split; [simpl; lia | intros ? []]].
        rewrite sentTo_app. simpl. now rewrite !app_nil_r. }
    assert (Hstop' : forall fetched error,
               get primary (page * PolymarketClient.limit)
               = PolymarketClient.Fail error ->
               let rs :=
                 snd (fetched : PolymarketClient.Fetched Raw,
                      (requests ++ [(primary, page * PolymarketClient.limit)])
                      ++ [(alternative, page * PolymarketClient.limit)])
               in
               asks (S pagesLeft) page requests rs).
    { intros fetched error Hfail. simpl. exists 1. repeat split; try lia.
      - rewrite !sentTo_app. simpl. now rewrite app_nil_r.
      - exists [page * PolymarketClient.limit]. split; [ | split].
        + rewrite !sentTo_app. simpl. now rewrite app_nil_r.
        + simpl. lia.
        + intros offset [<- | []]. split; [now left | eauto]. }
    assert (Hnext : forall positions' requests' asked0,
               Pages.sentTo primary requests'
               = Pages.sentTo primary requests
                 ++ [page * PolymarketClient.limit] ->
               Pages.sentTo alternative requests'
               = Pages.sentTo alternative requests ++ asked0 ->
               List.length asked0 <= 1 ->
               (forall offset,
                   In offset asked0 ->
                   offset = page * PolymarketClient.limit
                   /\ exists error,
                        get primary offset = PolymarketClient.Fail error) ->
               let rs :=
                 snd (PolymarketClient.fetchPages
                        Raw get pagesLeft (S page) positions' requests') in
               asks (S pagesLeft) page requests rs).
    { intros positions' requests' asked0 Hp Ha Hlen0 Hasked0.
      destruct (IH (S page) positions' requests')
        as (n & Hn & _ & Hprimary & asked & Halt & Hlen & Hasked).
      cbv zeta in Hprimary, Halt |- *.
      exists (S n). split; [lia | ]. split; [lia | ]. split.
      - rewrite Hprimary, Hp, <- app_assoc. reflexivity.
      - exists (asked0 ++ asked). split; [ | split].
        + rewrite Halt, Ha, <- app_assoc. reflexivity.
        + rewrite length_app. lia.
        + intros offset Hin. apply in_app_or in Hin.
          rewrite offsets_from_S.
          destruct Hin as [Hin | Hin].
          * destruct (Hasked0 _ Hin) as (-> & Hfail).
            split; [now left | exact Hfail].
          * destruct (Hasked _ Hin) as (Hoff & Hfail).
            split; [now right | exact Hfail]. }
    destruct (get primary (page * PolymarketClient.limit))
      as [items | | primaryError] eqn:Hprimary.
    + destruct (Nat.eqb (List.length items) PolymarketClient.limit);
        [ | apply Hstop].
      apply (Hnext _ _ []).
      * now rewrite sentTo_app.
      * rewrite sentTo_app. simpl. now rewrite !app_nil_r.
      * simpl. lia.
      * intros ? [].
    + apply Hstop.
    + destruct (get alternative (page * PolymarketClient.limit))
        as [items | | altError] eqn:Halt.
      * destruct (Nat.eqb (List.length items) PolymarketClient.limit);
          [ | now apply (Hstop' _ primaryError)].
        apply (Hnext _ _ [page * PolymarketClient.limit]).
        -- rewrite !sentTo_app. simpl. now rewrite app_nil_r.
        -- rewrite !sentTo_app. simpl. now rewrite app_nil_r.
        -- simpl. lia.
        -- intros offset [<- | []]. split; [reflexivity | eauto].
      * now apply (Hstop' _ primaryError).
      * destruct (_ || _)%bool; now apply (Hstop' _ primaryError).
Qed.


(** The requests made before do not matter to what is collected. *)
Lemma fetchPages_fst (pagesLeft : nat) :
  forall page positions requests requests',
    fst (PolymarketClient.fetchPages Raw get pagesLeft page positions
                                     requests)
    = fst (PolymarketClient.fetchPages Raw get pagesLeft page positions
                                       requests').
Proof.
  induction pagesLeft as [ | pagesLeft IH]; intros; [reflexivity | ].
  cbn [PolymarketClient.fetchPages]. cbv zeta.
  destruct (get primary _) as [items | | primaryError].
  - destruct (Nat.eqb _ _); [apply IH | reflexivity].
  - reflexivity.
  - destruct (get alternative _) as [items | | altError].
    + destruct (Nat.eqb _ _); [apply IH | reflexivity].
    + reflexivity.
    + destruct (_ || _)%bool; reflexivity.
Qed.

(** Full pages are collected one after the other. *)
Lemma fetchPages_full (pages : list (list Raw)) :
  forall pagesLeft page positions requests,
    (forall i items,
        nth_error pages i = Some items ->
        Pages.full get ((page + i) * PolymarketClient.limit) items) ->
    fst (PolymarketClient.fetchPages
           Raw get (List.length pages + pagesLeft) page positions requests)
    = fst (PolymarketClient.fetchPages
             Raw get pagesLeft (page + List.length pages)
             (positions ++ List.concat pages) requests).
Proof.
  induction pages as [ | items pages IH];
    intros pagesLeft page positions requests Hfull.
  - simpl. now rewrite Nat.add_0_r, app_nil_r.
  - destruct (Hfull 0 items eq_refl) as (Hlen & Hget).
    rewrite Nat.add_0_r in Hget.
    cbn [List.length Nat.add PolymarketClient.fetchPages]. cbv zeta.
    assert (Hrest : forall requests',
               fst (PolymarketClient.fetchPages
                      Raw get (List.length pages + pagesLeft) (S page)
                      (positions ++ items) requests')
               = fst (PolymarketClient.fetchPages
                        Raw get pagesLeft (page + S (List.length pages))
                        (positions ++ List.concat (items :: pages)) requests)).
    { intros requests'.
      rewrite (fetchPages_fst _ _ _ requests' requests), IH.
      - simpl. rewrite <- app_assoc.
        replace (S (page + List.length pages))
          with (page + S (List.length pages)) by lia.
        reflexivity.
      - intros i items' Hnth.
        replace (S page + i) with (page + S i) by lia.
        apply Hfull. exact Hnth. }
    destruct Hget as [-> | ((error & ->) & ->)];
      rewrite Hlen, Nat.eqb_refl; apply Hrest.
Qed.

(** X27.  A portfolio of ten full pages or more is cut after the first
    thousand items: what is returned is made of the first ten pages,
    whatever the API holds beyond them. *)
Theorem long_portfolio_is_cut (pages : list (list Raw))
    (normalizedPositions : list Position) (userAddress now : string) :
  List.length pages = 10 ->
  (forall i items,
      nth_error pages i = Some items ->
      Pages.full get (i * PolymarketClient.limit) items) ->
  normalizePositions (List.concat pages) = Normal normalizedPositions ->
  fst (PolymarketClient.getUserPositions Raw normalizePositions get
                                         userAddress now)
  = Normal (UserPositions.mk
              userAddress normalizedPositions
              (PolymarketClient.calculateTotalValue normalizedPositions)
              now)
  /\ List.length (List.concat pages) = 1000.
Proof.
  intros Hlen Hfull Hnormal. split.
  - unfold PolymarketClient.getUserPositions.
    pose proof (fetchPages_full pages 0 0 [] [] Hfull) as Hloop.
    rewrite Nat.add_0_r, Hlen in Hloop.
    destruct (PolymarketClient.fetchPages Raw get 10 0 [] [])
      as [fetched requests].
    cbn [fst] in Hloop |- *. rewrite Hloop. simpl. now rewrite Hnormal.
  - assert (Hall : forall items, In items pages ->
                                 List.length items = PolymarketClient.limit).
    { intros items Hin. apply In_nth_error in Hin. destruct Hin as (i & Hi).
      now destruct (Hfull i items Hi). }
    assert (Hsum : List.length (List.concat pages)
                   = List.length pages * PolymarketClient.limit).
    { clear - Hall. induction pages as [ | items l IH]; [reflexivity | ].
      simpl. rewrite length_app, IH.
      - rewrite (Hall items); [reflexivity | now left].
      - intros ? ?. apply Hall. now right. }
    rewrite Hsum, Hlen. reflexivity.
Qed.

(** X28.  When both endpoints fail for a page, the pages collected
    before are dropped.  If one of the two errors is a 404 the call
    returns a portfolio without positions, else it throws with the
    message of the first error.  Either way the account monitor reads a
    status without positions. *)
Theorem failure_reads_as_no_positions (pages : list (list Raw))
    (primaryError altError : PolymarketClient.HttpError)
    (userAddress now now' : string) :
  List.length pages < 10 ->
  (forall i items,
      nth_error pages i = Some items ->
      Pages.full get (i * PolymarketClient.limit) items) ->
  get primary (List.length pages * PolymarketClient.limit)
  = PolymarketClient.Fail primaryError ->
  get alternative (List.length pages * PolymarketClient.limit)
  = PolymarketClient.Fail altError ->
  let outcome :=
    fst (PolymarketClient.getUserPositions Raw normalizePositions get
                                           userAddress now) in
  outcome
  = (if PolymarketClient.is404 primaryError
        || PolymarketClient.is404 altError
     then Normal (PolymarketClient.noPositions userAddress now)
     else Throw ("Failed to fetch user positions: "
                 ++ primaryError.(PolymarketClient.message)))
  /\ AccountMonitorClass.getStatus outcome now' userAddress
     = Polling.emptyStatus userAddress now'.
Proof.
  intros Hlen Hfull Hprimary Halt. cbv zeta.
  assert (Houtcome :
            fst (PolymarketClient.getUserPositions
                   Raw normalizePositions get userAddress now)
            = (if PolymarketClient.is404 primaryError
                  || PolymarketClient.is404 altError
               then Normal (PolymarketClient.noPositions userAddress now)
               else Throw ("Failed to fetch user positions: "
                           ++ primaryError.(PolymarketClient.message)))).
  { unfold PolymarketClient.getUserPositions.
    pose proof (fetchPages_full pages (10 - List.length pages) 0 [] [] Hfull)
      as Hloop.
    replace (List.length pages + (10 - List.length pages)) with 10
      in Hloop by lia.
    destruct (PolymarketClient.fetchPages Raw get 10 0 [] [])
      as [fetched requests].
    cbn [fst] in Hloop |- *. rewrite Hloop.
    destruct (10 - List.length pages) as [ | left] eqn:Hleft; [lia | ].
    cbn [PolymarketClient.fetchPages Nat.add]. cbv zeta.
    rewrite Hprimary, Halt.
    destruct (PolymarketClient.is404 primaryError) eqn:H1; simpl;
      [reflexivity | ].
    destruct (PolymarketClient.is404 altError); simpl; [reflexivity | ].
    now rewrite H1. }
  split; [exact Houtcome | ]. rewrite Houtcome.
  destruct (_ || _)%bool; reflexivity.
Qed.

End ClientFacts.

(** ** The start of the bot *)

Section Start.
Context `{NumberOps}.
Variable env : Env.

(** With the API key created, an update derives no key. *)
Lemma handleStatusUpdate_keeps_key (m : CopyTradingMonitor.t) (w : World)
    (status : TradingStatus) (t : string) :
  apiKeyCreated w = true ->
  let '(m', w', _) := CopyTradingMonitor.handleStatusUpdate env m w status t in
  m'.(CopyTradingMonitor.config) = m.(CopyTradingMonitor.config)
  /\ apiKeyCreated w' = true
  /\ keyCalls w' = keyCalls w.
Proof.
  intros Hcreated. unfold CopyTradingMonitor.handleStatusUpdate. cbv zeta.
  split; [reflexivity | ].
  set (executor := TradeExecutor.constructor m.(CopyTradingMonitor.config)).
  set (I := fun l : CopyTradingMonitor.Loop =>
              apiKeyCreated l.(CopyTradingMonitor.world) = true
              /\ keyCalls l.(CopyTradingMonitor.world) = keyCalls w).
  match goal with
  | |- apiKeyCreated (CopyTradingMonitor.world ?l) = true /\ _ =>
      change (I l)
  end.
  apply fold_left_invariant.
  - intros l p _ (Ha & Hk). unfold CopyTradingMonitor.sellStep.
    destruct (withRetry_cost executor env (TradeExecutor.trySell executor env)
                p t (trySell_cost executor env p t) 0 l.(CopyTradingMonitor.world))
      as (_ & _ & _ & Hkeep & _).
    specialize (Hkeep Ha). fold (TradeExecutor.executeSell executor env p t 0
                                   l.(CopyTradingMonitor.world)) in Hkeep.
    destruct (TradeExecutor.executeSell executor env p t 0 _) as [r w1].
    cbn [snd] in Hkeep. destruct Hkeep as (Ha1 & Hk1).
    destruct (success r); split; simpl; congruence.
  - apply fold_left_invariant.
    + intros l p _ (Ha & Hk). unfold CopyTradingMonitor.buyStep.
      destruct (withRetry_cost executor env (TradeExecutor.tryBuy executor env)
                  p t (tryBuy_cost executor env p t) 0
                  l.(CopyTradingMonitor.world))
        as (_ & _ & _ & Hkeep & _).
      specialize (Hkeep Ha). fold (TradeExecutor.executeBuy executor env p t 0
                                     l.(CopyTradingMonitor.world)) in Hkeep.
      destruct (TradeExecutor.executeBuy executor env p t 0 _) as [r w1].
      cbn [snd] in Hkeep. destruct Hkeep as (Ha1 & Hk1).
      destruct (success r); split; simpl; congruence.
    + split; [exact Hcreated | reflexivity].
Qed.

(** What the polls of the bot keep, once the key is created. *)
Lemma updateStatus_keeps_key
    (userOnUpdate : option (TradingStatus -> string -> Completion unit))
    (fetched : Completion UserPositions.t) (now address : string)
    (mon : AccountMonitorClass.t) (s : Bot.State)
    (c : CopyTradingConfig.t) (k : nat) :
  let kept (s : Bot.State) :=
    (fst (fst s)).(CopyTradingMonitor.config) = c
    /\ apiKeyCreated (snd (fst s)) = true
    /\ keyCalls (snd (fst s)) = k in
  kept s ->
  kept (snd (AccountMonitorClass.updateStatus
               (Bot.callbacks env userOnUpdate) fetched now address mon s)).
Proof.
  intros kept Hs. unfold AccountMonitorClass.updateStatus.
  destruct (JSMap.get _ address) as [ts | ]; [ | exact Hs].
  destruct (_ || _)%bool; [ | exact Hs].
  destruct s as [[m w] done]. destruct Hs as (Hc & Ha & Hk).
  cbn [fst snd] in Hc, Ha, Hk.
  unfold Bot.callbacks.
  cbn [AccountMonitorClass.onUpdate AccountMonitorClass.onError].
  destruct (match userOnUpdate with
            | Some f => f _ address
            | None => Normal tt
            end) as [u | message].
  - unfold CopyTradingMonitor.onUpdate.
    destruct m.(CopyTradingMonitor.config).(CopyTradingConfig.enabled).
    + pose proof (handleStatusUpdate_keeps_key
                    m w (AccountMonitorClass.getStatus fetched now address)
                    address Ha) as Hkeep.
      destruct (CopyTradingMonitor.handleStatusUpdate env m w _ address)
        as [[m' w'] done'].
      destruct Hkeep as (Hc' & Ha' & Hk').
      unfold kept. cbn [fst snd]. repeat split; congruence.
    + unfold kept. cbn [fst snd]. auto.
  - unfold kept. cbn [fst snd]. auto.
Qed.

Lemma startPolling_running (addresses : list string)
    (mon : AccountMonitorClass.t) :
  (fold_left AccountMonitorClass.startPolling addresses mon)
    .(AccountMonitorClass.isMonitoring)
  = mon.(AccountMonitorClass.isMonitoring).
Proof.
  revert mon. induction addresses as [ | a l IH]; intros mon; [reflexivity | ].
  simpl. now rewrite IH.
Qed.

Lemma start_keeps_key
    (userOnUpdate : option (TradingStatus -> string -> Completion unit))
    (fetch : string -> AccountMonitorClass.Poll)
    (mon : AccountMonitorClass.t) (s : Bot.State)
    (c : CopyTradingConfig.t) (k : nat) :
  let kept (s : Bot.State) :=
    (fst (fst s)).(CopyTradingMonitor.config) = c
    /\ apiKeyCreated (snd (fst s)) = true
    /\ keyCalls (snd (fst s)) = k in
  kept s ->
  let started :=
    AccountMonitorClass.start (Bot.callbacks env userOnUpdate) fetch mon s in
  kept (snd started)
  /\ AccountMonitorClass.isRunning (fst started) = true.
Proof.
  intros kept Hs. cbv zeta. unfold AccountMonitorClass.start.
  destruct mon.(AccountMonitorClass.isMonitoring) eqn:Hrun;
    [split; [exact Hs | exact Hrun] | ].
  match goal with
  | |- context [fold_left ?f ?l (?m0, s)] =>
      pose proof (firstPolls_timers (Bot.callbacks env userOnUpdate) fetch
                    l m0 s) as Htimers;
      assert (Hkept : kept (snd (fold_left f l (m0, s))));
      [ | destruct (fold_left f l (m0, s)) as [mon1 s1] ]
  end.
  - apply (fold_left_invariant _ (fun acc => kept (snd acc))); [ | exact Hs].
    intros [mon1 s1] a _ Hacc. cbn [fst snd] in *.
    now apply updateStatus_keeps_key.
  - cbn [fst snd] in *. split; [exact Hkept | ].
    unfold AccountMonitorClass.isRunning. rewrite startPolling_running.
    cbv zeta in Htimers. now destruct Htimers as (_ & _ & -> & _).
Qed.

(** X29.  An enabled bot that is no dry run derives its API key once when
    it starts, and not again, whatever the first polls make it trade.
    When the key cannot be derived the start throws 'Failed to
    initialize trade executor: ' with the cause, and nothing is polled
    or traded; else the account monitor is running afterwards. *)
Theorem live_start_derives_key_once
    (userOnUpdate : option (TradingStatus -> string -> Completion unit))
    (fetch : string -> AccountMonitorClass.Poll)
    (mon : AccountMonitorClass.t) (m : CopyTradingMonitor.t) (w : World)
    (done : list CopyTradingMonitor.Execution) outcome mon' m' w' done' :
  m.(CopyTradingMonitor.config).(CopyTradingConfig.enabled) = true ->
  m.(CopyTradingMonitor.config).(CopyTradingConfig.dryRun) <> Some true ->
  Bot.start env userOnUpdate fetch mon (m, w, done)
  = (outcome, mon', (m', w', done')) ->
  keyCalls w' = keyCalls w + 1
  /\ match env.(deriveApiKey) w.(keyCalls) with
     | Throw cause =>
         outcome
         = Throw ("Failed to initialize trade executor: " ++ cause)
         /\ mon' = mon /\ m' = m /\ done' = done
         /\ timeline w' = timeline w
     | Normal _ =>
         outcome = Normal tt
         /\ apiKeyCreated w' = true
         /\ AccountMonitorClass.isRunning mon' = true
     end.
Proof.
  intros Henabled Hlive Hstart.
  assert (Hdry : TradeExecutor.orDefault
                   m.(CopyTradingMonitor.config).(CopyTradingConfig.dryRun)
                   false = false).
  { destruct m.(CopyTradingMonitor.config).(CopyTradingConfig.dryRun)
      as [[ | ] | ]; [congruence | reflexivity | reflexivity]. }
  unfold Bot.start in Hstart. rewrite Henabled in Hstart.
  cbn [negb] in Hstart.
  unfold TradeExecutor.initialize in Hstart.
  change (Config.dryRun (TradeExecutor.constructor
                           m.(CopyTradingMonitor.config)))
    with (TradeExecutor.orDefault
            m.(CopyTradingMonitor.config).(CopyTradingConfig.dryRun) false)
    in Hstart.
  rewrite Hdry in Hstart.
  destruct (env.(deriveApiKey) w.(keyCalls)) as [u | cause].
  - pose proof (start_keeps_key
                  userOnUpdate fetch mon
                  (m, setApiKeyCreated (countKeyCall w) true, done)
                  m.(CopyTradingMonitor.config) (keyCalls w + 1))
      as Hkeep.
    cbv zeta in Hkeep.
    destruct (AccountMonitorClass.start _ fetch mon _) as [mon1 [[m1 w1] d1]].
    injection Hstart as <- <- <- <- <-.
    destruct Hkeep as ((_ & Ha & Hk) & Hrun).
    + cbn [fst snd]. split; [reflexivity | ].
      split; [reflexivity | simpl; lia].
    + cbn [fst snd] in Ha, Hk. auto.
  - cbn [negb] in Hstart. injection Hstart as <- <- <- <- <-.
    split; [simpl; lia | auto].
Qed.

End Start.

(** ** The account monitor and the health monitor on concrete inputs *)

Section PollerExamples.
#[local] Existing Instance JSNumber.numberOps.
Import Sample.

(** X19, witness: the same position polled later, with a quantity and a
    total value that are not numbers. *)
Lemma unchanged_status_is_quiet_witness :
  let p := aPosition "tok1" "many" "0.5" "n/a" in
  AccountMonitor.detectChanges
    (mkTradingStatus trader 1 "n/a" [] [p] "2024-01-01T00:00:02.000Z")
    (Some (aStatus [p] "n/a"))
  = false.
Proof.
  intros p. apply unchanged_status_is_quiet; reflexivity.
Defined.

(** X20, witness: a poll with one position, the same poll again, and a
    poll whose fetch fails. *)
Lemma notified_on_change_only_witness :
  let p := aPosition "tok1" "100" "0.5" "50" in
  let fetched := Normal (UserPositions.mk trader [p] "50" "t") in
  match AccountMonitorClass.constructor
          (MonitorOptions.mk [trader] None None) with
  | Normal mon0 =>
      let run :=
        AccountMonitorClass.updateStatuses
          Polling.recording
          [(fetched, "t1"); (fetched, "t2"); (Throw "timeout", "t3")]
          trader mon0 [] in
      List.length (snd run) = 2
      /\ exists ts,
           AccountMonitorClass.getTraderStatus (fst run) trader = Some ts
           /\ ts.(TraderStatus.errorCount) = 0%Z
           /\ Polling.eachChanged None (map fst (snd run)) = true
  | Throw _ => False
  end.
Proof.
  intros p fetched.
  destruct (AccountMonitorClass.constructor
              (MonitorOptions.mk [trader] None None))
    as [mon0 | message] eqn:Hnew; [ | discriminate].
  destruct (AccountMonitorClass.updateStatuses
              Polling.recording
              [(fetched, "t1"); (fetched, "t2"); (Throw "timeout", "t3")]
              trader mon0 []) as [mon log] eqn:Hrun.
  destruct (notified_on_change_only
              (MonitorOptions.mk [trader] None None) mon0 trader _ mon log
              Hnew (or_introl eq_refl) Hrun)
    as (ts & Hget & _ & Hcount & Hchanged & _).
  cbn [fst snd]. split.
  - injection Hnew as <-. vm_compute in Hrun. injection Hrun as _ <-.
    reflexivity.
  - exists ts. auto.
Defined.

(** X21, witness: a trader whose position was copied, and a fetch that
    times out. *)
Lemma fetch_failure_closes_positions_witness :
  let p := aPosition "tok1" "100" "0.5" "50" in
  let ts := TraderStatus.mk trader (Some (aStatus [p] "50")) 0 in
  let mon :=
    AccountMonitorClass.mk 2000 false [trader] JSMap.empty true
                           [(trader, ts)] [] 0 in
  let m :=
    CopyTradingMonitor.mk
      (aConfig false) (CopyTradingStatus.mk true false 1 0 "50.00" 1 1)
      [(trader, ["tok1"])] [(trader, [("tok1", p)])] in
  let run :=
    AccountMonitorClass.updateStatus
      (Bot.callbacks accepting None) (Throw "timeout")
      "2024-01-01T00:00:02.000Z" trader mon (m, aWorld false [], []) in
  (exists e, In e (snd (snd run)) /\ Spec.about "tok1" e = true)
  /\ Spec.lastPositions (fst (fst (snd run))) trader = JSMap.empty.
Proof.
  intros p ts mon m run.
  destruct run as [mon' [[m' w'] done]] eqn:Hrun. subst run.
  assert (Hkeyed : Spec.wellKeyed m trader).
  { split.
    - intros k v [[= <- <-] | []]. reflexivity.
    - repeat constructor. intros []. }
  destruct (fetch_failure_closes_positions
              accepting None mon m (aWorld false []) [] trader ts
              (aStatus [p] "50") "timeout" "2024-01-01T00:00:02.000Z"
              mon' m' w' done)
    as (sold & Hdone & _ & Hall & Hlast & _);
    [reflexivity | reflexivity | discriminate | discriminate | reflexivity
     | exact Hkeyed | exact Hrun | ].
  cbn [fst snd]. split; [ | exact Hlast].
  destruct (Hall "tok1") as (e & Hin & Habout); [reflexivity | reflexivity | ].
  exists e. rewrite Hdone. split; [exact Hin | exact Habout].
Defined.


End PollerExamples.

Section HealthExamples.

(** X23, witness: twenty-five errors, of which twenty are kept. *)
Lemma errors_keep_the_latest_witness :
  let e := HealthError.mk "Trade error: timeout" "t" in
  match HealthMonitor.constructor Sample.aWallet 0 None
                                  (Some Sample.aPrivateKey) None with
  | Normal hm0 =>
      List.length
        (Health.run (Health.adding (repeat e 25)) hm0)
          .(HealthMonitor.metrics).(HealthMetrics.errors)
      = 20
  | Throw _ => False
  end.
Proof.
  intros e.
  destruct (HealthMonitor.constructor Sample.aWallet 0 None
                                      (Some Sample.aPrivateKey) None)
    as [hm0 | message] eqn:Hnew; [ | discriminate].
  destruct (errors_keep_the_latest _ _ _ _ _ hm0 Hnew
              (Health.adding (repeat e 25))) as (_ & Hlen).
  rewrite Hlen. reflexivity.
Defined.

(** X24, witness: eleven errors. *)
Lemma unhealthy_for_good_witness :
  let e := HealthError.mk "Trade error: timeout" "t" in
  match HealthMonitor.constructor Sample.aWallet 0 None
                                  (Some Sample.aPrivateKey) None with
  | Normal hm0 =>
      (HealthMonitor.updateMetrics
         5000 (Throw "no provider")
         (Health.run (Health.adding (repeat e 11)) hm0))
        .(HealthMonitor.metrics).(HealthMetrics.status)
      = HealthStatus.unhealthy
  | Throw _ => False
  end.
Proof.
  intros e.
  destruct (HealthMonitor.constructor Sample.aWallet 0 None
                                      (Some Sample.aPrivateKey) None)
    as [hm0 | message] eqn:Hnew; [ | discriminate].
  destruct (unhealthy_for_good _ _ _ _ _ hm0 Hnew
              (Health.adding (repeat e 11)) 5000 (Throw "no provider"))
    as (Hbad & _).
  apply Hbad. simpl. lia.
Defined.

(** X25, witness: eleven errors on a new monitor with a wallet and an
    RPC URL, and the first request of [/health]. *)
Lemma health_reply_lags_witness :
  let e := HealthError.mk "Trade error: timeout" "t" in
  match HealthMonitor.constructor Sample.aWallet 0 None
                                  (Some Sample.aPrivateKey)
                                  (Some "https://rpc") with
  | Normal hm0 =>
      fst (fst (fst (HealthMonitor.healthRoute
                       5000 (Health.run (Health.adding (repeat e 11)) hm0))))
      = HealthStatus.healthy
  | Throw _ => False
  end.
Proof.
  intros e.
  destruct (HealthMonitor.constructor Sample.aWallet 0 None
                                      (Some Sample.aPrivateKey)
                                      (Some "https://rpc"))
    as [hm0 | message] eqn:Hnew; [ | discriminate].
  pose proof (health_reply_lags _ _ _ _ _ hm0 Hnew [] (repeat e 11) 5000)
    as Hreply.
  cbv zeta in Hreply. destruct Hreply as (_ & Hreply).
  injection Hnew as <-.
  cbn [HealthMonitor.walletAddress HealthMonitor.given JS.truthy
         String.eqb Ascii.eqb Bool.eqb negb andb] in Hreply.
  destruct Hreply as (_ & Hfirst). apply Hfirst. reflexivity.
Defined.

End HealthExamples.

(** ** The API client on concrete inputs *)

Section ClientExamples.
#[local] Existing Instance JSNumber.numberOps.
Import Sample.

(** X27, witness: an API that answers every request with a full page. *)
Lemma long_portfolio_is_cut_witness :
  let get := fun (_ : PolymarketClient.Endpoint) (offset : nat) =>
               PolymarketClient.Items (repeat offset 100) in
  let normalizePositions := fun _ : list nat => Normal (@nil Position) in
  fst (PolymarketClient.getUserPositions nat normalizePositions get
                                         trader "t")
  = Normal (UserPositions.mk trader [] "0.000000" "t").
Proof.
  intros get normalizePositions.
  destruct (long_portfolio_is_cut
              nat normalizePositions get
              (map (fun page => repeat (page * 100) 100) (seq 0 10))
              [] trader "t") as (Hreturned & _).
  - reflexivity.
  - intros i items Hnth.
    do 10 (destruct i as [ | i];
           [injection Hnth as <-; split; [reflexivity | left; reflexivity]
           | ]).
    destruct i; discriminate.
  - reflexivity.
  - rewrite Hreturned. reflexivity.
Defined.

(** X28, witness: a full page, then a 404 of the second endpoint. *)
Lemma failure_reads_as_no_positions_witness :
  let get := fun (endpoint : PolymarketClient.Endpoint) (offset : nat) =>
               if Nat.eqb offset 0
               then PolymarketClient.Items (repeat offset 100)
               else
                 match endpoint with
                 | PolymarketClient.usersPositions =>
                     PolymarketClient.Fail
                       (PolymarketClient.mkHttpError
                          (Some 500%Z) "Request failed with status code 500")
                 | PolymarketClient.positionsOfUser =>
                     PolymarketClient.Fail
                       (PolymarketClient.mkHttpError
                          (Some 404%Z) "Request failed with status code 404")
                 end in
  let normalizePositions := fun _ : list nat => Normal (@nil Position) in
  fst (PolymarketClient.getUserPositions nat normalizePositions get
                                         trader "t")
  = Normal (PolymarketClient.noPositions trader "t").
Proof.
  intros get normalizePositions.
  destruct (failure_reads_as_no_positions
              nat normalizePositions get [repeat 0 100]
              (PolymarketClient.mkHttpError
                 (Some 500%Z) "Request failed with status code 500")
              (PolymarketClient.mkHttpError
                 (Some 404%Z) "Request failed with status code 404")
              trader "t" "t") as (Hreturned & _).
  - simpl. lia.
  - intros i items Hnth. destruct i as [ | i].
    + injection Hnth as <-. split; [reflexivity | left; reflexivity].
    + destruct i; discriminate.
  - reflexivity.
  - reflexivity.
  - rewrite Hreturned. reflexivity.
Defined.

End ClientExamples.

(** ** The start of the bot on a concrete input *)

Section StartExamples.
#[local] Existing Instance JSNumber.numberOps.
Import Sample.

(** X29, witness: a live bot whose first poll finds a position, which it
    buys. *)
Lemma live_start_derives_key_once_witness :
  let p := aPosition "tok1" "100" "0.5" "50" in
  let fetch := fun _ : string =>
                 (Normal (UserPositions.mk trader [p] "50" "t"), "t") in
  let mon :=
    AccountMonitorClass.mk 2000 false [trader] JSMap.empty false
                           [(trader, TraderStatus.mk trader None 0)] [] 0 in
  let started :=
    Bot.start accepting None fetch mon
              (aMonitor (aConfig false), aWorld false [], []) in
  keyCalls (snd (fst (snd started))) = 1
  /\ List.length (orders (snd (fst (snd started)))) = 1.
Proof.
  intros p fetch mon started.
  destruct started as [[outcome mon'] [[m' w'] done']] eqn:Hstart.
  subst started.
  destruct (live_start_derives_key_once
              accepting None fetch mon (aMonitor (aConfig false))
              (aWorld false []) [] outcome mon' m' w' done')
    as (Hcalls & _); [reflexivity | discriminate | exact Hstart | ].
  cbn [fst snd]. split; [exact Hcalls | ].
  vm_compute in Hstart. injection Hstart as _ _ _ <- _. reflexivity.
Defined.

End StartExamples.

(** ** One call alone is the sequential function *)

Section AsyncAlone.
Context `{NumberOps}.
Variable env : Env.

Lemma run_bind {A B : Type} (t : Async.Task A) (f : A -> Async.Task B)
    (s : Async.State) :
  Async.run env (Async.bind t f) s
  = Async.run env (f (fst (Async.run env t s))) (snd (Async.run env t s)).
Proof.
  revert s.
  induction t as [a | k IH | g k IH | pid tr side k IH | d k IH | k IH
                  | index order k IH | ms k IH]; intros s; simpl.
  - reflexivity.
  - apply IH.
  - apply IH.
  - destruct (TradeModel.findOne env pid tr side (snd s)) as [found w].
    apply IH.
  - destruct (TradeModel.save env d (snd s)) as [saved w]. apply IH.
  - apply IH.
  - apply IH.
  - apply IH.
Qed.

Section WithConfig.
Variable config : Config.t.

Lemma run_isDuplicateTrade (positionId t : string) (side : TradeSide)
    (m : CopyTradingMonitor.t) (w : World) :
  Async.run env (Async.isDuplicateTrade positionId t side) (m, w)
  = (fst (TradeExecutor.isDuplicateTrade env positionId t side w),
     (m, snd (TradeExecutor.isDuplicateTrade env positionId t side w))).
Proof.
  unfold Async.isDuplicateTrade, TradeExecutor.isDuplicateTrade. simpl.
  destruct (dbConnected w); simpl; [ | reflexivity].
  destruct (TradeModel.findOne env positionId t side w)
    as [[[d | ] | message] w']; reflexivity.
Qed.

Lemma run_saveTrade (result : TradeExecutionResult) (t : string)
    (m : CopyTradingMonitor.t) (w : World) :
  Async.run env (Async.saveTrade result t) (m, w)
  = (tt, (m, TradeExecutor.saveTrade env result t w)).
Proof.
  unfold Async.saveTrade, TradeExecutor.saveTrade. simpl.
  destruct (negb (dbConnected w) || negb (success result))%bool; simpl;
    [reflexivity | ].
  destruct (TradeModel.save env (TradeExecutor.tradeOf result t) w)
    as [saved w']. reflexivity.
Qed.

Lemma run_submit (order : Order.t) (m : CopyTradingMonitor.t) (w : World) :
  Async.run env (Async.submit config order) (m, w)
  = (fst (TradeExecutor.submit config env order w),
     (m, snd (TradeExecutor.submit config env order w))).
Proof.
  unfold Async.submit, TradeExecutor.submit, Async.initialize,
    TradeExecutor.initialize, Async.createAndPostOrder,
    TradeExecutor.createAndPostOrder.
  simpl. destruct (apiKeyCreated w); simpl; [reflexivity | ].
  destruct (Config.dryRun config); simpl; [reflexivity | ].
  destruct (deriveApiKey env (keyCalls w)); reflexivity.
Qed.

Lemma run_succeed (result : TradeExecutionResult) (t : string)
    (m : CopyTradingMonitor.t) (w : World) :
  Async.run env (Async.succeed result t) (m, w)
  = (Normal result,
     (m, onTradeExecuted (TradeExecutor.saveTrade env result t w) result)).
Proof.
  unfold Async.succeed. rewrite run_bind, run_saveTrade. reflexivity.
Qed.

Lemma run_tryBuy (p : Position) (t : string) (rc : Z)
    (m : CopyTradingMonitor.t) (w : World) :
  Async.run env (Async.tryBuy config p t rc) (m, w)
  = (fst (TradeExecutor.tryBuy config env p t rc w),
     (m, snd (TradeExecutor.tryBuy config env p t rc w))).
Proof.
  unfold Async.tryBuy, TradeExecutor.tryBuy.
  rewrite run_bind, run_isDuplicateTrade. cbn [fst snd].
  destruct (TradeExecutor.isDuplicateTrade env (id p) t buy w)
    as [duplicate w1]. cbn [fst snd].
  destruct duplicate; [reflexivity | ].
  destruct (negb (JS.truthy (id p))); [reflexivity | ].
  destruct (JS.lt _ _); [reflexivity | ].
  destruct (JS.gt _ (Config.maxTradeSize config)); [reflexivity | ].
  destruct (JS.gt _ (Config.maxPositionSize config)); [reflexivity | ].
  destruct (Config.dryRun config); [now rewrite run_succeed | ].
  rewrite run_bind, run_submit. cbn [fst snd].
  destruct (TradeExecutor.submit config env _ w1) as [[orderID | message] w2];
    cbn [fst snd]; [now rewrite run_succeed | reflexivity].
Qed.

Lemma run_trySell (p : Position) (t : string) (rc : Z)
    (m : CopyTradingMonitor.t) (w : World) :
  Async.run env (Async.trySell config p t rc) (m, w)
  = (fst (TradeExecutor.trySell config env p t rc w),
     (m, snd (TradeExecutor.trySell config env p t rc w))).
Proof.
  unfold Async.trySell, TradeExecutor.trySell.
  destruct (negb (JS.truthy (id p))); [reflexivity | ].
  destruct (Config.dryRun config); [now rewrite run_succeed | ].
  rewrite run_bind, run_submit. cbn [fst snd].
  destruct (TradeExecutor.submit config env _ w) as [[orderID | message] w2];
    cbn [fst snd]; [now rewrite run_succeed | reflexivity].
Qed.

Lemma run_giveUp (p : Position) (t : string) (rc : Z) (message : string)
    (m : CopyTradingMonitor.t) (w : World) :
  Async.run env (Async.giveUp config p t rc message) (m, w)
  = (fst (TradeExecutor.giveUp config env p t rc message w),
     (m, snd (TradeExecutor.giveUp config env p t rc message w))).
Proof.
  unfold Async.giveUp, TradeExecutor.giveUp.
  rewrite run_bind, run_saveTrade. reflexivity.
Qed.

Lemma run_withRetry
    (attempt : Position -> string -> Z ->
               Async.Task (Completion TradeExecutionResult))
    (attempt' : Position -> string -> Z -> World ->
                Completion TradeExecutionResult * World)
    (p : Position) (t : string) (m : CopyTradingMonitor.t) :
  (forall rc w,
      Async.run env (attempt p t rc) (m, w)
      = (fst (attempt' p t rc w), (m, snd (attempt' p t rc w)))) ->
  forall budget rc w,
    Async.run env (Async.withRetry config attempt budget p t rc) (m, w)
    = (fst (TradeExecutor.withRetry config env attempt' budget p t rc w),
       (m, snd (TradeExecutor.withRetry config env attempt' budget p t rc
                                        w))).
Proof.
  intros Hattempt. induction budget as [ | budget IH]; intros rc w.
  - cbn [Async.withRetry TradeExecutor.withRetry].
    rewrite run_bind, Hattempt. cbn [fst snd].
    destruct (attempt' p t rc w) as [[result | message] w1]; cbn [fst snd];
      [reflexivity | ].
    destruct (rc <? Config.maxRetryAttempts config)%Z; apply run_giveUp.
  - cbn [Async.withRetry TradeExecutor.withRetry].
    rewrite run_bind, Hattempt. cbn [fst snd].
    destruct (attempt' p t rc w) as [[result | message] w1]; cbn [fst snd];
      [reflexivity | ].
    destruct (rc <? Config.maxRetryAttempts config)%Z; [ | apply run_giveUp].
    cbn [Async.run fst snd]. apply IH.
Qed.

Lemma run_executeBuy (p : Position) (t : string) (rc : Z)
    (m : CopyTradingMonitor.t) (w : World) :
  Async.run env (Async.executeBuy config p t rc) (m, w)
  = (fst (TradeExecutor.executeBuy config env p t rc w),
     (m, snd (TradeExecutor.executeBuy config env p t rc w))).
Proof.
  unfold Async.executeBuy, TradeExecutor.executeBuy.
  apply run_withRetry. intros rc' w'. apply run_tryBuy.
Qed.

Lemma run_executeSell (p : Position) (t : string) (rc : Z)
    (m : CopyTradingMonitor.t) (w : World) :
  Async.run env (Async.executeSell config p t rc) (m, w)
  = (fst (TradeExecutor.executeSell config env p t rc w),
     (m, snd (TradeExecutor.executeSell config env p t rc w))).
Proof.
  unfold Async.executeSell, TradeExecutor.executeSell.
  apply run_withRetry. intros rc' w'. apply run_trySell.
Qed.

End WithConfig.

End AsyncAlone.

Section AsyncUpdate.
Context `{NumberOps}.
Variable env : Env.

(** The monitor and the world in the middle of the loops of a call that
    runs alone, from the state of the loops of
    [CopyTradingMonitor.handleStatusUpdate]. *)
Lemma run_buys (m : CopyTradingMonitor.t) (t : string)
    (positions : list Position) :
  let executor := TradeExecutor.constructor m.(CopyTradingMonitor.config) in
  let stored := JSMap.get m.(CopyTradingMonitor.executedPositions) t in
  let isStored := match stored with Some _ => true | None => false end in
  let during (l : CopyTradingMonitor.Loop) : Async.State :=
    (CopyTradingMonitor.mk
       m.(CopyTradingMonitor.config) (CopyTradingMonitor.counters l)
       (match stored with
        | Some _ =>
            JSMap.set m.(CopyTradingMonitor.executedPositions) t
                      (CopyTradingMonitor.executed l)
        | None => m.(CopyTradingMonitor.executedPositions)
        end)
       m.(CopyTradingMonitor.targetPositions),
     CopyTradingMonitor.world l) in
  forall l,
    Async.run env
      (Async.forEach positions (Async.buyStep executor t isStored)
                     (CopyTradingMonitor.executions l))
      (during l)
    = (CopyTradingMonitor.executions
         (fold_left (CopyTradingMonitor.buyStep env executor t) positions l),
       during (fold_left (CopyTradingMonitor.buyStep env executor t)
                         positions l)).
Proof.
  intros executor stored isStored during.
  induction positions as [ | p positions IH]; intros l; [reflexivity | ].
  cbn [Async.forEach fold_left]. rewrite run_bind.
  assert (Hstep :
            Async.run env
              (Async.buyStep executor t isStored
                             (CopyTradingMonitor.executions l) p)
              (during l)
            = (CopyTradingMonitor.executions
                 (CopyTradingMonitor.buyStep env executor t l p),
               during (CopyTradingMonitor.buyStep env executor t l p))).
  { unfold Async.buyStep, CopyTradingMonitor.buyStep.
    rewrite run_bind. unfold during. rewrite run_executeBuy.
    cbn [fst snd].
    destruct (TradeExecutor.executeBuy executor env p t 0
                (CopyTradingMonitor.world l)) as [r w1]. cbn [fst snd].
    destruct (success r); unfold isStored; destruct stored;
      simpl; rewrite ?JSMapFacts.get_set_same, ?set_set_same; reflexivity. }
  rewrite Hstep. cbn [fst snd]. apply IH.
Qed.

Lemma run_sells (m : CopyTradingMonitor.t) (t : string)
    (positions : list Position) :
  let executor := TradeExecutor.constructor m.(CopyTradingMonitor.config) in
  let stored := JSMap.get m.(CopyTradingMonitor.executedPositions) t in
  let isStored := match stored with Some _ => true | None => false end in
  let during (l : CopyTradingMonitor.Loop) : Async.State :=
    (CopyTradingMonitor.mk
       m.(CopyTradingMonitor.config) (CopyTradingMonitor.counters l)
       (match stored with
        | Some _ =>
            JSMap.set m.(CopyTradingMonitor.executedPositions) t
                      (CopyTradingMonitor.executed l)
        | None => m.(CopyTradingMonitor.executedPositions)
        end)
       m.(CopyTradingMonitor.targetPositions),
     CopyTradingMonitor.world l) in
  forall l,
    Async.run env
      (Async.forEach positions (Async.sellStep executor t isStored)
                     (CopyTradingMonitor.executions l))
      (during l)
    = (CopyTradingMonitor.executions
         (fold_left (CopyTradingMonitor.sellStep env executor t) positions l),
       during (fold_left (CopyTradingMonitor.sellStep env executor t)
                         positions l)).
Proof.
  intros executor stored isStored during.
  induction positions as [ | p positions IH]; intros l; [reflexivity | ].
  cbn [Async.forEach fold_left]. rewrite run_bind.
  assert (Hstep :
            Async.run env
              (Async.sellStep executor t isStored
                              (CopyTradingMonitor.executions l) p)
              (during l)
            = (CopyTradingMonitor.executions
                 (CopyTradingMonitor.sellStep env executor t l p),
               during (CopyTradingMonitor.sellStep env executor t l p))).
  { unfold Async.sellStep, CopyTradingMonitor.sellStep.
    rewrite run_bind. unfold during. rewrite run_executeSell.
    cbn [fst snd].
    destruct (TradeExecutor.executeSell executor env p t 0
                (CopyTradingMonitor.world l)) as [r w1]. cbn [fst snd].
    destruct (success r); unfold isStored; destruct stored;
      simpl; rewrite ?JSMapFacts.get_set_same, ?set_set_same; reflexivity. }
  rewrite Hstep. cbn [fst snd]. apply IH.
Qed.

(** A call of [handleStatusUpdate] that runs alone, every answer given
    when it is awaited, does what [CopyTradingMonitor.handleStatusUpdate]
    says. *)
Lemma run_handleStatusUpdate (m : CopyTradingMonitor.t) (w : World)
    (status : TradingStatus) (t : string) :
  Async.run env (Async.handleStatusUpdate status t) (m, w)
  = (snd (CopyTradingMonitor.handleStatusUpdate env m w status t),
     fst (CopyTradingMonitor.handleStatusUpdate env m w status t)).
Proof.
  unfold Async.handleStatusUpdate, CopyTradingMonitor.handleStatusUpdate.
  cbn [Async.getMonitor Async.bind Async.run fst snd].
  set (executor := TradeExecutor.constructor m.(CopyTradingMonitor.config)).
  set (stored := JSMap.get m.(CopyTradingMonitor.executedPositions) t).
  set (current := CopyTradingMonitor.currentPositionsOf status).
  set (news := CopyTradingMonitor.newPositionsOf _ _ _).
  set (closed := CopyTradingMonitor.closedPositionsOf _ _ _).
  set (l0 := CopyTradingMonitor.mkLoop (TradeExecutor.orDefault stored _)
                                       m.(CopyTradingMonitor.stats) w []).
  assert (Hstart :
            (m, w)
            = (CopyTradingMonitor.mk
                 m.(CopyTradingMonitor.config) (CopyTradingMonitor.counters l0)
                 (match stored with
                  | Some _ =>
                      JSMap.set m.(CopyTradingMonitor.executedPositions) t
                                (CopyTradingMonitor.executed l0)
                  | None => m.(CopyTradingMonitor.executedPositions)
                  end)
                 m.(CopyTradingMonitor.targetPositions),
               CopyTradingMonitor.world l0)).
  { unfold l0. simpl. destruct stored as [s0 | ] eqn:Hstored; simpl.
    - unfold stored in Hstored. rewrite (set_get_same _ _ _ Hstored).
      now destruct m.
    - now destruct m. }
  rewrite Hstart at 1.
  change (@nil CopyTradingMonitor.Execution)
    with (CopyTradingMonitor.executions l0) at 1.
  rewrite run_bind.
  pose proof (run_buys m t news l0) as Hbuys. cbv zeta in Hbuys.
  fold executor stored in Hbuys. rewrite Hbuys. cbn [fst snd].
  rewrite run_bind.
  pose proof (run_sells m t closed
                (fold_left (CopyTradingMonitor.buyStep env executor t)
                           news l0)) as Hsells.
  cbv zeta in Hsells. fold executor stored in Hsells.
  rewrite Hsells. cbn [fst snd]. reflexivity.
Qed.

(** The steps of a call, when no other call runs, make what the call
    makes with every answer given at once. *)
Lemma settle_alone {A : Type} (t : Async.Task A) :
  forall s,
    exists n,
      fold_left
        (fun (now : Async.Task A * Async.State) (_ : unit) =>
           Async.settle env (fst now) (snd now))
        (repeat tt n) (Async.advance t s)
      = (Async.Return (fst (Async.run env t s)), snd (Async.run env t s)).
Proof.
  induction t as [a | k IH | g k IH | pid tr side k IH | d k IH | k IH
                  | index order k IH | ms k IH]; intros s.
  - exists 0. reflexivity.
  - simpl. apply IH.
  - simpl. apply IH.
  - simpl.
    destruct (TradeModel.findOne env pid tr side (snd s)) as [found w] eqn:Hf.
    destruct (IH found (fst s, w)) as [n Hn].
    exists (S n). simpl. rewrite Hf. exact Hn.
  - simpl. destruct (TradeModel.save env d (snd s)) as [saved w] eqn:Hs.
    destruct (IH saved (fst s, w)) as [n Hn].
    exists (S n). simpl. rewrite Hs. exact Hn.
  - simpl. destruct (IH (env.(deriveApiKey) (snd s).(keyCalls))
                        (fst s, countKeyCall (snd s))) as [n Hn].
    exists (S n). exact Hn.
  - simpl. destruct (IH (env.(postOrder) index order) s) as [n Hn].
    exists (S n). exact Hn.
  - simpl. destruct (IH (fst s, setTimeout (snd s) ms)) as [n Hn].
    exists (S n). exact Hn.
Qed.

Lemma schedule_settle (n : nat) :
  forall (call : Async.Task (list CopyTradingMonitor.Execution))
         (s : Async.State),
    Async.schedule env (repeat (Async.Settle 0) n) (s, [call])
    = (snd (fold_left
              (fun (now : Async.Task _ * Async.State) (_ : unit) =>
                 Async.settle env (fst now) (snd now))
              (repeat tt n) (call, s)),
       [fst (fold_left
               (fun (now : Async.Task _ * Async.State) (_ : unit) =>
                  Async.settle env (fst now) (snd now))
               (repeat tt n) (call, s))]).
Proof.
  induction n as [ | n IH]; intros call s; [reflexivity | ].
  simpl repeat. unfold Async.schedule. cbn [fold_left]. 
  unfold Async.step at 2. cbn [nth_error fst snd].
  destruct (Async.settle env call s) as [call' s'] eqn:Hsettle.
  cbn [Async.replace]. apply IH.
Qed.

(** An update that is delivered to an enabled monitor while no call
    runs, and whose call has returned before anything else happens, does
    what [CopyTradingMonitor.handleStatusUpdate] says. *)
Lemma alone_is_sequential (m : CopyTradingMonitor.t) (w : World)
    (status : TradingStatus) (t : string) :
  m.(CopyTradingMonitor.config).(CopyTradingConfig.enabled) = true ->
  exists n,
    Async.schedule env (Async.Deliver status t :: repeat (Async.Settle 0) n)
                   ((m, w), [])
    = (fst (CopyTradingMonitor.handleStatusUpdate env m w status t),
       [Async.Return
          (snd (CopyTradingMonitor.handleStatusUpdate env m w status t))]).
Proof.
  intros Henabled.
  destruct (settle_alone (Async.handleStatusUpdate status t) (m, w))
    as [n Hn].
  exists n. unfold Async.schedule. cbn [fold_left].
  unfold Async.step at 2. cbn [fst]. rewrite Henabled.
  destruct (Async.advance (Async.handleStatusUpdate status t) (m, w))
    as [call s] eqn:Hadvance.
  cbn [app]. fold (Async.schedule env (repeat (Async.Settle 0) n) (s, [call])).
  rewrite schedule_settle, Hn, run_handleStatusUpdate. reflexivity.
Qed.

End AsyncUpdate.

Section AsyncSequence.
Context `{NumberOps}.
Variable env : Env.

Lemma schedule_app (first second : list Async.Action)
    (now : Async.State * Async.Calls) :
  Async.schedule env (first ++ second) now
  = Async.schedule env second (Async.schedule env first now).
Proof. unfold Async.schedule. apply fold_left_app. Qed.

Lemma replace_last {A : Type} (a b : A) (l : list A) :
  Async.replace (List.length l) b (l ++ [a]) = l ++ [b].
Proof. induction l as [ | c l IH]; simpl; [reflexivity | now rewrite IH]. Qed.

Lemma nth_error_last {A : Type} (a : A) (l : list A) :
  nth_error (l ++ [a]) (List.length l) = Some a.
Proof. induction l as [ | c l IH]; simpl; [reflexivity | exact IH]. Qed.

Lemma schedule_settle_last (before : Async.Calls) (n : nat) :
  forall (call : Async.Task (list CopyTradingMonitor.Execution))
         (s : Async.State),
    Async.schedule env (repeat (Async.Settle (List.length before)) n)
                   (s, before ++ [call])
    = (snd (fold_left
              (fun (now : Async.Task _ * Async.State) (_ : unit) =>
                 Async.settle env (fst now) (snd now))
              (repeat tt n) (call, s)),
       before
       ++ [fst (fold_left
                  (fun (now : Async.Task _ * Async.State) (_ : unit) =>
                     Async.settle env (fst now) (snd now))
                  (repeat tt n) (call, s))]).
Proof.
  induction n as [ | n IH]; intros call s; [reflexivity | ].
  simpl repeat. unfold Async.schedule. cbn [fold_left].
  unfold Async.step at 2. rewrite nth_error_last. cbn [fst snd].
  destruct (Async.settle env call s) as [call' s'] eqn:Hsettle.
  rewrite replace_last. cbn [fst snd]. apply IH.
Qed.

(** An update delivered to an enabled monitor, whose call returns
    before anything else happens, does what
    [CopyTradingMonitor.handleStatusUpdate] says, whatever calls were
    started before. *)
Lemma one_is_sequential (before : Async.Calls) (m : CopyTradingMonitor.t)
    (w : World) (status : TradingStatus) (t : string) :
  m.(CopyTradingMonitor.config).(CopyTradingConfig.enabled) = true ->
  exists n,
    Async.schedule
      env
      (Async.Deliver status t
       :: repeat (Async.Settle (List.length before)) n)
      ((m, w), before)
    = (fst (CopyTradingMonitor.handleStatusUpdate env m w status t),
       before
       ++ [Async.Return
             (snd (CopyTradingMonitor.handleStatusUpdate env m w status t))]).
Proof.
  intros Henabled.
  destruct (settle_alone env (Async.handleStatusUpdate status t) (m, w))
    as [n Hn].
  exists n. unfold Async.schedule. cbn [fold_left].
  unfold Async.step at 2. cbn [fst]. rewrite Henabled.
  destruct (Async.advance (Async.handleStatusUpdate status t) (m, w))
    as [call s] eqn:Hadvance.
  fold (Async.schedule env (repeat (Async.Settle (List.length before)) n)
                       (s, before ++ [call])).
  rewrite schedule_settle_last, Hn, run_handleStatusUpdate. reflexivity.
Qed.

Lemma handleStatusUpdate_config (m : CopyTradingMonitor.t) (w : World)
    (status : TradingStatus) (t : string) :
  (fst (fst (CopyTradingMonitor.handleStatusUpdate env m w status t)))
    .(CopyTradingMonitor.config)
  = m.(CopyTradingMonitor.config).
Proof. reflexivity. Qed.

(** The updates of a trader handled one at a time do what
    [CopyTradingMonitor.handleStatusUpdates] says: the monitor and the
    world at the end are the same, and the calls return, in order, the
    executions of the updates. *)
Lemma oneAtATime_is_sequential (t : string) (statuses : list TradingStatus) :
  forall (before : Async.Calls) (m : CopyTradingMonitor.t) (w : World),
    m.(CopyTradingMonitor.config).(CopyTradingConfig.enabled) = true ->
    exists (counts : list nat)
           (results : list (list CopyTradingMonitor.Execution)),
      List.length counts = List.length statuses
      /\ List.length results = List.length statuses
      /\ Async.schedule
           env
           (Async.oneAtATime t (List.length before) statuses counts)
           ((m, w), before)
         = (fst (CopyTradingMonitor.handleStatusUpdates env m w statuses t),
            before ++ map (@Async.Return _) results)
      /\ List.concat results
         = snd (CopyTradingMonitor.handleStatusUpdates env m w statuses t).
Proof.
  induction statuses as [ | status rest IH]; intros before m w Henabled.
  - exists [], []. simpl. rewrite app_nil_r. auto.
  - destruct (one_is_sequential before m w status t Henabled) as [n Hone].
    rewrite handleStatusUpdates_cons.
    pose proof (handleStatusUpdate_config m w status t) as Hconfig.
    destruct (CopyTradingMonitor.handleStatusUpdate env m w status t)
      as [[m1 w1] done1] eqn:Hfirst.
    cbn [fst snd] in Hone, Hconfig.
    assert (Henabled1 :
              m1.(CopyTradingMonitor.config).(CopyTradingConfig.enabled)
              = true) by now rewrite Hconfig.
    destruct (IH (before ++ [Async.Return done1]) m1 w1 Henabled1)
      as (counts & results & Hcounts & Hresults & Hrest & Hconcat).
    destruct (CopyTradingMonitor.handleStatusUpdates env m1 w1 rest t)
      as [[m2 w2] done2] eqn:Hlater.
    cbn [fst snd] in Hrest, Hconcat.
    exists (n :: counts), (done1 :: results).
    repeat split.
    + simpl. now rewrite Hcounts.
    + simpl. now rewrite Hresults.
    + cbn [Async.oneAtATime].
      change (Async.Deliver status t
              :: repeat (Async.Settle (List.length before)) n
                 ++ Async.oneAtATime t (S (List.length before)) rest
                                         counts)
        with ((Async.Deliver status t
               :: repeat (Async.Settle (List.length before)) n)
              ++ Async.oneAtATime t (S (List.length before)) rest
                                      counts).
      rewrite schedule_app, Hone.
      replace (List.length (before ++ [Async.Return done1]))
        with (S (List.length before)) in Hrest
        by (rewrite length_app; simpl; lia).
      cbn [fst map]. rewrite <- app_assoc in Hrest. exact Hrest.
    + simpl. now rewrite Hconcat.
Qed.

End AsyncSequence.
